(* ===== verification/_CoqProject ===== *)
-Q . S2P
Prelude.v
GoStrings.v
GoUrl.v
GoTime.v
GoFloat.v
GoNum.v
GoJson.v
MlsFields.v
Payload.v
Listing.v
Config.v
Replica.v
GisData.v
CacheData.v
AccessData.v
Database.v
Queue.v
Worker.v
Replication.v
Upstream.v
GisRepo.v
GisFetch.v
GisQuery.v
GisProxy.v
Caches.v
ParcelSync.v
BoundarySync.v
Fetch.v
BridgeSync.v
SparkSync.v
Mirror.v
Nfhl.v
Fema.v
SyncWorker.v
BridgeWorker.v
SparkWorker.v
Jobs.v
Scheduler.v
SyncLaws.v
Feeds.v
Password.v
Access.v
AuditLog.v
AccessLaws.v
AccessRights.v
MlsClient.v
MirrorQuery.v
Search.v
SearchLaws.v
Proxy.v
ProxyLaws.v
Monitoring.v
Dashboard.v
Routes.v
CompsData.v
CompsMarket.v
CompsGrid.v
CompsEngine.v
