(* ===== verification/Prelude.v ===== *)
(** * Verification of the Quantyra IDX API (Go)

    The program mirrors two MLS feeds (Bridge and Spark) into PostgreSQL, enriches the
    mirror with FEMA flood zones, and serves it to the websites its users register, together
    with a proxy to the feeds, parcels and boundaries, and an analysis of comparables. Its work is a job queue in PostgreSQL: a
    scheduler enqueues jobs, workers reserve and run them, a job may enqueue further jobs and
    batches of jobs whose last member triggers a completion job.

    ** How the model is built

    A Go function that returns [(T, error)] and touches the database is a computation
    [M World T] (this file): the state after it, and [Ok] or [Err], where an error keeps the
    writes done before it. [World] (Database.v) holds the tables as maps, the clock, and the
    number of statements issued so far. Each statement may fail: the class [Faults] says which
    ones do, and theorems hold for every [Faults] unless they ask for [NoFaults]. [tx] runs a
    transaction, which leaves nothing behind when it fails. Where SQL leaves the row order
    open, the classes [Unordered] and [RowOrder] choose it. Go's float64 is the Standard Library's [spec_float]
    with 53 bits (GoFloat.v), its integers are [Z] with their wrap-around where it matters, its
    JSON is the type [json] (GoJson.v). What is not under src/ is a parameter: the number
    formatting of fmt and strconv ([GoFmt], [GoFloatText]), sort.Slice ([SortSlice]) and the
    trigonometry of math ([GoMath]), the OData servers ([Upstream]) and what the proxy asks of them
    ([MlsServer]), PostGIS ([GeoDistance]), the Patroni API and the pings, uuid and secret
    generation, SHA-256 (an argument), Argon2 and bcrypt ([PasswordLib]), DNS ([Resolver]),
    and whether two documents have the same bytes ([SameBytes]). NUMERIC columns hold the
    float64 that was written. A float64 operation rounds once, as on amd64: arm64 may fuse
    a product and a sum.

    ** The files

    - Prelude.v: results, computations, transactions, list and option lemmas, tactics.
    - GoStrings.v, GoUrl.v, GoTime.v, GoFloat.v, GoNum.v, GoJson.v: the Go standard library
      the code uses: strings, url.Parse, calendar and RFC 3339, float64, strconv and
      durations, JSON.
    - MlsFields.v, Payload.v, Listing.v: package mls. Field parsing and normalisation, the
      split of an upstream row into raw data, payload columns and custom fields and its
      inverse, and BuildListingRecord.
    - Config.v: config.Load over an environment.
    - Replica.v: db/replica_selector.go, the choice of a read replica: selection, circuit
      breaker, probe cycle, pools.
    - AccessData.v, Database.v: the tables and the statement semantics.
    - Queue.v, Worker.v: package queue. Queue.v has the operations of queue.go one by one,
      Worker.v the turn of a worker loop and the steps of a fleet of them.
    - Replication.v: the cursor store, staged pages, fetch guard, freshness, kickoff, rate
      limiter, mirror window and purge of package sync.
    - Upstream.v, Fetch.v, BridgeSync.v, SparkSync.v: one page from an OData server.
    - Mirror.v: listing_mirror.go, a chunk of rows written to the listings table.
    - Nfhl.v, Fema.v: package fema, the NFHL client with its circuit breaker, and the
      enrichment chain.
    - SyncWorker.v, BridgeWorker.v, SparkWorker.v: the fetch, persist and finalize handlers;
      SyncLaws.v: how they interact with the queue and the kickoff.
    - GisData.v, GisRepo.v: the GIS tables and package repository/gis. GisFetch.v: the source
      catalog, the ArcGIS client and field extraction. ParcelSync.v, BoundarySync.v: the
      parcel and boundary jobs. GisQuery.v, GisProxy.v: the queries and the request path of
      the GIS endpoint.
    - CacheData.v, Caches.v: the search and closed-listing caches, their purge job, and the
      CoinGecko prices.
    - Jobs.v: the registry of package job, the type of every job, and that no handler leaves
      an ill-typed job behind. Scheduler.v: the cron table, the leader lock, the other
      producers, and a deployment of schedulers and workers as a step relation.
    - Feeds.v: the MLS feed a request gets (service/mls/feed.go) and the live upstream URLs.
    - Password.v: package auth/password, with its base64 and its scanning of stored hashes.
    - Access.v: users, domains, tokens and invitations: every statement of repository/ on
      them, provisioning, the middleware in front of the API (DomainToken) and the forms of
      the dashboard that change accounts. AccessLaws.v: the invariant of those tables under
      all requests; AccessRights.v: what each operation grants and takes away.
    - AuditLog.v: the audit row of a request (service/audit).
    - MlsClient.v: the clients of internal/mlspoxy and the rewriting of image links. Proxy.v:
      the MLS endpoints (handler/bridge) with their cache, and the photo proxy
      (handler/images) with its disk. ProxyLaws.v: their theorems.
    - MirrorQuery.v: what queries of the mirror share. Search.v: package search, its routing,
      the mirror query, the live search; SearchLaws.v: its theorems.
    - Monitoring.v: the statistics of the dashboard and of the API (repository/monitoring.go,
      gis/monitoring.go, sync/stats.go) and the snapshot built of them. Dashboard.v: sessions,
      the keys they show once, the domains page, the seeded administrator. Routes.v: a request of the versioned API
      through its middlewares to its handler, and what the audit log then holds.
    - CompsData.v, CompsMarket.v, CompsGrid.v, CompsEngine.v: package comps. The requests and
      the reading of listings; market statistics and rates; adjustment grids, reconciliation
      and renovation credits; where comparables come from and the modes of the engine.

    ** What the theorems show

    - No job is lost, no two live reservations of a job exist while workers are on time,
      batches complete once, attempts are bounded (Queue.v, Worker.v).
    - What the mirror holds after a chunk, for every row, that a retry converges, that
      columns fit and that map points follow their columns (Listing.v, Mirror.v).
    - Account tables stay consistent whatever fails; nobody passes the gate without a right
      to the domain served; bundles come and go whole, a rotated key replaces the old one, an
      invitation makes one account (AccessLaws.v, AccessRights.v); a new key is shown once and
      the seeded administrator can enter (Dashboard.v); a stored hash verifies its
      password (Password.v).
    - Paging a search of the mirror gives every match once; which server and which credential
      a request uses; a cached answer is the answer that was stored (SearchLaws.v, ProxyLaws.v).
    - Every fetched row is written by exactly one chunk job, the finalize job carries the
      plan of its fetch, the high-water mark never moves back, chains do not overlap
      (Replication.v, SyncWorker.v).
    - The flood enrichment ends and visits each stale listing once (Fema.v).
    - Reads go to the least loaded healthy replica, the breaker implements its
      specification, pools are closed once (Replica.v).
    - A refresh leaves exactly the rows of its source, page loops end, what a caller without
      full access sees (ParcelSync.v, BoundarySync.v, GisProxy.v); cached entries live for
      their time (Caches.v).
    - Every job any process of a deployment leaves in the queue has a handler that decodes
      it, and one scheduler leads while no leader loses its connection (Jobs.v, Scheduler.v).
    - A request gets a feed its domain is allowed and, from the comparables engine, sales and
      listings that are comparable; market rates, net adjustments and the confidence stay in
      their bounds (Feeds.v, CompsMarket.v, CompsGrid.v, CompsEngine.v).
    - What does not hold, as theorems about the code as it is: a late worker breaks
      exclusivity, a redelivered child completes its batch early (Worker.v), incremental
      polling is never due, a stuck page or a capped chain stops a dataset (Replication.v,
      SyncLaws.v), incremental paging skips rows, a failed probe is preferred (Replica.v), a
      capped GIS server loses parcels, the GIS tables are never served (ParcelSync.v,
      GisQuery.v), a leader survives the loss of its lock (Scheduler.v), the
      regression needs every feature (CompsMarket.v), a fresh hostname has full access before
      it is verified (AccessRights.v), a live search that is refused is an empty answer and a
      split search cannot be paged (SearchLaws.v), the Spark token is sent to Bridge
      (ProxyLaws.v), the hit rate of the dashboard is always zero (Routes.v).

    ** Bounds and fuel

    [reserveFairFrom] has as fuel the number of queues, which is how often the Go loop runs.
    [flood_chain] (a specification device) has any fuel above the number of stale rows, and
    the theorem says that suffices. The page loop of a boundary layer has as fuel any bound on
    the number of pages ([syncLayer_terminates]). Retry loops of the fetchers recurse on the retry count.

    ** Not modelled

    HTTP transport, HTML pages and navigation, static files, health probes, metrics and logging;
    the wiring in cmd/ and the opening of connection pools. Two statements of one handler read
    one clock; between jobs time passes arbitrarily. A handler is one step of the deployment;
    the finer steps of workers are in Worker.v. Rows of one sort key keep their order from query
    to query. The server's time zone is UTC, and compression is its round trip. *)

From stdpp Require Import gmap strings list sorting.

(** ** Results: a Go [(T, error)] pair whose error is either nil or a message *)

Inductive res (A : Type) : Type :=
| Ok (a : A)
| Err (e : string).
Arguments Ok {A} a.
Arguments Err {A} e.

Definition res_bind {A B} (r : res A) (k : A → res B) : res B :=
  match r with Ok a => k a | Err e => Err e end.

Definition is_ok {A} (r : res A) : bool :=
  match r with Ok _ => true | Err _ => false end.

(** ** Computations: state passing where an error keeps the effects done so far.

    A Go function that mutates a store and returns [(T, error)] becomes
    [S → res T * S]: the writes done before the error stay done. *)

Definition M (S A : Type) : Type := S → res A * S.

Definition ret {S A} (a : A) : M S A := λ s, (Ok a, s).
Definition throw {S A} (e : string) : M S A := λ s, (Err e, s).
Definition bind {S A B} (c : M S A) (k : A → M S B) : M S B :=
  λ s, match c s with
       | (Ok a, s') => k a s'
       | (Err e, s') => (Err e, s')
       end.
(** [_ = f(...)]: the error of the call is dropped, its effects are kept. *)
Definition ignore {S A} (c : M S A) : M S unit :=
  λ s, (Ok tt, snd (c s)).
Definition get {S A} (f : S → A) : M S A := λ s, (Ok (f s), s).
Definition modify {S} (f : S → S) : M S unit := λ s, (Ok tt, f s).

(** [res, err := f()] when the caller goes on after an error. *)
Definition attempt {S A} (c : M S A) : M S (res A) := λ w, (Ok (c w).1, (c w).2).

Definition of_res {S A} (r : res A) : M S A := match r with Ok a => ret a | Err e => throw e end.

Declare Scope go_scope.
Delimit Scope go_scope with go.
Notation "'let*' x := c 'in' k" := (bind c (λ x, k))
  (at level 200, x pattern, c at level 100, k at level 200, right associativity) : go_scope.
Notation "c ;;; k" := (bind c (λ _, k))
  (at level 199, right associativity) : go_scope.
Open Scope go_scope.

(** [for _, x := range l { body }] where the body may return early with an error. *)
Fixpoint for_each {S A} (body : A → M S unit) (l : list A) : M S unit :=
  match l with
  | [] => ret tt
  | x :: r => body x ;;; for_each body r
  end.

Lemma bind_ret_l {S A B} (a : A) (k : A → M S B) s : bind (ret a) k s = k a s.
Proof. reflexivity. Qed.

Lemma bind_ok {S A B} (c : M S A) (k : A → M S B) s a s' :
  c s = (Ok a, s') → bind c k s = k a s'.
Proof. intros H. unfold bind. by rewrite H. Qed.

Lemma bind_err {S A B} (c : M S A) (k : A → M S B) s e s' :
  c s = (Err e, s') → bind c k s = (Err e, s').
Proof. intros H. unfold bind. by rewrite H. Qed.

Lemma bind_inv_ok {S A B} (c : M S A) (k : A → M S B) s b s'' :
  bind c k s = (Ok b, s'') → ∃ a s', c s = (Ok a, s') ∧ k a s' = (Ok b, s'').
Proof. unfold bind. destruct (c s) as [[a|e] s']; intros H; [eauto | done]. Qed.

(** A predicate on states kept by a computation, whatever it returns. *)
Definition preserves {S A} (P : S → Prop) (c : M S A) : Prop :=
  ∀ s, P s → P (snd (c s)).

(** A view of the state a computation leaves as it was, whatever it returns. *)
Definition keeps {S A V} (view : S → V) (c : M S A) : Prop :=
  ∀ s, view (snd (c s)) = view s.

Create HintDb go discriminated.

Section Preserves.
Context {S : Type} (P : S → Prop).

Lemma preserves_ret {A} (a : A) : preserves P (ret a).
Proof. by intros s. Qed.
Lemma preserves_throw {A} e : preserves P (@throw S A e).
Proof. by intros s. Qed.
Lemma preserves_get {A} (f : S → A) : preserves P (get f).
Proof. by intros s. Qed.
Lemma preserves_bind {A B} (c : M S A) (k : A → M S B) :
  preserves P c → (∀ a, preserves P (k a)) → preserves P (bind c k).
Proof.
  intros Hc Hk s Hs. specialize (Hc s Hs). unfold bind.
  destruct (c s) as [[a|e] s']; simpl in *; [by apply Hk | done].
Qed.
Lemma preserves_ignore {A} (c : M S A) : preserves P c → preserves P (ignore c).
Proof. intros Hc s Hs. by apply Hc. Qed.
Lemma preserves_for_each {A} (body : A → M S unit) l :
  (∀ a, preserves P (body a)) → preserves P (for_each body l).
Proof.
  intros Hb. induction l as [|x r IH]; simpl; [apply preserves_ret|].
  apply preserves_bind; auto.
Qed.
End Preserves.

Section Keeps.
Context {S V : Type} (view : S → V).

Lemma keeps_preserves {A} (c : M S A) :
  keeps view c ↔ ∀ v, preserves (λ s, view s = v) c.
Proof.
  split; [intros H v s <-; apply H | intros H s; by apply (H (view s))].
Qed.
Lemma keeps_ret {A} (a : A) : keeps view (ret a).
Proof. by intros s. Qed.
Lemma keeps_throw {A} e : keeps view (@throw S A e).
Proof. by intros s. Qed.
Lemma keeps_get {A} (f : S → A) : keeps view (get f).
Proof. by intros s. Qed.
Lemma keeps_bind {A B} (c : M S A) (k : A → M S B) :
  keeps view c → (∀ a, keeps view (k a)) → keeps view (bind c k).
Proof.
  intros Hc Hk s. specialize (Hc s). unfold bind.
  destruct (c s) as [[a|e] s']; simpl in *; [by rewrite Hk | done].
Qed.
Lemma keeps_ignore {A} (c : M S A) : keeps view c → keeps view (ignore c).
Proof. intros Hc s. apply Hc. Qed.
Lemma keeps_for_each {A} (body : A → M S unit) l :
  (∀ a, keeps view (body a)) → keeps view (for_each body l).
Proof.
  intros Hb. induction l as [|x r IH]; simpl; [apply keeps_ret|].
  apply keeps_bind; auto.
Qed.
End Keeps.

#[export] Hint Resolve keeps_ret keeps_throw keeps_get keeps_bind keeps_ignore keeps_for_each
  preserves_ret preserves_throw preserves_get preserves_bind preserves_ignore
  preserves_for_each : go.

(** [go_step]: run the next bind of a goal whose first computation has a known result. *)
Ltac go_step :=
  match goal with
  | H : ?c ?s = (Ok _, _) |- context [bind ?c _ ?s] => rewrite (bind_ok _ _ _ _ _ H)
  | H : ?c ?s = (Err _, _) |- context [bind ?c _ ?s] => rewrite (bind_err _ _ _ _ _ H)
  end.

(** [case_inv H]: split the conditionals and matches a hypothesis hangs on. *)
Ltac case_inv H :=
  repeat match type of H with
  | context [match ?x with _ => _ end] => destruct x eqn:?; simpl in H; try discriminate H
  end.

(** [keeps_tac]: discharge [keeps view c] by following the binds and the case splits of [c]. *)
Ltac keeps_step :=
  lazymatch goal with
  | |- keeps _ (bind _ _) => apply keeps_bind; [|intros ?]
  | |- keeps _ (ignore _) => apply keeps_ignore
  | |- keeps _ (for_each _ _) => apply keeps_for_each; intros ?
  | |- keeps _ (modify _) => intros ?; reflexivity
  | |- _ => case_match
  end.
Ltac keeps_tac := repeat first [ solve [eauto with go] | keeps_step ].

(** [preserves_tac]: the same for [preserves P c]. *)
Ltac preserves_step :=
  lazymatch goal with
  | |- preserves _ (bind _ _) => apply preserves_bind; [|intros ?]
  | |- preserves _ (ignore _) => apply preserves_ignore
  | |- preserves _ (for_each _ _) => apply preserves_for_each; intros ?
  | |- _ => case_match
  end.
Ltac preserves_tac := repeat first [ solve [eauto with go] | preserves_step ].

(** [zlia]: [lia] with the division equations of [/] and [mod] added. *)
Ltac zlia := Z.to_euclidean_division_equations; lia.

(** ** Lists *)

Lemma filter_keep_all {A} (P : A → Prop) `{!∀ x, Decision (P x)} l : Forall P l → filter P l = l.
Proof. induction 1 as [|x l Hx _ IH]; [done|]. by rewrite filter_cons_True, IH. Qed.

Lemma filter_drop_all {A} (P : A → Prop) `{!∀ x, Decision (P x)} l : Forall (λ x, ¬ P x) l → filter P l = [].
Proof. induction 1 as [|x l Hx _ IH]; [done|]. by rewrite filter_cons_False, IH. Qed.

(** The element of least key, the first one among equals. *)
Fixpoint min_by {A} (key : A → Z) (l : list A) : option A :=
  match l with
  | [] => None
  | x :: r =>
      match min_by key r with
      | None => Some x
      | Some y => if (key y <? key x)%Z then Some y else Some x
      end
  end.

Lemma min_by_None {A} (key : A → Z) (l : list A) : min_by key l = None ↔ l = [].
Proof.
  destruct l as [|x r]; simpl; [done|]. destruct (min_by key r) as [y|]; [|done].
  by destruct (key y <? key x)%Z.
Qed.

Lemma min_by_Some {A} (key : A → Z) (l : list A) x :
  min_by key l = Some x → x ∈ l ∧ ∀ y, y ∈ l → (key x ≤ key y)%Z.
Proof.
  revert x. induction l as [|a r IH]; intros x; simpl; [done|].
  destruct (min_by key r) as [m|] eqn:E.
  - destruct (IH m eq_refl) as [Hin Hle].
    destruct (Z.ltb_spec (key m) (key a)); intros [= <-].
    + split; [set_solver|]. intros y [->|Hy]%elem_of_cons; [lia | by apply Hle].
    + split; [set_solver|]. intros y [->|Hy]%elem_of_cons; [lia|].
      specialize (Hle y Hy). lia.
  - apply min_by_None in E as ->. intros [= <-]. split; [set_solver|].
    intros y ->%list_elem_of_singleton. lia.
Qed.

(** Order-preserving removal of repeats: keeps the first occurrence, as the
    [seen map[string]struct{}] loops of the code do. *)
Fixpoint dedup_from {A} `{Countable A} (seen : gset A) (l : list A) : list A :=
  match l with
  | [] => []
  | x :: r => if decide (x ∈ seen) then dedup_from seen r
              else x :: dedup_from ({[x]} ∪ seen) r
  end.

Section Dedup.
Context {A : Type} `{Countable A}.

Lemma elem_of_dedup_from (l : list A) seen x :
  x ∈ dedup_from seen l ↔ x ∈ l ∧ x ∉ seen.
Proof.
  revert seen. induction l as [|y r IH]; intros seen; simpl; [set_solver|].
  case_decide; [rewrite IH; set_solver|].
  rewrite !elem_of_cons, IH. destruct (decide (x = y)); set_solver.
Qed.

Lemma NoDup_dedup_from (l : list A) seen : NoDup (dedup_from seen l).
Proof.
  revert seen. induction l as [|y r IH]; intros seen; simpl; [constructor|].
  case_decide; [done|]. constructor; [|done].
  rewrite elem_of_dedup_from. set_solver.
Qed.
End Dedup.

(** Splitting into consecutive runs of [n] ([for i := 0; i < len; i += n]).
    The fuel is the length of the list, enough when [n > 0]. *)
Fixpoint chunks_fuel {A} (fuel n : nat) (l : list A) : list (list A) :=
  match fuel, l with
  | O, _ | _, [] => []
  | S f, _ => take n l :: chunks_fuel f n (drop n l)
  end.
Definition chunks {A} (n : nat) (l : list A) : list (list A) := chunks_fuel (length l) n l.

Lemma chunks_fuel_concat {A} (fuel n : nat) (l : list A) :
  0 < n → length l ≤ fuel → concat (chunks_fuel fuel n l) = l.
Proof.
  intros Hn. revert l. induction fuel as [|f IH]; intros l Hl.
  - by destruct l; [|simpl in Hl; lia].
  - destruct l as [|x r] eqn:E; [done|]. rewrite <- E in *.
    replace (chunks_fuel (S f) n l) with (take n l :: chunks_fuel f n (drop n l)) by (by subst).
    simpl. rewrite IH; [apply take_drop|]. rewrite length_drop.
    assert (0 < length l) by (subst; simpl; lia). lia.
Qed.

Lemma chunks_concat {A} (n : nat) (l : list A) : 0 < n → concat (chunks n l) = l.
Proof. intros. by apply chunks_fuel_concat. Qed.

Lemma chunks_fuel_bound {A} (fuel n : nat) (l : list A) :
  Forall (λ c, length c ≤ n) (chunks_fuel fuel n l).
Proof.
  revert l. induction fuel as [|f IH]; intros [|x r]; simpl; try constructor; auto.
  rewrite length_take. lia.
Qed.

Lemma chunks_nonempty {A} (fuel n : nat) (l : list A) :
  0 < n → Forall (λ c, c ≠ []) (chunks_fuel fuel n l).
Proof.
  intros Hn. revert l. induction fuel as [|f IH]; intros [|x r]; simpl; constructor; auto.
  by destruct n; [lia|].
Qed.
