(* ===== verification/GoStrings.v ===== *)
(** * The [strings] functions the program calls, on byte strings

    A Go string is a sequence of bytes, here [string] (a list of 8-bit [ascii]).
    Case mapping and white space are those of ASCII: bytes above 127 are left as they are
    (the identifiers the program compares, host names, dataset slugs, field names and
    statuses, are ASCII). *)

From Stdlib Require Import Ascii String.
From stdpp Require Import gmap strings list sorting.
From S2P Require Import Prelude.

Open Scope string_scope.

Definition byte_val (c : ascii) : N := N_of_ascii c.

Definition is_space (c : ascii) : bool :=
  let n := byte_val c in
  ((9 <=? n) && (n <=? 13))%N || (n =? 32)%N.

Definition lower_byte (c : ascii) : ascii :=
  let n := byte_val c in
  if ((65 <=? n) && (n <=? 90))%N then ascii_of_N (n + 32) else c.

Definition upper_byte (c : ascii) : ascii :=
  let n := byte_val c in
  if ((97 <=? n) && (n <=? 122))%N then ascii_of_N (n - 32) else c.

Fixpoint map_string (f : ascii → ascii) (s : string) : string :=
  match s with
  | EmptyString => EmptyString
  | String c r => String (f c) (map_string f r)
  end.

Definition ToLower : string → string := map_string lower_byte.
Definition ToUpper : string → string := map_string upper_byte.

(** Equality under simple case folding (ASCII). *)
Definition EqualFold (a b : string) : bool := bool_decide (ToLower a = ToLower b).

Fixpoint trim_left (p : ascii → bool) (s : string) : string :=
  match s with
  | String c r => if p c then trim_left p r else s
  | EmptyString => EmptyString
  end.

Fixpoint trim_right (p : ascii → bool) (s : string) : string :=
  match s with
  | EmptyString => EmptyString
  | String c r =>
      match trim_right p r with
      | EmptyString => if p c then EmptyString else String c EmptyString
      | r' => String c r'
      end
  end.

Definition TrimSpace (s : string) : string := trim_right is_space (trim_left is_space s).
Definition TrimRightByte (s : string) (c : ascii) : string := trim_right (λ x, bool_decide (x = c)) s.
Definition TrimByte (s : string) (c : ascii) : string :=
  trim_right (λ x, bool_decide (x = c)) (trim_left (λ x, bool_decide (x = c)) s).

Fixpoint HasPrefix (s p : string) : bool :=
  match p, s with
  | EmptyString, _ => true
  | String c p', String d s' => bool_decide (c = d) && HasPrefix s' p'
  | String _ _, EmptyString => false
  end.

Fixpoint drop_bytes (n : nat) (s : string) : string :=
  match n, s with
  | S n', String _ r => drop_bytes n' r
  | _, _ => s
  end.

Fixpoint take_bytes (n : nat) (s : string) : string :=
  match n, s with
  | S n', String c r => String c (take_bytes n' r)
  | _, _ => EmptyString
  end.

(** [len(s) >= len(suf) && s[len(s)-len(suf):] == suf] *)
Definition HasSuffix (s suf : string) : bool :=
  (String.length suf <=? String.length s)%nat &&
  bool_decide (drop_bytes (String.length s - String.length suf) s = suf).

Definition TrimPrefix (s p : string) : string :=
  if HasPrefix s p then drop_bytes (String.length p) s else s.

Definition TrimSuffix (s suf : string) : string :=
  if HasSuffix s suf then take_bytes (String.length s - String.length suf) s else s.

(** Index of the first occurrence, [None] for Go's -1. *)
Fixpoint Index (s sub : string) : option nat :=
  if HasPrefix s sub then Some 0%nat
  else match s with
       | EmptyString => None
       | String _ r => S <$> Index r sub
       end.

Definition Contains (s sub : string) : bool :=
  match Index s sub with Some _ => true | None => false end.

Lemma string_app_nil_r (s : string) : s +:+ EmptyString = s.
Proof. induction s as [|c s IH]; [done|]. exact (f_equal (String c) IH). Qed.

Lemma string_app_assoc (a b c : string) : (a +:+ b) +:+ c = a +:+ (b +:+ c).
Proof. induction a as [|x a IH]; [done|]. exact (f_equal (String x) IH). Qed.

(** [strings.Split(s, sep)] for a one-byte separator: always at least one piece. *)
Fixpoint Split (s : string) (sep : ascii) : list string :=
  match s with
  | EmptyString => [EmptyString]
  | String c r =>
      if bool_decide (c = sep) then EmptyString :: Split r sep
      else match Split r sep with
           | [] => [String c EmptyString]
           | p :: ps => String c p :: ps
           end
  end.

Fixpoint Join (l : list string) (sep : string) : string :=
  match l with
  | [] => EmptyString
  | [x] => x
  | x :: r => x +:+ sep +:+ Join r sep
  end.

(** [strings.ReplaceAll(s, old, new)] for a one-byte [old]. *)
Fixpoint ReplaceByte (s : string) (old : ascii) (new : string) : string :=
  match s with
  | EmptyString => EmptyString
  | String c r =>
      if bool_decide (c = old) then new +:+ ReplaceByte r old new
      else String c (ReplaceByte r old new)
  end.

(** [strings.ReplaceAll(s, old, new)] for a non-empty [old]; the length of the text is
    enough fuel, as every turn takes a byte or more. *)
Fixpoint replace_fuel (fuel : nat) (s old new : string) : string :=
  match fuel, s with
  | S fuel, String c r =>
      if HasPrefix s old then new +:+ replace_fuel fuel (drop_bytes (String.length old) s) old new
      else String c (replace_fuel fuel r old new)
  | _, _ => s
  end.
Definition ReplaceAll (s old new : string) : string := replace_fuel (String.length s) s old new.

(** The characters of a UTF-8 text are its bytes that continue no other. *)
Fixpoint char_count (s : string) : Z :=
  match s with
  | EmptyString => 0
  | String c r => (if ((128 <=? byte_val c) && (byte_val c <? 192))%N then 0 else 1) + char_count r
  end%Z.
(** Whether a [VARCHAR(n)] or [CHAR(n)] column takes a text. *)
Definition char_fits (n : Z) (s : string) : bool := (char_count s <=? n)%Z.

(** The order of [sort.Strings]: bytewise lexicographic. *)
Fixpoint str_leb (a b : string) : bool :=
  match a, b with
  | EmptyString, _ => true
  | String _ _, EmptyString => false
  | String c a', String d b' =>
      if (byte_val c <? byte_val d)%N then true
      else if (byte_val d <? byte_val c)%N then false
      else str_leb a' b'
  end.
Definition str_le (a b : string) : Prop := str_leb a b = true.
#[export] Instance str_le_dec : RelDecision str_le.
Proof. intros a b. unfold str_le. apply _. Defined.

Definition sort_strings (l : list string) : list string := merge_sort str_le l.

(** ** Laws *)

Lemma map_string_idemp f s : (∀ c, f (f c) = f c) → map_string f (map_string f s) = map_string f s.
Proof. intros Hf. induction s as [|c r IH]; simpl; [done|]. by rewrite Hf, IH. Qed.

Lemma lower_byte_idemp c : lower_byte (lower_byte c) = lower_byte c.
Proof. destruct c as [[] [] [] [] [] [] [] []]; reflexivity. Qed.

Lemma lower_byte_space c : is_space (lower_byte c) = is_space c.
Proof. destruct c as [[] [] [] [] [] [] [] []]; reflexivity. Qed.

Lemma ToLower_idemp s : ToLower (ToLower s) = ToLower s.
Proof. apply map_string_idemp, lower_byte_idemp. Qed.

Lemma ToLower_app a b : ToLower (a +:+ b) = ToLower a +:+ ToLower b.
Proof. unfold ToLower. induction a as [|c r IH]; simpl; [done|]. by rewrite IH. Qed.

Lemma EqualFold_refl s : EqualFold s s = true.
Proof. by apply bool_decide_eq_true. Qed.

Lemma EqualFold_sym a b : EqualFold a b = EqualFold b a.
Proof. unfold EqualFold. by apply bool_decide_ext. Qed.

Lemma EqualFold_ToLower_l a b : EqualFold (ToLower a) b = EqualFold a b.
Proof. unfold EqualFold. by rewrite ToLower_idemp. Qed.

Lemma trim_left_idemp p s : trim_left p (trim_left p s) = trim_left p s.
Proof.
  induction s as [|c r IH]; simpl; [done|]. destruct (p c) eqn:E; [done|].
  simpl. by rewrite E.
Qed.

Lemma trim_right_idemp p s : trim_right p (trim_right p s) = trim_right p s.
Proof.
  induction s as [|c r IH]; simpl; [done|].
  destruct (trim_right p r) as [|d r'] eqn:E.
  - destruct (p c) eqn:Ec; simpl; [done|]. by rewrite Ec.
  - cbn [trim_right] in *. by rewrite IH.
Qed.

Lemma trim_left_right_comm p s : trim_left p (trim_right p s) = trim_right p (trim_left p s).
Proof.
  induction s as [|c r IH]; [done|]. cbn [trim_left trim_right].
  destruct (trim_right p r) as [|d r'] eqn:E; destruct (p c) eqn:Ec.
  - exact IH.
  - cbn [trim_left trim_right]. by rewrite E, Ec.
  - cbn [trim_left]. rewrite Ec. exact IH.
  - cbn [trim_left trim_right]. by rewrite Ec, E.
Qed.

Lemma TrimSpace_idemp s : TrimSpace (TrimSpace s) = TrimSpace s.
Proof.
  unfold TrimSpace. rewrite trim_left_right_comm, trim_left_idemp.
  by rewrite trim_right_idemp.
Qed.

Lemma trim_left_map p f s : (∀ c, p (f c) = p c) →
  trim_left p (map_string f s) = map_string f (trim_left p s).
Proof.
  intros Hp. induction s as [|c r IH]; [done|]. cbn [trim_left map_string].
  rewrite Hp. destruct (p c); [done|reflexivity].
Qed.

Lemma trim_right_map p f s : (∀ c, p (f c) = p c) →
  trim_right p (map_string f s) = map_string f (trim_right p s).
Proof.
  intros Hp. induction s as [|c r IH]; [done|]. cbn [trim_right map_string].
  rewrite IH, Hp. destruct (trim_right p r); cbn [map_string]; [|done]. by destruct (p c).
Qed.

(** Trimming and lowering commute: the code applies them in both orders. *)
Lemma TrimSpace_ToLower s : TrimSpace (ToLower s) = ToLower (TrimSpace s).
Proof.
  unfold TrimSpace, ToLower.
  by rewrite trim_left_map, trim_right_map by apply lower_byte_space.
Qed.

Lemma app_length_string a b : String.length (a +:+ b) = String.length a + String.length b.
Proof. induction a as [|c r IH]; simpl; [done|]. by rewrite IH. Qed.

Lemma HasPrefix_app p s : HasPrefix (p +:+ s) p = true.
Proof. induction p as [|c r IH]; simpl; [by destruct s|]. by rewrite bool_decide_true. Qed.

Lemma drop_bytes_app p s : drop_bytes (String.length p) (p +:+ s) = s.
Proof. induction p as [|c r IH]; simpl; [by destruct s|done]. Qed.

Lemma HasPrefix_split p s : HasPrefix s p = true → s = p +:+ drop_bytes (String.length p) s.
Proof.
  revert s. induction p as [|c r IH]; intros s; simpl; [by destruct s|].
  destruct s as [|d s]; [done|]. intros [->%bool_decide_eq_true H]%andb_prop.
  change (String d s = String d (r +:+ drop_bytes (String.length r) s)).
  by rewrite <- (IH s H).
Qed.

Lemma TrimPrefix_app p s : TrimPrefix (p +:+ s) p = s.
Proof. unfold TrimPrefix. by rewrite HasPrefix_app, drop_bytes_app. Qed.

Lemma HasSuffix_app s suf : HasSuffix (s +:+ suf) suf = true.
Proof.
  unfold HasSuffix. rewrite app_length_string.
  replace (String.length s + String.length suf - String.length suf) with (String.length s) by lia.
  rewrite drop_bytes_app. rewrite bool_decide_true by done.
  rewrite andb_true_r. apply Nat.leb_le. lia.
Qed.

#[export] Hint Rewrite ToLower_idemp TrimSpace_idemp TrimPrefix_app HasPrefix_app HasSuffix_app
  EqualFold_refl : go_str.

(** The bytewise order is total and antisymmetric, so [sort.Strings] has one result. *)
Lemma byte_val_inj c d : byte_val c = byte_val d → c = d.
Proof.
  unfold byte_val. intros H. rewrite <- (ascii_N_embedding c), <- (ascii_N_embedding d).
  by rewrite H.
Qed.

#[export] Instance str_le_total : Total str_le.
Proof.
  intros a. induction a as [|c a IH]; intros [|d b]; unfold str_le; simpl; auto.
  destruct (N.ltb_spec (byte_val c) (byte_val d)); auto.
  destruct (N.ltb_spec (byte_val d) (byte_val c)); auto. apply IH.
Qed.

Lemma str_le_refl a : str_le a a.
Proof. by destruct (str_le_total a a). Qed.
#[export] Instance str_le_antisymm : AntiSymm eq str_le.
Proof.
  intros a. induction a as [|c a IH]; intros [|d b]; unfold str_le; simpl; auto; try done.
  destruct (N.ltb_spec (byte_val c) (byte_val d)).
  - destruct (N.ltb_spec (byte_val d) (byte_val c)); [lia|done].
  - destruct (N.ltb_spec (byte_val d) (byte_val c)); [done|].
    intros H1 H2. f_equal; [apply byte_val_inj; lia | by apply IH].
Qed.

#[export] Instance str_le_trans : Transitive str_le.
Proof.
  intros a b d. revert b d. induction a as [|c a IH]; intros [|c2 b] [|c3 d]; unfold str_le; simpl; auto; try done.
  destruct (N.ltb_spec (byte_val c) (byte_val c2)), (N.ltb_spec (byte_val c2) (byte_val c));
  destruct (N.ltb_spec (byte_val c2) (byte_val c3)), (N.ltb_spec (byte_val c3) (byte_val c2));
  destruct (N.ltb_spec (byte_val c) (byte_val c3)), (N.ltb_spec (byte_val c3) (byte_val c));
    intros; try done; try lia. by eapply (IH b d).
Qed.
