(* ===== verification/GoUrl.v ===== *)
(** * The host of a URL: [url.Parse] and [URL.Hostname] of net/url

    Only what decides the host and whether parsing fails; a host in brackets need not be an
    address, as in Go before 1.25.2. *)

From Stdlib Require Import Ascii String.
From stdpp Require Import strings list.
From S2P Require Import Prelude GoStrings.

Open Scope string_scope.

(** [strings.Cut] at a byte, and the cut at its last occurrence. *)
Fixpoint cut_byte (c : ascii) (s : string) : string * option string :=
  match s with
  | EmptyString => (EmptyString, None)
  | String d r => if bool_decide (d = c) then (EmptyString, Some r)
                  else let '(a, b) := cut_byte c r in (String d a, b)
  end.
Fixpoint cut_last (c : ascii) (s : string) : option (string * string) :=
  match s with
  | EmptyString => None
  | String d r => match cut_last c r with
                  | Some (a, b) => Some (String d a, b)
                  | None => if bool_decide (d = c) then Some (EmptyString, r) else None
                  end
  end.

Fixpoint all_bytes (p : ascii → bool) (s : string) : bool :=
  match s with EmptyString => true | String c r => p c && all_bytes p r end.
Fixpoint byte_in (s : string) (c : ascii) : bool :=
  match s with EmptyString => false | String d r => bool_decide (c = d) || byte_in r c end.

Definition is_letter (c : ascii) : bool :=
  let n := byte_val c in ((65 <=? n) && (n <=? 90))%N || ((97 <=? n) && (n <=? 122))%N.
Definition is_num (c : ascii) : bool := let n := byte_val c in ((48 <=? n) && (n <=? 57))%N.
Definition is_ctl (c : ascii) : bool := let n := byte_val c in (n <? 32)%N || (n =? 127)%N.

Definition unhex (c : ascii) : option N :=
  let n := byte_val c in
  if is_num c then Some (n - 48)%N
  else if ((97 <=? n) && (n <=? 102))%N then Some (n - 87)%N
  else if ((65 <=? n) && (n <=? 70))%N then Some (n - 55)%N
  else None.

Inductive url_part := PartPath | PartHost | PartZone.

(** Bytes a host may hold as they are. *)
Definition host_byte (c : ascii) : bool :=
  is_letter c || is_num c || (128 <=? byte_val c)%N || byte_in "-_.~!$&'()*+,;=:[]<>" c || (byte_val c =? 34)%N.

Definition escape_ok (m : url_part) (hi lo : N) : bool :=
  let v := (hi * 16 + lo)%N in
  match m with
  | PartPath => true
  | PartHost => negb (hi <? 8)%N || (v =? 37)%N
  | PartZone => (v =? 37)%N || (v =? 32)%N || host_byte (ascii_of_N v)
  end.

(** [unescape]: [None] is an error. *)
Fixpoint unescape (m : url_part) (s : string) : option string :=
  match s with
  | EmptyString => Some EmptyString
  | String c r =>
      if bool_decide (c = "%"%char) then
        match r with
        | String h (String l r') =>
            hi ← unhex h; lo ← unhex l;
            if escape_ok m hi lo then String (ascii_of_N (hi * 16 + lo)) <$> unescape m r' else None
        | _ => None
        end
      else
        match m with
        | PartPath => String c <$> unescape m r
        | _ => if host_byte c then String c <$> unescape m r else None
        end
  end.

(** The scheme and what follows it: [Some None] without one, [None] when it is missing. *)
Fixpoint getScheme (first : bool) (s : string) : option (option (string * string)) :=
  match s with
  | EmptyString => Some None
  | String c r =>
      let next := match getScheme false r with
                  | Some (Some (a, b)) => Some (Some (String c a, b))
                  | o => o
                  end in
      if is_letter c then next
      else if is_num c || byte_in "+-." c then (if first then Some None else next)
      else if bool_decide (c = ":"%char) then (if first then None else Some (Some (EmptyString, r)))
      else Some None
  end.

Definition validOptionalPort (s : string) : bool :=
  match s with EmptyString => true | String c r => bool_decide (c = ":"%char) && all_bytes is_num r end.

Definition find_zone (s : string) : option (string * string) :=
  i ← Index s "%25"; Some (take_bytes i s, drop_bytes i s).

Definition parseHost (host : string) : option string :=
  if HasPrefix host "[" then
    '(inner, port) ← cut_last "]"%char host;
    if validOptionalPort port then
      match find_zone inner with
      | Some (addr, zone) =>
          a ← unescape PartHost addr; z ← unescape PartZone zone; e ← unescape PartHost (String "]"%char port);
          Some (a +:+ z +:+ e)
      | None => unescape PartHost host
      end
    else None
  else
    match cut_last ":"%char host with
    | Some (_, port) => if validOptionalPort (String ":"%char port) then unescape PartHost host else None
    | None => unescape PartHost host
    end.

Definition user_byte (c : ascii) : bool := is_letter c || is_num c || byte_in "-._:~!$&'()*+,;=%@" c.

Definition parseAuthority (authority : string) : option string :=
  match cut_last "@"%char authority with
  | None => parseHost authority
  | Some (user, host) =>
      h ← parseHost host;
      if all_bytes user_byte user then
        let '(name, pass) := cut_byte ":"%char user in
        _ ← unescape PartPath name; _ ← unescape PartPath (default EmptyString pass); Some h
      else None
  end.

(** The host of [parse]: empty for a URL without authority. *)
Definition parse_host (s : string) : option string :=
  if negb (all_bytes (λ c, negb (is_ctl c)) s) then None
  else if bool_decide (s = "*") then Some EmptyString
  else
    o ← getScheme true s;
    let scheme := bool_decide (is_Some o) in
    let rest := (cut_byte "?"%char (match o with Some (_, r) => r | None => s end)).1 in
    if HasPrefix rest "/" then
      if (scheme || negb (HasPrefix rest "///")) && HasPrefix rest "//" then
        let '(authority, path) := cut_byte "/"%char (drop_bytes 2 rest) in
        h ← parseAuthority authority; _ ← unescape PartPath (default EmptyString path); Some h
      else (_ ← unescape PartPath rest; Some EmptyString)
    else if scheme then Some EmptyString
    else if Contains (cut_byte "/"%char rest).1 ":" then None
    else (_ ← unescape PartPath rest; Some EmptyString).

Definition url_Host (raw : string) : option string :=
  let '(u, frag) := cut_byte "#"%char raw in
  h ← parse_host u; _ ← unescape PartPath (default EmptyString frag); Some h.

Definition Hostname (hostPort : string) : string :=
  let host := match cut_last ":"%char hostPort with
              | Some (h, port) => if validOptionalPort (String ":"%char port) then h else hostPort
              | None => hostPort
              end in
  if HasPrefix host "[" && HasSuffix host "]" then TrimSuffix (TrimPrefix host "[") "]" else host.

Example referer_hosts :
  (λ u, Hostname <$> url_Host u) <$>
    ["https://www.Example.com/homes?x=1#top"; "https://user:pw@a.b:8443/x"; "/relative"; "mailto:a@b"; "http://[::1]:80/"; "http://bad host/"; "http://a/%zz"]
  = [Some "www.Example.com"; Some "a.b"; Some EmptyString; Some EmptyString; Some "::1"; None; None].
Proof. vm_compute. reflexivity. Qed.
