(* ===== verification/GoTime.v ===== *)
(** * [time.Time]: instants, civil dates, RFC 3339 text

    An instant is the number of nanoseconds since 1970-01-01T00:00:00Z (the program only
    compares, adds to and formats instants in UTC). The two layouts the program formats with,
    [time.RFC3339] in UTC and ["2006-01-02T15:04:05Z"], print the same text. *)

From Stdlib Require Import Ascii String.
From stdpp Require Import gmap strings list pretty.
From S2P Require Import Prelude GoStrings.

Open Scope Z_scope.

Definition second : Z := 1000000000.
Definition minute : Z := 60 * second.
Definition hour : Z := 60 * minute.

(** [t.Unix()] *)
Definition unix (t : Z) : Z := t / second.

(** ** Civil dates (proleptic Gregorian calendar) *)

Definition days_from_civil (y m d : Z) : Z :=
  let y' := if m <=? 2 then y - 1 else y in
  let era := y' / 400 in
  let yoe := y' mod 400 in
  let doy := (153 * (if 2 <? m then m - 3 else m + 9) + 2) / 5 + d - 1 in
  let doe := yoe * 365 + yoe / 4 - yoe / 100 + doy in
  era * 146097 + doe - 719468.

(** Month and day from the day of a year that starts on March 1. *)
Definition month_day (doy : Z) : Z * Z :=
  let mp := (5 * doy + 2) / 153 in
  (if mp <? 10 then mp + 3 else mp - 9, doy - (153 * mp + 2) / 5 + 1).

(** Year of era and day of that (March-based) year from the day of a 400-year era, cutting
    off 100-year, 4-year and 1-year cycles. *)
Definition year_day (doe : Z) : Z * Z :=
  let c0 := doe / 36524 in
  let c := c0 - c0 / 4 in
  let d1 := doe - 36524 * c in
  let q := d1 / 1461 in
  let d2 := d1 - 1461 * q in
  let n0 := d2 / 365 in
  let n := n0 - n0 / 4 in
  (100 * c + 4 * q + n, d2 - 365 * n).

Definition civil_of_doe (doe : Z) : Z * Z * Z :=
  let '(yoe, doy) := year_day doe in
  let '(m, d) := month_day doy in
  (yoe + (if m <=? 2 then 1 else 0), m, d).

Definition civil_from_days (z : Z) : Z * Z * Z :=
  let z' := z + 719468 in
  match civil_of_doe (z' mod 146097) with
  | (y, m, d) => (y + (z' / 146097) * 400, m, d)
  end.

Definition is_leap (y : Z) : bool :=
  (y mod 4 =? 0) && (negb (y mod 100 =? 0) || (y mod 400 =? 0)).

Definition days_in (m y : Z) : Z :=
  if m =? 2 then (if is_leap y then 29 else 28)
  else if (m =? 4) || (m =? 6) || (m =? 9) || (m =? 11) then 30 else 31.

(** [time.Date(y, m, d, 0, 0, 0, 0, UTC)] with out-of-range months and days normalised. *)
Definition date (y m d : Z) : Z :=
  let y' := y + (m - 1) / 12 in
  let m' := (m - 1) mod 12 + 1 in
  (days_from_civil y' m' 1 + (d - 1)) * (24 * hour).

(** [t.AddDate(years, months, days)] in UTC. *)
Definition add_date (t years months days : Z) : Z :=
  match civil_from_days (t / (24 * hour)) with
  | (y, m, d) => date (y + years) (m + months) (d + days) + t mod (24 * hour)
  end.

(** ** Formatting *)

Definition digit_char (d : Z) : ascii := ascii_of_N (Z.to_N (48 + d)).

Fixpoint digits (w : nat) (n : Z) : string :=
  match w with
  | O => EmptyString
  | S w' => String (digit_char ((n / 10 ^ Z.of_nat w') mod 10)) (digits w' n)
  end.

Definition fmt_year (y : Z) : string :=
  if y <? 0 then "-" +:+ (if - y <=? 9999 then digits 4 (- y) else pretty (- y))
  else if y <=? 9999 then digits 4 y else pretty y.

(** [t.UTC().Format("2006-01-02T15:04:05Z")], and [Format(time.RFC3339)]. *)
Definition format_rfc3339 (t : Z) : string :=
  let sod := (t / second) mod 86400 in
  match civil_from_days ((t / second) / 86400) with
  | (y, m, d) =>
      fmt_year y +:+ "-" +:+ digits 2 m +:+ "-" +:+ digits 2 d +:+ "T" +:+
      digits 2 (sod / 3600) +:+ ":" +:+ digits 2 (sod / 60 mod 60) +:+ ":" +:+
      digits 2 (sod mod 60) +:+ "Z"
  end.

(** ** Parsing: [time.Parse(time.RFC3339, s)]

    A fraction after the seconds is accepted though the layout has none, and a one-digit
    hour too, as [time.Parse] does. *)

Definition digit_val (c : ascii) : option Z :=
  let n := Z.of_N (byte_val c) in
  if (48 <=? n) && (n <=? 57) then Some (n - 48) else None.

(** [w] digits, the value so far in [acc]. *)
Fixpoint take_num (w : nat) (acc : Z) (s : string) : option (Z * string) :=
  match w with
  | O => Some (acc, s)
  | S w' =>
      match s with
      | String c r => d ← digit_val c; take_num w' (acc * 10 + d) r
      | EmptyString => None
      end
  end.

Definition take_byte (c : ascii) (s : string) : option string :=
  match s with
  | String d r => if bool_decide (c = d) then Some r else None
  | EmptyString => None
  end.

(** Hours: one or two digits. *)
Definition take_hour (s : string) : option (Z * string) :=
  match take_num 2 0 s with
  | Some p => Some p
  | None => take_num 1 0 s
  end.

(** The digits of a fraction: the first nine count, as nanoseconds. *)
Fixpoint take_frac (w : nat) (acc : Z) (s : string) : Z * string :=
  match s with
  | String c r =>
      match digit_val c with
      | Some d => match w with
                  | O => take_frac O acc r
                  | S w' => take_frac w' (acc + d * 10 ^ Z.of_nat w') r
                  end
      | None => (acc, s)
      end
  | EmptyString => (acc, s)
  end.

Definition take_opt_frac (s : string) : Z * string :=
  match s with
  | String c (String d _ as r) =>
      if (bool_decide (c = "."%char) || bool_decide (c = ","%char)) &&
         match digit_val d with Some _ => true | None => false end
      then take_frac 9 0 r else (0, s)
  | _ => (0, s)
  end.

(** The zone offset in seconds east of UTC. *)
Definition take_zone (s : string) : option (Z * string) :=
  match s with
  | String "Z" r => Some (0, r)
  | String c r =>
      sign ← (if bool_decide (c = "+"%char) then Some 1
              else if bool_decide (c = "-"%char) then Some (-1) else None);
      '(hh, r) ← take_num 2 0 r;
      r ← take_byte ":" r;
      '(mm, r) ← take_num 2 0 r;
      if (hh <=? 24) && (mm <=? 60) then Some (sign * (hh * 3600 + mm * 60), r) else None
  | EmptyString => None
  end.

Definition parse_rfc3339 (s : string) : option Z :=
  '(y, s) ← take_num 4 0 s;
  s ← take_byte "-" s;
  '(m, s) ← take_num 2 0 s;
  s ← take_byte "-" s;
  '(d, s) ← take_num 2 0 s;
  s ← take_byte "T" s;
  '(hh, s) ← take_hour s;
  s ← take_byte ":" s;
  '(mi, s) ← take_num 2 0 s;
  s ← take_byte ":" s;
  '(ss, s) ← take_num 2 0 s;
  let '(frac, s) := take_opt_frac s in
  '(off, s) ← take_zone s;
  if bool_decide (s = EmptyString) && (1 <=? m) && (m <=? 12) && (1 <=? d) && (d <=? days_in m y) &&
     (hh <? 24) && (mi <? 60) && (ss <? 60)
  then Some ((days_from_civil y m d * 86400 + hh * 3600 + mi * 60 + ss - off) * second + frac)
  else None.

(** [time.Parse("2006-01-02", s)] *)
Definition parse_date_only (s : string) : option Z :=
  '(y, s) ← take_num 4 0 s;
  s ← take_byte "-" s;
  '(m, s) ← take_num 2 0 s;
  s ← take_byte "-" s;
  '(d, s) ← take_num 2 0 s;
  if bool_decide (s = EmptyString) && (1 <=? m) && (m <=? 12) && (1 <=? d) && (d <=? days_in m y)
  then Some (days_from_civil y m d * 86400 * second) else None.

(** [time.Parse("2006-01-02T15:04:05", s)]; a fraction is accepted. *)
Definition parse_local_datetime (s : string) : option Z :=
  '(y, s) ← take_num 4 0 s;
  s ← take_byte "-" s;
  '(m, s) ← take_num 2 0 s;
  s ← take_byte "-" s;
  '(d, s) ← take_num 2 0 s;
  s ← take_byte "T" s;
  '(hh, s) ← take_hour s;
  s ← take_byte ":" s;
  '(mi, s) ← take_num 2 0 s;
  s ← take_byte ":" s;
  '(ss, s) ← take_num 2 0 s;
  let '(frac, s) := take_opt_frac s in
  if bool_decide (s = EmptyString) && (1 <=? m) && (m <=? 12) && (1 <=? d) && (d <=? days_in m y) &&
     (hh <? 24) && (mi <? 60) && (ss <? 60)
  then Some ((days_from_civil y m d * 86400 + hh * 3600 + mi * 60 + ss) * second + frac)
  else None.

(** [time.Parse("1/2/2006", s)] *)
Definition parse_us_date (s : string) : option Z :=
  '(m, s) ← take_hour s;
  s ← take_byte "/" s;
  '(d, s) ← take_hour s;
  s ← take_byte "/" s;
  '(y, s) ← take_num 4 0 s;
  if bool_decide (s = EmptyString) && (1 <=? m) && (m <=? 12) && (1 <=? d) && (d <=? days_in m y)
  then Some (days_from_civil y m d * 86400 * second) else None.

(** ** The calendar is exact: every day number is the day number of its civil date. *)

Fixpoint check_days (n : nat) (doe : Z) (f : Z → bool) : bool :=
  match n with
  | O => true
  | S n' => f doe && check_days n' (doe + 1) f
  end.

Lemma check_days_spec n f doe : check_days n doe f = true →
  ∀ x, doe <= x < doe + Z.of_nat n → f x = true.
Proof.
  revert doe. induction n as [|n IH]; intros doe; [lia|].
  cbn [check_days]. intros [H1 H2]%andb_prop x Hx.
  destruct (decide (x = doe)) as [->|]; [done|]. apply (IH (doe + 1)); [done|lia].
Qed.

Definition month_day_ok (doy : Z) : bool :=
  let '(m, d) := month_day doy in
  ((153 * (if 2 <? m then m - 3 else m + 9) + 2) / 5 + d - 1 =? doy) &&
  (1 <=? m) && (m <=? 12) && (1 <=? d) &&
  (if (m =? 2) && (d =? 29) then doy =? 365 else d <=? days_in m 1).

Lemma month_day_spec doy m d :
  0 <= doy <= 365 → month_day doy = (m, d) →
  (153 * (if 2 <? m then m - 3 else m + 9) + 2) / 5 + d - 1 = doy ∧ 1 <= m <= 12 ∧ 1 <= d ∧
  ((m = 2 ∧ d = 29 ∧ doy = 365) ∨ d <= days_in m 1).
Proof.
  intros H E.
  assert (Hok : month_day_ok doy = true).
  { apply (check_days_spec 366 month_day_ok 0); [reflexivity|lia]. }
  unfold month_day_ok in Hok. rewrite E in Hok.
  destruct ((m =? 2) && (d =? 29)) eqn:E29; lia.
Qed.

(** Cutting a cycle of four periods whose last one is a day longer. *)
Lemma cut_cycle p d :
  1 < p → 0 <= d <= 4 * p →
  0 <= d / p - d / p / 4 <= 3 ∧ 0 <= d - p * (d / p - d / p / 4) <= p ∧
  (d - p * (d / p - d / p / 4) = p → d / p - d / p / 4 = 3 ∧ d = 4 * p).
Proof.
  intros Hp Hd. pose proof (Z.div_mod d p ltac:(lia)). pose proof (Z.mod_pos_bound d p ltac:(lia)).
  assert (Hq : 0 <= d / p <= 4) by nia.
  destruct (decide (d / p = 4)) as [E|]; [rewrite E in *; change (4 / 4) with 1; lia|].
  rewrite (Z.div_small (d / p) 4) by lia. nia.
Qed.

Lemma year_day_spec doe yoe doy :
  0 <= doe < 146097 → year_day doe = (yoe, doy) →
  doe = yoe * 365 + yoe / 4 - yoe / 100 + doy ∧ 0 <= yoe < 400 ∧ 0 <= doy <= 365 ∧
  (doy = 365 → is_leap (yoe + 1) = true).
Proof.
  unfold year_day. intros H.
  destruct (cut_cycle 36524 doe) as (Hc & Hd1 & Hc3); [lia..|].
  set (c := doe / 36524 - doe / 36524 / 4) in *. set (d1 := doe - 36524 * c) in *.
  assert (doe = 36524 * c + d1) by lia. clearbody c d1.
  set (q := d1 / 1461). set (d2 := d1 - 1461 * q).
  assert (Hq : 0 <= q <= 24 ∧ 0 <= d2 <= 1460) by (unfold d2, q; clear - Hd1; zlia).
  assert (d1 = 1461 * q + d2) by lia. clearbody q d2.
  destruct (cut_cycle 365 d2) as (Hn & Hd2 & Hn3); [lia..|].
  set (n := d2 / 365 - d2 / 365 / 4) in *.
  intros [= <- <-].
  clearbody n. unfold is_leap.
  assert ((100 * c + 4 * q + n) / 4 = 25 * c + q) as -> by (clear - Hn; zlia).
  assert ((100 * c + 4 * q + n) / 100 = c) as -> by (clear - Hn Hq; zlia).
  split_and!; [lia..|]. intros E.
  destruct Hn3 as [-> ->]; [lia|].
  assert ((100 * c + 4 * q + 3 + 1) mod 4 = 0) as -> by (clear; zlia).
  destruct (decide (q = 24)) as [->|Hq24].
  - destruct Hc3 as [-> _]; [lia|]. reflexivity.
  - assert ((100 * c + 4 * q + 3 + 1) mod 100 = 4 * q + 4) as -> by (clear - Hq Hq24; zlia).
    destruct (Z.eqb_spec (4 * q + 4) 0); [lia|reflexivity].
Qed.

Lemma civil_of_doe_ok doe y m d :
  0 <= doe < 146097 → civil_of_doe doe = (y, m, d) →
  days_from_civil y m d = doe - 719468 ∧ 1 <= m <= 12 ∧ 1 <= d <= days_in m y.
Proof.
  unfold civil_of_doe. intros H.
  destruct (year_day doe) as [yoe doy] eqn:E1. destruct (month_day doy) as [m0 d0] eqn:E2.
  destruct (year_day_spec _ _ _ H E1) as (Hdoe & Hy & Hdoy & Hleap).
  destruct (month_day_spec _ _ _ Hdoy E2) as (Hd & Hm & Hd1 & Hd2). intros [= <- <- <-].
  unfold days_from_civil.
  replace (if m0 <=? 2 then yoe + (if m0 <=? 2 then 1 else 0) - 1
           else yoe + (if m0 <=? 2 then 1 else 0)) with yoe by (destruct (m0 <=? 2); lia).
  rewrite Hd, Z.div_small, Z.mod_small by lia. split_and!; [lia..|].
  destruct Hd2 as [(-> & -> & ->)|Hd2].
  - unfold days_in. simpl. by rewrite Hleap.
  - etrans; [exact Hd2|]. unfold days_in. change (is_leap 1) with false. repeat case_match; lia.
Qed.

Lemma days_from_civil_era y m d k :
  days_from_civil (y + k * 400) m d = days_from_civil y m d + k * 146097.
Proof.
  unfold days_from_civil.
  replace (if m <=? 2 then y + k * 400 - 1 else y + k * 400)
    with ((if m <=? 2 then y - 1 else y) + k * 400) by (destruct (m <=? 2); lia).
  rewrite Z.div_add, Z.mod_add by lia. lia.
Qed.

Lemma days_in_era m y k : days_in m (y + k * 400) = days_in m y.
Proof.
  unfold days_in, is_leap.
  replace (y + k * 400) with (y + (k * 100) * 4) at 1 by lia.
  replace (y + k * 400) with (y + (k * 4) * 100) at 1 by lia.
  by rewrite !Z.mod_add by lia.
Qed.

Lemma civil_from_days_ok z y m d :
  civil_from_days z = (y, m, d) →
  days_from_civil y m d = z ∧ 1 <= m <= 12 ∧ 1 <= d <= days_in m y.
Proof.
  unfold civil_from_days. set (z' := z + 719468).
  destruct (civil_of_doe (z' mod 146097)) as [[y0 m0] d0] eqn:E. intros [= <- <- <-].
  assert (Hr : 0 <= z' mod 146097 < 146097) by (apply Z.mod_pos_bound; lia).
  destruct (civil_of_doe_ok _ _ _ _ Hr E) as (Hok & Hm & Hd).
  rewrite days_from_civil_era, days_in_era.
  pose proof (Z.div_mod z' 146097). lia.
Qed.

(** ** Formatting and parsing agree, to the second *)

Lemma digit_val_char d : 0 <= d < 10 → digit_val (digit_char d) = Some d.
Proof.
  intros H. unfold digit_val, digit_char, byte_val. rewrite N_ascii_embedding by lia.
  rewrite Z2N.id by lia. replace (48 + d - 48) with d by lia.
  by destruct (Z.leb_spec 48 (48 + d)), (Z.leb_spec (48 + d) 57); try lia.
Qed.

Lemma take_num_digits w acc n rest :
  take_num w acc (digits w n +:+ rest) = Some (acc * 10 ^ Z.of_nat w + n mod 10 ^ Z.of_nat w, rest).
Proof.
  revert acc. induction w as [|w IH]; intros acc.
  - simpl. rewrite Z.mod_1_r. do 2 f_equal. lia.
  - cbn [digits]. change (take_num (S w) acc (String (digit_char ((n / 10 ^ Z.of_nat w) mod 10)) (digits w n +:+ rest))
      = Some (acc * 10 ^ Z.of_nat (S w) + n mod 10 ^ Z.of_nat (S w), rest)).
    cbn [take_num]. rewrite digit_val_char by (apply Z.mod_pos_bound; lia). cbn [mbind option_bind].
    rewrite IH. do 2 f_equal.
    rewrite Nat2Z.inj_succ, Z.pow_succ_r by lia.
    rewrite (Z.mul_comm 10 (10 ^ _)), Z.rem_mul_r by lia. lia.
Qed.

Lemma take_num_digits0 w n rest :
  0 <= n < 10 ^ Z.of_nat w → take_num w 0 (digits w n +:+ rest) = Some (n, rest).
Proof. intros H. rewrite take_num_digits, Z.mod_small by done. do 2 f_equal. Qed.

Lemma take_byte_eq c r : take_byte c (String c EmptyString +:+ r) = Some r.
Proof. unfold take_byte. simpl. by rewrite bool_decide_true. Qed.

(** Step over a separator byte and the number after it. *)
Ltac parse_next :=
  cbn [mbind option_bind]; rewrite take_byte_eq; cbn [mbind option_bind];
  rewrite take_num_digits0 by lia.

(** The civil year of an instant. *)
Definition year_of (t : Z) : Z := fst (fst (civil_from_days ((t / second) / 86400))).

Lemma parse_format_rfc3339 t :
  0 <= year_of t <= 9999 → parse_rfc3339 (format_rfc3339 t) = Some (t / second * second).
Proof.
  unfold year_of, format_rfc3339.
  destruct (civil_from_days (t / second / 86400)) as [[y m] d] eqn:E. cbn [fst]. intros Hy.
  destruct (civil_from_days_ok _ _ _ _ E) as (Hd & Hm & Hdd).
  set (sod := (t / second) mod 86400) in *.
  assert (Hsod : 0 <= sod < 86400) by (apply Z.mod_pos_bound; lia).
  assert (Hd31 : days_in m y <= 31) by (unfold days_in; repeat case_match; lia).
  assert (0 <= sod / 3600 < 24) by (split; [apply Z.div_pos|apply Z.div_lt_upper_bound]; lia).
  assert (0 <= (sod / 60) mod 60 < 60) by (apply Z.mod_pos_bound; lia).
  assert (0 <= sod mod 60 < 60) by (apply Z.mod_pos_bound; lia).
  unfold fmt_year. destruct (Z.ltb_spec y 0); [lia|]. destruct (Z.leb_spec y 9999); [|lia].
  unfold parse_rfc3339, take_hour.
  rewrite take_num_digits0 by lia.
  do 5 parse_next.
  cbn -[Z.leb Z.ltb Z.mul days_in days_from_civil second].
  rewrite Hd. subst sod.
  rewrite (bool_decide_true (EmptyString = EmptyString)) by done. cbn [andb].
  replace ((1 <=? m) && (m <=? 12) && (1 <=? d) && (d <=? days_in m y) &&
     ((t / second) mod 86400 / 3600 <? 24) && (((t / second) mod 86400 / 60) mod 60 <? 60) &&
     (((t / second) mod 86400) mod 60 <? 60)) with true by lia.
  f_equal. pose proof (Z.div_mod (t / second) 86400 ltac:(lia)).
  set (u := (t / second) mod 86400) in *.
  pose proof (Z.div_mod u 60 ltac:(lia)). pose proof (Z.div_mod (u / 60) 60 ltac:(lia)).
  assert (u / 3600 = u / 60 / 60) as -> by (rewrite Z.div_div by lia; reflexivity).
  rewrite Z.add_0_r. f_equal. lia.
Qed.

Lemma format_rfc3339_trunc t : format_rfc3339 (t / second * second) = format_rfc3339 t.
Proof. unfold format_rfc3339. by rewrite Z.div_mul. Qed.

Example format_ex : format_rfc3339 1747699200123456789 = "2025-05-20T00:00:00Z"%string.
Proof. vm_compute. reflexivity. Qed.
Example parse_ex : parse_rfc3339 "2025-05-19T20:00:00.5-04:00" = Some 1747699200500000000.
Proof. vm_compute. reflexivity. Qed.
Example add_date_ex : format_rfc3339 (add_date 1748649600000000000 0 (-3) 0) = "2025-03-03T00:00:00Z"%string.
Proof. vm_compute. reflexivity. Qed.
