(* ===== verification/GoFloat.v ===== *)
(** * [float64]: IEEE 754 binary64 as the Standard Library's [spec_float]

    Every operation is the executable, correctly rounded one of [SpecFloat] at precision 53
    and [emax] 1024, so a computation here gives the bits the program computes. *)

From Stdlib Require Import Floats.SpecFloat.
From stdpp Require Import base numbers list sorting.
From S2P Require Import Prelude.

Open Scope Z_scope.

Abbreviation float64 := spec_float.

Declare Scope f64_scope.
Delimit Scope f64_scope with f64.

Definition f_add : float64 → float64 → float64 := SFadd 53 1024.
Definition f_sub : float64 → float64 → float64 := SFsub 53 1024.
Definition f_mul : float64 → float64 → float64 := SFmul 53 1024.
Definition f_div : float64 → float64 → float64 := SFdiv 53 1024.
Definition f_neg : float64 → float64 := SFopp.
(** [float64(n)] for an integer *)
Definition f_of_Z (n : Z) : float64 := binary_normalize 53 1024 n 0 false.
(** The literal [m / 10^k]: correctly rounded while both are below 2^53. *)
Definition f_dec (m : Z) (k : Z) : float64 := f_div (f_of_Z m) (f_of_Z (10 ^ k)).

Definition f_lt : float64 → float64 → bool := SFltb.
Definition f_le : float64 → float64 → bool := SFleb.
Definition f_eq : float64 → float64 → bool := SFeqb.
Definition IsNaN (x : float64) : bool := match x with S754_nan => true | _ => false end.
Definition IsInf (x : float64) : bool := match x with S754_infinity _ => true | _ => false end.
Definition f_zero : float64 := S754_zero false.

Infix "+" := f_add : f64_scope.
Infix "-" := f_sub : f64_scope.
Infix "*" := f_mul : f64_scope.
Infix "/" := f_div : f64_scope.
Infix "<?" := f_lt : f64_scope.
Infix "<=?" := f_le : f64_scope.

(** [math.Round]: nearest integer, halves away from zero; the sign is kept on zero. *)
Definition Round (x : float64) : float64 :=
  match x with
  | S754_finite s m e =>
      if 0 <=? e then x
      else let q := (Z.pos m + 2 ^ (- e - 1)) / 2 ^ (- e) in
           binary_normalize 53 1024 (if s then - q else q) 0 s
  | _ => x
  end.

(** The integer [math.Round] rounds to, for a result below 2^53 in magnitude (exact there). *)
Definition round_Z (x : float64) : Z :=
  match x with
  | S754_finite s m e =>
      let q := if 0 <=? e then Z.pos m * 2 ^ e
               else (Z.pos m + 2 ^ (- e - 1)) / 2 ^ (- e) in
      if s then - q else q
  | _ => 0
  end.

(** The conversion of a float64 with an integral value in range to an integer. *)
Definition f_to_Z (x : float64) : Z :=
  match x with
  | S754_finite s m e =>
      let v := if 0 <=? e then Z.pos m * 2 ^ e else Z.pos m / 2 ^ (- e) in
      if s then - v else v
  | _ => 0
  end.

(** [math.Abs], [math.Max], [math.Min] (NaN wins; +0 above -0). *)
Definition f_abs : float64 → float64 := SFabs.
Definition f_max (x y : float64) : float64 :=
  if IsNaN x || IsNaN y then (if match x with S754_infinity false => true | _ => false end ||
                                 match y with S754_infinity false => true | _ => false end
                              then S754_infinity false else S754_nan)
  else match x, y with
       | S754_zero sx, S754_zero _ => if sx then y else x
       | _, _ => if f_lt y x then x else y
       end.
Definition f_min (x y : float64) : float64 :=
  if IsNaN x || IsNaN y then (if match x with S754_infinity true => true | _ => false end ||
                                 match y with S754_infinity true => true | _ => false end
                              then S754_infinity true else S754_nan)
  else match x, y with
       | S754_zero sx, S754_zero _ => if sx then x else y
       | _, _ => if f_lt x y then x else y
       end.

(** ** The order: a total preorder on the floats that are not NaN

    [f_key] maps a float to a lexicographic key on which [SFcompare] is the usual order. *)

Definition f_key (x : float64) : Z * Z * Z :=
  match x with
  | S754_nan => (0, 0, 0)
  | S754_infinity true => (-2, 0, 0)
  | S754_finite true m e => (-1, - e, Z.neg m)
  | S754_zero _ => (0, 0, 0)
  | S754_finite false m e => (1, e, Z.pos m)
  | S754_infinity false => (2, 0, 0)
  end.

Definition key_cmp (a b : Z * Z * Z) : comparison :=
  match a, b with
  | (a1, a2, a3), (b1, b2, b3) =>
      match a1 ?= b1 with
      | Eq => match a2 ?= b2 with Eq => a3 ?= b3 | c => c end
      | c => c
      end
  end.

Lemma SFcompare_key x y :
  IsNaN x = false → IsNaN y = false → SFcompare x y = Some (key_cmp (f_key x) (f_key y)).
Proof.
  destruct x as [sx|[]| |[] mx ex], y as [sy|[]| |[] my ey]; intros Hx Hy; try done; simpl;
    try reflexivity.
  destruct (Z.compare_spec ex ey), (Z.compare_spec (- ex) (- ey)); try lia; reflexivity.
Qed.

Lemma SFcompare_nan x y : IsNaN x || IsNaN y = true → SFcompare x y = None.
Proof. by destruct x as [|[]| |[]], y as [|[]| |[]]. Qed.

Lemma key_cmp_refl a : key_cmp a a = Eq.
Proof. destruct a as [[a1 a2] a3]. simpl. by rewrite !Z.compare_refl. Qed.

Lemma key_cmp_eq a b : key_cmp a b = Eq ↔ a = b.
Proof.
  split; [|intros ->; apply key_cmp_refl]. destruct a as [[a1 a2] a3], b as [[b1 b2] b3]. simpl.
  destruct (Z.compare_spec a1 b1), (Z.compare_spec a2 b2), (Z.compare_spec a3 b3); try done. by subst.
Qed.

Lemma key_cmp_antisym a b : key_cmp b a = CompOpp (key_cmp a b).
Proof.
  destruct a as [[a1 a2] a3], b as [[b1 b2] b3]. simpl.
  rewrite (Z.compare_antisym a1 b1), (Z.compare_antisym a2 b2), (Z.compare_antisym a3 b3).
  by destruct (a1 ?= b1), (a2 ?= b2), (a3 ?= b3).
Qed.

Lemma key_cmp_trans_le a b c :
  key_cmp a b ≠ Gt → key_cmp b c ≠ Gt → key_cmp a c ≠ Gt.
Proof.
  destruct a as [[a1 a2] a3], b as [[b1 b2] b3], c as [[c1 c2] c3]. simpl.
  destruct (Z.compare_spec a1 b1), (Z.compare_spec b1 c1), (Z.compare_spec a1 c1);
    try lia; try done;
  destruct (Z.compare_spec a2 b2), (Z.compare_spec b2 c2), (Z.compare_spec a2 c2);
    try lia; try done;
  destruct (Z.compare_spec a3 b3), (Z.compare_spec b3 c3), (Z.compare_spec a3 c3);
    try lia; try done.
Qed.

Lemma f_eq_key x y : IsNaN x = false → IsNaN y = false → f_eq x y = bool_decide (f_key x = f_key y).
Proof.
  intros Hx Hy. unfold f_eq, SFeqb. rewrite SFcompare_key by done. destruct (key_cmp_eq (f_key x) (f_key y)) as [H1 H2].
  case_bool_decide as E; [by rewrite (H2 E)|]. destruct (key_cmp _ _); [by destruct E; apply H1|done..].
Qed.

Lemma key_cmp_lt_trans a b c : key_cmp a b = Lt → key_cmp b c = Lt → key_cmp a c = Lt.
Proof.
  intros H1 H2. pose proof (key_cmp_trans_le a b c) as T. rewrite H1, H2 in T.
  destruct (key_cmp a c) eqn:E; [|done|by destruct T].
  apply key_cmp_eq in E as ->. rewrite key_cmp_antisym, H1 in H2. done.
Qed.

Lemma f_lt_key x y :
  f_lt x y = negb (IsNaN x) && negb (IsNaN y) &&
             match key_cmp (f_key x) (f_key y) with Lt => true | _ => false end.
Proof.
  unfold f_lt, SFltb. destruct (IsNaN x) eqn:Ex, (IsNaN y) eqn:Ey;
    try (rewrite SFcompare_nan; [done | by rewrite Ex, ?Ey]).
  by rewrite SFcompare_key.
Qed.

Lemma f_le_key x y :
  f_le x y = negb (IsNaN x) && negb (IsNaN y) &&
             match key_cmp (f_key x) (f_key y) with Gt => false | _ => true end.
Proof.
  unfold f_le, SFleb. destruct (IsNaN x) eqn:Ex, (IsNaN y) eqn:Ey;
    try (rewrite SFcompare_nan; [done | by rewrite Ex, ?Ey]).
  by rewrite SFcompare_key.
Qed.

Lemma f_le_refl x : IsNaN x = false → f_le x x = true.
Proof. intros H. by rewrite f_le_key, H, key_cmp_refl. Qed.

Lemma f_le_trans x y z : f_le x y = true → f_le y z = true → f_le x z = true.
Proof.
  rewrite !f_le_key. intros H1 H2.
  destruct (IsNaN x), (IsNaN y), (IsNaN z); try done. cbn [negb andb] in *.
  pose proof (key_cmp_trans_le (f_key x) (f_key y) (f_key z)) as T.
  destruct (key_cmp (f_key x) (f_key y)), (key_cmp (f_key y) (f_key z)),
    (key_cmp (f_key x) (f_key z)); try done; exfalso; by apply T.
Qed.

(** Not below, and neither side NaN: above or equal. *)
Lemma f_lt_false_le x y :
  IsNaN x = false → IsNaN y = false → f_lt x y = false → f_le y x = true.
Proof.
  intros Hx Hy. rewrite f_lt_key, f_le_key, Hx, Hy, (key_cmp_antisym (f_key x) (f_key y)).
  by destruct (key_cmp (f_key x) (f_key y)).
Qed.

Lemma f_lt_le x y : f_lt x y = true → f_le x y = true.
Proof.
  rewrite f_lt_key, f_le_key. destruct (IsNaN x), (IsNaN y); try done. cbn [negb andb].
  by destruct (key_cmp _ _).
Qed.

Lemma f_lt_nan x y : f_lt x y = true → IsNaN x = false ∧ IsNaN y = false.
Proof. rewrite f_lt_key. by destruct (IsNaN x), (IsNaN y). Qed.

Lemma f_le_nan x y : f_le x y = true → IsNaN x = false ∧ IsNaN y = false.
Proof. rewrite f_le_key. by destruct (IsNaN x), (IsNaN y). Qed.

#[export] Hint Resolve f_le_refl f_lt_le : f64.

(** Two-sided clamping, the shape both [mls.clampRange] and [comps.clamp] have. *)
Lemma clamp_between v lo hi :
  IsNaN v = false → f_le lo hi = true →
  let r := if f_lt v lo then lo else if f_lt hi v then hi else v in
  f_le lo r = true ∧ f_le r hi = true.
Proof.
  intros Hv Hlh. destruct (f_le_nan _ _ Hlh) as [Hlo Hhi]. simpl.
  destruct (f_lt v lo) eqn:E1; [by auto with f64|].
  destruct (f_lt hi v) eqn:E2; [by auto with f64|].
  split; by apply f_lt_false_le.
Qed.

(** ** Well-formed floats and the range of rounding *)

(** A float64: the canonical representation, at most 53 bits of mantissa. *)
Definition f_wf (x : float64) : Prop := valid_binary 53 1024 x = true.

Lemma digits2_pos_bound m : Z.pos m < 2 ^ Z.pos (digits2_pos m).
Proof.
  induction m as [p IH|p IH|]; simpl digits2_pos; [| |done];
    rewrite Pos2Z.inj_succ, Z.pow_succ_r by done; lia.
Qed.

Lemma f_wf_mantissa s m e : f_wf (S754_finite s m e) → Z.pos m < 2 ^ 53.
Proof.
  unfold f_wf, valid_binary, bounded, canonical_mantissa, fexp, emin.
  intros [H _]%andb_prop. apply Zbool.Zeq_bool_eq in H.
  pose proof (digits2_pos_bound m).
  assert (2 ^ Z.pos (digits2_pos m) ≤ 2 ^ 53) by (apply Z.pow_le_mono_r; lia). lia.
Qed.

(** Rounding halves up: [m / 2^k] to the nearest integer stays below an integer bound. *)
Lemma round_half_bound m k b : 0 < k → 0 ≤ m ≤ b * 2 ^ k → (m + 2 ^ (k - 1)) / 2 ^ k ≤ b.
Proof.
  intros Hk Hm.
  assert (E : 2 ^ k = 2 * 2 ^ (k - 1))
    by (rewrite <- Z.pow_succ_r by lia; f_equal; lia).
  assert (0 < 2 ^ (k - 1)) by (apply Z.pow_pos_nonneg; lia).
  assert ((m + 2 ^ (k - 1)) / 2 ^ k < b + 1); [|lia].
  apply Z.div_lt_upper_bound; nia.
Qed.

Lemma f_lt_pos_false mc ec m e :
  f_lt (S754_finite false mc ec) (S754_finite false m e) = false →
  e < ec ∨ e = ec ∧ Z.pos m ≤ Z.pos mc.
Proof.
  rewrite f_lt_key. simpl. destruct (Z.compare_spec ec e); [|done|lia]. intros H'. right.
  split; [done|]. destruct (Z.le_gt_cases (Z.pos m) (Z.pos mc)) as [|Hlt]; [done|].
  unfold Z.lt in Hlt. cbn [Z.compare] in Hlt. by rewrite Hlt in H'.
Qed.

Lemma f_lt_neg_false mc ec m e :
  f_lt (S754_finite true m e) (S754_finite true mc ec) = false →
  e < ec ∨ e = ec ∧ Z.pos m ≤ Z.pos mc.
Proof.
  rewrite f_lt_key. simpl. destruct (Z.compare_spec (- e) (- ec)); [|done|lia]. intros H'. right.
  split; [lia|]. destruct (Z.le_gt_cases (Z.pos m) (Z.pos mc)) as [|Hgt]; [done|].
  apply Z.lt_gt in Hgt. unfold Z.gt in Hgt. cbn [Z.compare] in Hgt. by rewrite Hgt in H'.
Qed.

(** A float within the int16 range rounds to an int16. *)
Lemma round_Z_int16 x :
  f_wf x → IsNaN x = false →
  f_lt x (f_of_Z (-32768)) = false → f_lt (f_of_Z 32767) x = false →
  -32768 ≤ round_Z x ≤ 32767.
Proof.
  intros Hwf Hn.
  change (f_of_Z (-32768)) with (S754_finite true 4503599627370496 (-37)).
  change (f_of_Z 32767) with (S754_finite false 9006924376834048 (-38)).
  destruct x as [s|[]| |s m e]; try done.
  pose proof (f_wf_mantissa _ _ _ Hwf) as Hm. destruct s; intros H1 H2.
  - apply f_lt_neg_false in H1. unfold round_Z. destruct (Z.leb_spec 0 e); [lia|].
    pose proof (Z.div_pos (Z.pos m + 2 ^ (- e - 1)) (2 ^ (- e))).
    enough ((Z.pos m + 2 ^ (- e - 1)) / 2 ^ (- e) ≤ 32768) by lia.
    apply round_half_bound; [lia|]. split; [lia|].
    destruct H1 as [He|[-> Hm']]; [|change (2 ^ (- (-37))) with 137438953472; lia].
    assert (2 ^ 38 ≤ 2 ^ (- e)) by (apply Z.pow_le_mono_r; lia). lia.
  - apply f_lt_pos_false in H2. unfold round_Z. destruct (Z.leb_spec 0 e); [lia|].
    pose proof (Z.div_pos (Z.pos m + 2 ^ (- e - 1)) (2 ^ (- e))).
    enough ((Z.pos m + 2 ^ (- e - 1)) / 2 ^ (- e) ≤ 32767) by lia.
    apply round_half_bound; [lia|]. split; [lia|].
    destruct H2 as [He|[-> Hm']]; [|change (2 ^ (- (-38))) with 274877906944; lia].
    assert (2 ^ 39 ≤ 2 ^ (- e)) by (apply Z.pow_le_mono_r; lia). lia.
Qed.

(** ** Rounding gives a number with the sign it is asked for *)

(** Zero, finite or infinite, of the given sign. *)
Definition signed_as (s : bool) (x : float64) : bool :=
  match x with
  | S754_zero s' | S754_infinity s' | S754_finite s' _ _ => eqb s' s
  | S754_nan => false
  end.

Lemma shr_1_nonneg mrs : 0 ≤ shr_m mrs → 0 ≤ shr_m (shr_1 mrs).
Proof. destruct mrs as [[|[p|p|]|p] r s]; simpl; lia. Qed.

Lemma iter_pos_nonneg p mrs : 0 ≤ shr_m mrs → 0 ≤ shr_m (SpecFloat.iter_pos shr_1 p mrs).
Proof.
  revert mrs. induction p as [p IH|p IH|]; intros mrs H; simpl.
  - by apply IH, IH, shr_1_nonneg.
  - by apply IH, IH.
  - by apply shr_1_nonneg.
Qed.

Lemma shr_fexp_nonneg m e l : 0 ≤ m → 0 ≤ shr_m (shr_fexp 53 1024 m e l).1.
Proof.
  intros H. unfold shr_fexp, shr. assert (0 ≤ shr_m (shr_record_of_loc m l)) by (by destruct l as [|[]]).
  case_match; simpl; [done|by apply iter_pos_nonneg|done].
Qed.

Lemma round_nearest_nonneg m l : 0 ≤ m → 0 ≤ round_nearest_even m l.
Proof. intros H. destruct l as [|[]]; simpl; repeat case_match; lia. Qed.

Lemma binary_round_aux_signed s m e l : 0 ≤ m → signed_as s (binary_round_aux 53 1024 s m e l) = true.
Proof.
  intros H. unfold binary_round_aux. pose proof (shr_fexp_nonneg m e l H) as H1.
  destruct (shr_fexp 53 1024 m e l) as [r1 e1]. simpl in H1.
  pose proof (shr_fexp_nonneg _ e1 loc_Exact (round_nearest_nonneg _ (loc_of_shr_record r1) H1)) as H2.
  destruct (shr_fexp 53 1024 _ e1 loc_Exact) as [r2 e2]. simpl in H2.
  destruct (shr_m r2); [by destruct s| |lia]. case_match; by destruct s.
Qed.

Lemma binary_round_signed s m e : signed_as s (binary_round 53 1024 s m e) = true.
Proof. unfold binary_round. destruct (shl_align _ _ _). by apply binary_round_aux_signed. Qed.

Lemma binary_normalize_signed m e s : signed_as (if m =? 0 then s else m <? 0) (binary_normalize 53 1024 m e s) = true.
Proof. destruct m; simpl; [by destruct s|apply binary_round_signed..]. Qed.

Lemma signed_not_nan s x : signed_as s x = true → IsNaN x = false.
Proof. by destruct x. Qed.

Lemma f_of_Z_signed n : signed_as (n <? 0) (f_of_Z n) = true.
Proof. unfold f_of_Z. pose proof (binary_normalize_signed n 0 false). by destruct n. Qed.

Lemma f_of_Z_not_nan n : IsNaN (f_of_Z n) = false.
Proof. eapply signed_not_nan, f_of_Z_signed. Qed.

Definition IsFinite (x : float64) : bool := negb (IsNaN x) && negb (IsInf x).

(** A quotient by a finite number other than zero has the sign of both. *)
Lemma f_div_signed s t x y :
  signed_as s x = true → signed_as t y = true → IsFinite y = true → f_eq y f_zero = false →
  signed_as (xorb s t) (f_div x y) = true.
Proof.
  destruct x as [sx|sx| |sx mx ex], y as [sy|sy| |sy my ey]; try done; simpl;
    intros Hs%eqb_prop Ht%eqb_prop _ _; subst; try by destruct s, t.
  unfold f_div, SFdiv, SFdiv_core_binary.
  match goal with |- context [Z.div_eucl ?m (Z.pos my)] => set (m' := m) end.
  assert (Hm : 0 ≤ m') by (unfold m'; case_match; [lia|apply Z.shiftl_nonneg; lia|lia]).
  pose proof (Z_div_mod m' (Z.pos my) eq_refl) as Hd.
  destruct (Z.div_eucl m' (Z.pos my)) as [q r]. destruct Hd as [Hd Hr].
  apply binary_round_aux_signed. nia.
Qed.

Lemma f_mul_signed s t x y :
  signed_as s x = true → signed_as t y = true → IsFinite x = true → IsFinite y = true →
  signed_as (xorb s t) (f_mul x y) = true.
Proof.
  destruct x as [sx|sx| |sx mx ex], y as [sy|sy| |sy my ey]; try done; simpl;
    intros Hs%eqb_prop Ht%eqb_prop _ _; subst; try by destruct s, t.
  by apply binary_round_aux_signed.
Qed.

(** Sums of numbers of one sign have it. *)
Lemma f_add_signed x y :
  signed_as false x = true → signed_as false y = true → signed_as false (f_add x y) = true.
Proof.
  destruct x as [sx|sx| |sx mx ex], y as [sy|sy| |sy my ey]; try done; simpl;
    intros Hs%eqb_prop Ht%eqb_prop; subst; try done.
  unfold f_add, SFadd, cond_Zopp. rewrite <- Pos2Z.inj_add. apply binary_round_signed.
Qed.

(** Finite sums and differences are numbers. *)
Lemma f_add_not_nan x y : IsFinite x = true → IsFinite y = true → IsNaN (f_add x y) = false.
Proof.
  destruct x as [[]|sx| |sx mx ex], y as [[]|sy| |sy my ey]; try done; intros _ _.
  unfold f_add, SFadd. eapply signed_not_nan, binary_normalize_signed.
Qed.

Lemma f_sub_not_nan x y : IsFinite x = true → IsFinite y = true → IsNaN (f_sub x y) = false.
Proof.
  destruct x as [[]|sx| |sx mx ex], y as [[]|sy| |sy my ey]; try done; intros _ _.
  unfold f_sub, SFsub. eapply signed_not_nan, binary_normalize_signed.
Qed.
