(* ===== verification/GoNum.v ===== *)
(** * Reading numbers and durations from text ([strconv], [time.ParseDuration])

    Hexadecimal floating-point text, which [ParseFloat] also reads, is left out. *)

From Stdlib Require Import Ascii String Floats.SpecFloat.
From stdpp Require Import gmap strings list pretty.
From S2P Require Import Prelude GoStrings GoTime GoFloat.

Open Scope Z_scope.
Open Scope string_scope.

(** A result kept in an int64. *)
Definition wrap64 (n : Z) : Z := (n + 2 ^ 63) mod 2 ^ 64 - 2 ^ 63.

(** ** Integers and booleans *)

(** The value of a non-empty run of decimal digits. *)
Fixpoint digits_value (acc : Z) (s : string) : option Z :=
  match s with
  | EmptyString => Some acc
  | String c r => match digit_val c with
                  | Some d => digits_value (acc * 10 + d) r
                  | None => None
                  end
  end.

Definition int64_ok (n : Z) : bool := (- 2 ^ 63 <=? n)%Z && (n <? 2 ^ 63)%Z.

(** The sign of a number's text, and the rest. *)
Definition signed (s : string) : bool * string :=
  match s with
  | String c r => if bool_decide (c = "-"%char) then (true, r)
                  else if bool_decide (c = "+"%char) then (false, r)
                  else (false, s)
  | EmptyString => (false, s)
  end.

(** [strconv.Atoi] and [ParseInt(v, 10, 64)]: [None] is an error. *)
Definition Atoi (s : string) : option Z :=
  match signed s with
  | (_, EmptyString) => None
  | (neg, r) =>
      n ← digits_value 0 r;
      let n := if (neg : bool) then (- n)%Z else n in
      if int64_ok n then Some n else None
  end.

Definition ParseBool (s : string) : option bool :=
  if bool_decide (s ∈ ["1"; "t"; "T"; "true"; "TRUE"; "True"]) then Some true
  else if bool_decide (s ∈ ["0"; "f"; "F"; "false"; "FALSE"; "False"]) then Some false
  else None.

(** ** Floats *)

(** The leading digits: their value after [acc], how many, and the rest. *)
Fixpoint take_digits (acc n : Z) (s : string) : Z * Z * string :=
  match s with
  | String c r => match digit_val c with
                  | Some d => take_digits (acc * 10 + d) (n + 1) r
                  | None => (acc, n, s)
                  end
  | EmptyString => (acc, n, s)
  end.

(** m * 10^e correctly rounded: for a negative exponent the quotient is taken with 70
    significant bits and the bits below them as a sticky one. *)
Definition f_decimal (neg : bool) (m e : Z) : float64 :=
  if (m =? 0)%Z then S754_zero neg
  else
    let sg (n : Z) := if neg then (- n)%Z else n in
    if (0 <=? e)%Z then binary_normalize 53 1024 (sg (m * 10 ^ e)) 0 neg
    else
      let d := 10 ^ (- e) in
      let k := Z.max 0 (70 + Z.log2 d - Z.log2 m) in
      let q := (m * 2 ^ k) / d in
      let sticky := if ((m * 2 ^ k) mod d =? 0)%Z then 0 else 1 in
      binary_normalize 53 1024 (sg (2 * q + sticky)) (- k - 1) neg.

(** The exponent part, zero when there is none. *)
Definition take_exponent (s : string) : option Z :=
  match s with
  | EmptyString => Some 0
  | String c r =>
      if bool_decide (c = "e"%char) || bool_decide (c = "E"%char) then
        let '(neg, r) := signed r in
        match take_digits 0 0 r with
        | (_, 0, _) => None
        | (x, _, EmptyString) => Some (if neg then (- x)%Z else x)
        | _ => None
        end
      else None
  end.

Definition ParseFloat (s : string) : option float64 :=
  let '(neg, r) := signed s in
  let low := ToLower r in
  if bool_decide (low = "inf") || bool_decide (low = "infinity") then Some (S754_infinity neg)
  else if bool_decide (low = "nan") then (if bool_decide (r = s) then Some S754_nan else None)
  else
    let '(m, n, r) := take_digits 0 0 r in
    let '(m, n', r) := match r with
                       | String c r' => if bool_decide (c = "."%char) then take_digits m 0 r' else (m, 0, r)
                       | EmptyString => (m, 0, r)
                       end in
    if (n + n' =? 0)%Z then None
    else
      x ← take_exponent r;
      let f := f_decimal neg m (x - n') in
      if IsInf f then None else Some f.

(** A decimal constant of the source: the nearest float64. *)
Definition lit (s : string) : float64 := default S754_nan (ParseFloat s).

(** [int64(f)] on amd64: out of range gives the least int64. *)
Definition f_to_int64 (f : float64) : Z :=
  match f with
  | S754_finite _ _ _ => if int64_ok (f_to_Z f) then f_to_Z f else - 2 ^ 63
  | S754_zero _ => 0
  | _ => - 2 ^ 63
  end.

(** ** Printing *)

(** [strconv.FormatFloat(f, 'f', -1, 64)], the shortest text that reads back as [f]: a
    parameter. *)
Class GoFloatText := FormatFloat : float64 → string.

(** [strconv.FormatInt(n, 10)] and the verb [%d]. *)
Definition FormatInt (n : Z) : string := pretty n.

(** m * 2^e * 10^prec rounded to the nearest integer, halves to even. *)
Definition scaled_decimal (m e prec : Z) : Z :=
  let n := (m * 10 ^ prec)%Z in
  if (0 <=? e)%Z then (n * 2 ^ e)%Z
  else
    let d := 2 ^ (- e) in
    let q := (n / d)%Z in
    let r := (n mod d)%Z in
    if (2 * r <? d)%Z then q
    else if (d <? 2 * r)%Z then (q + 1)%Z
    else if Z.even q then q else (q + 1)%Z.

(** The verb [%.<prec>f]. *)
Definition FormatFixed (prec : nat) (f : float64) : string :=
  match f with
  | S754_nan => "NaN"
  | S754_infinity s => if s then "-Inf" else "+Inf"
  | _ =>
      let '(s, n) := match f with
                     | S754_finite s m e => (s, scaled_decimal (Z.pos m) e (Z.of_nat prec))
                     | S754_zero s => (s, 0)
                     | _ => (false, 0)
                     end in
      let p := 10 ^ Z.of_nat prec in
      (if s then "-" else EmptyString) +:+ pretty (n / p)%Z +:+
      (if bool_decide (prec = O) then EmptyString else "." +:+ digits prec (n mod p)%Z)
  end.

(** ** [time.ParseDuration] *)

Definition unit_of (u : string) : option Z :=
  if bool_decide (u = "ns") then Some 1
  else if bool_decide (u = "us") || bool_decide (u = "µs") || bool_decide (u = "μs") then Some 1000
  else if bool_decide (u = "ms") then Some 1000000
  else if bool_decide (u = "s") then Some second
  else if bool_decide (u = "m") then Some minute
  else if bool_decide (u = "h") then Some hour
  else None.

(** The bytes before the next digit or point. *)
Fixpoint take_unit (s : string) : string * string :=
  match s with
  | String c r =>
      if bool_decide (c = "."%char) || bool_decide (is_Some (digit_val c)) then (EmptyString, s)
      else let '(u, t) := take_unit r in (String c u, t)
  | EmptyString => (EmptyString, s)
  end.

(** [leadingInt]: more than 2^63 is an overflow. *)
Fixpoint leadingInt (x : Z) (s : string) : option (Z * string) :=
  match s with
  | String c r =>
      match digit_val c with
      | Some d => if (2 ^ 63 / 10 <? x)%Z then None
                  else let x := (x * 10 + d)%Z in if (2 ^ 63 <? x)%Z then None else leadingInt x r
      | None => Some (x, s)
      end
  | EmptyString => Some (x, s)
  end.

(** [leadingFraction]: the digits that fit, and ten to their number. *)
Fixpoint leadingFraction (x : Z) (scale : float64) (overflow : bool) (s : string) : Z * float64 * string :=
  match s with
  | String c r =>
      match digit_val c with
      | Some d =>
          let y := (x * 10 + d)%Z in
          if overflow || ((2 ^ 63 - 1) / 10 <? x)%Z || (2 ^ 63 <? y)%Z then leadingFraction x scale true r
          else leadingFraction y (f_mul scale (f_of_Z 10)) false r
      | None => (x, scale, s)
      end
  | EmptyString => (x, scale, s)
  end.

(** One number with its unit: nanoseconds, at most 2^63. *)
Definition take_duration (s : string) : option (Z * string) :=
  match s with
  | EmptyString => None
  | String c _ =>
      if negb (bool_decide (c = "."%char) || bool_decide (is_Some (digit_val c))) then None
      else
        '(v, r) ← leadingInt 0 s;
        let pre := negb (bool_decide (r = s)) in
        let '(f, scale, r', post) :=
          match r with
          | String c' t => if bool_decide (c' = "."%char)
                           then let '(f, scale, r') := leadingFraction 0 (f_of_Z 1) false t in
                                (f, scale, r', negb (bool_decide (r' = t)))
                           else (0, f_of_Z 1, r, false)
          | EmptyString => (0, f_of_Z 1, r, false)
          end in
        if negb pre && negb post then None
        else
          let '(u, rest) := take_unit r' in
          unit ← unit_of u;
          if (2 ^ 63 / unit <? v)%Z then None
          else
            let n := (v * unit + (if (0 <? f)%Z then f_to_Z (f_mul (f_of_Z f) (f_div (f_of_Z unit) scale)) else 0))%Z in
            if (2 ^ 63 <? n)%Z then None else Some (n, rest)
  end.

(** The loop; every turn reads at least a unit, so the length of the text is enough fuel. *)
Fixpoint durations (fuel : nat) (d : Z) (s : string) : option Z :=
  match s, fuel with
  | EmptyString, _ => Some d
  | _, O => None
  | _, S fuel =>
      '(v, r) ← take_duration s;
      let d := (d + v)%Z in
      if (2 ^ 63 <? d)%Z then None else durations fuel d r
  end.

Definition ParseDuration (s : string) : option Z :=
  let '(neg, r) := signed s in
  if bool_decide (r = "0") then Some 0
  else if bool_decide (r = EmptyString) then None
  else
    d ← durations (String.length r) 0 r;
    if neg then Some (- d)%Z
    else if (2 ^ 63 - 1 <? d)%Z then None else Some d.

(** ** Readings *)

Example parse_floats :
  ParseFloat "0.35" = Some (f_dec 35 2) ∧ ParseFloat "-12.5e1" = Some (f_of_Z (-125)) ∧
  ParseFloat "1e400" = None ∧ ParseFloat "." = None ∧ ParseFloat "1e-400" = Some f_zero.
Proof. split_and!; vm_compute; reflexivity. Qed.

Example parse_durations :
  ParseDuration "1h30m" = Some (90 * minute) ∧ ParseDuration "-1.5s" = Some (-1500000000) ∧
  ParseDuration "5" = None ∧ ParseDuration "3x" = None.
Proof. split_and!; vm_compute; reflexivity. Qed.

Example fixed_decimals :
  FormatFixed 6 (lit "-82.98") = "-82.980000" ∧ FormatFixed 1 (lit "0.25") = "0.2" ∧
  FormatFixed 0 (lit "3.5") = "4" ∧ FormatFixed 2 (lit "1.005") = "1.00".
Proof. split_and!; vm_compute; reflexivity. Qed.
