(* ===== verification/GoJson.v ===== *)
(** * JSON documents and the [encoding/json] contract the program relies on

    A document is its value: [json.RawMessage] and JSON text are [json], invalid text is
    [None] of [option json]. A number is an integer literal or a float64; decoding into
    [any] gives the float64 of either ([num_float]), decoding into an integer field wants
    the integer literal. Keys match exactly. *)

From Stdlib Require Import Ascii String.
From stdpp Require Import gmap strings list.
From S2P Require Import Prelude GoStrings GoFloat.

Inductive number := NInt (z : Z) | NFlt (f : float64).

Inductive json :=
| JNull
| JBool (b : bool)
| JNum (n : number)
| JStr (s : string)
| JArr (l : list json)
| JObj (m : gmap string json).

Abbreviation row := (gmap string json).

Definition num_float (n : number) : float64 :=
  match n with NInt z => f_of_Z z | NFlt f => f end.

(** JSON text: [None] does not parse. *)
Abbreviation text := (option json).

(** [row[key]] of a [map[string]any]: a missing key reads as nil. *)
Definition at_key (m : row) (k : string) : json := default JNull (m !! k).

(** [json.Unmarshal] into [any]: every number is a float64. *)
Fixpoint as_any (j : json) : json :=
  match j with
  | JNum n => JNum (NFlt (num_float n))
  | JArr l => JArr (as_any <$> l)
  | JObj m => JObj (as_any <$> m)
  | _ => j
  end.

(** [json.Marshal] refuses a number that is infinite or not a number. *)
Fixpoint encodes (j : json) : bool :=
  match j with
  | JNum n => IsFinite (num_float n)
  | JArr l => forallb encodes l
  | JObj m => map_fold (λ _ x, andb (encodes x)) true m
  | _ => true
  end.

(** [fmt.Sprint] of a decoded value that is not a string: a parameter of the definitions
    that print one. *)
Class GoFmt := Sprint : json → string.

(** ** Codecs: a Go struct with its [json] tags *)

Class JsonCodec (A : Type) := {
  marshal : A → json;
  unmarshal : json → option A;
}.
#[global] Hint Mode JsonCodec ! : typeclass_instances.

(** What a client of a queue needs: what it enqueues is what the handler decodes. *)
Class JsonRoundTrip (A : Type) `{JsonCodec A} :=
  unmarshal_marshal : ∀ a : A, unmarshal (marshal a) = Some a.

(** An object from its fields; [None] is a field left out ([omitempty]). *)
Fixpoint obj_fields (l : list (string * option json)) : row :=
  match l with
  | [] => ∅
  | (k, o) :: r => partial_alter (λ _, o) k (obj_fields r)
  end.
Definition mk_obj (l : list (string * option json)) : json := JObj (obj_fields l).

Lemma lookup_obj_fields k o r k' :
  obj_fields ((k, o) :: r) !! k' = if decide (k = k') then o else obj_fields r !! k'.
Proof.
  cbn [obj_fields]. case_decide as E; [subst; apply lookup_partial_alter_eq | by apply lookup_partial_alter_ne].
Qed.

#[global] Arguments obj_fields : simpl never.

(** Decoding a value into a struct field of the given Go type; null leaves the zero value. *)
Definition dec_string (o : option json) : option string :=
  match o with
  | None | Some JNull => Some EmptyString
  | Some (JStr s) => Some s
  | _ => None
  end.
Definition dec_int (o : option json) : option Z :=
  match o with
  | None | Some JNull => Some 0%Z
  | Some (JNum (NInt z)) => Some z
  | _ => None
  end.
Definition dec_bool (o : option json) : option bool :=
  match o with
  | None | Some JNull => Some false
  | Some (JBool b) => Some b
  | _ => None
  end.
Definition dec_ptr {A} (dec : option json → option A) (o : option json) : option (option A) :=
  match o with
  | None | Some JNull => Some None
  | Some v => Some <$> dec (Some v)
  end.

Definition dec_float (o : option json) : option float64 :=
  match o with
  | None | Some JNull => Some f_zero
  | Some (JNum n) => Some (num_float n)
  | _ => None
  end.
(** A []string: null and absent are nil. *)
Definition dec_strings (o : option json) : option (list string) :=
  match o with
  | None | Some JNull => Some []
  | Some (JArr l) => mapM (λ v, dec_string (Some v)) l
  | _ => None
  end.

Definition enc_float (f : float64) : option json := Some (JNum (NFlt f)).
Definition omit_strings (l : list string) : option json :=
  match l with [] => None | _ => Some (JArr (JStr <$> l)) end.
Definition enc_string (s : string) : option json := Some (JStr s).
Definition enc_int (z : Z) : option json := Some (JNum (NInt z)).
Definition enc_bool (b : bool) : option json := Some (JBool b).
Definition enc_ptr {A} (enc : A → option json) (o : option A) : option json :=
  match o with Some a => enc a | None => Some JNull end.
(** [omitempty] *)
Definition omit_string (s : string) : option json :=
  if bool_decide (s = EmptyString) then None else Some (JStr s).
Definition omit_int (z : Z) : option json :=
  if bool_decide (z = 0%Z) then None else Some (JNum (NInt z)).
Definition omit_bool (b : bool) : option json := if b then Some (JBool true) else None.
Definition omit_ptr {A} (enc : A → option json) (o : option A) : option json :=
  match o with Some a => enc a | None => None end.

(** [json.Unmarshal] of a document into a struct: an object, or null for the zero value. *)
Definition with_object {A} (j : json) (k : row → option A) : option A :=
  match j with
  | JObj m => k m
  | JNull => k ∅
  | _ => None
  end.

Lemma dec_enc_string s : dec_string (enc_string s) = Some s.
Proof. done. Qed.
Lemma dec_enc_float f : dec_float (enc_float f) = Some f.
Proof. done. Qed.
Lemma dec_omit_strings l : dec_strings (omit_strings l) = Some l.
Proof.
  destruct l as [|s l]; [done|]. unfold omit_strings, dec_strings.
  generalize (s :: l). clear. intros l. apply mapM_Some. by induction l; constructor.
Qed.
Lemma dec_enc_int z : dec_int (enc_int z) = Some z.
Proof. done. Qed.
Lemma dec_enc_bool b : dec_bool (enc_bool b) = Some b.
Proof. done. Qed.
Lemma dec_omit_string s : dec_string (omit_string s) = Some s.
Proof. unfold omit_string. case_bool_decide; by subst. Qed.
Lemma dec_omit_int z : dec_int (omit_int z) = Some z.
Proof. unfold omit_int. case_bool_decide; by subst. Qed.
Lemma dec_omit_bool b : dec_bool (omit_bool b) = Some b.
Proof. by destruct b. Qed.
Lemma dec_omit_ptr_string o : dec_ptr dec_string (omit_ptr enc_string o) = Some o.
Proof. by destruct o. Qed.
Lemma dec_omit_ptr_int o : dec_ptr dec_int (omit_ptr enc_int o) = Some o.
Proof. by destruct o. Qed.
Lemma dec_omit_ptr_bool o : dec_ptr dec_bool (omit_ptr enc_bool o) = Some o.
Proof. by destruct o. Qed.

#[export] Hint Rewrite dec_enc_float dec_omit_strings dec_enc_string dec_enc_int dec_enc_bool dec_omit_string dec_omit_int
  dec_omit_bool dec_omit_ptr_string dec_omit_ptr_int dec_omit_ptr_bool : go_json.

(** [codec_tac]: prove a round trip by reading back each field of the object. *)
Ltac codec_tac :=
  unfold mk_obj, with_object;
  repeat (rewrite lookup_obj_fields;
          first [rewrite decide_True by reflexivity | rewrite decide_False by discriminate]);
  autorewrite with go_json; cbn [mbind option_bind].
