(* ===== verification/MlsFields.v ===== *)
(** * Field mapping of RESO rows (package [mls])

    Models [row_parse.go], [normalize.go], [modification_timestamp.go],
    [association_fee_monthly.go], [reso_field_resolver.go] and [flood_risk.go]: how one
    value of an upstream Property row becomes one column of the listings mirror. *)

From Stdlib Require Import Ascii String Floats.SpecFloat.
From stdpp Require Import gmap strings list.
From S2P Require Import Prelude GoStrings GoTime GoFloat GoJson.

Open Scope string_scope.

Create HintDb mls discriminated.

Inductive MirrorProvider := MirrorProviderBridge | MirrorProviderSpark.
#[export] Instance MirrorProvider_eq_dec : EqDecision MirrorProvider.
Proof. solve_decision. Defined.

(** ** row_parse.go *)

Section RowParse.
Context {Fmt : GoFmt}.

Definition stringValue (v : json) : string :=
  match v with
  | JNull => EmptyString
  | JStr s => TrimSpace s
  | _ => TrimSpace (Sprint v)
  end.

Definition optionalString (v : json) : option string :=
  let s := stringValue v in if bool_decide (s = EmptyString) then None else Some s.

Definition timestampPtr (v : json) : option Z :=
  let s := stringValue v in
  if bool_decide (s = EmptyString) then None else parse_rfc3339 s.

(** Midnight UTC of the day of [t]. *)
Definition midnight (t : Z) : Z := (t / (24 * hour) * (24 * hour))%Z.

Definition datePtr (v : json) : option Z :=
  let s := stringValue v in
  if bool_decide (s = EmptyString) then None
  else midnight <$> match parse_date_only s with
                    | Some t => Some t
                    | None => parse_rfc3339 s
                    end.

(** The slice of non-empty strings; a nil slice marshals to [null]. *)
Definition specialListingConditions (r : row) : json :=
  match r !! "SpecialListingConditions" with
  | None => JArr []
  | Some (JArr items) =>
      match filter (λ s, s ≠ EmptyString) (stringValue <$> items) with
      | [] => JNull
      | out => JArr (JStr <$> out)
      end
  | Some v => v
  end.
End RowParse.

Definition numericValue (v : json) : option float64 :=
  match v with JNum n => Some (num_float n) | _ => None end.

Definition float64Ptr : json → option float64 := numericValue.

Definition boolPtr (v : json) : option bool :=
  match v with JBool b => Some b | _ => None end.

(** Both coordinates numbers and not NaN: (lat, lng). *)
Definition latLngOf (latV lngV : json) : option (float64 * float64) :=
  match numericValue latV, numericValue lngV with
  | Some lat, Some lng => if negb (IsNaN lat) && negb (IsNaN lng) then Some (lat, lng) else None
  | _, _ => None
  end.

Definition resolveLatLng (r : row) : option (float64 * float64) :=
  let from_point :=
    match at_key r "Coordinates" with
    | JObj coords =>
        match at_key coords "coordinates" with
        | JArr (lng :: lat :: _) => latLngOf lat lng
        | _ => None
        end
    | _ => None
    end in
  match from_point with
  | Some p => Some p
  | None => latLngOf (at_key r "Latitude") (at_key r "Longitude")
  end.

Definition datasetSlugFromListingKey (listingKey fallbackDataset : string) : string :=
  match Index listingKey ":" with
  | Some (S i) => ToLower (take_bytes (S i) listingKey)
  | _ => ToLower fallbackDataset
  end.

Definition standardResoFieldNames : gset string := list_to_set
  ["ListingKey"; "ListingId"; "StandardStatus"; "ListPrice"; "ClosePrice"; "PreviousListPrice";
   "PriceChangeTimestamp"; "ModificationTimestamp"; "BridgeModificationTimestamp";
   "BedroomsTotal"; "BathroomsTotalDecimal"; "BathroomsTotalInteger"; "LivingArea";
   "BuildingAreaTotal"; "LotSizeAcres"; "AssociationFee"; "AssociationFeeFrequency";
   "AssociationFee2"; "AssociationFee2Frequency"; "YearBuilt"; "StoriesTotal"; "City";
   "CountyOrParish"; "PostalCode"; "StateOrProvince"; "PropertyType"; "PropertySubType";
   "OnMarketDate"; "CloseDate"; "Latitude"; "Longitude"; "Coordinates"; "WaterfrontYN";
   "PoolPrivateYN"; "DockYN"; "NewConstructionYN"; "GarageYN"; "AssociationYN"; "SpaYN";
   "FireplaceYN"; "SeniorCommunityYN"; "SpecialListingConditions"; "SubdivisionName";
   "ElementarySchool"; "MiddleOrJuniorSchool"; "HighSchool"; "StreetNumber"; "StreetName";
   "ListAgentMlsId"; "ListOfficeMlsId"; "MlsStatus"].

(** ** normalize.go *)

Definition maxNumeric14_2 : float64 := Eval vm_compute in f_dec 99999999999999 2.
Definition minNumeric14_2 : float64 := Eval vm_compute in f_neg (f_dec 99999999999999 2).
Definition maxNumeric12_2 : float64 := Eval vm_compute in f_dec 999999999999 2.
Definition minNumeric12_2 : float64 := Eval vm_compute in f_neg (f_dec 999999999999 2).
Definition maxNumeric12_4 : float64 := Eval vm_compute in f_dec 999999999999 4.
Definition minNumeric12_4 : float64 := Eval vm_compute in f_neg (f_dec 999999999999 4).
Definition maxBathroomsDecimal : float64 := Eval vm_compute in f_dec 9999 2.
Definition maxBathroomInteger : float64 := Eval vm_compute in f_of_Z 30.

Definition clampRange (v lo hi : float64) : float64 :=
  if IsNaN v || IsInf v then f_zero
  else if f_lt v lo then lo
  else if f_lt hi v then hi
  else v.

Definition clampNumeric14_2 (v : float64) : float64 := clampRange v minNumeric14_2 maxNumeric14_2.

Fixpoint firstPrice (keys : list string) (r : row) : option float64 :=
  match keys with
  | [] => None
  | k :: ks =>
      match numericValue (at_key r k) with
      | Some v => Some (clampNumeric14_2 v)
      | None => firstPrice ks r
      end
  end.

Definition ResolveListPrice (r : row) : option float64 :=
  firstPrice ["ListPrice"; "PreviousListPrice"; "OriginalListPrice"] r.

Definition ClampNumeric14_2Ptr (v : json) : option float64 := clampNumeric14_2 <$> numericValue v.

Definition ClampNumeric12_4Ptr (v : json) : option float64 :=
  (λ f, clampRange f minNumeric12_4 maxNumeric12_4) <$> numericValue v.

Definition clampNumeric12_2Ptr (v : json) : option float64 :=
  (λ f, clampRange f minNumeric12_2 maxNumeric12_2) <$> numericValue v.

Definition ResolveLivingAreaSqft (r : row) : option float64 :=
  match clampNumeric12_2Ptr (at_key r "LivingArea") with
  | Some v => Some v
  | None => clampNumeric12_2Ptr (at_key r "BuildingAreaTotal")
  end.

Definition clampBathroomsPtr (v : float64) : option float64 :=
  if IsNaN v || IsInf v || f_lt v f_zero then None
  else Some (clampRange v f_zero maxBathroomsDecimal).

Definition BathroomsTotal (r : row) : option float64 :=
  match float64Ptr (at_key r "BathroomsTotalDecimal") with
  | Some v => clampBathroomsPtr v
  | None =>
      match float64Ptr (at_key r "BathroomsTotalInteger") with
      | Some v => if f_lt v f_zero || f_lt maxBathroomInteger v then None else clampBathroomsPtr v
      | None => None
      end
  end.

(** [int16(math.Round(f))] once [f] is within the int16 range. *)
Definition BoundedInt16Ptr (v : json) : option Z :=
  match numericValue v with
  | None => None
  | Some f =>
      if f_lt f (f_of_Z (-32768)) || f_lt (f_of_Z 32767) f then None else Some (round_Z f)
  end.

(** ** modification_timestamp.go *)

Definition UsesBridgeModificationOData (datasetSlug : string) : bool :=
  negb (bool_decide (ToLower (TrimSpace datasetSlug) = "beaches")).

Definition ModificationODataField (datasetSlug : string) : string :=
  if UsesBridgeModificationOData datasetSlug then "BridgeModificationTimestamp"
  else "ModificationTimestamp".

Definition ODataTimestampLiteral (t : Z) : string := format_rfc3339 t.

Definition ODataGTFilter (field : string) (since : Z) : string :=
  field +:+ " gt " +:+ ODataTimestampLiteral since.

Definition ResolveModificationTimestamp {Fmt : GoFmt} (datasetSlug : string) (r : row) : option Z :=
  match (if UsesBridgeModificationOData datasetSlug
         then timestampPtr (at_key r "BridgeModificationTimestamp") else None) with
  | Some ts => Some ts
  | None => timestampPtr (at_key r "ModificationTimestamp")
  end.

Definition MaxModificationFromRow {Fmt : GoFmt} : string → row → option Z :=
  ResolveModificationTimestamp.

(** ** association_fee_monthly.go *)

Definition sparkEstimatedMonthlyFallback : string :=
  "Financial_sp_Information_co_Estimated_sp_Monthly_sp_Assoc_sp_Recurring_sp_Fee3".

Definition monthlyMultipliers : gmap string float64 := list_to_map
  [("Monthly", f_of_Z 1);
   ("Annually", f_div (f_of_Z 1) (f_of_Z 12));
   ("Semi-Annually", f_div (f_of_Z 1) (f_of_Z 6));
   ("Quarterly", f_div (f_of_Z 1) (f_of_Z 3));
   ("Weekly", f_div (f_of_Z 52) (f_of_Z 12));
   ("Daily", f_div (f_of_Z 365) (f_of_Z 12));
   ("One Time", f_zero)].

Definition round2 (v : float64) : float64 := f_div (Round (f_mul v (f_of_Z 100))) (f_of_Z 100).

Definition componentMonthly {Fmt : GoFmt} (amount frequency : json) : float64 :=
  match numericValue amount with
  | None => f_zero
  | Some amt =>
      let freq := stringValue frequency in
      if bool_decide (freq = EmptyString) then f_zero
      else match monthlyMultipliers !! freq with
           | None => f_zero
           | Some mult => round2 (f_mul amt mult)
           end
  end.

Definition FromResoRow {Fmt : GoFmt} (r : row) (allowDeclaredFallback : bool) : option float64 :=
  let sum := round2 (f_add
    (componentMonthly (at_key r "AssociationFee") (at_key r "AssociationFeeFrequency"))
    (componentMonthly (at_key r "AssociationFee2") (at_key r "AssociationFee2Frequency"))) in
  if f_lt f_zero sum then Some sum
  else if negb allowDeclaredFallback then None
  else match numericValue (at_key r sparkEstimatedMonthlyFallback) with
       | Some v => if f_lt f_zero v then Some (round2 v) else None
       | None => None
       end.

(** ** reso_field_resolver.go *)

Definition BeachesSparkFloodZoneField : string := "Location_sp_and_sp_Legal_co_Flood_sp_Zone2".

Fixpoint firstNonEmpty (vals : list string) : string :=
  match vals with
  | [] => EmptyString
  | v :: r => if bool_decide (TrimSpace v = EmptyString) then firstNonEmpty r else TrimSpace v
  end.

Definition ResolveFloodZoneCode {Fmt : GoFmt} (r : row) (provider : MirrorProvider)
    (datasetUpper : string) : option string :=
  let spark := stringValue (at_key r BeachesSparkFloodZoneField) in
  let bridgeExt := stringValue (at_key r (ToUpper datasetUpper +:+ "_FloodZoneCode")) in
  let generic := stringValue (at_key r "FloodZoneCode") in
  let value := match provider with
               | MirrorProviderSpark => firstNonEmpty [spark; generic]
               | MirrorProviderBridge => firstNonEmpty [bridgeExt; generic; spark]
               end in
  if bool_decide (value = EmptyString) then None else Some value.

(** [v] when it is a positive number. *)
Definition positive_fee (v : option float64) : option float64 :=
  match v with Some f => if f_lt f_zero f then Some f else None | None => None end.

Definition ResolveEstimatedTotalMonthlyFees {Fmt : GoFmt} (r : row) (provider : MirrorProvider)
    (datasetUpper : string) : option float64 :=
  let declared :=
    match provider with
    | MirrorProviderBridge =>
        positive_fee (ClampNumeric14_2Ptr (at_key r (ToUpper datasetUpper +:+ "_TotalMonthlyFees")))
    | MirrorProviderSpark => None
    end in
  match declared with
  | Some v => Some v
  | None =>
      clampNumeric14_2 <$> FromResoRow r (bool_decide (provider = MirrorProviderSpark))
  end.

(** ** flood_risk.go *)

Definition ComputeLowRiskFloodZoneYN (floodZoneCode : option string) : bool :=
  match floodZoneCode with
  | None => false
  | Some c =>
      let code := TrimSpace c in
      if bool_decide (code = EmptyString) then false
      else
        let upper := ToUpper code in
        if Contains upper "A" || Contains upper "V" then false
        else if Contains upper "X500" then true
        else if Contains (ToLower code) "no" then true
        else Contains upper "X"
  end.

(** ** Column bounds *)

(** A nullable numeric column within its bounds. *)
Definition within (lo hi : float64) (o : option float64) : Prop :=
  match o with Some v => f_le lo v = true ∧ f_le v hi = true | None => True end.

Definition is_int16 (o : option Z) : Prop :=
  match o with Some z => (-32768 ≤ z ≤ 32767)%Z | None => True end.

(** What [encoding/json] gives for every number of a decoded document: a float64, not NaN. *)
Definition value_ok (v : json) : Prop :=
  ∀ f, numericValue v = Some f → f_wf f ∧ IsNaN f = false.
Definition row_ok (r : row) : Prop := ∀ k, value_ok (at_key r k).

Lemma clampRange_within v lo hi :
  f_le lo f_zero = true → f_le f_zero hi = true → within lo hi (Some (clampRange v lo hi)).
Proof.
  intros Hlo Hhi. simpl. unfold clampRange.
  destruct (IsNaN v) eqn:E; [done|]. destruct (IsInf v); [done|]. simpl.
  apply clamp_between; [done|]. by eapply f_le_trans.
Qed.

Lemma within_clamp lo hi o :
  f_le lo f_zero = true → f_le f_zero hi = true →
  within lo hi ((λ f, clampRange f lo hi) <$> o).
Proof. intros. destruct o; [by apply clampRange_within | done]. Qed.

Lemma clampNumeric14_2_within v : within minNumeric14_2 maxNumeric14_2 (Some (clampNumeric14_2 v)).
Proof. by apply clampRange_within. Qed.

Lemma firstPrice_within keys r : within minNumeric14_2 maxNumeric14_2 (firstPrice keys r).
Proof.
  induction keys as [|k ks IH]; simpl; [done|].
  destruct (numericValue _); [apply clampNumeric14_2_within | done].
Qed.

Lemma ClampNumeric14_2Ptr_within v : within minNumeric14_2 maxNumeric14_2 (ClampNumeric14_2Ptr v).
Proof. by apply within_clamp. Qed.
Lemma ClampNumeric12_4Ptr_within v : within minNumeric12_4 maxNumeric12_4 (ClampNumeric12_4Ptr v).
Proof. by apply within_clamp. Qed.
Lemma clampNumeric12_2Ptr_within v : within minNumeric12_2 maxNumeric12_2 (clampNumeric12_2Ptr v).
Proof. by apply within_clamp. Qed.

Lemma ResolveLivingAreaSqft_within r : within minNumeric12_2 maxNumeric12_2 (ResolveLivingAreaSqft r).
Proof.
  unfold ResolveLivingAreaSqft. pose proof (clampNumeric12_2Ptr_within (at_key r "LivingArea")).
  destruct (clampNumeric12_2Ptr _); [done | apply clampNumeric12_2Ptr_within].
Qed.

Lemma clampBathroomsPtr_within v : within f_zero maxBathroomsDecimal (clampBathroomsPtr v).
Proof.
  unfold clampBathroomsPtr. case_match; [done|]. by apply clampRange_within.
Qed.

Lemma BathroomsTotal_within r : within f_zero maxBathroomsDecimal (BathroomsTotal r).
Proof.
  unfold BathroomsTotal. repeat case_match; try done; apply clampBathroomsPtr_within.
Qed.

Lemma ResolveEstimatedTotalMonthlyFees_within {Fmt : GoFmt} r p u :
  within minNumeric14_2 maxNumeric14_2 (ResolveEstimatedTotalMonthlyFees r p u).
Proof.
  assert (Hw : ∀ o, within minNumeric14_2 maxNumeric14_2 (clampNumeric14_2 <$> o)).
  { intros [v|]; [apply clampNumeric14_2_within | done]. }
  unfold ResolveEstimatedTotalMonthlyFees. destruct p; [|apply Hw].
  pose proof (ClampNumeric14_2Ptr_within (at_key r (ToUpper u +:+ "_TotalMonthlyFees"))).
  unfold positive_fee. destruct (ClampNumeric14_2Ptr _) as [f|]; [|apply Hw].
  destruct (f_lt f_zero f); [done | apply Hw].
Qed.

Lemma BoundedInt16Ptr_int16 v : value_ok v → is_int16 (BoundedInt16Ptr v).
Proof.
  intros Hv. unfold BoundedInt16Ptr. destruct (numericValue v) as [f|] eqn:E; [|done].
  destruct (Hv f E) as [Hwf Hn].
  destruct (f_lt f (f_of_Z (-32768))) eqn:E1; [done|].
  destruct (f_lt (f_of_Z 32767) f) eqn:E2; [done|]. by apply round_Z_int16.
Qed.

#[export] Hint Resolve firstPrice_within ClampNumeric14_2Ptr_within ClampNumeric12_4Ptr_within
  ResolveLivingAreaSqft_within BathroomsTotal_within ResolveEstimatedTotalMonthlyFees_within
  BoundedInt16Ptr_int16 clampNumeric14_2_within : mls.
