(* ===== verification/Payload.v ===== *)
(** * Splitting a Property row into mirror payloads and merging it back

    Models [listing_payload.go] and [listing_media.go] of package [mls]: the navigation
    collections (Media, Unit, Room, OpenHouse) leave [raw_data] for columns of their own,
    unmapped keys are collected in [custom_fields], and [MergeMirrorListing] rebuilds the
    flat object the API returns. *)

From Stdlib Require Import Ascii String.
From stdpp Require Import gmap strings list.
From S2P Require Import Prelude GoStrings GoFloat GoJson MlsFields.

Open Scope string_scope.

(** [json.RawMessage]: nil, or a text ([None] when it does not parse). *)
Inductive RawMessage :=
| RawNil
| RawText (t : text).

Definition raw_of (j : json) : RawMessage := RawText (Some j).

(** [len(raw) > 0] *)
Definition raw_present (r : RawMessage) : bool :=
  match r with RawNil => false | RawText _ => true end.

(** [json.Unmarshal(raw, &m)] into a [map[string]any]: [Ok None] is the nil map [null] leaves. *)
Definition unmarshal_map (r : RawMessage) : res (option row) :=
  match r with
  | RawText (Some (JObj m)) => Ok (Some m)
  | RawText (Some JNull) => Ok None
  | _ => Err "unmarshal"
  end.

(** ** Expand keys *)

Definition defaultSyncExpand : string := "Media,Unit,Room,OpenHouse".
Definition bridgeNavigationExpandDefault : string := "OpenHouses,Rooms,UnitTypes".

Definition ParseExpandKeys (expandCSV : string) : list string :=
  let csv := TrimSpace expandCSV in
  let csv := if bool_decide (csv = EmptyString) then defaultSyncExpand else csv in
  dedup_from ∅ (filter (λ p, p ≠ EmptyString) (TrimSpace <$> Split csv ","%char)).

Definition isBridgeNav (k : string) : bool :=
  bool_decide (k ∈ ["OpenHouses"; "Rooms"; "UnitTypes"]).

Definition BridgeNavigationExpandKeys (bridgeExpandCSV : string) : list string :=
  match filter isBridgeNav (ParseExpandKeys bridgeExpandCSV) with
  | [] => ParseExpandKeys bridgeNavigationExpandDefault
  | nav => nav
  end.

Definition BridgeNavigationExpandCSV (bridgeExpandCSV : string) : string :=
  Join (BridgeNavigationExpandKeys bridgeExpandCSV) ",".

Definition PersistExpandKeys (provider : MirrorProvider) (sparkExpand bridgeExpand : string)
    : list string :=
  match provider with
  | MirrorProviderSpark => ParseExpandKeys sparkExpand
  | MirrorProviderBridge => ParseExpandKeys bridgeExpand
  end.

(** ** Splitting *)

Record ExpandedPayload := mkPayload {
  p_Media : RawMessage;
  p_Unit : RawMessage;
  p_Room : RawMessage;
  p_OpenHouse : RawMessage;
  p_HasMedia : bool;
  p_HasUnit : bool;
  p_HasRoom : bool;
  p_HasOpenHouse : bool;
}.

Definition emptyPayload : ExpandedPayload :=
  mkPayload RawNil RawNil RawNil RawNil false false false false.

Definition setMedia (v : RawMessage) (p : ExpandedPayload) : ExpandedPayload :=
  mkPayload v (p_Unit p) (p_Room p) (p_OpenHouse p) true (p_HasUnit p) (p_HasRoom p) (p_HasOpenHouse p).
Definition setUnit (v : RawMessage) (p : ExpandedPayload) : ExpandedPayload :=
  mkPayload (p_Media p) v (p_Room p) (p_OpenHouse p) (p_HasMedia p) true (p_HasRoom p) (p_HasOpenHouse p).
Definition setRoom (v : RawMessage) (p : ExpandedPayload) : ExpandedPayload :=
  mkPayload (p_Media p) (p_Unit p) v (p_OpenHouse p) (p_HasMedia p) (p_HasUnit p) true (p_HasOpenHouse p).
Definition setOpenHouse (v : RawMessage) (p : ExpandedPayload) : ExpandedPayload :=
  mkPayload (p_Media p) (p_Unit p) (p_Room p) v (p_HasMedia p) (p_HasUnit p) (p_HasRoom p) true.

Definition ExtractJSONBField (r : row) (key : string) : option RawMessage := raw_of <$> r !! key.

Definition ExtractMediaJSON (r : row) : option RawMessage := ExtractJSONBField r "Media".

Definition bridgeAliases : list (string * string) :=
  [("Rooms", "Room"); ("UnitTypes", "Unit"); ("OpenHouses", "OpenHouse")].

(** The row after the call: the code mutates the map it is given. *)
Definition NormalizeBridgeExpandKeys (r : row) : row :=
  foldl (λ m '(bridge, canonical),
           match m !! bridge with
           | Some v => match m !! canonical with
                       | None => <[canonical := v]> m
                       | Some _ => m
                       end
           | None => m
           end) r bridgeAliases.

Definition StripKeysForProvider (provider : MirrorProvider) (expandKeys : list string)
    : list string :=
  match provider with
  | MirrorProviderBridge => expandKeys ++ ["Rooms"; "UnitTypes"; "OpenHouses"]
  | MirrorProviderSpark => expandKeys
  end.

(** The switch of the extraction loop. *)
Definition assignPayload (key : string) (val : RawMessage) (p : ExpandedPayload) : ExpandedPayload :=
  if bool_decide (key = "Media") then setMedia val p
  else if bool_decide (key ∈ ["Unit"; "UnitTypes"]) then setUnit val p
  else if bool_decide (key ∈ ["Room"; "Rooms"]) then setRoom val p
  else if bool_decide (key ∈ ["OpenHouse"; "OpenHouses"]) then setOpenHouse val p
  else p.

Definition extractStep (r : row) (p : ExpandedPayload) (key : string) : ExpandedPayload :=
  match ExtractJSONBField r key with
  | Some val => assignPayload key val p
  | None => p
  end.

(** The three fallbacks for Bridge, tried when the collection was not found. *)
Definition bridgeFallback (r : row) (p : ExpandedPayload) : ExpandedPayload :=
  let try (has : bool) (key : string) (set : RawMessage → ExpandedPayload → ExpandedPayload) p :=
    if has then p
    else match ExtractJSONBField r key with Some val => set val p | None => p end in
  let p := try (p_HasRoom p) "Rooms" setRoom p in
  let p := try (p_HasUnit p) "UnitTypes" setUnit p in
  try (p_HasOpenHouse p) "OpenHouses" setOpenHouse p.

(** The payload and the row as the call leaves it. *)
Definition ExtractExpandedPayloads (r : row) (provider : MirrorProvider) (expandKeys : list string)
    : ExpandedPayload * row :=
  match provider with
  | MirrorProviderSpark => (foldl (extractStep r) emptyPayload expandKeys, r)
  | MirrorProviderBridge =>
      let r' := NormalizeBridgeExpandKeys r in
      (bridgeFallback r' (foldl (extractStep r') emptyPayload expandKeys), r')
  end.

Definition delete_keys (keys : list string) (m : row) : row := foldr delete m keys.

Definition StripJSONBKeysFromRaw (raw : RawMessage) (keys : list string) : RawMessage :=
  if negb (raw_present raw) || bool_decide (keys = []) then raw
  else match unmarshal_map raw with
       | Ok (Some m) =>
           if existsb (λ k, bool_decide (is_Some (m !! k))) keys
           then raw_of (JObj (delete_keys keys m)) else raw
       | _ => raw
       end.

Definition StripMediaFromRaw (raw : RawMessage) : RawMessage := StripJSONBKeysFromRaw raw ["Media"].

Definition mappedScalarFieldNames : gset string :=
  list_to_set ["BathroomsTotalInteger"; "BuildingAreaTotal"; "AssociationFee";
    "AssociationFeeFrequency"; "AssociationFee2"; "AssociationFee2Frequency"; "MlsStatus";
    "ClosePrice"; "DockYN"] ∪ standardResoFieldNames.

(** Whether [custom_fields] keeps a key. *)
Definition isCustomKey (provider : MirrorProvider) (expandKeys : list string) (k : string) : bool :=
  negb (HasPrefix k "@odata") && negb (bool_decide (k ∈ mappedScalarFieldNames)) &&
  negb (bool_decide (k ∈ StripKeysForProvider provider expandKeys)).

Definition BuildCustomFields (r : row) (provider : MirrorProvider) (expandKeys : list string)
    : RawMessage :=
  let out := filter (λ kv, isCustomKey provider expandKeys kv.1) r in
  if bool_decide (out = ∅) then RawNil else raw_of (JObj out).

(** ** Merging

    A write to a nil Go map panics: the error of these results. *)

Definition nil_map_panic : string := "assignment to entry in nil map".

Definition attachJSONB (key : string) (payload : RawMessage) (present : bool) (root : option row)
    : res (option row) :=
  if negb present then Ok root
  else match payload with
       | RawText (Some val) =>
           match root with
           | Some m => Ok (Some (<[key := val]> m))
           | None => Err nil_map_panic
           end
       | _ => Ok root
       end.

Definition flatMergeCustomFields (customFields : RawMessage) (root : option row) : res (option row) :=
  match unmarshal_map customFields with
  | Ok (Some custom) =>
      match root with
      | Some m => Ok (Some (m ∪ custom))
      | None => if bool_decide (custom = ∅) then Ok None else Err nil_map_panic
      end
  | _ => Ok root
  end.

Definition MergeMirrorListing (raw : RawMessage) (payloads : ExpandedPayload)
    (customFields : RawMessage) : res RawMessage :=
  let root := match raw with
              | RawNil => Some ∅
              | _ => match unmarshal_map raw with Ok m => m | Err _ => Some ∅ end
              end in
  res_bind (attachJSONB "Media" (p_Media payloads) (p_HasMedia payloads) root) (λ root,
  res_bind (attachJSONB "Unit" (p_Unit payloads) (p_HasUnit payloads) root) (λ root,
  res_bind (attachJSONB "Room" (p_Room payloads) (p_HasRoom payloads) root) (λ root,
  res_bind (attachJSONB "OpenHouse" (p_OpenHouse payloads) (p_HasOpenHouse payloads) root) (λ root,
  res_bind (flatMergeCustomFields customFields root) (λ root,
  match root with
  | Some m => Ok (if bool_decide (m = ∅) then raw else raw_of (JObj m))
  | None => Ok raw
  end))))).

Definition MergeListingJSON (raw media : RawMessage) : res RawMessage :=
  MergeMirrorListing raw (mkPayload media RawNil RawNil RawNil (raw_present media) false false false)
    RawNil.

(** ** Laws *)

Section PayloadLaws.
Implicit Types (m r : row) (keys : list string).

Lemma lookup_delete_keys keys m k :
  delete_keys keys m !! k = if decide (k ∈ keys) then None else m !! k.
Proof.
  induction keys as [|x l IH]; [by rewrite decide_False by set_solver|].
  change (delete_keys (x :: l) m) with (delete x (delete_keys l m)).
  destruct (decide (x = k)) as [->|Hne].
  - rewrite lookup_delete_eq. rewrite decide_True; set_solver.
  - rewrite lookup_delete_ne, IH by done. repeat case_decide; set_solver.
Qed.

Lemma delete_keys_absent keys m :
  (∀ k, k ∈ keys → m !! k = None) → delete_keys keys m = m.
Proof.
  intros H. apply map_eq; intros k. rewrite lookup_delete_keys.
  case_decide; [symmetry; auto | done].
Qed.

Lemma existsb_present keys m :
  existsb (λ k, bool_decide (is_Some (m !! k))) keys = false →
  ∀ k, k ∈ keys → m !! k = None.
Proof.
  intros H k Hk. destruct (m !! k) as [v|] eqn:E; [|done].
  assert (existsb (λ k, bool_decide (is_Some (m !! k))) keys = true); [|congruence].
  apply existsb_exists. exists k. split; [by apply list_elem_of_In|].
  apply bool_decide_eq_true. by rewrite E.
Qed.

Lemma StripJSONBKeysFromRaw_obj keys m :
  StripJSONBKeysFromRaw (raw_of (JObj m)) keys = raw_of (JObj (delete_keys keys m)).
Proof.
  unfold StripJSONBKeysFromRaw. simpl. case_bool_decide as E; [by subst|].
  destruct (existsb _ _) eqn:Ex; [done|].
  by rewrite (delete_keys_absent keys m); [|by apply existsb_present].
Qed.

(** What the extraction loop leaves in one payload column: the value of a key that only
    one of the configured names selects. *)
Definition field_of (key : string) (p : ExpandedPayload) : option RawMessage :=
  if bool_decide (key = "Media") then if p_HasMedia p then Some (p_Media p) else None
  else if bool_decide (key = "Unit") then if p_HasUnit p then Some (p_Unit p) else None
  else if bool_decide (key = "Room") then if p_HasRoom p then Some (p_Room p) else None
  else if bool_decide (key = "OpenHouse") then if p_HasOpenHouse p then Some (p_OpenHouse p) else None
  else None.

Definition canonicalKeys : list string := ["Media"; "Unit"; "Room"; "OpenHouse"].



Lemma lookup_custom provider keys r k :
  filter (λ kv, isCustomKey provider keys kv.1) r !! k
  = if isCustomKey provider keys k then r !! k else None.
Proof.
  destruct (isCustomKey provider keys k) eqn:E; destruct (r !! k) as [v|] eqn:R.
  - apply map_lookup_filter_Some. split; [done|]. simpl. by rewrite E.
  - apply map_lookup_filter_None. by left.
  - apply map_lookup_filter_None. right. intros x _. simpl. rewrite E. by intros [].
  - apply map_lookup_filter_None. by left.
Qed.

(** The attach step on a non-nil root. *)
Definition attach1 (key : string) (o : option json) m : row :=
  match o with Some v => <[key := v]> m | None => m end.

Definition json_of (raw : option RawMessage) : option json :=
  match raw with Some (RawText t) => t | _ => None end.

Lemma attachJSONB_some key payload (present : bool) m :
  attachJSONB key payload present (Some m)
  = Ok (Some (attach1 key (json_of (if present then Some payload else None)) m)).
Proof. by destruct present, payload as [|[]]. Qed.

(** The custom fields as a map. *)
Definition custom_map (c : RawMessage) : row :=
  match c with RawText (Some (JObj m)) => m | _ => ∅ end.

Lemma flatMergeCustomFields_some c m :
  flatMergeCustomFields c (Some m) = Ok (Some (m ∪ custom_map c)).
Proof.
  by destruct c as [|[[]|]]; simpl; try rewrite map_union_empty.
Qed.

Lemma MergeMirrorListing_obj m p c :
  MergeMirrorListing (raw_of (JObj m)) p c =
  let m' := attach1 "OpenHouse" (json_of (field_of "OpenHouse" p))
            (attach1 "Room" (json_of (field_of "Room" p))
            (attach1 "Unit" (json_of (field_of "Unit" p))
            (attach1 "Media" (json_of (field_of "Media" p)) m))) ∪ custom_map c in
  Ok (if bool_decide (m' = ∅) then raw_of (JObj m) else raw_of (JObj m')).
Proof.
  unfold MergeMirrorListing, unmarshal_map, raw_of. cbv zeta iota beta.
  do 4 (rewrite attachJSONB_some; cbn [res_bind]).
  by rewrite flatMergeCustomFields_some.
Qed.

Lemma lookup_attach1 key o m k :
  attach1 key o m !! k = match o with
                         | Some v => if decide (key = k) then Some v else m !! k
                         | None => m !! k
                         end.
Proof. destruct o; simpl; [apply lookup_insert | done]. Qed.

Lemma custom_map_Build r provider keys :
  custom_map (BuildCustomFields r provider keys)
  = filter (λ kv, isCustomKey provider keys kv.1) r.
Proof. unfold BuildCustomFields. by case_bool_decide as E. Qed.
End PayloadLaws.

(** ** Properties *)

Lemma not_canonical_field k p : k ∉ canonicalKeys → field_of k p = None.
Proof.
  intros Hk. unfold field_of. repeat case_bool_decide; subst; set_solver.
Qed.

Definition attach_all (p : ExpandedPayload) (m : row) : row :=
  attach1 "OpenHouse" (json_of (field_of "OpenHouse" p))
  (attach1 "Room" (json_of (field_of "Room" p))
  (attach1 "Unit" (json_of (field_of "Unit" p))
  (attach1 "Media" (json_of (field_of "Media" p)) m))).

Lemma lookup_attach_all p m k :
  attach_all p m !! k = match json_of (field_of k p) with Some v => Some v | None => m !! k end.
Proof.
  unfold attach_all. rewrite !lookup_attach1.
  destruct (decide (k ∈ canonicalKeys)) as [Hk|Hk].
  - unfold canonicalKeys in Hk. rewrite !elem_of_cons, elem_of_nil in Hk.
    destruct Hk as [->|[->|[->|[->|[]]]]];
      repeat case_match; congruence.
  - rewrite (not_canonical_field k) by done. cbn [json_of].
    repeat case_match; subst; try done; exfalso; apply Hk; by repeat constructor.
Qed.

Lemma merge_lookup m p c :
  ∃ m', MergeMirrorListing (raw_of (JObj m)) p c = Ok (raw_of (JObj m'))
        ∧ ∀ k, m' !! k = match json_of (field_of k p) with
                         | Some v => Some v
                         | None => match m !! k with Some v => Some v | None => custom_map c !! k end
                         end.
Proof.
  rewrite MergeMirrorListing_obj. cbv zeta. fold (attach_all p m).
  exists (attach_all p m ∪ custom_map c). split.
  - case_bool_decide as E; [|done]. f_equal. do 2 f_equal.
    apply map_eq; intros k. pose proof (f_equal (.!! k) E) as Ek. simpl in Ek.
    rewrite lookup_empty, lookup_union, lookup_attach_all in Ek.
    rewrite E, lookup_empty.
    destruct (json_of _), (m !! k), (custom_map c !! k); simpl in Ek; done.
  - intros k. rewrite lookup_union, lookup_attach_all.
    by destruct (json_of _), (m !! k), (custom_map c !! k).
Qed.



Example ParseExpandKeys_default : ParseExpandKeys EmptyString = canonicalKeys.
Proof. vm_compute. reflexivity. Qed.

(** ** Bridge: plural navigation names become the canonical singular ones *)

Definition defaultBridgeExpand : string := "Media,OpenHouses,Rooms,UnitTypes".

Lemma defaultBridgeExpand_keys :
  ParseExpandKeys defaultBridgeExpand = ["Media"; "OpenHouses"; "Rooms"; "UnitTypes"].
Proof. vm_compute. reflexivity. Qed.

Definition alias_of (k : string) : option string :=
  fst <$> find (λ a, bool_decide (a.2 = k)) bridgeAliases.

Definition bridgeNames : list string := bridgeAliases.*1.

(** The flat object of a Bridge row: each plural name renamed to the canonical one. *)
Definition bridgeFlat (m : row) : row :=
  delete_keys bridgeNames
    (attach1 "Room" (m !! "Rooms") (attach1 "Unit" (m !! "UnitTypes")
      (attach1 "OpenHouse" (m !! "OpenHouses") m))).

(** [canonical] filled from [bridge] when it is missing: one turn of the loop. *)
Definition fill (canonical : string) (o : option json) (m : row) : row :=
  match m !! canonical with Some _ => m | None => attach1 canonical o m end.

Lemma lookup_fill c o m k :
  fill c o m !! k = if decide (c = k) then match m !! k with Some v => Some v | None => o end
                    else m !! k.
Proof.
  unfold fill, attach1. case_decide as E.
  - subst. destruct (m !! k) eqn:Ek; [done|]. destruct o; [by rewrite lookup_insert_eq | done].
  - destruct (m !! c); [done|]. destruct o; [by rewrite lookup_insert_ne | done].
Qed.

Lemma lookup_Normalize m k :
  NormalizeBridgeExpandKeys m !! k =
  match m !! k with
  | Some v => Some v
  | None => alias ← alias_of k; m !! alias
  end.
Proof.
  transitivity (fill "OpenHouse" (m !! "OpenHouses") (fill "Unit" (m !! "UnitTypes")
                 (fill "Room" (m !! "Rooms") m)) !! k).
  - f_equal. unfold NormalizeBridgeExpandKeys, bridgeAliases. cbn [foldl].
    assert (step : ∀ m b c, match m !! b with
      | Some v => match m !! c with None => <[c := v]> m | Some _ => m end
      | None => m end = fill c (m !! b) m).
    { intros m0 b c. unfold fill, attach1. by destruct (m0 !! b), (m0 !! c). }
    rewrite !step. rewrite !lookup_fill.
    by repeat (rewrite (decide_False (P := _ = _)) by discriminate).
  - rewrite !lookup_fill. unfold alias_of, bridgeAliases. cbn [find snd].
    destruct (decide ("OpenHouse" = k)) as [<-|H1]; [by destruct (m !! "OpenHouse")|].
    destruct (decide ("Unit" = k)) as [<-|H2]; [by destruct (m !! "Unit")|].
    destruct (decide ("Room" = k)) as [<-|H3]; [by destruct (m !! "Room")|].
    rewrite !bool_decide_eq_false_2 by done. simpl. by destruct (m !! k).
Qed.

Lemma bridge_fields_row r k : k ∈ canonicalKeys →
  field_of k (bridgeFallback r (foldl (extractStep r) emptyPayload
    ["Media"; "OpenHouses"; "Rooms"; "UnitTypes"])) = raw_of <$> r !! (default k (alias_of k)).
Proof.
  intros Hk. cbn [foldl]. unfold extractStep, bridgeFallback, ExtractJSONBField.
  unfold canonicalKeys in Hk. rewrite !elem_of_cons, elem_of_nil in Hk.
  destruct Hk as [->|[->|[->|[->|[]]]]];
    match goal with |- context [default ?k (alias_of ?k)] =>
      let x := eval vm_compute in (default k (alias_of k)) in
      change (default k (alias_of k)) with x end;
    generalize (r !! "Media") (r !! "OpenHouses") (r !! "Rooms") (r !! "UnitTypes");
    intros [] [] [] []; vm_compute; reflexivity.
Qed.

Lemma bridge_fields m k : k ∈ canonicalKeys →
  field_of k (ExtractExpandedPayloads m MirrorProviderBridge (ParseExpandKeys defaultBridgeExpand)).1
  = raw_of <$> m !! (default k (alias_of k)).
Proof.
  intros Hk. rewrite defaultBridgeExpand_keys. cbn [ExtractExpandedPayloads fst].
  rewrite bridge_fields_row by done. f_equal. rewrite lookup_Normalize.
  unfold canonicalKeys in Hk. rewrite !elem_of_cons, elem_of_nil in Hk.
  destruct Hk as [->|[->|[->|[->|[]]]]];
    match goal with |- context [default ?k (alias_of ?k)] =>
      let x := eval vm_compute in (default k (alias_of k)) in
      change (default k (alias_of k)) with x;
      change (alias_of x) with (@None string) end; by destruct (m !! _).
Qed.

Lemma extract_bridge_row m keys :
  (ExtractExpandedPayloads m MirrorProviderBridge keys).2 = NormalizeBridgeExpandKeys m.
Proof. done. Qed.

Lemma alias_cases k :
  (∃ b, alias_of k = Some b ∧ (k, b) ∈ [("Room", "Rooms"); ("Unit", "UnitTypes"); ("OpenHouse", "OpenHouses")])
  ∨ (alias_of k = None ∧ k ≠ "Room" ∧ k ≠ "Unit" ∧ k ≠ "OpenHouse").
Proof.
  unfold alias_of, bridgeAliases. simpl find.
  repeat case_bool_decide; simpl in *; subst;
    try (left; eexists; split; [reflexivity|]; set_solver).
  right. repeat split; congruence.
Qed.

Lemma lookup_bridgeFlat m k :
  bridgeFlat m !! k =
  if decide (k ∈ bridgeNames) then None
  else match alias_of k with
       | Some b => match m !! b with Some v => Some v | None => m !! k end
       | None => m !! k
       end.
Proof.
  unfold bridgeFlat. rewrite lookup_delete_keys. case_decide; [done|].
  rewrite !lookup_attach1.
  destruct (alias_cases k) as [(b & -> & Hb)|(-> & H1 & H2 & H3)].
  - rewrite !elem_of_cons, elem_of_nil in Hb.
    destruct Hb as [[= -> ->]|[[= -> ->]|[[= -> ->]|[]]]]; by repeat case_match.
  - repeat case_match; subst; done.
Qed.

Lemma isCustomKey_stripped provider keys k :
  k ∈ StripKeysForProvider provider keys → isCustomKey provider keys k = false.
Proof. intros H. unfold isCustomKey. rewrite (bool_decide_eq_true_2 _ H). apply andb_false_r. Qed.

(** What the three stored parts give back for one key, whatever [custom_fields] keeps. *)
Lemma bridge_parts_lookup m k (strip : list string) (cust : bool) :
  strip = ["Media"; "OpenHouses"; "Rooms"; "UnitTypes"; "Rooms"; "UnitTypes"; "OpenHouses"] →
  (k ∈ strip → cust = false) →
  match (if decide (k ∈ canonicalKeys) then m !! default k (alias_of k) else None) with
  | Some v => Some v
  | None =>
      match (if decide (k ∈ strip) then None else m !! k) with
      | Some v => Some v
      | None => if cust then NormalizeBridgeExpandKeys m !! k else None
      end
  end = bridgeFlat m !! k.
Proof.
  intros Hs Hcust. rewrite lookup_bridgeFlat, lookup_Normalize.
  destruct (decide (k ∈ canonicalKeys)) as [Hc|Hc].
  - assert (Hn : k ∉ bridgeNames).
    { unfold canonicalKeys in Hc. rewrite !elem_of_cons, elem_of_nil in Hc.
      destruct Hc as [->|[->|[->|[->|[]]]]]; apply (bool_decide_unpack _); vm_compute; exact I. }
    rewrite (decide_False (P := k ∈ bridgeNames)) by done.
    destruct (alias_cases k) as [(b & -> & Hb)|(-> & H1 & H2 & H3)]; cbn [default mbind option_bind].
    + change (id b) with b.
      assert (Hk : k ∉ strip).
      { subst strip. rewrite !elem_of_cons, elem_of_nil in Hb.
        destruct Hb as [[= -> ->]|[[= -> ->]|[[= -> ->]|[]]]];
          apply (bool_decide_unpack _); vm_compute; exact I. }
      rewrite decide_False by done. by destruct (m !! b), (m !! k), cust.
    + destruct (m !! k) as [v|] eqn:Ek; simpl; rewrite ?Ek; simpl; [done|]. by repeat case_match.
  - destruct (alias_cases k) as [(b & Ha & Hb)|(-> & H1 & H2 & H3)].
    { exfalso. apply Hc. rewrite !elem_of_cons, elem_of_nil in Hb.
      destruct Hb as [[= -> ->]|[[= -> ->]|[[= -> ->]|[]]]];
        apply (bool_decide_unpack _); vm_compute; exact I. }
    assert (Hm : k ≠ "Media") by (intros ->; apply Hc; constructor).
    unfold bridgeNames, bridgeAliases. cbn [fmap list_fmap fst mbind option_bind].
    destruct (decide (k ∈ ["Rooms"; "UnitTypes"; "OpenHouses"])) as [Hr|Hr].
    + assert (Hin : k ∈ strip) by (subst strip; rewrite !elem_of_cons in *; intuition).
      rewrite (decide_True _ _ Hin), (Hcust Hin). done.
    + rewrite decide_False by (subst strip; rewrite !elem_of_cons in *; intuition).
      destruct (m !! k); [done|]. by case_match.
Qed.

(** A Bridge row persisted with the default expand list comes back as the same object
    with Rooms, UnitTypes and OpenHouses renamed to Room, Unit and OpenHouse: no key is
    lost, and the plural value wins over a singular one already there. *)
Theorem split_merge_bridge (m : row) :
  let keys := ParseExpandKeys defaultBridgeExpand in
  MergeMirrorListing (StripJSONBKeysFromRaw (raw_of (JObj m)) (StripKeysForProvider MirrorProviderBridge keys))
    (ExtractExpandedPayloads m MirrorProviderBridge keys).1
    (BuildCustomFields (ExtractExpandedPayloads m MirrorProviderBridge keys).2 MirrorProviderBridge keys)
  = Ok (raw_of (JObj (bridgeFlat m))).
Proof.
  intros keys. rewrite StripJSONBKeysFromRaw_obj.
  match goal with |- MergeMirrorListing (raw_of (JObj ?a)) ?b ?c = _ =>
    destruct (merge_lookup a b c) as (m' & -> & Hm') end.
  do 2 f_equal. f_equal. f_equal. apply map_eq; intros k. rewrite Hm'. clear Hm' m'.
  rewrite lookup_delete_keys, custom_map_Build, lookup_custom, extract_bridge_row.
  rewrite <- (bridge_parts_lookup m k (StripKeysForProvider MirrorProviderBridge keys)
    (isCustomKey MirrorProviderBridge keys k)).
  - unfold keys. destruct (decide (k ∈ canonicalKeys)) as [Hc|Hc]; [rewrite bridge_fields by done; by destruct (m !! default k (alias_of k))|].
    by rewrite (not_canonical_field k).
  - unfold keys. by rewrite defaultBridgeExpand_keys.
  - apply isCustomKey_stripped.
Qed.

Lemma custom_canonical k : k ∈ ["Room"; "Unit"; "OpenHouse"] →
  isCustomKey MirrorProviderBridge (ParseExpandKeys defaultBridgeExpand) k = true.
Proof.
  rewrite !elem_of_cons, elem_of_nil.
  intros [->|[->|[->|[]]]]; vm_compute; reflexivity.
Qed.

(** With the default Bridge expand list the canonical copy of a navigation collection is
    not recognised as expanded: [BuildCustomFields] runs on the row [NormalizeBridgeExpandKeys]
    has already written Room, Unit and OpenHouse into, and stores each of them a second time
    in [custom_fields]. *)
Theorem bridge_custom_duplicates_navigation (m : row) (canonical bridge : string) (v : json) :
  (bridge, canonical) ∈ bridgeAliases → m !! bridge = Some v → m !! canonical = None →
  let keys := ParseExpandKeys defaultBridgeExpand in
  let r := ExtractExpandedPayloads m MirrorProviderBridge keys in
  field_of canonical r.1 = Some (raw_of v) ∧
  custom_map (BuildCustomFields r.2 MirrorProviderBridge keys) !! canonical = Some v.
Proof.
  intros Ha Hb Hn keys r. unfold r, keys. rewrite custom_map_Build, lookup_custom.
  rewrite extract_bridge_row, lookup_Normalize, Hn.
  unfold bridgeAliases in Ha. rewrite !elem_of_cons, elem_of_nil in Ha.
  rewrite custom_canonical by set_solver.
  split; [|by destruct Ha as [[= -> ->]|[[= -> ->]|[[= -> ->]|[]]]]; simpl].
  destruct Ha as [[= -> ->]|[[= -> ->]|[[= -> ->]|[]]]];
    rewrite bridge_fields by (unfold canonicalKeys; set_solver); simpl; by rewrite Hb.
Qed.

Theorem bridge_custom_duplicates_navigation_witness :
  let m := {["ListingKey" := JStr "k1"; "Rooms" := JArr [JStr "Kitchen"]]} : row in
  let keys := ParseExpandKeys defaultBridgeExpand in
  let r := ExtractExpandedPayloads m MirrorProviderBridge keys in
  field_of "Room" r.1 = Some (raw_of (JArr [JStr "Kitchen"])) ∧
  custom_map (BuildCustomFields r.2 MirrorProviderBridge keys) !! "Room" = Some (JArr [JStr "Kitchen"]).
Proof.
  cbv zeta.
  apply (bridge_custom_duplicates_navigation _ "Room" "Rooms" (JArr [JStr "Kitchen"])).
  - constructor.
  - reflexivity.
  - reflexivity.
Defined.
