(* ===== verification/Listing.v ===== *)
(** * From a Property row to a mirror record (package [mls], [listing_row.go])

    [BuildListingRecord] decides what the mirror does with an upstream row (upsert, delete or
    skip) and fills every column of the record it upserts. *)

From Stdlib Require Import Ascii String.
From stdpp Require Import gmap strings list.
From S2P Require Import Prelude GoStrings GoTime GoFloat GoJson MlsFields Payload.

Open Scope string_scope.

Inductive RowAction := RowActionUpsert | RowActionDelete | RowActionSkip.
#[export] Instance RowAction_eq_dec : EqDecision RowAction.
Proof. solve_decision. Defined.

Record ListingRecord := mkListing {
  DatasetSlug : string;
  ListingKey : string;
  MlsListingID : option string;
  StandardStatus : option string;
  ListPrice : option float64;
  BedroomsTotal : option Z;
  BathroomsTotalDecimal : option float64;
  LivingArea : option float64;
  LotSizeAcres : option float64;
  YearBuilt : option Z;
  StoriesTotal : option Z;
  City : option string;
  CountyOrParish : option string;
  PostalCode : option string;
  StateOrProvince : option string;
  PropertyType : option string;
  PropertySubType : option string;
  OnMarketDate : option Z;
  CloseDate : option Z;
  ModificationTimestamp : option Z;
  PriceChangeTimestamp : option Z;
  PreviousListPrice : option float64;
  FloodZoneCode : option string;
  LowRiskFloodZoneYN : bool;
  EstimatedTotalMonthlyFees : option float64;
  Latitude : option float64;
  Longitude : option float64;
  WaterfrontYN : option bool;
  PoolPrivateYN : option bool;
  DockYN : option bool;
  NewConstructionYN : option bool;
  GarageYN : option bool;
  AssociationYN : option bool;
  SpaYN : option bool;
  FireplaceYN : option bool;
  SeniorCommunityYN : option bool;
  SubdivisionName : option string;
  ElementarySchool : option string;
  MiddleOrJuniorSchool : option string;
  HighSchool : option string;
  SpecialListingConditions : RawMessage;
  RawData : RawMessage;
  Payloads : ExpandedPayload;   (* Media, Unit, Room, OpenHouse and their Has flags *)
  CustomFields : RawMessage;
  StreetNumber : option string;
  StreetName : option string;
  ListAgentMlsID : option string;
  ListOfficeMlsID : option string;
}.

(** [ListingRecord{DatasetSlug: slug, ListingKey: key}]: every other field its zero value. *)
Definition zeroListing (slug key : string) : ListingRecord :=
  mkListing slug key None None None None None None None None None None None None None None None
    None None None None None None false None None None None None None None None None None None
    None None None None None RawNil RawNil emptyPayload RawNil None None None None.

Section BuildListingRecord.
Context {Fmt : GoFmt}.

Definition statusNorm (r : row) : string :=
  ToLower (TrimSpace (stringValue (at_key r "StandardStatus"))).

(** The upsert branch, past the price guard: [r] is the row as [ExtractExpandedPayloads]
    leaves it, [coords] was read before. *)
Definition fillListing (replicationDataset : string) (provider : MirrorProvider) (r : row)
    (raw : RawMessage) (expandKeys : list string) (listingKey datasetSlug : string)
    (coords : option (float64 * float64)) (payloads : ExpandedPayload) (listPrice : float64)
    : ListingRecord :=
  let datasetUpper := ToUpper replicationDataset in
  let str k := optionalString (at_key r k) in
  let bool k := boolPtr (at_key r k) in
  {| DatasetSlug := datasetSlug;
     ListingKey := listingKey;
     MlsListingID := str "ListingId";
     StandardStatus := str "StandardStatus";
     ListPrice := Some listPrice;
     BedroomsTotal := BoundedInt16Ptr (at_key r "BedroomsTotal");
     BathroomsTotalDecimal := BathroomsTotal r;
     LivingArea := ResolveLivingAreaSqft r;
     LotSizeAcres := ClampNumeric12_4Ptr (at_key r "LotSizeAcres");
     YearBuilt := BoundedInt16Ptr (at_key r "YearBuilt");
     StoriesTotal := BoundedInt16Ptr (at_key r "StoriesTotal");
     City := str "City";
     CountyOrParish := str "CountyOrParish";
     PostalCode := str "PostalCode";
     StateOrProvince := str "StateOrProvince";
     PropertyType := str "PropertyType";
     PropertySubType := str "PropertySubType";
     OnMarketDate := datePtr (at_key r "OnMarketDate");
     CloseDate := datePtr (at_key r "CloseDate");
     ModificationTimestamp := ResolveModificationTimestamp datasetSlug r;
     PriceChangeTimestamp := timestampPtr (at_key r "PriceChangeTimestamp");
     PreviousListPrice := ClampNumeric14_2Ptr (at_key r "PreviousListPrice");
     FloodZoneCode := ResolveFloodZoneCode r provider datasetUpper;
     LowRiskFloodZoneYN := false;
     EstimatedTotalMonthlyFees := ResolveEstimatedTotalMonthlyFees r provider datasetUpper;
     Latitude := fst <$> coords;
     Longitude := snd <$> coords;
     WaterfrontYN := bool "WaterfrontYN";
     PoolPrivateYN := bool "PoolPrivateYN";
     DockYN := bool "DockYN";
     NewConstructionYN := bool "NewConstructionYN";
     GarageYN := bool "GarageYN";
     AssociationYN := bool "AssociationYN";
     SpaYN := bool "SpaYN";
     FireplaceYN := bool "FireplaceYN";
     SeniorCommunityYN := bool "SeniorCommunityYN";
     SubdivisionName := str "SubdivisionName";
     ElementarySchool := str "ElementarySchool";
     MiddleOrJuniorSchool := str "MiddleOrJuniorSchool";
     HighSchool := str "HighSchool";
     SpecialListingConditions := raw_of (specialListingConditions r);
     RawData := StripJSONBKeysFromRaw raw (StripKeysForProvider provider expandKeys);
     Payloads := payloads;
     CustomFields := BuildCustomFields r provider expandKeys;
     StreetNumber := str "StreetNumber";
     StreetName := str "StreetName";
     ListAgentMlsID := str "ListAgentMlsId";
     ListOfficeMlsID := str "ListOfficeMlsId" |}.

Definition BuildListingRecord (replicationDataset : string) (provider : MirrorProvider) (r : row)
    (raw : RawMessage) (expandKeys : list string) : ListingRecord * RowAction :=
  let listingKey := stringValue (at_key r "ListingKey") in
  if bool_decide (listingKey = EmptyString) then (zeroListing EmptyString EmptyString, RowActionSkip)
  else
    let datasetSlug := datasetSlugFromListingKey listingKey replicationDataset in
    if negb (bool_decide (statusNorm r ∈ ["active"; "pending"]))
    then (zeroListing datasetSlug listingKey, RowActionDelete)
    else
      let coords := resolveLatLng r in
      let expandKeys := match expandKeys with [] => ParseExpandKeys EmptyString | _ => expandKeys end in
      let '(payloads, r) := ExtractExpandedPayloads r provider expandKeys in
      match ResolveListPrice r with
      | None => (zeroListing EmptyString EmptyString, RowActionSkip)
      | Some listPrice =>
          (fillListing replicationDataset provider r raw expandKeys listingKey datasetSlug
             coords payloads listPrice, RowActionUpsert)
      end.
End BuildListingRecord.

Section ListingLaws.
Context {Fmt : GoFmt}.

(** The columns of a record the table bounds: NUMERIC(14,2), NUMERIC(12,2), NUMERIC(12,4),
    NUMERIC(5,2) and SMALLINT. *)
Definition columns_fit (rec : ListingRecord) : Prop :=
  within minNumeric14_2 maxNumeric14_2 (ListPrice rec) ∧
  within minNumeric14_2 maxNumeric14_2 (PreviousListPrice rec) ∧
  within minNumeric14_2 maxNumeric14_2 (EstimatedTotalMonthlyFees rec) ∧
  within f_zero maxBathroomsDecimal (BathroomsTotalDecimal rec) ∧
  within minNumeric12_2 maxNumeric12_2 (LivingArea rec) ∧
  within minNumeric12_4 maxNumeric12_4 (LotSizeAcres rec) ∧
  is_int16 (BedroomsTotal rec) ∧ is_int16 (YearBuilt rec) ∧ is_int16 (StoriesTotal rec).

(** Reads of keys that are not aliases are not changed by the normalisation of the row. *)
Lemma at_key_Normalize r k : alias_of k = None → at_key (NormalizeBridgeExpandKeys r) k = at_key r k.
Proof.
  intros Ha. unfold at_key. rewrite lookup_Normalize, Ha. by destruct (r !! k).
Qed.

Lemma ResolveListPrice_Normalize r :
  ResolveListPrice (NormalizeBridgeExpandKeys r) = ResolveListPrice r.
Proof.
  unfold ResolveListPrice. cbn [firstPrice]. by rewrite !at_key_Normalize.
Qed.

Lemma row_ok_Normalize r : row_ok r → row_ok (NormalizeBridgeExpandKeys r).
Proof.
  intros Hr k. unfold at_key. rewrite lookup_Normalize.
  pose proof (Hr k) as Hk. unfold at_key in Hk.
  destruct (r !! k); [done|]. destruct (alias_of k) as [b|]; [|done]. exact (Hr b).
Qed.

Lemma ExtractExpandedPayloads_row r p keys :
  (ExtractExpandedPayloads r p keys).2
  = match p with MirrorProviderBridge => NormalizeBridgeExpandKeys r | MirrorProviderSpark => r end.
Proof. by destruct p. Qed.

Lemma BuildListingRecord_cases ds p r raw keys :
  let key := stringValue (at_key r "ListingKey") in
  let slug := datasetSlugFromListingKey key ds in
  (BuildListingRecord ds p r raw keys) =
  if bool_decide (key = EmptyString) then (zeroListing EmptyString EmptyString, RowActionSkip)
  else if negb (bool_decide (statusNorm r ∈ ["active"; "pending"]))
       then (zeroListing slug key, RowActionDelete)
  else match ResolveListPrice r with
       | None => (zeroListing EmptyString EmptyString, RowActionSkip)
       | Some price =>
           let keys := match keys with [] => ParseExpandKeys EmptyString | _ => keys end in
           (fillListing ds p (ExtractExpandedPayloads r p keys).2 raw keys key slug (resolveLatLng r)
              (ExtractExpandedPayloads r p keys).1 price, RowActionUpsert)
       end.
Proof.
  intros key slug. unfold BuildListingRecord. fold key slug.
  case_bool_decide; [done|]. case_match; [done|].
  destruct (ExtractExpandedPayloads r p _) as [pl r'] eqn:E.
  assert (Hr : ResolveListPrice r' = ResolveListPrice r).
  { pose proof (ExtractExpandedPayloads_row r p
      (match keys with [] => ParseExpandKeys EmptyString | _ => keys end)) as H'.
    rewrite E in H'. simpl in H'. rewrite H'.
    destruct p; [apply ResolveListPrice_Normalize | done]. }
  rewrite Hr. by destruct (ResolveListPrice r).
Qed.


(** C17 Every number of an upserted record fits its column, so the upsert cannot fail with a
    numeric overflow: prices and fees NUMERIC(14,2), living area NUMERIC(12,2), lot size
    NUMERIC(12,4), bathrooms between 0 and 99.99, and the three SMALLINT columns int16. *)
Theorem BuildListingRecord_columns_fit ds p r raw keys rec :
  row_ok r → BuildListingRecord ds p r raw keys = (rec, RowActionUpsert) → columns_fit rec.
Proof.
  intros Hr. rewrite BuildListingRecord_cases. do 2 (case_match; [done|]).
  destruct (ResolveListPrice r) as [price|] eqn:Hp; [|done]. intros [= <-].
  assert (Hr' : row_ok (ExtractExpandedPayloads r p
    (match keys with [] => ParseExpandKeys EmptyString | _ => keys end)).2).
  { rewrite ExtractExpandedPayloads_row. destruct p; [by apply row_ok_Normalize | done]. }
  pose proof (firstPrice_within ["ListPrice"; "PreviousListPrice"; "OriginalListPrice"] r) as Hw.
  fold (ResolveListPrice r) in Hw. rewrite Hp in Hw.
  unfold columns_fit, fillListing; simpl.
  repeat split_and; auto with mls; apply Hw.
Qed.
End ListingLaws.

#[local] Instance sprint_empty : GoFmt := λ _, EmptyString.

Lemma row_ok_sample :
  row_ok {["ListingKey" := JStr "stellar:1"; "StandardStatus" := JStr " Active ";
           "ListPrice" := JNum (NFlt (f_of_Z 450000))]}.
Proof.
  intros k f. unfold at_key.
  destruct (decide (k = "ListPrice")) as [->|H1]; [|].
  - intros [= <-]. split; vm_compute; reflexivity.
  - rewrite !lookup_insert. repeat case_decide; subst; try done.
    rewrite lookup_singleton. by case_decide.
Qed.

Theorem BuildListingRecord_columns_fit_witness :
  ∃ rec, BuildListingRecord "stellar" MirrorProviderBridge
           {["ListingKey" := JStr "stellar:1"; "StandardStatus" := JStr " Active ";
             "ListPrice" := JNum (NFlt (f_of_Z 450000))]} RawNil [] = (rec, RowActionUpsert)
         ∧ columns_fit rec.
Proof.
  eexists. split; [vm_compute; reflexivity|].
  eapply (BuildListingRecord_columns_fit "stellar" MirrorProviderBridge _ RawNil []).
  - exact row_ok_sample.
  - vm_compute. reflexivity.
Defined.
