(* ===== verification/Config.v ===== *)
(** * Configuration from the environment (package [config])

    [Load] and its readers, section by section. The environment is a function from names to
    values, empty when unset ([os.Getenv]); a duration is a number of nanoseconds. *)

From Stdlib Require Import Ascii String.
From stdpp Require Import gmap strings list.
From S2P Require Import Prelude GoStrings GoTime GoFloat GoNum.

Open Scope Z_scope.
Open Scope string_scope.

(** ** Reading the environment *)

Section Env.
Context (Getenv : string → string).

Definition env (key def : string) : string :=
  let v := Getenv key in if bool_decide (v = EmptyString) then def else v.

Definition envBool (key : string) (def : bool) : bool :=
  let v := Getenv key in
  if bool_decide (v = EmptyString) then def else default def (ParseBool v).

Definition envInt (key : string) (def : Z) : Z :=
  let v := Getenv key in
  if bool_decide (v = EmptyString) then def else default def (Atoi v).

Definition envMirrorRollingMonths : Z :=
  let v := Getenv "MLS_LOCAL_MIRROR_ROLLING_MONTHS" in
  match (if bool_decide (v = EmptyString) then None else Atoi v) with
  | Some n => n
  | None =>
      let app := env "APP_ENV" "local" in
      if bool_decide (app = "production") then 0
      else if bool_decide (app = "staging") then 3
      else 12
  end.

Definition envFloat (key : string) (def : float64) : float64 :=
  let v := Getenv key in
  if bool_decide (v = EmptyString) then def else default def (ParseFloat v).

(** Plain numbers are seconds. *)
Definition envDuration (key : string) (def : Z) : Z :=
  let v := Getenv key in
  if bool_decide (v = EmptyString) then def
  else match Atoi v with
       | Some secs => wrap64 (secs * second)
       | None => default def (ParseDuration v)
       end.

Definition splitCSV (s : string) : list string :=
  if bool_decide (s = EmptyString) then []
  else filter (λ p, p ≠ EmptyString) (TrimSpace <$> Split s ","%char).

Fixpoint firstNonEmpty (vals : list string) : string :=
  match vals with
  | [] => EmptyString
  | v :: r => if bool_decide (v = EmptyString) then firstNonEmpty r else v
  end.

Definition envSyncExpand : string :=
  firstNonEmpty [env "MLS_SYNC_EXPAND" EmptyString; env "SPARK_SYNC_EXPAND" EmptyString;
                 "Media,Unit,Room,OpenHouse"].

Definition envBridgeSyncExpand : string :=
  firstNonEmpty [env "BRIDGE_SYNC_EXPAND" EmptyString; env "MLS_SYNC_EXPAND" EmptyString;
                 "Media,OpenHouses,Rooms,UnitTypes"].

Definition envSchedulerLeaderLockKey : Z :=
  let v := TrimSpace (env "SCHEDULER_LEADER_LOCK_ID" EmptyString) in
  if bool_decide (v = EmptyString) then 913374211
  else default 913374211 (Atoi v).

Definition envPatroniHosts : list string :=
  filter (λ p, p ≠ EmptyString)
    (TrimSpace <$> Split (env "PATRONI_ENDPOINTS" "100.126.103.51,100.114.117.46,100.115.75.119") ","%char).

Definition defaultDBSSLMode : string :=
  let v := Getenv "DB_SSLMODE" in
  if negb (bool_decide (v = EmptyString)) then v
  else
    let host := TrimSpace (env "DB_HOST" "127.0.0.1") in
    if bool_decide (host ∈ [EmptyString; "127.0.0.1"; "localhost"; "postgres"; "::1"])
    then "disable" else "require".
End Env.

(** ** The sections *)

Record AppConfig := mkAppConfig {
  app_Name : string;
  app_Env : string;
  app_Debug : bool;
  app_Port : string;
  app_LogJSON : bool;
}.

Record DBConfig := mkDBConfig {
  db_Host : string;
  db_Port : string;
  db_Database : string;
  db_User : string;
  db_Password : string;
  db_SSLMode : string;
  db_RWDSN : string;
  db_ReadOnlyBaseDSN : string;
  db_PatroniHosts : list string;
}.

Record QueueConfig := mkQueueConfig {
  q_Table : string;
  q_PollInterval : Z;
  q_WorkerQueues : list string;
  q_RetryAfter : Z;
  q_ReservationTimeout : Z;
  q_NotifyChannel : string;
}.

Record IdxURLsConfig := mkIdxURLsConfig {
  idx_PlatformURL : string;
  idx_APIPublic : string;
  idx_ImagesPublic : string;
  idx_PlatformHosts : list string;
  idx_APIHosts : list string;
}.

Record BridgeConfig := mkBridgeConfig {
  br_APIKey : string;
  br_Host : string;
  br_Dataset : string;
  br_PathPrefix : string;
  br_ResoRoot : string;
  br_ListingPhotoPath : string;
  br_Timeout : Z;
  br_Datasets : list string;
  br_ListingsCacheTTL : Z;
  br_LookupCacheTTL : Z;
  br_SyncFetchQueue : string;
  br_SyncPersistQueue : string;
  br_SyncPersistChunk : Z;
  br_SyncUpsertChunk : Z;
  br_SyncReplicationTop : Z;
  br_SyncIncrementalTop : Z;
  br_SyncIncludeMedia : bool;
  br_SyncFullProperty : bool;
  br_SyncNavHydrateAfterReplication : bool;
  br_SyncExpand : string;
  br_SyncMaxChainedFetch : Z;
  br_SyncMaxRequestsPerSecond : Z;
  br_SyncMaxHTTPRetries : Z;
  br_ImageRewriteHosts : list string;
}.

Record SparkConfig := mkSparkConfig {
  sp_AccessToken : string;
  sp_ReplicationHost : string;
  sp_ReplicationReso : string;
  sp_APIHost : string;
  sp_APIVersion : string;
  sp_LiveResoRoot : string;
  sp_Datasets : list string;
  sp_Timeout : Z;
  sp_SyncFetchQueue : string;
  sp_SyncPersistQueue : string;
  sp_SyncPersistChunk : Z;
  sp_SyncUpsertChunk : Z;
  sp_SyncReplicationTop : Z;
  sp_SyncIncrementalTop : Z;
  sp_SyncExpand : string;
  sp_SyncMaxChainedFetch : Z;
}.

Record MLSConfig := mkMLSConfig {
  mls_LocalMirrorRollingMonths : Z;
  mls_ReplicaPageRetentionHours : Z;
  mls_ReplicaPageFailedRetentionDays : Z;
  mls_ProxyCacheRetentionDays : Z;
  mls_ReplicationFreshnessMinutes : Z;
  mls_StellarEnabled : bool;
  mls_StellarPersistChunk : Z;
  mls_BeachesEnabled : bool;
  mls_BeachesPersistChunk : Z;
  mls_SyncExpand : string;
  mls_SyncReplicationExpand : string;
  mls_SyncKickoffQueue : string;
}.

Record GISConfig := mkGISConfig {
  gis_EdgeCacheTTL : Z;
  gis_OriginMaxDaysPrimary : Z;
  gis_OriginMaxDaysCounty : Z;
  gis_TeaserMaxFeatures : Z;
  gis_TeaserCoordDecimals : Z;
  gis_MaxBboxSpanDeg : float64;
  gis_MaxFeatures : Z;
  gis_SyncPageSize : Z;
  gis_SyncUpsertChunk : Z;
  gis_HTTPTimeout : Z;
  gis_SyncQueue : string;
  gis_SyncPinellasEnterprise : bool;
  gis_FloridaMLSCodes : list string;
  gis_Queue : string;
  gis_BoundaryStaleDays : Z;
}.

Record ImageCacheConfig := mkImageCacheConfig {
  img_Path : string;
  img_TTL : Z;
}.

Record AuthConfig := mkAuthConfig {
  auth_SessionLifetime : Z;
  auth_InvitationTTL : Z;
  auth_TurnstileSite : string;
  auth_TurnstileSecret : string;
  auth_AdminSeedEmail : string;
  auth_AdminSeedPass : string;
  auth_AdminSeedName : string;
}.

Record GeocodeConfig := mkGeocodeConfig {
  geo_GoogleMapsAPIKey : string;
  geo_HTTPTimeout : Z;
}.

Record CoingeckoConfig := mkCoingeckoConfig {
  cg_APIKey : string;
  cg_BaseURL : string;
  cg_CacheTTL : Z;
  cg_Queue : string;
  cg_HTTPTimeout : Z;
}.

Record FEMAConfig := mkFEMAConfig {
  fema_NFHLBaseURL : string;
  fema_NFHLLayerID : Z;
  fema_EnrichBatchSize : Z;
  fema_FloodStaleDays : Z;
  fema_MaxRequestsPerSecond : Z;
  fema_HTTPTimeout : Z;
  fema_UserAgent : string;
  fema_EnrichQueue : string;
  fema_CircuitFailThreshold : Z;
}.

Record CompsConfig := mkCompsConfig {
  comps_ClosedCacheDays : Z;
  comps_ClosedCacheMinHits : Z;
}.

Record SchedulerConfig := mkSchedulerConfig {
  sch_LeaderLockKey : Z;
  sch_StandbyPollInterval : Z;
}.

Record Config := mkConfig {
  cfg_App : AppConfig;
  cfg_DB : DBConfig;
  cfg_Queue : QueueConfig;
  cfg_Idx : IdxURLsConfig;
  cfg_Bridge : BridgeConfig;
  cfg_Spark : SparkConfig;
  cfg_MLS : MLSConfig;
  cfg_GIS : GISConfig;
  cfg_Images : ImageCacheConfig;
  cfg_Auth : AuthConfig;
  cfg_Geocode : GeocodeConfig;
  cfg_Coingecko : CoingeckoConfig;
  cfg_FEMA : FEMAConfig;
  cfg_Comps : CompsConfig;
  cfg_Scheduler : SchedulerConfig;
}.

(** The connection strings. *)
Definition DSN (d : DBConfig) : string :=
  "postgres://" +:+ db_User d +:+ ":" +:+ db_Password d +:+ "@" +:+ db_Host d +:+ ":" +:+ db_Port d +:+
  "/" +:+ db_Database d +:+ "?sslmode=" +:+ db_SSLMode d.

Definition RWDSNOrDefault (d : DBConfig) : string :=
  if negb (bool_decide (TrimSpace (db_RWDSN d) = EmptyString)) then TrimSpace (db_RWDSN d) else DSN d.

Section Load.
Context (Getenv : string → string).
#[local] Notation env := (env Getenv).
#[local] Notation envInt := (envInt Getenv).
#[local] Notation envBool := (envBool Getenv).
#[local] Notation envFloat := (envFloat Getenv).
#[local] Notation envDuration := (envDuration Getenv).

(** [strconv.Atoi(env(k, d))] with the error dropped: zero when it does not parse. A value
    out of range, where Go keeps the nearest bound, is not distinguished. *)
Definition atoiEnv (key def : string) : Z := default 0 (Atoi (env key def)).

Definition loadApp : AppConfig :=
  let port := env "APP_PORT" "8000" in
  let port := if bool_decide (port = EmptyString) then "8000" else port in
  {| app_Name := env "APP_NAME" "Quantyra IDX API";
     app_Env := env "APP_ENV" "local";
     app_Debug := envBool "APP_DEBUG" true;
     app_Port := port;
     app_LogJSON := bool_decide (env "LOG_FORMAT" EmptyString = "json") || bool_decide (env "APP_ENV" "local" = "production") |}.

Definition loadDB : DBConfig :=
  {| db_Host := env "DB_HOST" "127.0.0.1";
     db_Port := env "DB_PORT" "5432";
     db_Database := env "DB_DATABASE" "idx_api";
     db_User := env "DB_USERNAME" "postgres";
     db_Password := env "DB_PASSWORD" EmptyString;
     db_SSLMode := defaultDBSSLMode Getenv;
     db_RWDSN := env "DB_RW_DSN" EmptyString;
     db_ReadOnlyBaseDSN := env "DB_READONLY_BASE_DSN" EmptyString;
     db_PatroniHosts := envPatroniHosts Getenv |}.

Definition loadQueue : QueueConfig :=
  let pollMs := atoiEnv "QUEUE_POLL_INTERVAL_MS" "1000" in
  let retryAfter := atoiEnv "DB_QUEUE_RETRY_AFTER" "120" in
  let reservationTimeout := atoiEnv "DB_QUEUE_RESERVATION_TIMEOUT" "3600" in
  {| q_Table := env "DB_QUEUE_TABLE" "jobs";
     q_PollInterval := wrap64 (pollMs * 1000000);
     q_WorkerQueues := match splitCSV (env "WORKER_QUEUES" "default,sync-kickoff,bridge-sync-fetch,bridge-sync-persist,spark-sync-fetch,spark-sync-persist") with [] => ["default"] | queues => queues end;
     q_RetryAfter := wrap64 (retryAfter * second);
     q_ReservationTimeout := wrap64 (reservationTimeout * second);
     q_NotifyChannel := env "QUEUE_NOTIFY_CHANNEL" "idx_jobs_wakeup" |}.

Definition loadIdx : IdxURLsConfig :=
  {| idx_PlatformURL := firstNonEmpty [env "IDX_PLATFORM_URL" EmptyString; env "APP_URL" "http://localhost:8000"];
     idx_APIPublic := firstNonEmpty [env "IDX_API_PUBLIC_URL" EmptyString; env "API_URL" EmptyString; env "APP_URL" "http://localhost:8000"];
     idx_ImagesPublic := firstNonEmpty [env "IDX_IMAGES_PUBLIC_URL" EmptyString; env "IMAGE_URL" "http://localhost:8080"];
     idx_PlatformHosts := splitCSV (env "IDX_PLATFORM_HOSTS" "localhost");
     idx_APIHosts := splitCSV (env "IDX_API_HOSTS" "localhost") |}.

Definition loadBridge : BridgeConfig :=
  {| br_APIKey := env "BRIDGE_API_KEY" EmptyString;
     br_Host := env "BRIDGE_HOST" "https://api.bridgedataoutput.com";
     br_Dataset := env "BRIDGE_DATASET" "stellar";
     br_PathPrefix := env "BRIDGE_PATH_PREFIX" "api/v2";
     br_ResoRoot := env "BRIDGE_RESO_ROOT" "reso/odata";
     br_ListingPhotoPath := env "BRIDGE_LISTING_PHOTO_PATH" "/api/v2/{dataset}/listings/{listingKey}/photos/{photoId}";
     br_Timeout := envDuration "BRIDGE_TIMEOUT" (30 * second);
     br_Datasets := splitCSV (env "BRIDGE_DATASETS" "stellar");
     br_ListingsCacheTTL := envDuration "LISTINGS_CACHE_TTL" (900 * second);
     br_LookupCacheTTL := envDuration "MLS_LOOKUP_CACHE_TTL" (720 * hour);
     br_SyncFetchQueue := env "BRIDGE_SYNC_FETCH_QUEUE" "bridge-sync-fetch";
     br_SyncPersistQueue := env "BRIDGE_SYNC_PERSIST_QUEUE" "bridge-sync-persist";
     br_SyncPersistChunk := envInt "BRIDGE_SYNC_PERSIST_JOB_CHUNK" 75;
     br_SyncUpsertChunk := envInt "BRIDGE_SYNC_UPSERT_CHUNK" 375;
     br_SyncMaxRequestsPerSecond := envInt "BRIDGE_SYNC_MAX_REQUESTS_PER_SECOND" 2;
     br_SyncMaxHTTPRetries := envInt "BRIDGE_SYNC_MAX_HTTP_RETRIES" 4;
     br_SyncReplicationTop := envInt "BRIDGE_SYNC_REPLICATION_TOP" 2000;
     br_SyncIncrementalTop := envInt "BRIDGE_SYNC_INCREMENTAL_TOP" 200;
     br_SyncIncludeMedia := envBool "BRIDGE_SYNC_INCLUDE_MEDIA" true;
     br_SyncFullProperty := envBool "BRIDGE_SYNC_FULL_PROPERTY" true;
     br_SyncNavHydrateAfterReplication := envBool "BRIDGE_SYNC_NAV_HYDRATE_AFTER_REPLICATION" true;
     br_SyncExpand := envBridgeSyncExpand Getenv;
     br_SyncMaxChainedFetch := envInt "BRIDGE_SYNC_MAX_CHAINED_FETCH_PAGES" 0;
     br_ImageRewriteHosts := splitCSV (env "BRIDGE_IMAGE_REWRITE_HOSTS" EmptyString) |}.

Definition loadSpark : SparkConfig :=
  {| sp_AccessToken := firstNonEmpty [env "SPARK_ACCESS_TOKEN" EmptyString; env "SPARK_API_KEY" EmptyString];
     sp_ReplicationHost := env "SPARK_REPLICATION_HOST" "https://replication.sparkapi.com";
     sp_ReplicationReso := env "SPARK_REPLICATION_RESO_ROOT" "Reso/OData";
     sp_APIHost := env "SPARK_API_HOST" "https://sparkapi.com";
     sp_APIVersion := env "SPARK_API_VERSION" "v1";
     sp_LiveResoRoot := env "SPARK_LIVE_RESO_ROOT" "Reso/OData";
     sp_Datasets := splitCSV (env "SPARK_DATASETS" "beaches");
     sp_Timeout := envDuration "SPARK_TIMEOUT" (30 * second);
     sp_SyncFetchQueue := env "SPARK_SYNC_FETCH_QUEUE" "spark-sync-fetch";
     sp_SyncPersistQueue := env "SPARK_SYNC_PERSIST_QUEUE" "spark-sync-persist";
     sp_SyncPersistChunk := envInt "SPARK_SYNC_PERSIST_JOB_CHUNK" 50;
     sp_SyncUpsertChunk := envInt "MLS_BEACHES_UPSERT_CHUNK_SIZE" (envInt "SPARK_SYNC_UPSERT_CHUNK" 375);
     sp_SyncReplicationTop := envInt "SPARK_SYNC_REPLICATION_TOP" 1000;
     sp_SyncIncrementalTop := envInt "SPARK_SYNC_INCREMENTAL_TOP" 1000;
     sp_SyncExpand := envSyncExpand Getenv;
     sp_SyncMaxChainedFetch := envInt "SPARK_SYNC_MAX_CHAINED_FETCH_PAGES" 0 |}.

Definition loadMLS : MLSConfig :=
  {| mls_LocalMirrorRollingMonths := envMirrorRollingMonths Getenv;
     mls_ReplicaPageRetentionHours := envInt "MLS_REPLICA_PAGE_RETENTION_HOURS" 24;
     mls_ReplicaPageFailedRetentionDays := envInt "MLS_REPLICA_PAGE_FAILED_RETENTION_DAYS" 7;
     mls_ProxyCacheRetentionDays := envInt "MLS_PROXY_CACHE_RETENTION_DAYS" 30;
     mls_ReplicationFreshnessMinutes := envInt "MLS_REPLICATION_FRESHNESS_MINUTES" 15;
     mls_StellarEnabled := envBool "MLS_STELLAR_ENABLED" true;
     mls_StellarPersistChunk := envInt "MLS_STELLAR_PERSIST_CHUNK_SIZE" 75;
     mls_BeachesEnabled := envBool "MLS_BEACHES_ENABLED" true;
     mls_BeachesPersistChunk := envInt "MLS_BEACHES_PERSIST_CHUNK_SIZE" 50;
     mls_SyncExpand := envSyncExpand Getenv;
     mls_SyncReplicationExpand := env "MLS_SYNC_REPLICATION_EXPAND" EmptyString;
     mls_SyncKickoffQueue := env "MLS_SYNC_KICKOFF_QUEUE" "sync-kickoff" |}.

Definition loadGIS : GISConfig :=
  {| gis_EdgeCacheTTL := envDuration "GIS_EDGE_CACHE_TTL" (900 * second);
     gis_OriginMaxDaysPrimary := envInt "GIS_ORIGIN_MAX_DAYS_PRIMARY" 90;
     gis_OriginMaxDaysCounty := envInt "GIS_ORIGIN_MAX_DAYS_COUNTY" 30;
     gis_TeaserMaxFeatures := envInt "GIS_TEASER_MAX_FEATURES" 40;
     gis_TeaserCoordDecimals := envInt "GIS_TEASER_COORD_DECIMALS" 4;
     gis_MaxBboxSpanDeg := envFloat "GIS_MAX_BBOX_SPAN_DEG" (f_dec 35 2);
     gis_MaxFeatures := envInt "GIS_MAX_FEATURES" 500;
     gis_SyncPageSize := envInt "GIS_SYNC_PAGE_SIZE" 2000;
     gis_SyncUpsertChunk := envInt "GIS_SYNC_UPSERT_CHUNK" 500;
     gis_HTTPTimeout := envDuration "GIS_HTTP_TIMEOUT" (120 * second);
     gis_SyncQueue := env "GIS_SYNC_QUEUE" "default";
     gis_SyncPinellasEnterprise := envBool "GIS_SYNC_PINELLAS_ENTERPRISE" false;
     gis_FloridaMLSCodes := splitCSV (env "GIS_FLORIDA_MLS_CODES" "stellar");
     gis_Queue := env "GIS_QUEUE" "default";
     gis_BoundaryStaleDays := envInt "GIS_BOUNDARY_STALE_DAYS" 90 |}.

Definition loadImages : ImageCacheConfig :=
  {| img_Path := env "IMAGE_CACHE_PATH" "/var/cache/geoidx/images";
     img_TTL := envDuration "IMAGE_CACHE_TTL" (86400 * second) |}.

Definition loadAuth : AuthConfig :=
  {| auth_SessionLifetime := envDuration "SESSION_LIFETIME" (120 * minute);
     auth_InvitationTTL := wrap64 ((envInt "IDX_INVITATION_TTL_HOURS" 168) * hour);
     auth_TurnstileSite := env "CLOUDFLARE_TURNSTILE_SITE_KEY" EmptyString;
     auth_TurnstileSecret := env "CLOUDFLARE_TURNSTILE_SECRET_KEY" EmptyString;
     auth_AdminSeedEmail := env "ADMIN_SEED_EMAIL" EmptyString;
     auth_AdminSeedPass := env "ADMIN_SEED_PASSWORD" EmptyString;
     auth_AdminSeedName := firstNonEmpty [env "ADMIN_SEED_NAME" EmptyString; "Quantyra Admin"] |}.

Definition loadGeocode : GeocodeConfig :=
  {| geo_GoogleMapsAPIKey := env "GOOGLE_MAPS_GEOCODING_API_KEY" EmptyString;
     geo_HTTPTimeout := envDuration "GEOCODING_TIMEOUT" (12 * second) |}.

Definition loadCoingecko : CoingeckoConfig :=
  {| cg_APIKey := env "COINGECKO_API_KEY" EmptyString;
     cg_BaseURL := env "COINGECKO_BASE_URL" "https://api.coingecko.com/api/v3";
     cg_CacheTTL := envDuration "COINGECKO_CACHE_TTL_SECONDS" (1200 * second);
     cg_Queue := env "COINGECKO_QUEUE" "default";
     cg_HTTPTimeout := envDuration "COINGECKO_HTTP_TIMEOUT" (12 * second) |}.

Definition loadFEMA : FEMAConfig :=
  {| fema_NFHLBaseURL := env "FEMA_NFHL_BASE_URL" "https://hazards.fema.gov/arcgis/rest/services/public/NFHL/MapServer";
     fema_NFHLLayerID := envInt "FEMA_NFHL_LAYER_ID" 28;
     fema_EnrichBatchSize := envInt "FEMA_FLOOD_ENRICH_BATCH_SIZE" 2000;
     fema_FloodStaleDays := envInt "FEMA_FLOOD_STALE_DAYS" 30;
     fema_MaxRequestsPerSecond := envInt "FEMA_MAX_REQUESTS_PER_SECOND" 8;
     fema_HTTPTimeout := envDuration "FEMA_HTTP_TIMEOUT" (15 * second);
     fema_UserAgent := firstNonEmpty [env "FEMA_USER_AGENT" EmptyString; "Quantyra-IDX-API/1.0 (+https://quantyralabs.com)"];
     fema_EnrichQueue := env "FEMA_ENRICH_QUEUE" "default";
     fema_CircuitFailThreshold := envInt "FEMA_CIRCUIT_FAIL_THRESHOLD" 5 |}.

Definition loadComps : CompsConfig :=
  {| comps_ClosedCacheDays := envInt "COMPS_CLOSED_CACHE_DAYS" 30;
     comps_ClosedCacheMinHits := envInt "COMPS_CLOSED_CACHE_MIN_HITS" 3 |}.

Definition loadScheduler : SchedulerConfig :=
  {| sch_LeaderLockKey := envSchedulerLeaderLockKey Getenv;
     sch_StandbyPollInterval := wrap64 ((envInt "SCHEDULER_STANDBY_POLL_SECONDS" 15) * second) |}.

Definition Load : Config := mkConfig loadApp loadDB loadQueue loadIdx loadBridge loadSpark loadMLS loadGIS loadImages loadAuth loadGeocode loadCoingecko loadFEMA loadComps loadScheduler.
End Load.

(** The configuration of an empty environment. *)
Definition defaultConfig : Config := Eval vm_compute in Load (λ _, EmptyString).
