(* ===== verification/Replica.v ===== *)
(** * Read replicas (package [db], [replica_selector.go])

    Discovery of the running Patroni replicas, their pools, the latency probes with the
    circuit breaker of each replica, and the choice of a pool for a read. A connection pool
    is a handle; what the Patroni API, the probes and the pings answer are parameters. The
    locks make each operation atomic; the probe loop repeats [runProbeCycle] until [Close]. *)

From Stdlib Require Import Ascii String Floats.SpecFloat.
From stdpp Require Import gmap strings list sorting.
From S2P Require Import Prelude GoStrings GoTime GoFloat GoJson.

Open Scope Z_scope.
Open Scope string_scope.

(** ** Members of the cluster *)

Record patroniMember := mkMember {
  pm_Name : string;
  pm_Role : string;
  pm_State : string;
  pm_Host : string;
  pm_Port : Z;
}.

Definition decodeMember (j : json) : option patroniMember :=
  with_object j (λ m,
    n ← dec_string (m !! "name"); r ← dec_string (m !! "role"); s ← dec_string (m !! "state");
    h ← dec_string (m !! "host"); p ← dec_int (m !! "port");
    Some (mkMember n r s h p)).

Definition patroniCluster (body : text) : option (list patroniMember) :=
  j ← body;
  with_object j (λ m,
    match m !! "members" with
    | None | Some JNull => Some []
    | Some (JArr l) => mapM decodeMember l
    | Some _ => None
    end).

(** The answer of GET http://host:8008/cluster. *)
Inductive patroni_reply := PatroniDown (e : string) | PatroniReply (status : Z) (body : text).

Definition fetchPatroniCluster (r : patroni_reply) : res (list patroniMember) :=
  match r with
  | PatroniDown e => Err e
  | PatroniReply status body =>
      if negb (status =? 200)%Z then Err "patroni status"
      else match patroniCluster body with
           | Some l => Ok l
           | None => Err "decode patroni cluster"
           end
  end.

Definition running_replica (m : patroniMember) : bool :=
  EqualFold (pm_Role m) "replica" && EqualFold (pm_State m) "running" &&
  negb (bool_decide (pm_Host m = EmptyString)).

Definition filterRunningReplicas (members : list patroniMember) : list patroniMember :=
  filter (λ m, running_replica m = true) members.

(** The first Patroni host that answers. *)
Fixpoint discover (cluster : string → patroni_reply) (lastErr : string) (hosts : list string)
    : res (list patroniMember) :=
  match hosts with
  | [] => Err lastErr
  | h :: r => match fetchPatroniCluster (cluster h) with
              | Ok members => Ok (filterRunningReplicas members)
              | Err e => discover cluster e r
              end
  end.

Definition discoverReplicas (cluster : string → patroni_reply) (hosts : list string) : res (list patroniMember) :=
  discover cluster "no patroni hosts configured" hosts.

(** ** One replica *)

Definition pool : Type := nat.

Record replicaEntry := mkEntry {
  re_name : string;
  re_pool : option pool;
  re_latencyMs : Z;      (* thousandths of a millisecond *)
  re_healthy : bool;
  re_failures : Z;
  re_successes : Z;
}.

Definition latencyFloat (e : replicaEntry) : float64 := f_div (f_of_Z (re_latencyMs e)) (f_of_Z 1000).

Definition setLatency (ms : float64) (e : replicaEntry) : replicaEntry :=
  mkEntry (re_name e) (re_pool e) (f_to_Z (f_mul ms (f_of_Z 1000))) (re_healthy e) (re_failures e) (re_successes e).

Definition wrap32 (n : Z) : Z := (n + 2 ^ 31) mod 2 ^ 32 - 2 ^ 31.

Definition updateCircuitBreaker (success : bool) (failThreshold recoverThreshold : Z) (e : replicaEntry) : replicaEntry :=
  if success then
    let successes := wrap32 (re_successes e + 1) in
    mkEntry (re_name e) (re_pool e) (re_latencyMs e)
      (if (recoverThreshold <=? successes)%Z then true else re_healthy e) 0 successes
  else
    let failures := wrap32 (re_failures e + 1) in
    mkEntry (re_name e) (re_pool e) (re_latencyMs e)
      (if (failThreshold <=? failures)%Z then false else re_healthy e) failures 0.

(** A probe: it fails, or takes some microseconds. *)
Definition probeReplica (ft rt : Z) (probe : option Z) (e : replicaEntry) : replicaEntry :=
  match re_pool e, probe with
  | None, _ => e
  | Some _, None => updateCircuitBreaker false ft rt (setLatency (f_of_Z (-1)) e)
  | Some _, Some us => updateCircuitBreaker true ft rt (setLatency (f_div (f_of_Z us) (f_of_Z 1000)) e)
  end.

(** ** The selector *)

Record ReplicaSelector := mkSelector {
  patroniHosts : list string;
  replicas : gmap string replicaEntry;
  lastDiscovery : option Z;
  lastSelected : string;
  lastSelectedSrc : string;
  fallbackActive : bool;
  failThreshold : Z;
  recoverThreshold : Z;
  sel_closed : bool;
  next_pool : pool;          (* handles given out so far *)
  closed_pools : list pool;  (* handles closed so far *)
}.

Definition set_replicas (r : gmap string replicaEntry) (s : ReplicaSelector) : ReplicaSelector :=
  mkSelector (patroniHosts s) r (lastDiscovery s) (lastSelected s) (lastSelectedSrc s) (fallbackActive s)
    (failThreshold s) (recoverThreshold s) (sel_closed s) (next_pool s) (closed_pools s).
Definition set_fallbackActive (b : bool) (s : ReplicaSelector) : ReplicaSelector :=
  mkSelector (patroniHosts s) (replicas s) (lastDiscovery s) (lastSelected s) (lastSelectedSrc s) b
    (failThreshold s) (recoverThreshold s) (sel_closed s) (next_pool s) (closed_pools s).
Definition set_lastDiscovery (t : Z) (s : ReplicaSelector) : ReplicaSelector :=
  mkSelector (patroniHosts s) (replicas s) (Some t) (lastSelected s) (lastSelectedSrc s) (fallbackActive s)
    (failThreshold s) (recoverThreshold s) (sel_closed s) (next_pool s) (closed_pools s).
Definition set_pools (next : pool) (dead : list pool) (s : ReplicaSelector) : ReplicaSelector :=
  mkSelector (patroniHosts s) (replicas s) (lastDiscovery s) (lastSelected s) (lastSelectedSrc s) (fallbackActive s)
    (failThreshold s) (recoverThreshold s) (sel_closed s) next dead.
Definition set_closed (s : ReplicaSelector) : ReplicaSelector :=
  mkSelector (patroniHosts s) (replicas s) (lastDiscovery s) (lastSelected s) (lastSelectedSrc s) (fallbackActive s)
    (failThreshold s) (recoverThreshold s) true (next_pool s) (closed_pools s).

Definition recordSelection (host source : string) (s : ReplicaSelector) : ReplicaSelector :=
  mkSelector (patroniHosts s) (replicas s) (lastDiscovery s) host source (fallbackActive s)
    (failThreshold s) (recoverThreshold s) (sel_closed s) (next_pool s) (closed_pools s).

(** [NewReplicaSelector], with the default thresholds. *)
Definition NewReplicaSelector (hosts : list string) (readOnlyBaseDSN : string) : res ReplicaSelector :=
  if bool_decide (TrimSpace readOnlyBaseDSN = EmptyString) then Err "read-only base DSN is required"
  else match hosts with
       | [] => Err "at least one Patroni host is required"
       | _ => Ok (mkSelector hosts ∅ None EmptyString EmptyString false 3 2 false 0%nat [])
       end.

(** ** Choosing a replica *)

Record candidate := mkCandidate { c_host : string; c_pool : pool; c_latencyMs : Z }.
Definition c_lat (c : candidate) : float64 := f_div (f_of_Z (c_latencyMs c)) (f_of_Z 1000).

Definition candidates (s : ReplicaSelector) : list candidate :=
  omap (λ '(host, e), match re_pool e with
                      | Some p => if re_healthy e then Some (mkCandidate host p (re_latencyMs e)) else None
                      | None => None
                      end) (map_to_list (replicas s)).

(** The less function of [sort.Slice]. *)
Definition cand_less (a b : candidate) : bool :=
  if negb (f_eq (c_lat a) (c_lat b)) then f_lt (c_lat a) (c_lat b)
  else str_leb (c_host a) (c_host b) && negb (bool_decide (c_host a = c_host b)).

Definition cand_le (a b : candidate) : Prop := cand_less b a = false.
#[export] Instance cand_le_dec : RelDecision cand_le.
Proof. intros a b. unfold cand_le. apply _. Defined.

Definition selectBest (s : ReplicaSelector) : option candidate := head (merge_sort cand_le (candidates s)).

Definition markUnhealthy (host : string) (s : ReplicaSelector) : ReplicaSelector :=
  set_replicas (alter (λ e, mkEntry (re_name e) (re_pool e) (re_latencyMs e) false (failThreshold s) 0)
    host (replicas s)) s.

(** The rounds of [GetBestReplica] that look for a replica: the ping of each round is a
    parameter. *)
Fixpoint try_replicas (ping : pool → nat → bool) (round rounds : nat) (s : ReplicaSelector)
    : option pool * ReplicaSelector :=
  match rounds with
  | O => (None, s)
  | S rounds =>
      match selectBest s with
      | None => (None, s)
      | Some c =>
          if ping (c_pool c) round
          then (Some (c_pool c), recordSelection (c_host c) "replica" (set_fallbackActive false s))
          else try_replicas ping (S round) rounds (markUnhealthy (c_host c) s)
      end
  end.

(** [None] stands for the fallback pool. *)
Definition GetBestReplica (ping : pool → nat → bool) (ping_fallback : bool) (s : ReplicaSelector)
    : res (option pool) * ReplicaSelector :=
  if sel_closed s then (Err "replica selector is closed", s)
  else match try_replicas ping 0 2 s with
       | (Some p, s) => (Ok (Some p), s)
       | (None, s) =>
           let s := recordSelection "fallback" "fallback" (set_fallbackActive true s) in
           if ping_fallback then (Ok None, s) else (Err "fallback pool unreachable", s)
       end.

(** ** Observability *)

Record ReplicaStatus := mkStatus { rs_Name : string; rs_Host : string; rs_LatencyMs : float64; rs_Healthy : bool }.

Record ReplicaSnapshot := mkSnapshot {
  sn_Replicas : list ReplicaStatus;
  sn_SelectedHost : string;
  sn_SelectedSource : string;
  sn_FallbackActive : bool;
  sn_LastDiscoveryAt : option Z;
}.

Definition host_le (a b : ReplicaStatus) : Prop := str_le (rs_Host a) (rs_Host b).
#[export] Instance host_le_dec : RelDecision host_le.
Proof. intros a b. unfold host_le. apply _. Defined.

Definition Snapshot (s : ReplicaSelector) : ReplicaSnapshot :=
  mkSnapshot
    (merge_sort host_le ((λ '(host, e), mkStatus (re_name e) host (latencyFloat e) (re_healthy e)) <$>
       map_to_list (replicas s)))
    (lastSelected s) (lastSelectedSrc s) (fallbackActive s) (lastDiscovery s).

(** ** The probe cycle *)

Definition close_pool (e : replicaEntry) (s : ReplicaSelector) : ReplicaSelector :=
  match re_pool e with
  | Some p => set_pools (next_pool s) (p :: closed_pools s) s
  | None => s
  end.

(** The members by host, the last one of a host winning. *)
Definition desired (members : list patroniMember) : gmap string patroniMember :=
  foldl (λ d m, <[pm_Host m := m]> d) ∅ members.

(** Close and forget the replicas that are gone, in the order of the map. *)
Definition remove_gone (want : gmap string patroniMember) (s : ReplicaSelector) : ReplicaSelector :=
  foldr (λ '(host, e) s,
    match want !! host with
    | Some _ => s
    | None => set_replicas (delete host (replicas s)) (close_pool e s)
    end) s (map_to_list (replicas s)).

(** Rename a known replica, or open a pool for a new one; [open] says whether that succeeds. *)
Definition add_replica (opens : string → bool) (host : string) (member : patroniMember) (s : ReplicaSelector)
    : ReplicaSelector :=
  match replicas s !! host with
  | Some e => set_replicas (<[host := mkEntry (pm_Name member) (re_pool e) (re_latencyMs e) (re_healthy e)
                                        (re_failures e) (re_successes e)]> (replicas s)) s
  | None =>
      if opens host
      then set_replicas (<[host := mkEntry (pm_Name member) (Some (next_pool s)) 0 true 0 0]> (replicas s))
             (set_pools (S (next_pool s)) (closed_pools s) s)
      else s
  end.

Definition syncReplicaPools (opens : string → bool) (members : list patroniMember) (s : ReplicaSelector)
    : ReplicaSelector :=
  let want := desired members in
  foldr (λ '(host, m) s, add_replica opens host m s) (remove_gone want s) (map_to_list want).

Definition probeAllReplicas (probe : string → option Z) (s : ReplicaSelector) : ReplicaSelector :=
  set_replicas (map_imap (λ host e, Some (probeReplica (failThreshold s) (recoverThreshold s) (probe host) e))
    (replicas s)) s.

(** What one cycle sees of the outside. *)
Record probe_env := mkProbeEnv {
  pe_cluster : string → patroni_reply;
  pe_opens : string → bool;
  pe_probe : string → option Z;
  pe_now : Z;
}.

Definition runProbeCycle (env : probe_env) (s : ReplicaSelector) : ReplicaSelector :=
  match discoverReplicas (pe_cluster env) (patroniHosts s) with
  | Err _ => s
  | Ok members =>
      set_lastDiscovery (pe_now env)
        (probeAllReplicas (pe_probe env) (syncReplicaPools (pe_opens env) members s))
  end.

(** [Close]: only the first one closes the pools; the probe loop has stopped by then. *)
Definition Close (s : ReplicaSelector) : ReplicaSelector :=
  if sel_closed s then s
  else set_replicas ∅ (foldr (λ kv s, close_pool kv.2 s) (set_closed s) (map_to_list (replicas s))).

(** ** Laws of the choice *)

Lemma c_lat_not_nan c : IsNaN (c_lat c) = false.
Proof.
  eapply signed_not_nan, f_div_signed; [apply f_of_Z_signed|apply (f_of_Z_signed 1000)|reflexivity..].
Qed.

(** The order of the candidates: by latency, then by host. *)
Lemma cand_le_iff a b :
  cand_le a b ↔ key_cmp (f_key (c_lat a)) (f_key (c_lat b)) = Lt ∨
                f_key (c_lat a) = f_key (c_lat b) ∧ str_le (c_host a) (c_host b).
Proof.
  unfold cand_le, cand_less. pose proof (c_lat_not_nan a) as Ha. pose proof (c_lat_not_nan b) as Hb.
  rewrite f_eq_key, f_lt_key, Ha, Hb by done. rewrite (key_cmp_antisym (f_key (c_lat a))).
  pose proof (key_cmp_eq (f_key (c_lat a)) (f_key (c_lat b))) as He.
  case_bool_decide as E; cbn [negb andb].
  - rewrite (proj2 He (eq_sym E)). unfold str_le. split.
    + intros H. right. split; [done|]. pose proof (str_le_total (c_host a) (c_host b)) as [?|H']; [done|].
      unfold str_le in H'. rewrite H' in H. case_bool_decide as Eh; [|done]. rewrite Eh. apply str_le_refl.
    + intros [?|[_ H]]; [done|]. case_bool_decide as Eh; [by rewrite andb_false_r|]. rewrite andb_true_r.
      destruct (str_leb (c_host b) (c_host a)) eqn:Eb; [|done]. destruct Eh.
      by apply (anti_symm str_le).
  - destruct (key_cmp _ _) eqn:Ec; simpl.
    + destruct E. symmetry. by apply He.
    + split; [by left|done].
    + split; [done|intros [?|[? _]]; [done|congruence]].
Qed.

#[export] Instance cand_le_total : Total cand_le.
Proof.
  intros a b. rewrite !cand_le_iff, (key_cmp_antisym (f_key (c_lat a))).
  destruct (key_cmp _ _) eqn:E; [|by left; left|by right; left].
  apply key_cmp_eq in E. rewrite E. destruct (str_le_total (c_host a) (c_host b)); auto.
Qed.

#[export] Instance cand_le_trans : Transitive cand_le.
Proof.
  intros a b c. rewrite !cand_le_iff. intros [H1|[E1 H1]] [H2|[E2 H2]].
  - left. by eapply key_cmp_lt_trans.
  - left. by rewrite <- E2.
  - left. by rewrite E1.
  - right. split; [congruence|by etrans].
Qed.

Lemma cand_le_lat a b : cand_le a b → f_le (c_lat a) (c_lat b) = true.
Proof.
  rewrite cand_le_iff, f_le_key, !c_lat_not_nan. cbn [negb andb].
  intros [->|[-> _]]; [done|by rewrite key_cmp_refl].
Qed.

Lemma elem_of_candidates s c :
  c ∈ candidates s ↔ ∃ e, replicas s !! c_host c = Some e ∧ re_pool e = Some (c_pool c) ∧ re_healthy e = true ∧
    re_latencyMs e = c_latencyMs c.
Proof.
  unfold candidates. rewrite list_elem_of_omap. split.
  - intros ([h e] & Hin%elem_of_map_to_list & H). destruct (re_pool e) as [p|] eqn:Ep; [|done].
    destruct (re_healthy e) eqn:Eh; [|done]. injection H as <-. by exists e.
  - intros (e & He & Hp & Hh & Hl). exists (c_host c, e). split; [by apply elem_of_map_to_list|].
    rewrite Hp, Hh. destruct c. simpl in *. by subst.
Qed.

Lemma selectBest_in s c : selectBest s = Some c → c ∈ candidates s ∧ ∀ c', c' ∈ candidates s → cand_le c c'.
Proof.
  unfold selectBest. intros H. pose proof (merge_sort_Permutation cand_le (candidates s)) as HP.
  pose proof (StronglySorted_merge_sort cand_le (candidates s)) as Hs.
  destruct (merge_sort cand_le (candidates s)) as [|c0 l]; [done|]. injection H as ->. split.
  - rewrite <- HP. set_solver.
  - intros c' Hc'. rewrite <- HP in Hc'. apply StronglySorted_inv in Hs as [_ Hf]. rewrite Forall_forall in Hf.
    apply elem_of_cons in Hc' as [->|Hc']; [|auto]. destruct (cand_le_total c c); done.
Qed.

Lemma selectBest_None s : selectBest s = None ↔ candidates s = [].
Proof.
  unfold selectBest. pose proof (merge_sort_Permutation cand_le (candidates s)) as HP.
  destruct (merge_sort cand_le (candidates s)) as [|c l]; simpl.
  - apply Permutation_nil_l in HP. by rewrite HP.
  - split; [done|]. intros H. rewrite H in HP. by apply Permutation_nil_r in HP.
Qed.

(** A replica reads may go to. *)
Definition usable (s : ReplicaSelector) (host : string) (e : replicaEntry) : Prop :=
  replicas s !! host = Some e ∧ is_Some (re_pool e) ∧ re_healthy e = true.

(** selectBest picks the healthy replica of least recorded latency, the smaller host among
    equals; it picks none exactly when no replica is healthy. *)
Theorem selectBest_least s :
  (∀ c, selectBest s = Some c → ∃ e, usable s (c_host c) e ∧ re_pool e = Some (c_pool c) ∧
     ∀ host e', usable s host e' →
       f_le (latencyFloat e) (latencyFloat e') = true ∧
       (f_le (latencyFloat e') (latencyFloat e) = true → str_le (c_host c) host)) ∧
  (selectBest s = None ↔ ∀ host e, ¬ usable s host e).
Proof.
  split.
  - intros c Hc. apply selectBest_in in Hc as [Hin Hmin].
    apply elem_of_candidates in Hin as (e & He & Hp & Hh & Hl). exists e. split; [by repeat split|]. split; [done|].
    intros host e' (He' & [p' Hp'] & Hh').
    assert (Hc' : mkCandidate host p' (re_latencyMs e') ∈ candidates s) by (apply elem_of_candidates; by exists e').
    apply Hmin in Hc'. unfold latencyFloat. rewrite Hl. split; [exact (cand_le_lat _ _ Hc')|].
    change (f_div (f_of_Z (re_latencyMs e')) (f_of_Z 1000)) with (c_lat (mkCandidate host p' (re_latencyMs e'))).
    change (f_div (f_of_Z (c_latencyMs c)) (f_of_Z 1000)) with (c_lat c).
    rewrite f_le_key, !c_lat_not_nan. cbn [negb andb]. apply cand_le_iff in Hc' as [Hlt|[_ Hle]]; [|done].
    by rewrite key_cmp_antisym, Hlt.
  - rewrite selectBest_None. split.
    + intros Hn host e (He & [p Hp] & Hh).
      assert (mkCandidate host p (re_latencyMs e) ∈ candidates s) as Hin by (apply elem_of_candidates; by exists e).
      rewrite Hn in Hin. by apply elem_of_nil in Hin.
    + intros Hn. destruct (candidates s) as [|c l] eqn:E; [done|].
      assert (Hin : c ∈ candidates s) by (rewrite E; set_solver).
      apply elem_of_candidates in Hin as (e & He & Hp & Hh & _). destruct (Hn (c_host c) e). by repeat split.
Qed.

(** ** The circuit breaker against its specification *)

(** The probes of a replica, the latest first: it is down after [ft] failures in a row, up
    again after [rt] successes in a row, and as it was before the last probe otherwise. A new
    replica is up. *)
Fixpoint healthy_spec (ft rt : nat) (hist : list bool) : bool :=
  match hist with
  | [] => true
  | ok :: older =>
      if bool_decide (ft <= length hist)%nat && negb (existsb id (take ft hist)) then false
      else if bool_decide (rt <= length hist)%nat && forallb id (take rt hist) then true
      else healthy_spec ft rt older
  end.

(** How long the history's latest outcome [b] has lasted. *)
Fixpoint streak (b : bool) (hist : list bool) : nat :=
  match hist with
  | x :: r => if eqb x b then S (streak b r) else O
  | [] => O
  end.

Definition newEntry (name : string) (p : pool) : replicaEntry := mkEntry name (Some p) 0 true 0 0.

Definition probed (ft rt : Z) (l : list (option Z)) (e : replicaEntry) : replicaEntry :=
  foldl (λ e o, probeReplica ft rt o e) e l.

Definition outcome (o : option Z) : bool := bool_decide (is_Some o).

Lemma streak_length b hist : (streak b hist <= length hist)%nat.
Proof. induction hist as [|x r IH]; simpl; [lia|]. destruct (eqb x b); lia. Qed.

Lemma streak_false ft hist :
  bool_decide (ft <= length hist)%nat && negb (existsb id (take ft hist)) = bool_decide (ft <= streak false hist)%nat.
Proof.
  revert ft. induction hist as [|x r IH]; intros [|ft]; simpl; try done.
  destruct x; simpl; [by rewrite andb_false_r|]. specialize (IH ft).
  rewrite (bool_decide_ext (S ft <= S (length r))%nat (ft <= length r)%nat) by lia.
  rewrite (bool_decide_ext (S ft <= S (streak false r))%nat (ft <= streak false r)%nat) by lia. done.
Qed.

Lemma streak_true rt hist :
  bool_decide (rt <= length hist)%nat && forallb id (take rt hist) = bool_decide (rt <= streak true hist)%nat.
Proof.
  revert rt. induction hist as [|x r IH]; intros [|rt]; simpl; try done.
  destruct x; simpl; [|by rewrite andb_false_r]. specialize (IH rt).
  rewrite (bool_decide_ext (S rt <= S (length r))%nat (rt <= length r)%nat) by lia.
  rewrite (bool_decide_ext (S rt <= S (streak true r))%nat (rt <= streak true r)%nat) by lia. done.
Qed.

(** The entry a history leads to: the counters are the streaks. *)
Definition tracks (ft rt : nat) (hist : list bool) (e : replicaEntry) : Prop :=
  is_Some (re_pool e) ∧ re_healthy e = healthy_spec ft rt hist ∧
  re_failures e = Z.of_nat (streak false hist) ∧ re_successes e = Z.of_nat (streak true hist).

Lemma wrap32_small n : 0 <= n < 2 ^ 31 → wrap32 n = n.
Proof. intros H. unfold wrap32. rewrite Z.mod_small; lia. Qed.

Lemma probe_tracks ft rt hist o e :
  (0 < ft)%nat → (0 < rt)%nat → Z.of_nat (length hist) + 1 < 2 ^ 31 → tracks ft rt hist e →
  tracks ft rt (outcome o :: hist) (probeReplica (Z.of_nat ft) (Z.of_nat rt) o e).
Proof.
  intros Hft Hrt Hlen (Hp & Hh & Hf & Hs). destruct (re_pool e) as [p|] eqn:Ep; [|by destruct Hp].
  pose proof (streak_length true hist). pose proof (streak_length false hist).
  unfold probeReplica. rewrite Ep. unfold tracks, healthy_spec. fold (healthy_spec ft rt hist).
  rewrite streak_false, streak_true.
  destruct o as [us|]; unfold outcome; simpl bool_decide; simpl streak; unfold updateCircuitBreaker, setLatency; simpl;
    rewrite ?Hs, ?Hf, wrap32_small by lia; rewrite Hh.
  - rewrite bool_decide_eq_false_2 by lia. split_and!; [by rewrite Ep| |lia|lia].
    destruct (Z.leb_spec (Z.of_nat rt) (Z.of_nat (streak true hist) + 1));
      [rewrite bool_decide_eq_true_2 by lia|rewrite bool_decide_eq_false_2 by lia]; done.
  - rewrite (bool_decide_eq_false_2 (rt <= 0)%nat) by lia. split_and!; [by rewrite Ep| |lia|lia].
    destruct (Z.leb_spec (Z.of_nat ft) (Z.of_nat (streak false hist) + 1));
      [rewrite bool_decide_eq_true_2 by lia|rewrite bool_decide_eq_false_2 by lia]; done.
Qed.

Lemma probed_tracks ft rt l hist e :
  (0 < ft)%nat → (0 < rt)%nat → Z.of_nat (length l) + Z.of_nat (length hist) < 2 ^ 31 → tracks ft rt hist e →
  tracks ft rt (rev (outcome <$> l) ++ hist)%list (probed (Z.of_nat ft) (Z.of_nat rt) l e).
Proof.
  intros Hft Hrt. revert hist e. induction l as [|o l IH]; intros hist e Hlen Ht; simpl; [done|].
  simpl in Hlen. rewrite <- app_assoc. apply IH; [simpl; lia|]. apply probe_tracks; [done|done|lia|done].
Qed.

(** C26 The circuit breaker implements its specification: whatever the probes of a replica
    gave since its pool was opened, it is marked healthy exactly when the specification over
    the whole history says so, with counters that never wrap for fewer than 2^31 probes. *)
Theorem breaker_refines_spec ft rt name p l :
  (0 < ft)%nat → (0 < rt)%nat → Z.of_nat (length l) < 2 ^ 31 →
  re_healthy (probed (Z.of_nat ft) (Z.of_nat rt) l (newEntry name p)) = healthy_spec ft rt (rev (outcome <$> l)).
Proof.
  intros Hft Hrt Hlen.
  assert (Hn : tracks ft rt [] (newEntry name p)) by (split; [by eexists|done]).
  destruct (probed_tracks ft rt l [] (newEntry name p) Hft Hrt ltac:(simpl; lia) Hn) as (_ & H & _).
  by rewrite H, List.app_nil_r.
Qed.

(** ** Pools are opened and closed once *)

Definition holds (s : ReplicaSelector) (host : string) (p : pool) : Prop :=
  ∃ e, replicas s !! host = Some e ∧ re_pool e = Some p.

(** Every handle given out is held by one replica or closed, once. *)
Record pools_ok (s : ReplicaSelector) : Prop := {
  po_held : ∀ h p, holds s h p → (p < next_pool s)%nat ∧ p ∉ closed_pools s;
  po_one : ∀ h1 h2 p, holds s h1 p → holds s h2 p → h1 = h2;
  po_closed : NoDup (closed_pools s) ∧ Forall (λ p, p < next_pool s)%nat (closed_pools s);
  po_all : ∀ p, (p < next_pool s)%nat → p ∈ closed_pools s ∨ ∃ h, holds s h p;
}.

(** The same handles and closed pools, held by the same hosts. *)
Lemma pools_ok_same s s' :
  next_pool s' = next_pool s → closed_pools s' = closed_pools s → (∀ h p, holds s' h p ↔ holds s h p) →
  pools_ok s → pools_ok s'.
Proof.
  intros Hn Hc Hh [H1 H2 H3 H4]. split; rewrite ?Hn, ?Hc; try done.
  - intros h p Hp%Hh. eauto.
  - intros h1 h2 p Hp1%Hh Hp2%Hh. eauto.
  - intros p Hp. destruct (H4 p Hp) as [?|[h Hp']]; [by left|right; exists h; by apply Hh].
Qed.

Lemma holds_alter s s' h (f : replicaEntry → replicaEntry) :
  (∀ e, re_pool (f e) = re_pool e) → replicas s' = alter f h (replicas s) → ∀ k p, holds s' k p ↔ holds s k p.
Proof.
  intros Hf Hr k p. unfold holds. rewrite Hr. destruct (decide (h = k)) as [->|Hne].
  - rewrite lookup_alter_eq. destruct (replicas s !! k) as [e|]; simpl; [|done]. split.
    + intros (e' & [= <-] & Hp). exists e. by rewrite Hf in Hp.
    + intros (e' & [= <-] & Hp). exists (f e). by rewrite Hf.
  - by rewrite lookup_alter_ne.
Qed.

Lemma remove_ok s h e :
  pools_ok s → replicas s !! h = Some e → pools_ok (set_replicas (delete h (replicas s)) (close_pool e s)).
Proof.
  intros [H1 H2 [H3 H3'] H4] He.
  assert (Hh : ∀ k q, holds (set_replicas (delete h (replicas s)) (close_pool e s)) k q ↔ k ≠ h ∧ holds s k q).
  { intros k q. unfold holds. simpl. setoid_rewrite lookup_delete_Some. naive_solver. }
  unfold close_pool in *. destruct (re_pool e) as [p|] eqn:Ep.
  - assert (Hp : holds s h p) by (by exists e). split; simpl.
    + intros k q [Hne Hq]%Hh. destruct (H1 k q Hq) as [Hlt Hc]. split; [done|].
      apply not_elem_of_cons. split; [|done]. intros ->. by apply Hne, (H2 k h p).
    + intros k1 k2 q [_ Hq1]%Hh [_ Hq2]%Hh. eauto.
    + destruct (H1 h p Hp) as [Hlt Hc]. split; [by constructor|by constructor].
    + intros q Hq. destruct (H4 q Hq) as [?|[k Hk]]; [left; set_solver|].
      destruct (decide (k = h)) as [->|Hne]; [left|right; exists k; by apply Hh].
      destruct Hk as (e' & He' & Hq'). rewrite He in He'. injection He' as <-. rewrite Ep in Hq'.
      injection Hq' as ->. set_solver.
  - split; simpl.
    + intros k q [_ Hq]%Hh. eauto.
    + intros k1 k2 q [_ Hq1]%Hh [_ Hq2]%Hh. eauto.
    + done.
    + intros q Hq. destruct (H4 q Hq) as [?|[k Hk]]; [by left|right; exists k; apply Hh]. split; [|done].
      intros ->. destruct Hk as (e' & He' & Hq'). congruence.
Qed.

(** What [remove_gone] leaves, for any part of the replicas. *)
Lemma remove_gone_spec (want : gmap string patroniMember) (l : list (string * replicaEntry)) s :
  pools_ok s → NoDup l.*1 → (∀ h e, (h, e) ∈ l → replicas s !! h = Some e) →
  let s' := foldr (λ '(host, e) s, match want !! host with
              | Some _ => s
              | None => set_replicas (delete host (replicas s)) (close_pool e s)
              end) s l in
  pools_ok s' ∧ (next_pool s' = next_pool s) ∧
  ∀ h e, replicas s' !! h = Some e ↔ replicas s !! h = Some e ∧ (h ∈ l.*1 → is_Some (want !! h)).
Proof.
  intros Hok. induction l as [|[h0 e0] l IH]; intros Hnd Hl; cbn [foldr].
  { split_and!; [done|done|]. set_solver. }
  change (NoDup (h0 :: l.*1)) in Hnd. apply NoDup_cons in Hnd as [Hni Hnd].
  destruct IH as (IH1 & IH2 & IH3); [done|set_solver|].
  set (s1 := foldr _ s l) in *. cbv zeta in *. destruct (want !! h0) as [m|] eqn:Ew.
  - split_and!; [done|done|]. intros h e. rewrite IH3, fmap_cons, elem_of_cons. simpl. naive_solver.
  - assert (He : replicas s1 !! h0 = Some e0) by (apply IH3; split; [apply Hl; set_solver|by intros ?%Hni]).
    split_and!; [by apply remove_ok| |].
    + unfold close_pool. by destruct (re_pool e0).
    + intros h e. simpl. rewrite lookup_delete_Some, IH3, elem_of_cons. split.
      * intros (Hne & He' & Hw). split; [done|]. by intros [->|?]; [|apply Hw].
      * intros (He' & Hw). split_and!; [|done|by intros ?; apply Hw; right].
        intros ->. destruct (Hw (or_introl eq_refl)) as [m Hm]. congruence.
Qed.

Lemma add_ok opens h m s : pools_ok s → pools_ok (add_replica opens h m s).
Proof.
  intros Hok. unfold add_replica. destruct (replicas s !! h) as [e|] eqn:He.
  - apply (pools_ok_same s); [done|done| |done]. intros k p. unfold holds. simpl.
    setoid_rewrite lookup_insert_Some. split.
    + intros (e' & [(<- & <-)|[_ ?]] & Hp); [by exists e|by exists e'].
    + intros (e' & He' & Hp). destruct (decide (h = k)) as [->|]; [|exists e'; auto].
      rewrite He in He'. injection He' as <-. eexists. split; [by left|done].
  - destruct (opens h); [|done]. destruct Hok as [H1 H2 [H3 H3'] H4].
    set (s' := set_replicas _ _).
    assert (Hh : ∀ k q, holds s' k q ↔ k = h ∧ q = next_pool s ∨ k ≠ h ∧ holds s k q).
    { intros k q. unfold holds, s'. simpl. setoid_rewrite lookup_insert_Some. split.
      - intros (e' & [(<- & <-)|[Hne ?]] & Hp); [left|right]; [by injection Hp as <-|by eauto].
      - intros [[-> ->]|(Hne & e' & He' & Hq)]; [eexists; split; [by left|done]|exists e'; auto]. }
    split; simpl.
    + intros k q [[-> ->]|[_ Hq]]%Hh.
      * split; [lia|]. intros Hin. rewrite Forall_forall in H3'. apply H3' in Hin. lia.
      * destruct (H1 k q Hq). split; [lia|done].
    + intros k1 k2 q [[-> ->]|[_ Hq]]%Hh [[-> Hq']|[_ Hq']]%Hh; try done.
      * apply H1 in Hq'. lia.
      * subst. apply H1 in Hq. lia.
      * eauto.
    + split; [done|]. eapply Forall_impl; [exact H3'|]. simpl. lia.
    + intros q Hq. destruct (decide (q = next_pool s)) as [->|Hne].
      * right. exists h. apply Hh. by left.
      * destruct (H4 q ltac:(lia)) as [?|[k Hk]]; [by left|right; exists k; apply Hh; right].
        split; [|done]. intros ->. destruct Hk as (e' & He' & _). congruence.
Qed.

Lemma adds_ok opens l s :
  pools_ok s → pools_ok (foldr (λ '(host, m) s, add_replica opens host m s) s l).
Proof. intros H. induction l as [|[h m] l IH]; [done|]. by apply add_ok. Qed.

Lemma remove_gone_ok want s :
  pools_ok s → pools_ok (remove_gone want s) ∧ next_pool (remove_gone want s) = next_pool s ∧
  ∀ h e, replicas (remove_gone want s) !! h = Some e ↔ replicas s !! h = Some e ∧ is_Some (want !! h).
Proof.
  intros Hok. destruct (remove_gone_spec want (map_to_list (replicas s)) s Hok) as (H1 & H2 & H3).
  - apply NoDup_fst_map_to_list.
  - intros h e. apply elem_of_map_to_list.
  - split_and!; [done|done|]. intros h e. unfold remove_gone. rewrite H3. split; [|naive_solver].
    intros [He Hw]. split; [done|]. apply Hw. apply list_elem_of_fmap. exists (h, e).
    split; [done|]. by apply elem_of_map_to_list.
Qed.

Lemma probe_pool ft rt o e : re_pool (probeReplica ft rt o e) = re_pool e.
Proof. unfold probeReplica. destruct (re_pool e) eqn:E, o; try done; unfold updateCircuitBreaker, setLatency; simpl; by rewrite E. Qed.

Lemma probe_cycle_ok env s : pools_ok s → pools_ok (runProbeCycle env s).
Proof.
  intros Hok. unfold runProbeCycle. destruct (discoverReplicas _ _); [|done].
  assert (H : pools_ok (syncReplicaPools (pe_opens env) a s)) by (apply adds_ok, remove_gone_ok, Hok).
  apply (pools_ok_same (syncReplicaPools (pe_opens env) a s)); [done|done| |done].
  intros h p. unfold holds. simpl. setoid_rewrite map_lookup_imap. split.
  - intros (e & He & Hp). destruct (replicas _ !! h) as [e'|]; [|done]. injection He as <-.
    exists e'. by rewrite probe_pool in Hp.
  - intros (e & He & Hp). rewrite He. eexists. split; [done|]. by rewrite probe_pool.
Qed.

Lemma markUnhealthy_ok h s : pools_ok s → pools_ok (markUnhealthy h s).
Proof. apply pools_ok_same; [done|done|]. by eapply holds_alter; [|reflexivity]. Qed.

Lemma try_replicas_ok ping round rounds s : pools_ok s → pools_ok (try_replicas ping round rounds s).2.
Proof.
  revert round s. induction rounds as [|rounds IH]; intros round s Hok; simpl; [done|].
  destruct (selectBest s); [|done]. destruct (ping _ _); [by apply (pools_ok_same s)|].
  by apply IH, markUnhealthy_ok.
Qed.

Lemma GetBestReplica_ok ping fb s : pools_ok s → pools_ok (GetBestReplica ping fb s).2.
Proof.
  intros Hok. unfold GetBestReplica. destruct (sel_closed s); [done|].
  pose proof (try_replicas_ok ping 0 2 s Hok) as H. destruct (try_replicas ping 0 2 s) as [[p|] s']; [done|].
  destruct fb; by apply (pools_ok_same s').
Qed.

Lemma close_pools_spec (l : list (string * replicaEntry)) s :
  let s' := foldr (λ kv s, close_pool kv.2 s) s l in
  closed_pools s' = (omap (λ kv, re_pool kv.2) l ++ closed_pools s)%list ∧ next_pool s' = next_pool s.
Proof.
  induction l as [|[h e] l [IH1 IH2]]; [done|]. cbn [foldr omap list_omap]. set (s1 := foldr _ s l) in *.
  unfold close_pool. simpl. destruct (re_pool e); simpl; by rewrite IH1.
Qed.

Lemma NoDup_held s : pools_ok s → NoDup (omap (λ kv, re_pool kv.2) (map_to_list (replicas s))).
Proof.
  intros Hok. pose proof (NoDup_fst_map_to_list (replicas s)) as Hnd.
  assert (Hl : ∀ h e, (h, e) ∈ map_to_list (replicas s) → replicas s !! h = Some e)
    by (intros; by apply elem_of_map_to_list).
  induction (map_to_list (replicas s)) as [|[h e] l IH]; [constructor|].
  change (NoDup (h :: l.*1)) in Hnd. apply NoDup_cons in Hnd as [Hni Hnd].
  specialize (IH Hnd ltac:(set_solver)). simpl. destruct (re_pool e) as [p|] eqn:Ep; [|done].
  constructor; [|done]. intros ([h' e'] & Hin & Hp)%list_elem_of_omap. simpl in Hp.
  assert (h = h') as ->.
  { apply (po_one s Hok h h' p); [exists e|exists e']; (split; [apply Hl; set_solver|done]). }
  apply Hni. apply list_elem_of_fmap. by exists (h', e').
Qed.

Lemma Close_ok s : pools_ok s → pools_ok (Close s).
Proof.
  intros Hok. pose proof (NoDup_held s Hok) as Hnd. unfold Close. destruct (sel_closed s); [done|].
  destruct (close_pools_spec (map_to_list (replicas s)) (set_closed s)) as [Hc Hn].
  simpl in Hc, Hn. destruct Hok as [H1 H2 [H3 H3'] H4].
  assert (Hheld : ∀ p, p ∈ omap (λ kv : string * replicaEntry, re_pool kv.2) (map_to_list (replicas s)) ↔ ∃ h, holds s h p).
  { intros p. rewrite list_elem_of_omap. split.
    - intros ([h e] & Hin & Hp). exists h, e. split; [by apply elem_of_map_to_list|done].
    - intros (h & e & He & Hp). exists (h, e). split; [by apply elem_of_map_to_list|done]. }
  split; simpl; rewrite ?Hc, ?Hn.
  - intros h p (e & He & _). simpl in He. by rewrite lookup_empty in He.
  - intros h1 h2 p (e & He & _). simpl in He. by rewrite lookup_empty in He.
  - split.
    + apply NoDup_app. split_and!; [done| |done]. intros p [h Hp]%Hheld. by apply H1 in Hp as [_ ?].
    + apply Forall_app. split; [|done]. apply Forall_forall. intros p [h Hp]%Hheld. by apply H1 in Hp as [? _].
  - intros p Hp. left. apply elem_of_app. destruct (H4 p Hp) as [?|Hh]; [by right|left; by apply Hheld].
Qed.

(** What happens to a selector: a turn of its probe loop until it is closed, a read, its
    closing. *)
Inductive selector_step (s : ReplicaSelector) : ReplicaSelector → Prop :=
| step_probe env : sel_closed s = false → selector_step s (runProbeCycle env s)
| step_read ping fb : selector_step s (GetBestReplica ping fb s).2
| step_close : selector_step s (Close s).

Lemma selector_step_ok s s' : selector_step s s' → pools_ok s → pools_ok s'.
Proof. destruct 1; intros Hok; [by apply probe_cycle_ok|by apply GetBestReplica_ok|by apply Close_ok]. Qed.

(** A closed selector has no replicas. *)
Definition closed_empty (s : ReplicaSelector) : Prop := sel_closed s = true → replicas s = ∅.

Lemma add_replica_closed opens h m s : sel_closed (add_replica opens h m s) = sel_closed s.
Proof. unfold add_replica. destruct (replicas s !! h); [done|]. by destruct (opens h). Qed.

Lemma close_pool_closed e s : sel_closed (close_pool e s) = sel_closed s.
Proof. unfold close_pool. by destruct (re_pool e). Qed.

Lemma probe_cycle_closed env s : sel_closed (runProbeCycle env s) = sel_closed s.
Proof.
  unfold runProbeCycle. destruct (discoverReplicas _ _) as [members|]; [|done]. simpl.
  unfold syncReplicaPools, remove_gone. induction (map_to_list (desired members)) as [|[h m] l IH]; simpl.
  - induction (map_to_list (replicas s)) as [|[h e] l IH]; simpl; [done|].
    destruct (desired members !! h); [done|]. simpl. by rewrite close_pool_closed.
  - by rewrite add_replica_closed.
Qed.

Lemma GetBestReplica_closed ping fb s : sel_closed (GetBestReplica ping fb s).2 = sel_closed s.
Proof.
  unfold GetBestReplica. destruct (sel_closed s) eqn:Hc; [done|].
  assert (Ht : ∀ rounds round s, sel_closed (try_replicas ping round rounds s).2 = sel_closed s).
  { induction rounds as [|n IH]; intros r s1; simpl; [done|]. destruct (selectBest s1); [|done].
    destruct (ping _ _); [done|]. by rewrite IH. }
  specialize (Ht 2%nat 0%nat s). destruct (try_replicas ping 0 2 s) as [[p|] s']; simpl in Ht; [simpl; congruence|].
  destruct fb; simpl; congruence.
Qed.

Lemma selector_step_closed s s' : selector_step s s' → closed_empty s → closed_empty s'.
Proof.
  intros H He. destruct H as [env Hc|ping fb|]; unfold closed_empty.
  - rewrite probe_cycle_closed. congruence.
  - rewrite GetBestReplica_closed. intros Hc. unfold GetBestReplica. rewrite Hc. by apply He.
  - unfold Close. destruct (sel_closed s) eqn:Hc; [|done]. intros _. by apply He.
Qed.

(** C27 No connection pool leaks and none is closed twice: in every run of probe cycles, reads
    and closing, each pool opened so far is either held by exactly one replica or closed, and
    closed once; after Close every pool is. *)
Theorem pools_closed_once hosts base s0 s :
  NewReplicaSelector hosts base = Ok s0 → rtc selector_step s0 s →
  NoDup (closed_pools s) ∧
  (∀ p, (p < next_pool s)%nat ↔ p ∈ closed_pools s ∨ ∃ h, holds s h p) ∧
  (∀ h1 h2 p, holds s h1 p → holds s h2 p → h1 = h2) ∧
  (∀ h p, holds s h p → p ∉ closed_pools s) ∧
  (sel_closed s = true → ∀ p, (p < next_pool s)%nat → p ∈ closed_pools s).
Proof.
  intros H0 Hrun.
  assert (Hinv : pools_ok s ∧ closed_empty s).
  { assert (Hi : pools_ok s0 ∧ closed_empty s0).
    { unfold NewReplicaSelector in H0. case_bool_decide; [done|]. destruct hosts; [done|]. injection H0 as <-.
      split; [|done]. split; simpl; [by intros h p (e & He & _)|by intros h1 h2 p (e & He & _)|by repeat constructor|lia]. }
    clear H0. induction Hrun as [s|s1 s2 s3 Hs _ IH]; [done|]. destruct Hi as [Hok Hc].
    apply IH. split; [by eapply selector_step_ok|by eapply selector_step_closed]. }
  destruct Hinv as [[H1 H2 [H3 H3'] H4] Hc]. split_and!; [done| |done| |].
  - intros p. split; [apply H4|]. intros [Hp|[h Hp]]; [by rewrite Forall_forall in H3'; apply H3'|by apply H1 in Hp as [? _]].
  - intros h p Hp. by apply H1 in Hp as [_ ?].
  - intros Hcl p Hp. destruct (H4 p Hp) as [?|(h & e & He & _)]; [done|]. rewrite (Hc Hcl) in He. by rewrite lookup_empty in He.
Qed.

(** ** A cycle follows the cluster *)

Definition renamed (m : patroniMember) (e : replicaEntry) : replicaEntry :=
  mkEntry (pm_Name m) (re_pool e) (re_latencyMs e) (re_healthy e) (re_failures e) (re_successes e).

(** What [add_replica] makes of a host's entry. *)
Definition joined (opens : string → bool) (host : string) (m : patroniMember) (old new : option replicaEntry) : Prop :=
  match old with
  | Some e => new = Some (renamed m e)
  | None => if opens host then ∃ p, new = Some (newEntry (pm_Name m) p) else new = None
  end.

Lemma adds_spec opens (l : list (string * patroniMember)) s :
  NoDup l.*1 → let s' := foldr (λ '(host, m) s, add_replica opens host m s) s l in
  (∀ h m, (h, m) ∈ l → joined opens h m (replicas s !! h) (replicas s' !! h)) ∧
  (∀ h, h ∉ l.*1 → replicas s' !! h = replicas s !! h).
Proof.
  induction l as [|[h0 m0] l IH]; intros Hnd; cbn [foldr]; [split; [set_solver|done]|].
  change (NoDup (h0 :: l.*1)) in Hnd. apply NoDup_cons in Hnd as [Hni Hnd].
  destruct (IH Hnd) as [IH1 IH2]. set (s1 := foldr _ s l) in *. cbv zeta.
  assert (Hne : ∀ h, h ≠ h0 → replicas (add_replica opens h0 m0 s1) !! h = replicas s1 !! h).
  { intros h Hne. unfold add_replica. destruct (replicas s1 !! h0); simpl; [by rewrite lookup_insert_ne|].
    destruct (opens h0); simpl; [by rewrite lookup_insert_ne|done]. }
  split.
  - intros h m [[= -> ->]|Hin]%elem_of_cons.
    + rewrite <- (IH2 h0 Hni). unfold joined, add_replica. destruct (replicas s1 !! h0) eqn:E; simpl.
      * by rewrite lookup_insert_eq.
      * destruct (opens h0); simpl; [|done]. eexists. by rewrite lookup_insert_eq.
    + rewrite Hne; [by apply IH1|]. intros ->. apply Hni, list_elem_of_fmap. by exists (h0, m).
  - intros h Hh. change (h ∉ h0 :: l.*1) in Hh. apply not_elem_of_cons in Hh as [Hh1 Hh2]. rewrite Hne by done. auto.
Qed.

Lemma add_replica_thresholds opens h m s :
  failThreshold (add_replica opens h m s) = failThreshold s ∧
  recoverThreshold (add_replica opens h m s) = recoverThreshold s.
Proof. unfold add_replica. destruct (replicas s !! h); [done|]. by destruct (opens h). Qed.

Lemma syncReplicaPools_thresholds opens members s :
  failThreshold (syncReplicaPools opens members s) = failThreshold s ∧
  recoverThreshold (syncReplicaPools opens members s) = recoverThreshold s.
Proof.
  unfold syncReplicaPools, remove_gone. induction (map_to_list (desired members)) as [|[h1 m1] l IH]; simpl.
  - induction (map_to_list (replicas s)) as [|[h1 e1] l IH]; simpl; [done|].
    destruct (desired members !! h1); [done|]. simpl. unfold close_pool at 1 3. by destruct (re_pool e1).
  - destruct (add_replica_thresholds opens h1 m1 (foldr (λ '(h, m) s, add_replica opens h m s)
      (foldr (λ '(host, e) s, match desired members !! host with
         | Some _ => s | None => set_replicas (delete host (replicas s)) (close_pool e s) end) s
         (map_to_list (replicas s))) l)) as [-> ->]. exact IH.
Qed.

(** A successful probe cycle makes the replicas those of the cluster: a host is kept
    exactly when Patroni lists it as a running replica; a kept one keeps its pool and its
    circuit-breaker state under its current name, a new one starts healthy on a fresh pool
    when that opens, and each of them is probed once. *)
Theorem probe_cycle_follows_cluster env s members :
  discoverReplicas (pe_cluster env) (patroniHosts s) = Ok members → pools_ok s →
  ∀ h, let probe := probeReplica (failThreshold s) (recoverThreshold s) (pe_probe env h) in
  match desired members !! h with
  | None => replicas (runProbeCycle env s) !! h = None
  | Some m => ∃ e, joined (pe_opens env) h m (replicas s !! h) e ∧
      replicas (runProbeCycle env s) !! h = probe <$> e
  end.
Proof.
  intros Hd Hok h. cbv zeta. unfold runProbeCycle. rewrite Hd. simpl. rewrite map_lookup_imap.
  destruct (remove_gone_ok (desired members) s Hok) as (_ & _ & Hg).
  destruct (adds_spec (pe_opens env) (map_to_list (desired members)) (remove_gone (desired members) s)) as [H1 H2];
    [apply NoDup_fst_map_to_list|].
  destruct (syncReplicaPools_thresholds (pe_opens env) members s) as [-> ->]. unfold syncReplicaPools.
 destruct (desired members !! h) as [m|] eqn:Em.
  - match goal with |- ∃ e, _ ∧ ?X ≫= _ = _ => exists X; split; [|by destruct X] end.
    assert (Hr : replicas (remove_gone (desired members) s) !! h = replicas s !! h).
    { apply option_eq. intros e. rewrite Hg, Em. split; [by intros [? _]|]. intros ?. split; [done|by eexists]. }
    rewrite <- Hr. apply H1. by apply elem_of_map_to_list.
  - rewrite H2; cycle 1.
    { intros ([h' m'] & Hh & Hin)%list_elem_of_fmap. simpl in Hh. subst h'. apply elem_of_map_to_list in Hin. congruence. }
    destruct (replicas (remove_gone (desired members) s) !! h) as [e|] eqn:E; [|done].
    apply Hg in E as [_ [? ?]]. congruence.
Qed.

(** ** Reads *)

Lemma markUnhealthy_usable h s k e :
  usable (markUnhealthy h s) k e ↔ k ≠ h ∧ usable s k e.
Proof.
  unfold usable, markUnhealthy. simpl. destruct (decide (k = h)) as [->|Hne].
  - rewrite lookup_alter_eq. split; [|naive_solver]. intros (He & _ & Hh).
    destruct (replicas s !! h); [|done]. injection He as <-. done.
  - rewrite lookup_alter_ne by done. naive_solver.
Qed.

Lemma selectBest_usable s c : selectBest s = Some c → ∃ e, usable s (c_host c) e ∧ re_pool e = Some (c_pool c).
Proof.
  intros H. apply selectBest_in in H as [Hin _]. apply elem_of_candidates in Hin as (e & ? & Hp & ? & _).
  exists e. split; [|done]. by repeat split.
Qed.

Lemma selectBest_none_usable s : selectBest s = None → ∀ h e, ¬ usable s h e.
Proof.
  rewrite selectBest_None. intros Hn h e (He & [p Hp] & Hh).
  assert (mkCandidate h p (re_latencyMs e) ∈ candidates s) as Hin by (apply elem_of_candidates; by exists e).
  rewrite Hn in Hin. by apply elem_of_nil in Hin.
Qed.

(** A read is never sent to a pool that did not just answer: the pool GetBestReplica
    returns belongs to a healthy replica that answered this call's ping; otherwise the
    fallback answered, and no replica was left healthy or two of them were taken out of
    service by this very call. It fails only when the fallback does not answer either, or
    the selector is closed. *)
Theorem GetBestReplica_answers ping fb s s' r :
  GetBestReplica ping fb s = (r, s') → sel_closed s = false →
  match r with
  | Ok (Some p) => fallbackActive s' = false ∧ lastSelectedSrc s' = "replica" ∧
      ∃ e round, (round < 2)%nat ∧ usable s (lastSelected s') e ∧ re_pool e = Some p ∧ ping p round = true
  | Ok None => fb = true ∧ fallbackActive s' = true ∧
      ((∀ h e, ¬ usable s' h e) ∨
       ∃ h1 e1 h2 e2, h1 ≠ h2 ∧ usable s h1 e1 ∧ usable s h2 e2 ∧
         ∀ h e, usable s' h e ↔ usable s h e ∧ h ≠ h1 ∧ h ≠ h2)
  | Err _ => fb = false ∧ fallbackActive s' = true
  end.
Proof.
  unfold GetBestReplica. intros H Hc. rewrite Hc in H. cbn [try_replicas] in H.
  destruct (selectBest s) as [c1|] eqn:E1; cycle 1.
  { pose proof (selectBest_none_usable s E1) as Hn.
    destruct fb; injection H as <- <-; simpl; [|done]. split_and!; [done|done|left; exact Hn]. }
  destruct (selectBest_usable s c1 E1) as (e1 & U1 & P1).
  destruct (ping (c_pool c1) 0%nat) eqn:G1.
  { injection H as <- <-. split_and!; [done|done|]. exists e1, 0%nat. split_and!; [lia|done..]. }
  destruct (selectBest (markUnhealthy (c_host c1) s)) as [c2|] eqn:E2; cycle 1.
  { pose proof (selectBest_none_usable _ E2) as Hn.
    destruct fb; injection H as <- <-; simpl; [|done]. split_and!; [done|done|left; exact Hn]. }
  destruct (selectBest_usable _ c2 E2) as (e2 & U2 & P2). apply markUnhealthy_usable in U2 as [Hne U2].
  destruct (ping (c_pool c2) 1%nat) eqn:G2.
  { injection H as <- <-. split_and!; [done|done|]. exists e2, 1%nat. split_and!; [lia|done..]. }
  destruct fb; injection H as <- <-; simpl; [|done]. split_and!; [done|done|right].
  exists (c_host c1), e1, (c_host c2), e2. split_and!; [done|done|done|].
  intros h e. change (usable _ h e) with (usable (markUnhealthy (c_host c2) (markUnhealthy (c_host c1) s)) h e) at 1.
  rewrite !markUnhealthy_usable. naive_solver.
Qed.

(** A replica whose probe just failed is preferred: until the third failure in a row it
    stays healthy with the recorded latency -1 ms, which is below every measured one, so the
    next read picks it first. *)
Theorem failed_probe_preferred s h e :
  usable s h e → 0 <= re_failures e → re_failures e + 1 < failThreshold s → failThreshold s < 2 ^ 31 →
  (∀ h' e', usable s h' e' → 0 <= re_latencyMs e') →
  let s' := set_replicas (<[h := probeReplica (failThreshold s) (recoverThreshold s) None e]> (replicas s)) s in
  ∃ c, selectBest s' = Some c ∧ c_host c = h ∧ re_pool e = Some (c_pool c).
Proof.
  intros (He & [p Hp] & Hh) Hf0 Hf Hft Hlat s'.
  set (e' := probeReplica (failThreshold s) (recoverThreshold s) None e) in *.
  assert (Hpool : re_pool e' = Some p) by (unfold e'; by rewrite probe_pool).
  assert (He' : re_healthy e' = true ∧ re_latencyMs e' = -1000).
  { unfold e', probeReplica. rewrite Hp. unfold updateCircuitBreaker, setLatency. simpl. rewrite wrap32_small by lia.
    destruct (Z.leb_spec (failThreshold s) (re_failures e + 1)); [lia|done]. }
  destruct He' as [Hh' Hl'].
  assert (Hu : mkCandidate h p (-1000) ∈ candidates s').
  { apply elem_of_candidates. exists e'. split_and!; [by unfold s'; simpl; rewrite lookup_insert_eq|done..]. }
  destruct (selectBest s') as [c|] eqn:E; cycle 1.
  { apply selectBest_None in E. rewrite E in Hu. by apply elem_of_nil in Hu. }
  exists c. split; [done|]. apply selectBest_in in E as [Hin Hmin]. specialize (Hmin _ Hu). apply cand_le_lat in Hmin.
  apply elem_of_candidates in Hin as (ec & Hec & Hpc & Hhc & Hlc). unfold s' in Hec. simpl in Hec.
  apply lookup_insert_Some in Hec as [[-> <-]|[Hne Hec]].
  { split; [done|]. congruence. }
  exfalso. assert (Hnn : 0 <= re_latencyMs ec) by (eapply (Hlat (c_host c)); repeat split; [exact Hec|by eexists|done]).
  assert (Hs : signed_as false (c_lat c) = true).
  { apply (f_div_signed false false); [|reflexivity..]. pose proof (f_of_Z_signed (c_latencyMs c)) as Hs.
    destruct (Z.ltb_spec (c_latencyMs c) 0); [lia|done]. }
  change (c_lat (mkCandidate h p (-1000))) with (f_div (f_of_Z (-1000)) (f_of_Z 1000)) in Hmin.
  replace (f_div (f_of_Z (-1000)) (f_of_Z 1000)) with (S754_finite true 4503599627370496 (-52)) in Hmin by (vm_compute; reflexivity).
  by destruct (c_lat c) as [[]|[]| |[]].
Qed.

(** ** Concrete runs *)

Theorem breaker_refines_spec_witness :
  let probes := [Some 100; None; None; None; Some 100] in
  re_healthy (probed 3 2 probes (newEntry "a" 0%nat)) = false ∧
  healthy_spec 3 2 (rev (outcome <$> probes)) = false.
Proof.
  split; [vm_compute; reflexivity|].
  rewrite <- (breaker_refines_spec 3 2 "a" 0%nat [Some 100; None; None; None; Some 100]);
    [vm_compute; reflexivity|lia|lia|reflexivity].
Defined.

Definition twoHosts : patroni_reply := PatroniReply 200 (Some (mk_obj [("members", Some (JArr
  [mk_obj [("name", Some (JStr "n1")); ("role", Some (JStr "replica")); ("state", Some (JStr "running")); ("host", Some (JStr "10.0.0.1"))];
   mk_obj [("name", Some (JStr "n2")); ("role", Some (JStr "Replica")); ("state", Some (JStr "running")); ("host", Some (JStr "10.0.0.2"))];
   mk_obj [("name", Some (JStr "n3")); ("role", Some (JStr "leader")); ("state", Some (JStr "running")); ("host", Some (JStr "10.0.0.3"))]]))])).

Definition sampleEnv : probe_env :=
  mkProbeEnv (λ _, twoHosts) (λ _, true) (λ h, Some (if bool_decide (h = "10.0.0.1") then 12500 else 4200)) 5.

Definition freshSelector : ReplicaSelector :=
  mkSelector ["p1"] ∅ None EmptyString EmptyString false 3 2 false 0%nat [].
Definition probedSelector : ReplicaSelector := runProbeCycle sampleEnv freshSelector.

Lemma freshSelector_ok : pools_ok freshSelector.
Proof.
  split; simpl; [by intros h p (e & He & _)|by intros h1 h2 p (e & He & _)|by repeat constructor|lia].
Qed.

Theorem pools_closed_once_witness :
  0%nat ∈ closed_pools (Close probedSelector) ∧ 1%nat ∈ closed_pools (Close probedSelector).
Proof.
  destruct (pools_closed_once ["p1"] "user=u" freshSelector (Close probedSelector)) as (_ & _ & _ & _ & H).
  - vm_compute. reflexivity.
  - eapply rtc_l; [apply (step_probe _ sampleEnv); reflexivity|]. eapply rtc_l; [apply step_close|]. apply rtc_refl.
  - split; (apply H; [vm_compute; reflexivity|apply Nat.ltb_lt; vm_compute; reflexivity]).
Defined.

Theorem probe_cycle_follows_cluster_witness :
  (∃ e, replicas probedSelector !! "10.0.0.1" = Some e ∧ re_latencyMs e = 12500) ∧
  replicas probedSelector !! "10.0.0.3" = None.
Proof.
  split; [eexists; split; vm_compute; reflexivity|].
  assert (Hd : discoverReplicas (pe_cluster sampleEnv) (patroniHosts freshSelector)
    = Ok [mkMember "n1" "replica" "running" "10.0.0.1" 0; mkMember "n2" "Replica" "running" "10.0.0.2" 0])
    by (vm_compute; reflexivity).
  pose proof (probe_cycle_follows_cluster sampleEnv freshSelector _ Hd freshSelector_ok "10.0.0.3") as H.
  simpl in H. exact H.
Defined.

Theorem GetBestReplica_answers_witness :
  let r := GetBestReplica (λ p _, Nat.eqb p 7) true probedSelector in
  r.1 = Ok None ∧ ∀ h e, ¬ usable r.2 h e ∨
    ∃ h1 e1 h2 e2, h1 ≠ h2 ∧ usable probedSelector h1 e1 ∧ usable probedSelector h2 e2.
Proof.
  intros r. pose proof (GetBestReplica_answers (λ p _, Nat.eqb p 7) true probedSelector r.2 r.1 (surjective_pairing _) eq_refl) as H.
  assert (Hr : r.1 = Ok None) by (vm_compute; reflexivity). split; [exact Hr|].
  rewrite Hr in H. destruct H as (_ & _ & [H|(h1 & e1 & h2 & e2 & Hne & U1 & U2 & _)]); intros h e.
  - left. apply H.
  - right. exists h1, e1, h2, e2. split; [exact Hne|]. split; [exact U1|exact U2].
Defined.

Theorem failed_probe_preferred_witness :
  let e := mkEntry "n1" (Some 1%nat) 12500 true 0 1 in
  let s := mkSelector ["p1"] {["10.0.0.1" := e]} None EmptyString EmptyString false 3 2 false 2%nat [] in
  ∃ c, selectBest (set_replicas (<["10.0.0.1" := probeReplica 3 2 None e]> (replicas s)) s) = Some c ∧ c_host c = "10.0.0.1".
Proof.
  intros e s. destruct (failed_probe_preferred s "10.0.0.1" e) as (c & H & Hc & _).
  - split; [apply lookup_singleton_eq|]. split; [by eexists|reflexivity].
  - simpl. lia.
  - simpl. lia.
  - reflexivity.
  - intros h' e' (He' & _). unfold s in He'. simpl in He'. apply lookup_singleton_Some in He' as [_ <-]. simpl. lia.
  - exists c. split; [exact H|exact Hc].
Defined.
