(* ===== verification/GisData.v ===== *)
(** * GIS data: rows, source catalog, counties (packages [gis] and [gisrepo])

    The rows of the gis tables ([repository/gis/types.go]), the catalog of parcel sources
    ([parcel_sources.go], [sources.go]), and the county maps ([county_co.go],
    [county_slug.go]). Decimal constants are the float64s nearest to them. *)

From Stdlib Require Import Ascii String.
From stdpp Require Import gmap strings list sorting.
From S2P Require Import Prelude GoStrings GoTime GoFloat GoNum GoJson Payload Config.

Open Scope Z_scope.
Open Scope string_scope.

(** ** Rows *)

(** [query.go] *)
Record BBox := mkBBox { West : float64; South : float64; East : float64; North : float64 }.

(** gis_parcels; the geometry is the GeoJSON document PostGIS was given. *)
Record ParcelRow := mkParcelRow {
  pr_ParcelID : string;
  pr_SourceKey : string;
  pr_County : string;
  pr_Geometry : json;
  pr_Properties : row;
  pr_SiteAddress : option string;
  pr_OwnerName : option string;
  pr_City : option string;
  pr_ZipCode : option string;
  pr_JustValue : option float64;
  pr_AssessedValue : option float64;
  pr_LandValue : option float64;
  pr_LivingAreaSqft : option float64;
  pr_YearBuilt : option Z;
  pr_Acres : option float64;
  pr_LandUseCode : option string;
  pr_LastSalePrice : option float64;
  pr_LastSaleDate : option Z;
  pr_SourceGeneration : Z;
  pr_SourceFingerprint : option string;
}.

Record CityRow := mkCityRow {
  ci_CityName : string;
  ci_County : option string;
  ci_SourceKey : string;
  ci_Geometry : json;
  ci_Properties : row;
  ci_SourceGeneration : Z;
  ci_SourceFingerprint : option string;
}.

Record CountyRow := mkCountyRow {
  co_CountyName : string;
  co_CountySlug : string;
  co_FIPSCode : option string;
  co_MLSStellar : bool;
  co_MLSBeaches : bool;
  co_SourceKey : string;
  co_Geometry : json;
  co_Properties : row;
  co_SourceGeneration : Z;
  co_SourceFingerprint : option string;
}.

Record ZipRow := mkZipRow {
  zi_ZipCode : string;
  zi_SourceKey : string;
  zi_Geometry : json;
  zi_Properties : row;
  zi_SourceGeneration : Z;
  zi_SourceFingerprint : option string;
}.

(** gis_parcel_sources, with its last_synced_at apart. *)
Record ParcelSourceRow := mkSourceRow {
  sr_SourceKey : string;
  sr_CountySlug : string;
  sr_QueryURL : string;
  sr_SyncMode : string;
  sr_ArcGISWhere : option string;
  sr_BBoxWest : option float64;
  sr_BBoxSouth : option float64;
  sr_BBoxEast : option float64;
  sr_BBoxNorth : option float64;
  sr_HTTPTimeoutSec : option Z;
  sr_PageSize : option Z;
  sr_MLSFeed : string;
  sr_Enabled : bool;
  sr_Priority : Z;
  sr_Notes : option string;
}.

(** gis_source_states *)
Record source_state := mkSourceState {
  ss_fingerprint : option string;
  ss_generation : Z;
  ss_last_checked_at : option Z;
  ss_last_changed_at : option Z;
}.

(** gis_cache *)
Record gis_cache_row := mkGisCache {
  gc_geojson : RawMessage;
  gc_expires_at : Z;
  gc_source_used : string;
  gc_source_generation : Z;
}.

(** The last_synced_at columns, by the keys of their rows; a key without a row has none. *)
Record SyncTimes := mkSynced {
  sy_parcels : gmap (string * string) Z;
  sy_cities : gmap Z Z;
  sy_counties : gmap string Z;
  sy_zips : gmap string Z;
}.

(** The tables by their unique keys; gis_cities has a unique (city_name, county) that NULL
    counties escape, so its rows are kept by id. *)
Record GisTables := mkGis {
  gt_parcels : gmap (string * string) ParcelRow;
  gt_cities : gmap Z CityRow;
  gt_city_seq : Z;
  gt_counties : gmap string CountyRow;
  gt_zips : gmap string ZipRow;
  gt_states : gmap string source_state;
  gt_sources : gmap string (ParcelSourceRow * option Z);
  gt_cache : gmap string gis_cache_row;
  gt_synced : SyncTimes;
}.

Definition set_parcels v g := mkGis v (gt_cities g) (gt_city_seq g) (gt_counties g) (gt_zips g) (gt_states g) (gt_sources g) (gt_cache g) (gt_synced g).
Definition set_cities v s g := mkGis (gt_parcels g) v s (gt_counties g) (gt_zips g) (gt_states g) (gt_sources g) (gt_cache g) (gt_synced g).
Definition set_counties v g := mkGis (gt_parcels g) (gt_cities g) (gt_city_seq g) v (gt_zips g) (gt_states g) (gt_sources g) (gt_cache g) (gt_synced g).
Definition set_zips v g := mkGis (gt_parcels g) (gt_cities g) (gt_city_seq g) (gt_counties g) v (gt_states g) (gt_sources g) (gt_cache g) (gt_synced g).
Definition set_states v g := mkGis (gt_parcels g) (gt_cities g) (gt_city_seq g) (gt_counties g) (gt_zips g) v (gt_sources g) (gt_cache g) (gt_synced g).
Definition set_sources v g := mkGis (gt_parcels g) (gt_cities g) (gt_city_seq g) (gt_counties g) (gt_zips g) (gt_states g) v (gt_cache g) (gt_synced g).
Definition set_gis_cache v g := mkGis (gt_parcels g) (gt_cities g) (gt_city_seq g) (gt_counties g) (gt_zips g) (gt_states g) (gt_sources g) v (gt_synced g).
Definition set_synced v g := mkGis (gt_parcels g) (gt_cities g) (gt_city_seq g) (gt_counties g) (gt_zips g) (gt_states g) (gt_sources g) (gt_cache g) v.

Definition FDOTAdminBoundariesKey : string := "fdot_admin_boundaries".

(** The tables after the migrations: one source state is inserted by them. *)
Definition emptyGis : GisTables :=
  mkGis ∅ ∅ 1 ∅ ∅ {[FDOTAdminBoundariesKey := mkSourceState None 0 None None]} ∅ ∅ (mkSynced ∅ ∅ ∅ ∅).

(** ** Counties *)

(** [CountyNameToSlug] *)
Definition CountyNameToSlug (name : string) : string :=
  let s := TrimSpace name in
  let s := TrimSuffix s " County" in
  let s := ReplaceAll s "St. " "St " in
  let s := ToLower s in
  let s := ReplaceAll s " " "-" in
  ReplaceAll s "." EmptyString.

Definition MLSStellarSlugs : list string :=
  ["alachua"; "charlotte"; "desoto"; "flagler"; "hillsborough"; "lake"; "manatee"; "marion";
   "okeechobee"; "orange"; "osceola"; "pasco"; "pinellas"; "polk"; "sarasota"; "sumter"; "volusia"].
Definition MLSBeachesSlugs : list string := ["broward"; "palm-beach"; "martin"; "st-lucie"; "miami-dade"].

(** FDOR CO_NO values of the pilot counties. *)
Definition coNoToCountySlug : list (Z * string) :=
  [(1, "alachua"); (6, "broward"); (8, "charlotte"); (14, "desoto"); (18, "flagler"); (23, "miami-dade");
   (28, "hillsborough"); (34, "lake"); (40, "manatee"); (41, "marion"); (42, "martin"); (47, "okeechobee");
   (48, "orange"); (50, "palm-beach"); (51, "pasco"); (52, "pinellas"); (53, "polk"); (56, "st-lucie");
   (57, "sarasota"); (59, "osceola"); (60, "sumter"); (64, "volusia")].

Definition CountySlugFromCONO (coNo : Z) : option string :=
  (list_to_map coNoToCountySlug : gmap Z string) !! coNo.

Definition IsMLSPilotCounty (slug : string) : bool :=
  bool_decide (slug ∈ MLSStellarSlugs) || bool_decide (slug ∈ MLSBeachesSlugs).

Definition FloridaStatewideCadastralKey : string := "florida_statewide_cadastral".
Definition FloridaStatewideCadastralURL : string :=
  "https://services9.arcgis.com/Gh9awoU677aKree0/arcgis/rest/services/Florida_Statewide_Cadastral/FeatureServer/0/query".
Definition IsStatewideCadastralSource (sourceKey : string) : bool :=
  bool_decide (sourceKey = FloridaStatewideCadastralKey).

Definition PinellasParcelsQueryURL : string :=
  "https://egis.pinellascounty.org/arcgis/rest/services/PARCEL/MapServer/0/query".
Definition HillsboroughParcelsQueryURL : string :=
  "https://maps.hillsboroughcounty.org/arcgis/rest/services/InfoLayers/HC_ParcelsPublic/FeatureServer/0/query".

(** [countySyncBBoxes]: west, south, east, north. *)
Definition bbox_of (w s e n : string) : BBox := mkBBox (lit w) (lit s) (lit e) (lit n).

Definition countySyncBBoxes : list (string * BBox) :=
  [("alachua", bbox_of "-82.65" "29.35" "-81.95" "29.95");
   ("charlotte", bbox_of "-82.35" "26.75" "-81.75" "27.15");
   ("desoto", bbox_of "-82.05" "27.05" "-81.65" "27.55");
   ("flagler", bbox_of "-81.55" "29.25" "-81.05" "29.65");
   ("hillsborough", bbox_of "-82.85" "27.65" "-82.05" "28.20");
   ("lake", bbox_of "-82.05" "28.55" "-81.35" "29.05");
   ("manatee", bbox_of "-82.85" "27.25" "-82.15" "27.65");
   ("marion", bbox_of "-82.45" "28.85" "-81.75" "29.45");
   ("okeechobee", bbox_of "-81.15" "27.15" "-80.55" "27.75");
   ("orange", bbox_of "-81.75" "28.25" "-80.95" "28.85");
   ("osceola", bbox_of "-81.55" "27.85" "-80.95" "28.35");
   ("pasco", bbox_of "-82.85" "28.05" "-82.15" "28.55");
   ("pinellas", bbox_of "-82.98" "27.60" "-82.55" "28.25");
   ("polk", bbox_of "-82.15" "27.65" "-81.35" "28.35");
   ("sarasota", bbox_of "-82.85" "26.95" "-82.05" "27.45");
   ("sumter", bbox_of "-82.35" "28.45" "-81.85" "28.95");
   ("volusia", bbox_of "-81.55" "28.75" "-80.85" "29.45");
   ("broward", bbox_of "-80.45" "25.95" "-79.95" "26.45");
   ("palm-beach", bbox_of "-80.35" "26.35" "-79.85" "26.95");
   ("martin", bbox_of "-80.65" "26.85" "-80.05" "27.35");
   ("st-lucie", bbox_of "-80.75" "27.05" "-80.15" "27.65");
   ("miami-dade", bbox_of "-80.85" "25.35" "-80.05" "25.95")].

Definition countyBBox (slug : string) : BBox :=
  match (list_to_map countySyncBBoxes : gmap string BBox) !! slug with
  | Some b => b
  | None => bbox_of "-87.6" "24.4" "-79.8" "31.1"
  end.

(** The first county in the map's order whose envelope holds the point; Go leaves the order
    open. *)
Definition countyHint (order : list (string * BBox)) (lat lng : float64) : string :=
  match list_find (λ '(_, b), (f_le (South b) lat && f_le lat (North b) &&
                               f_le (West b) lng && f_le lng (East b)) = true) order with
  | Some (_, (slug, _)) => slug
  | None => EmptyString
  end.

Definition intersects (a b : BBox) : bool :=
  negb (f_lt (East a) (West b) || f_lt (East b) (West a) || f_lt (North a) (South b) || f_lt (North b) (South a)).

(** ** The source catalog *)

Definition SyncModeBBox : string := "bbox".
Definition SyncModePaginate : string := "paginate".
Definition FormatGeoJSON : string := "geojson".
Definition FormatJSON : string := "json".

Record ParcelSourceSpec := mkSpec {
  sp_SourceKey : string;
  sp_CountySlug : string;
  sp_QueryURL : string;
  sp_SyncMode : string;
  sp_ArcGISWhere : string;
  sp_SyncBBox : BBox;
  sp_ResponseFormat : string;
  sp_MLSFeed : string;
  sp_Enabled : bool;
  sp_Priority : Z;
  sp_HTTPTimeoutSec : Z;
  sp_ParcelIDFields : list string;
  sp_Notes : string;
}.

Definition zeroBBox : BBox := mkBBox f_zero f_zero f_zero f_zero.

Definition ParcelSourceCatalog : list ParcelSourceSpec :=
  [{| sp_SourceKey := FloridaStatewideCadastralKey; sp_CountySlug := "statewide";
      sp_QueryURL := FloridaStatewideCadastralURL; sp_SyncMode := SyncModePaginate;
      sp_ArcGISWhere := EmptyString; sp_SyncBBox := zeroBBox; sp_ResponseFormat := FormatGeoJSON;
      sp_MLSFeed := "stellar"; sp_Enabled := true; sp_Priority := 1; sp_HTTPTimeoutSec := 0;
      sp_ParcelIDFields := ["PARCEL_ID_"; "PARCELNO"; "ALT_KEY"; "PARCELID"; "PARCEL_ID"; "STATE_PAR_"];
      sp_Notes := "FDOR Cadastral 2025; paginate where=1=1; CO_NO filter in Go" |};
   {| sp_SourceKey := "pinellas_enterprise_parcels"; sp_CountySlug := "pinellas";
      sp_QueryURL := PinellasParcelsQueryURL; sp_SyncMode := SyncModeBBox;
      sp_ArcGISWhere := EmptyString; sp_SyncBBox := countyBBox "pinellas"; sp_ResponseFormat := FormatGeoJSON;
      sp_MLSFeed := "stellar"; sp_Enabled := true; sp_Priority := 2; sp_HTTPTimeoutSec := 120;
      sp_ParcelIDFields := ["PARCEL_ID"; "PARCELID"; "PIN"]; sp_Notes := EmptyString |};
   {| sp_SourceKey := "hillsborough_hc_parcels"; sp_CountySlug := "hillsborough";
      sp_QueryURL := HillsboroughParcelsQueryURL; sp_SyncMode := SyncModeBBox;
      sp_ArcGISWhere := EmptyString; sp_SyncBBox := countyBBox "hillsborough"; sp_ResponseFormat := FormatGeoJSON;
      sp_MLSFeed := "stellar"; sp_Enabled := true; sp_Priority := 3; sp_HTTPTimeoutSec := 0;
      sp_ParcelIDFields := ["PARCEL_ID"; "PARCELID"; "PIN"; "FOLIO"]; sp_Notes := EmptyString |}].

(** The inner loop of [sortParcelSourcesByPriority]: the head against each later element,
    swapped when the later one has the smaller priority. *)
Fixpoint exchange (h : ParcelSourceSpec) (l : list ParcelSourceSpec) : ParcelSourceSpec * list ParcelSourceSpec :=
  match l with
  | [] => (h, [])
  | y :: r => if (sp_Priority y <? sp_Priority h)%Z
              then let '(h', r') := exchange y r in (h', h :: r')
              else let '(h', r') := exchange h r in (h', y :: r')
  end.

Fixpoint exchange_sort (n : nat) (l : list ParcelSourceSpec) : list ParcelSourceSpec :=
  match n, l with
  | S n, x :: r => let '(h, r') := exchange x r in h :: exchange_sort n r'
  | _, _ => l
  end.

Definition sortParcelSourcesByPriority (sources : list ParcelSourceSpec) : list ParcelSourceSpec :=
  exchange_sort (length sources) sources.

Definition EnabledParcelSourcesForConfig (cfg : GISConfig) : list ParcelSourceSpec :=
  sortParcelSourcesByPriority
    (filter (λ s, (sp_Enabled s &&
       negb (bool_decide (sp_SourceKey s = "pinellas_enterprise_parcels") &&
             negb (gis_SyncPinellasEnterprise cfg))) = true) ParcelSourceCatalog).

Definition FailoverSourcesForBBox (b : BBox) : list ParcelSourceSpec :=
  sortParcelSourcesByPriority
    (filter (λ s, (negb (bool_decide (sp_CountySlug s = EmptyString) || bool_decide (sp_CountySlug s = "statewide") ||
                         negb (sp_Enabled s)) && intersects b (sp_SyncBBox s)) = true) ParcelSourceCatalog).

Definition ParcelSourceSpecByKey (sourceKey : string) : option ParcelSourceSpec :=
  snd <$> list_find (λ s, sp_SourceKey s = sourceKey) ParcelSourceCatalog.

(** [Source] of the live proxy. *)
Record Source := mkSource { so_Key : string; so_QueryURL : string; so_Tier : string; so_Where : string; so_CountyCO : string }.

Definition sourcesForBBox (b : BBox) : list Source :=
  (λ s, mkSource (sp_SourceKey s) (sp_QueryURL s) (sp_CountySlug s) (sp_ArcGISWhere s) EmptyString)
  <$> FailoverSourcesForBBox b.

(** ** Laws *)

Definition priority_le (a b : ParcelSourceSpec) : Prop := sp_Priority a <= sp_Priority b.

Lemma exchange_spec l : ∀ h h' l', exchange h l = (h', l') →
  h' :: l' ≡ₚ h :: l ∧ length l' = length l ∧ Forall (priority_le h') l' ∧ sp_Priority h' <= sp_Priority h.
Proof.
  induction l as [|y r IH]; intros h h' l'; simpl; [intros [= <- <-]; auto with lia|].
  destruct (Z.ltb_spec (sp_Priority y) (sp_Priority h)); (destruct (exchange _ r) as [h1 r1] eqn:E; intros [= <- <-];
    destruct (IH _ _ _ E) as (Hp & Hl & Hf & Hle)); split_and!; simpl; try lia.
  - rewrite Permutation_swap, Hp. done.
  - constructor; [unfold priority_le; lia|done].
  - rewrite Permutation_swap, Hp. apply Permutation_swap.
  - constructor; [unfold priority_le; lia|done].
Qed.

Lemma exchange_sort_spec n l : length l = n →
  exchange_sort n l ≡ₚ l ∧ StronglySorted priority_le (exchange_sort n l).
Proof.
  revert l. induction n as [|n IH]; intros [|x r] Hl; try done; [by split; [|constructor]|].
  simpl. destruct (exchange x r) as [h r'] eqn:E. destruct (exchange_spec _ _ _ _ E) as (Hp & Hr & Hf & _).
  destruct (IH r') as [Hp' Hs]; [simpl in Hl; lia|].
  split; [by rewrite Hp', Hp|]. constructor; [done|]. by rewrite Hp'.
Qed.

(** The hand-written sort is a sort. *)
Lemma sortParcelSourcesByPriority_spec l :
  sortParcelSourcesByPriority l ≡ₚ l ∧ StronglySorted priority_le (sortParcelSourcesByPriority l).
Proof. by apply exchange_sort_spec. Qed.

Example county_slugs :
  CountyNameToSlug " St. Lucie County" = "st-lucie" ∧ CountyNameToSlug "Miami-Dade" = "miami-dade" ∧
  CountySlugFromCONO 59 = Some "osceola" ∧ CountySlugFromCONO 2 = None.
Proof. split_and!; vm_compute; reflexivity. Qed.
