(* ===== verification/CacheData.v ===== *)
(** * The rows of the cache tables: mls_search_cache, listings_cache and
    crypto_price_snapshots

    A compressed column holds the document it decompresses to. *)

From Stdlib Require Import Ascii String.
From stdpp Require Import gmap strings.
From S2P Require Import Prelude GoFloat GoJson Payload.

(** mls_search_cache by (partition_key, fingerprint) *)
Record search_cache_row := mkSearchCache { sc_data : RawMessage; sc_last_updated : Z }.

(** listings_cache by (domain_slug, feed_code, listing_key) *)
Record closed_row := mkClosed {
  cl_standard_status : string;
  cl_close_date : option Z;
  cl_latitude : option float64;
  cl_longitude : option float64;
  cl_close_price : option float64;
  cl_payload : RawMessage;
  cl_first_cached_at : Z;
  cl_last_refreshed_at : Z;
}.

(** crypto_price_snapshots by (asset_key, vs_currency) *)
Record price_row := mkPrice { px_price : float64; px_captured_at : Z }.

Record CacheTables := mkCaches {
  ct_search : gmap (string * string) search_cache_row;
  ct_closed : gmap (string * string * string) closed_row;
  ct_prices : gmap (string * string) price_row;
}.

Definition set_search v t := mkCaches v (ct_closed t) (ct_prices t).
Definition set_closed v t := mkCaches (ct_search t) v (ct_prices t).
Definition set_prices v t := mkCaches (ct_search t) (ct_closed t) v.
Definition emptyCaches : CacheTables := mkCaches ∅ ∅ ∅.
