(* ===== verification/AccessData.v ===== *)
(** * The rows of the account tables: users, domains, personal_access_tokens, user_invitations,
    mls_proxy_audit_logs

    Passwords and tokens are held as their hashes. *)

From Stdlib Require Import Ascii String.
From stdpp Require Import gmap strings.
From S2P Require Import Prelude GoJson Payload.

(** ** [domain.go] *)

Record Domain := mkDomain {
  d_ID : Z;
  d_UserID : option Z;
  d_ParentDomainID : option Z;
  d_IsStaging : bool;
  d_DomainSlug : string;
  d_IsActive : bool;
  d_MLSDataset : option string;
  d_AllowedMLSDatasets : RawMessage;
  d_VerificationStatus : string;
  d_VerificationMethod : option string;
  d_TXTVerificationName : option string;
  d_TXTVerificationValue : option string;
  d_TXTVerifiedAt : option Z;
}.

Record User := mkUser {
  u_ID : Z;
  u_Name : string;
  u_Email : string;
  u_Password : string;
  u_IsAdmin : bool;
}.

Record APIToken := mkToken {
  k_ID : Z;
  k_Type : string;          (* tokenable_type *)
  k_UserID : Z;             (* tokenable_id *)
  k_DomainID : option Z;
  k_Name : string;
  k_TokenHash : string;
  k_Abilities : option string;
  k_LastUsedAt : option Z;
  k_ExpiresAt : option Z;
}.

Record invitation_row := mkInvitation {
  iv_Email : string;
  iv_TokenHash : string;
  iv_InvitedBy : option Z;
  iv_ExpiresAt : Z;
  iv_AcceptedAt : option Z;
}.

(** mls_proxy_audit_logs *)
Record audit_row := mkAudit {
  au_logged_at : Z;
  au_domain_slug : option string;
  au_token_name : option string;
  au_request_type : string;
  au_listing_count : option Z;
  au_ip_address : string;
  au_user_id : option Z;
  au_cache_hit : option string;
}.

Record AccessTables := mkAccess {
  at_users : gmap Z User;
  at_user_seq : Z;
  at_domains : gmap Z Domain;
  at_domain_seq : Z;
  at_tokens : gmap Z APIToken;
  at_token_seq : Z;
  at_invites : gmap Z invitation_row;
  at_invite_seq : Z;
  at_audit : list audit_row;
}.

Definition set_users v t := mkAccess v (at_user_seq t) (at_domains t) (at_domain_seq t) (at_tokens t) (at_token_seq t) (at_invites t) (at_invite_seq t) (at_audit t).
Definition set_user_seq v t := mkAccess (at_users t) v (at_domains t) (at_domain_seq t) (at_tokens t) (at_token_seq t) (at_invites t) (at_invite_seq t) (at_audit t).
Definition set_domains v t := mkAccess (at_users t) (at_user_seq t) v (at_domain_seq t) (at_tokens t) (at_token_seq t) (at_invites t) (at_invite_seq t) (at_audit t).
Definition set_domain_seq v t := mkAccess (at_users t) (at_user_seq t) (at_domains t) v (at_tokens t) (at_token_seq t) (at_invites t) (at_invite_seq t) (at_audit t).
Definition set_tokens v t := mkAccess (at_users t) (at_user_seq t) (at_domains t) (at_domain_seq t) v (at_token_seq t) (at_invites t) (at_invite_seq t) (at_audit t).
Definition set_token_seq v t := mkAccess (at_users t) (at_user_seq t) (at_domains t) (at_domain_seq t) (at_tokens t) v (at_invites t) (at_invite_seq t) (at_audit t).
Definition set_invites v t := mkAccess (at_users t) (at_user_seq t) (at_domains t) (at_domain_seq t) (at_tokens t) (at_token_seq t) v (at_invite_seq t) (at_audit t).
Definition set_invite_seq v t := mkAccess (at_users t) (at_user_seq t) (at_domains t) (at_domain_seq t) (at_tokens t) (at_token_seq t) (at_invites t) v (at_audit t).
Definition set_audit v t := mkAccess (at_users t) (at_user_seq t) (at_domains t) (at_domain_seq t) (at_tokens t) (at_token_seq t) (at_invites t) (at_invite_seq t) v.

(** The tables of [t0] with the sequences of [t]. *)
Definition rollback_access (t0 t : AccessTables) : AccessTables :=
  mkAccess (at_users t0) (at_user_seq t) (at_domains t0) (at_domain_seq t) (at_tokens t0) (at_token_seq t)
    (at_invites t0) (at_invite_seq t) (at_audit t0).

Definition emptyAccess : AccessTables := mkAccess ∅ 1 ∅ 1 ∅ 1 ∅ 1 [].
