(* ===== verification/Database.v ===== *)
(** * The PostgreSQL tables the pipeline shares

    One [World] holds the tables (jobs, failed_jobs, job_batches, listing_sync_cursors,
    replica_pages, listings, and the gis tables of GisData CacheData) and the clock. Every statement goes through [stmt], which a
    fault oracle may make fail; [tx] is a transaction: all of its writes or none. Statements
    and transactions are atomic, as the row locks of the code ([FOR UPDATE SKIP LOCKED],
    single-statement updates) make them. *)

From Stdlib Require Import Ascii String.
From stdpp Require Import gmap strings list.
From S2P Require Import Prelude GoStrings GoTime GoFloat GoJson MlsFields Payload Listing GisData CacheData AccessData.

Open Scope Z_scope.

(** ** Rows *)

Record job_row := mkJob {
  j_queue : string;
  j_payload : text;
  j_attempts : Z;
  j_reserved_at : option Z;
  j_available_at : Z;
  j_created_at : Z;
}.

Record failed_row := mkFailed {
  f_uuid : string;
  f_queue : string;
  f_payload : text;
  f_exception : string;
  f_failed_at : Z;
}.

Record batch_row := mkBatch {
  b_name : string;
  b_total_jobs : Z;
  b_pending_jobs : Z;
  b_options : option json;
  b_created_at : Z;
  b_finished_at : option Z;
}.

(** [listing_sync_cursors]; instants in nanoseconds. *)
Record SyncCursor := mkCursor {
  cur_DatasetSlug : string;
  LastModificationTimestamp : option Z;
  IncrementalWindowEnd : option Z;
  ReplicationNextURL : option string;
  ReplicationInProgress : bool;
  LastSyncFinishedAt : option Z;
}.

Inductive page_status := PagePending | PageProcessing | PageCompleted | PageFailed.
#[export] Instance page_status_eq_dec : EqDecision page_status.
Proof. solve_decision. Defined.

Record page_row := mkPage {
  pg_provider : string;
  pg_dataset : string;
  pg_mode : string;
  pg_status : page_status;
  pg_parts : list (list text);   (* the decoded parts of compressed_payload *)
  pg_row_count : Z;
  pg_fetch_url : option string;
  pg_upstream_url : option string;
  pg_odata : option (gmap string string);
  pg_batch_id : option string;
  pg_created_at : Z;
  pg_processed_at : option Z;
}.

Record listing_row := mkListingRow {
  l_id : Z;
  l_rec : ListingRecord;          (* the columns the mirror writer fills *)
  l_coordinates : option (float64 * float64);   (* lng, lat *)
  l_fema_flood_zone_code : option string;
  l_flood_zone_sfha_tf : option string;
  l_flood_zone_raw : RawMessage;
  l_flood_zone_updated_at : option Z;
  l_low_risk_flood_zone_yn : bool;
  l_mirror_persisted_at : Z;
  l_created_at : Z;
  l_updated_at : Z;
}.

(** [id]s come from sequences that never go back, even when a transaction rolls back. *)
Record World := mkWorld {
  w_now : Z;
  w_jobs : gmap Z job_row;
  w_job_seq : Z;
  w_failed : list failed_row;
  w_batches : gmap string batch_row;
  w_uuid_seq : nat;
  w_cursors : gmap string SyncCursor;
  w_pages : gmap Z page_row;
  w_page_seq : Z;
  w_listings : gmap (string * string) listing_row;
  w_listing_seq : Z;
  w_gis : GisTables;
  w_caches : CacheTables;
  w_access : AccessTables;
  w_ops : nat;
}.

Definition set_now v w := mkWorld v (w_jobs w) (w_job_seq w) (w_failed w) (w_batches w) (w_uuid_seq w) (w_cursors w) (w_pages w) (w_page_seq w) (w_listings w) (w_listing_seq w) (w_gis w) (w_caches w) (w_access w) (w_ops w).
Definition set_jobs v w := mkWorld (w_now w) v (w_job_seq w) (w_failed w) (w_batches w) (w_uuid_seq w) (w_cursors w) (w_pages w) (w_page_seq w) (w_listings w) (w_listing_seq w) (w_gis w) (w_caches w) (w_access w) (w_ops w).
Definition set_job_seq v w := mkWorld (w_now w) (w_jobs w) v (w_failed w) (w_batches w) (w_uuid_seq w) (w_cursors w) (w_pages w) (w_page_seq w) (w_listings w) (w_listing_seq w) (w_gis w) (w_caches w) (w_access w) (w_ops w).
Definition set_failed v w := mkWorld (w_now w) (w_jobs w) (w_job_seq w) v (w_batches w) (w_uuid_seq w) (w_cursors w) (w_pages w) (w_page_seq w) (w_listings w) (w_listing_seq w) (w_gis w) (w_caches w) (w_access w) (w_ops w).
Definition set_batches v w := mkWorld (w_now w) (w_jobs w) (w_job_seq w) (w_failed w) v (w_uuid_seq w) (w_cursors w) (w_pages w) (w_page_seq w) (w_listings w) (w_listing_seq w) (w_gis w) (w_caches w) (w_access w) (w_ops w).
Definition set_uuid_seq v w := mkWorld (w_now w) (w_jobs w) (w_job_seq w) (w_failed w) (w_batches w) v (w_cursors w) (w_pages w) (w_page_seq w) (w_listings w) (w_listing_seq w) (w_gis w) (w_caches w) (w_access w) (w_ops w).
Definition set_cursors v w := mkWorld (w_now w) (w_jobs w) (w_job_seq w) (w_failed w) (w_batches w) (w_uuid_seq w) v (w_pages w) (w_page_seq w) (w_listings w) (w_listing_seq w) (w_gis w) (w_caches w) (w_access w) (w_ops w).
Definition set_pages v w := mkWorld (w_now w) (w_jobs w) (w_job_seq w) (w_failed w) (w_batches w) (w_uuid_seq w) (w_cursors w) v (w_page_seq w) (w_listings w) (w_listing_seq w) (w_gis w) (w_caches w) (w_access w) (w_ops w).
Definition set_page_seq v w := mkWorld (w_now w) (w_jobs w) (w_job_seq w) (w_failed w) (w_batches w) (w_uuid_seq w) (w_cursors w) (w_pages w) v (w_listings w) (w_listing_seq w) (w_gis w) (w_caches w) (w_access w) (w_ops w).
Definition set_listings v w := mkWorld (w_now w) (w_jobs w) (w_job_seq w) (w_failed w) (w_batches w) (w_uuid_seq w) (w_cursors w) (w_pages w) (w_page_seq w) v (w_listing_seq w) (w_gis w) (w_caches w) (w_access w) (w_ops w).
Definition set_listing_seq v w := mkWorld (w_now w) (w_jobs w) (w_job_seq w) (w_failed w) (w_batches w) (w_uuid_seq w) (w_cursors w) (w_pages w) (w_page_seq w) (w_listings w) v (w_gis w) (w_caches w) (w_access w) (w_ops w).
Definition set_ops v w := mkWorld (w_now w) (w_jobs w) (w_job_seq w) (w_failed w) (w_batches w) (w_uuid_seq w) (w_cursors w) (w_pages w) (w_page_seq w) (w_listings w) (w_listing_seq w) (w_gis w) (w_caches w) (w_access w) v.
Definition set_gis v w := mkWorld (w_now w) (w_jobs w) (w_job_seq w) (w_failed w) (w_batches w) (w_uuid_seq w) (w_cursors w) (w_pages w) (w_page_seq w) (w_listings w) (w_listing_seq w) v (w_caches w) (w_access w) (w_ops w).
Definition set_caches v w := mkWorld (w_now w) (w_jobs w) (w_job_seq w) (w_failed w) (w_batches w) (w_uuid_seq w) (w_cursors w) (w_pages w) (w_page_seq w) (w_listings w) (w_listing_seq w) (w_gis w) v (w_access w) (w_ops w).

Definition set_access v w := mkWorld (w_now w) (w_jobs w) (w_job_seq w) (w_failed w) (w_batches w) (w_uuid_seq w) (w_cursors w) (w_pages w) (w_page_seq w) (w_listings w) (w_listing_seq w) (w_gis w) (w_caches w) v (w_ops w).

(** ** Statements and transactions *)

(** Which statements the database refuses (a lost connection, a conflict): a parameter. *)
Class Faults := fault : nat → bool.

Definition db_error : string := "database error".

Section Statements.
Context {F : Faults}.

(** One statement: it fails and writes nothing, or runs. *)
Definition stmt {A} (c : M World A) : M World A := λ w,
  let w' := set_ops (S (w_ops w)) w in
  if fault (w_ops w) then (Err db_error, w') else c w'.

(** The tables of [w0] with what survives a rollback of [w]: the sequences, the statement
    count and the clock. *)
Definition rolled_back (w0 w : World) : World :=
  mkWorld (w_now w) (w_jobs w0) (w_job_seq w) (w_failed w0) (w_batches w0) (w_uuid_seq w)
    (w_cursors w0) (w_pages w0) (w_page_seq w) (w_listings w0) (w_listing_seq w) (w_gis w0) (w_caches w0) (rollback_access (w_access w0) (w_access w)) (w_ops w).

(** [Begin; body; Commit] with a deferred [Rollback]: [Some a] commits, [None] returns
    without committing. *)
Definition tx {A} (body : M World (option A)) : M World (option A) := λ w0,
  match stmt (ret tt) w0 with
  | (Err e, w) => (Err e, w)
  | (Ok _, w) =>
      match body w with
      | (Err e, w') => (Err e, rolled_back w0 w')
      | (Ok None, w') => (Ok None, rolled_back w0 w')
      | (Ok (Some a), w') =>
          match stmt (ret tt) w' with
          | (Ok _, w'') => (Ok (Some a), w'')
          | (Err e, w'') => (Err e, rolled_back w0 w'')
          end
      end
  end.
End Statements.

(** The views of the world [keeps] is used with. *)
Section Framing.
Context {F : Faults} {V : Type} (view : World → V).

(** A view statements and rollbacks do not reach by themselves. *)
Class TableView := {
  view_ops : ∀ n w, view (set_ops n w) = view w;
  view_rollback : ∀ w0 w, view (rolled_back w0 w) = view w0 ∨ view (rolled_back w0 w) = view w;
}.
Context {TV : TableView}.

Lemma keeps_stmt {A} (c : M World A) : keeps view c → keeps view (stmt c).
Proof.
  intros Hc w. unfold stmt. destruct (fault _); simpl; [apply view_ops|].
  rewrite Hc. apply view_ops.
Qed.

Lemma keeps_tx {A} (c : M World (option A)) : keeps view c → keeps view (tx c).
Proof.
  intros Hc w. unfold tx.
  pose proof (keeps_stmt (ret tt) (keeps_ret _ _) w) as H1.
  destruct (stmt (ret tt) w) as [[[]|e] w1]; simpl in *; [|done].
  specialize (Hc w1). destruct (c w1) as [[[a|]|e] w2]; simpl in *.
  - pose proof (keeps_stmt (ret tt) (keeps_ret _ _) w2) as H2.
    destruct (stmt (ret tt) w2) as [[[]|e] w3]; simpl in *; [congruence|].
    destruct (view_rollback w w3); congruence.
  - destruct (view_rollback w w2); congruence.
  - destruct (view_rollback w w2); congruence.
Qed.
End Framing.
#[export] Hint Resolve keeps_stmt keeps_tx : go.

#[export] Instance view_jobs : TableView w_jobs.
Proof. split; [done | by left]. Qed.
#[export] Instance view_failed : TableView w_failed.
Proof. split; [done | by left]. Qed.
#[export] Instance view_batches : TableView w_batches.
Proof. split; [done | by left]. Qed.
#[export] Instance view_cursors : TableView w_cursors.
Proof. split; [done | by left]. Qed.
#[export] Instance view_pages : TableView w_pages.
Proof. split; [done | by left]. Qed.
#[export] Instance view_listings : TableView w_listings.
Proof. split; [done | by left]. Qed.
#[export] Instance view_gis : TableView w_gis.
Proof. split; [done | by left]. Qed.
#[export] Instance view_caches : TableView w_caches.
Proof. split; [done | by left]. Qed.
#[export] Instance view_now : TableView w_now.
Proof. split; [done | by right]. Qed.

(** A database that never fails: the hypothesis of the liveness theorems. *)
Class NoFaults `{Faults} := no_fault : ∀ n, fault n = false.

Definition never_fails : Faults := λ _, false.
Lemma never_fails_ok : @NoFaults never_fails.
Proof. by intros n. Qed.

Section NoFault.
Context {F : Faults} {NF : NoFaults}.

Lemma stmt_run {A} (c : M World A) w : stmt c w = c (set_ops (S (w_ops w)) w).
Proof. unfold stmt. by rewrite no_fault. Qed.

Lemma tx_commit {A} (c : M World (option A)) w a w' :
  c (set_ops (S (w_ops w)) w) = (Ok (Some a), w') →
  tx c w = (Ok (Some a), set_ops (S (w_ops w')) w').
Proof. intros H. unfold tx. rewrite stmt_run. simpl. rewrite H. by rewrite stmt_run. Qed.

Lemma tx_none {A} (c : M World (option A)) w w' :
  c (set_ops (S (w_ops w)) w) = (Ok None, w') → tx c w = (Ok None, rolled_back w w').
Proof. intros H. unfold tx. rewrite stmt_run. simpl. by rewrite H. Qed.
End NoFault.

(** An empty database at instant [t]. *)
Definition empty_world (t : Z) : World := mkWorld t ∅ 1 [] ∅ 0 ∅ ∅ 1 ∅ 1 emptyGis emptyCaches emptyAccess 0.
