(* ===== verification/Queue.v ===== *)
(** * The PostgreSQL job queue (package [queue])

    Models [payload.go], [laravel.go], [queue.go] and [worker_queues.go]: the payload
    envelope, enqueueing single jobs and batches, reserving (stale reservations released,
    lowest id first), fair rotation over queues, deleting, releasing with the attempt limit,
    failing, and completing a batch. *)

From Stdlib Require Import Ascii String.
From stdpp Require Import gmap strings list.
From S2P Require Import Prelude GoStrings GoTime GoFloat GoJson Payload Database.

Open Scope Z_scope.
Open Scope string_scope.

(** ** Payloads *)

Record JobPayload := mkJobPayload { p_Type : string; p_Args : RawMessage }.

Definition TypeNoop : string := "noop".
Definition TypeBridgeFetchPage : string := "bridge.fetch_page".
Definition TypeBridgePersistChunk : string := "bridge.persist_chunk".
Definition TypeBridgePersistFinalize : string := "bridge.persist_finalize".
Definition TypeSparkFetchPage : string := "spark.fetch_page".
Definition TypeSparkPersistChunk : string := "spark.persist_chunk".
Definition TypeSparkPersistFinalize : string := "spark.persist_finalize".
Definition TypeMLSReplicationKickoff : string := "mls.replication_kickoff".
Definition TypeMLSProxyCachePurge : string := "mls.proxy_cache_purge".
Definition TypeMLSPurgeClosed : string := "mls.purge_closed_listings".
Definition TypeMLSPurgeReplicaPages : string := "mls.purge_replica_pages".
Definition TypeGISProbeSources : string := "gis.probe_sources".
Definition TypeGISMonthlyParcelRefresh : string := "gis.monthly_parcel_refresh".
Definition TypeGISAnnualBoundariesRefresh : string := "gis.annual_boundaries_refresh".
Definition TypeGISInitialSync : string := "gis.initial_sync".
Definition TypeGISZipSync : string := "gis.zip_sync".
Definition TypeGISParcelSyncPage : string := "gis.parcel_sync_page".
Definition TypeCryptoRefreshPricing : string := "crypto.refresh_pricing".
Definition TypeFEMAFloodEnrichKickoff : string := "fema.flood_enrich_kickoff".
Definition TypeFEMAFloodEnrichBatch : string := "fema.flood_enrich_batch".

(** [MarshalPayload(typ, args)]; [None] is a nil [args], left out by [omitempty]. *)
Definition MarshalPayload (typ : string) (args : option json) : json :=
  mk_obj [("type", enc_string typ); ("args", args)].

Definition UnmarshalPayload (data : text) : res JobPayload :=
  match data with
  | Some j =>
      match with_object j (λ m,
        typ ← dec_string (m !! "type");
        Some (mkJobPayload typ (match m !! "args" with None => RawNil | Some v => raw_of v end)))
      with Some p => Ok p | None => Err "json" end
  | None => Err "json"
  end.

(** [json.Unmarshal(job.Payload.Args, &args)]: absent arguments do not decode. *)
Definition decode_args {A} `{JsonCodec A} (raw : RawMessage) : option A :=
  match raw with
  | RawText (Some j) => unmarshal j
  | _ => None
  end.

Lemma decode_args_marshal {A} `{JsonRoundTrip A} (a : A) : decode_args (raw_of (marshal a)) = Some a.
Proof. apply unmarshal_marshal. Qed.

(** The Laravel envelope: displayName, job, data.commandName. *)
Definition laravelEnvelope (raw : text) : option (string * string * string) :=
  j ← raw;
  with_object j (λ m,
    dn ← dec_string (m !! "displayName");
    jb ← dec_string (m !! "job");
    cn ← match m !! "data" with
         | None => Some EmptyString
         | Some d => with_object d (λ dm, dec_string (dm !! "commandName"))
         end;
    Some (dn, jb, cn)).

Definition LegacyLaravelJobName (raw : text) : string :=
  match laravelEnvelope raw with
  | None => EmptyString
  | Some (displayName, job, commandName) =>
      if bool_decide (job = EmptyString) && bool_decide (displayName = EmptyString) then EmptyString
      else if negb (bool_decide (displayName = EmptyString)) then displayName
      else commandName
  end.

Definition IsLegacyLaravelPayload (raw : text) : bool :=
  match UnmarshalPayload raw with
  | Ok p => if negb (bool_decide (p_Type p = EmptyString)) then false
            else negb (bool_decide (LegacyLaravelJobName raw = EmptyString))
  | Err _ => negb (bool_decide (LegacyLaravelJobName raw = EmptyString))
  end.

(** ** The client *)

Record Client := mkClient {
  c_table : string;
  c_notifyChannel : string;
  c_retryAfter : Z;
  c_reservationTimeout : Z;
}.

Definition NewClient (table notifyChannel : string) (retryAfter reservationTimeout : Z) : Client :=
  {| c_table := if bool_decide (table = EmptyString) then "jobs" else table;
     c_notifyChannel := if bool_decide (notifyChannel = EmptyString) then "idx_jobs_wakeup"
                        else notifyChannel;
     c_retryAfter := retryAfter;
     c_reservationTimeout := if (reservationTimeout <=? 0)%Z then hour else reservationTimeout |}.

(** [int64(d.Seconds())] *)
Definition seconds (d : Z) : Z := Z.quot d second.

Record BatchJob := mkBatchJob { bj_Type : string; bj_Args : option json }.
Record BatchSpec := mkBatchSpec {
  bs_Name : string;
  bs_Queue : string;
  bs_Jobs : list BatchJob;
  bs_OnComplete : BatchJob;
}.

Record batchOnComplete := mkOnComplete { oc_Queue : string; oc_Type : string; oc_Args : option json }.

(** [batchOptionsJSON]: [omitempty] on queue, args and on_complete. *)
Definition enc_options (oc : batchOnComplete) : json :=
  mk_obj [("on_complete",
    Some (mk_obj [("queue", omit_string (oc_Queue oc)); ("type", enc_string (oc_Type oc));
                  ("args", oc_Args oc)]))].

Definition dec_on_complete (j : json) : option batchOnComplete :=
  with_object j (λ m,
    q ← dec_string (m !! "queue");
    t ← dec_string (m !! "type");
    Some (mkOnComplete q t (match m !! "args" with Some JNull | None => None | Some v => Some v end))).

(** [None]: not decodable; [Some None]: no on_complete. *)
Definition dec_options (j : json) : option (option batchOnComplete) :=
  with_object j (λ m,
    match m !! "on_complete" with
    | None | Some JNull => Some None
    | Some v => Some <$> dec_on_complete v
    end).

Record ReservedJob := mkReserved {
  rj_ID : Z;
  rj_Queue : string;
  rj_Payload : JobPayload;
  rj_Raw : text;
  rj_attempts : Z;
}.

Definition Attempts (j : ReservedJob) : Z := rj_attempts j.

Section Queue.
Context {F : Faults} (uuid : nat → string) (c : Client).

Definition now_unix (w : World) : Z := unix (w_now w).

(** INSERT INTO jobs ... RETURNING id *)
Definition insert_job (queue : string) (payload : json) (available now : Z) : M World Z := λ w,
  let id := w_job_seq w in
  (Ok id, set_job_seq (id + 1)%Z
            (set_jobs (<[id := mkJob queue (Some payload) 0 None available now]> (w_jobs w)) w)).

(** SELECT pg_notify: the error is dropped. *)
Definition notify : M World unit := ignore (stmt (ret tt)).

Definition Enqueue (queueName typ : string) (args : option json) (delay : Z) : M World Z :=
  let payload := MarshalPayload typ args in
  let* now := get now_unix in
  let available := if (0 <? delay)%Z then (now + seconds delay)%Z else now in
  let* id := stmt (insert_job queueName payload available now) in
  notify ;;;
  ret id.

Definition new_uuid : M World string := λ w,
  (Ok (uuid (w_uuid_seq w)), set_uuid_seq (S (w_uuid_seq w)) w).

(** The args of a batch's child job. *)
Definition batch_args (batchID : string) (args : option json) : json :=
  mk_obj [("batch_id", enc_string batchID); ("job", Some (default JNull args))].

Definition insert_batch (id : string) (spec : BatchSpec) (options : option json) (now : Z)
    : M World unit :=
  let n := Z.of_nat (length (bs_Jobs spec)) in
  modify (λ w, set_batches (<[id := mkBatch (bs_Name spec) n n options now None]> (w_batches w)) w).

Definition EnqueueBatch (spec : BatchSpec) : M World string :=
  match bs_Jobs spec with
  | [] => throw "batch requires at least one job"
  | _ =>
      let* batchID := new_uuid in
      let* now := get now_unix in
      let oc := bs_OnComplete spec in
      let options := if bool_decide (bj_Type oc = EmptyString) then None
                     else Some (enc_options (mkOnComplete (bs_Queue spec) (bj_Type oc) (bj_Args oc))) in
      (tx (stmt (insert_batch batchID spec options now) ;;;
           for_each (λ job,
             let payload := MarshalPayload (bj_Type job) (Some (batch_args batchID (bj_Args job))) in
             stmt (insert_job (bs_Queue spec) payload now now) ;;; ret tt) (bs_Jobs spec) ;;;
           ret (Some tt))) ;;;
      notify ;;;
      ret batchID
  end.

(** UPDATE jobs SET reserved_at = NULL, available_at = now WHERE reserved_at < staleBefore *)
Definition release_stale (now staleBefore : Z) (jobs : gmap Z job_row) : gmap Z job_row :=
  (λ j, match j_reserved_at j with
        | Some r => if (r <? staleBefore)%Z
                    then mkJob (j_queue j) (j_payload j) (j_attempts j) None now (j_created_at j)
                    else j
        | None => j
        end) <$> jobs.

Definition eligible (queues : list string) (now : Z) (j : job_row) : bool :=
  bool_decide (j_queue j ∈ queues) && bool_decide (j_reserved_at j = None) &&
  (j_available_at j <=? now)%Z.

(** SELECT ... ORDER BY id ASC LIMIT 1 *)
Definition select_next (queues : list string) (now : Z) (jobs : gmap Z job_row) : option (Z * job_row) :=
  min_by fst (filter (λ kv, eligible queues now kv.2) (map_to_list jobs)).

Definition mark_reserved (now : Z) (j : job_row) : job_row :=
  mkJob (j_queue j) (j_payload j) (j_attempts j + 1) (Some now) (j_available_at j) (j_created_at j).

(** The transaction of [reserveFromQueues]; no row found returns without committing. *)
Definition reserve_tx (queues : list string) (now staleBefore : Z) : M World (option (Z * job_row)) :=
  tx (stmt (modify (λ w, set_jobs (release_stale now staleBefore (w_jobs w)) w)) ;;;
      let* found := stmt (get (λ w, select_next queues now (w_jobs w))) in
      match found with
      | None => ret None
      | Some (id, j) =>
          stmt (modify (λ w, set_jobs (alter (mark_reserved now) id (w_jobs w)) w)) ;;;
          ret (Some (id, j))
      end).

Definition reserveFromQueues (queues : list string) : M World (option ReservedJob) :=
  match queues with
  | [] => ret None
  | _ =>
      let* now := get now_unix in
      let staleBefore := (now - seconds (c_reservationTimeout c))%Z in
      let* found := reserve_tx queues now staleBefore in
      match found with
      | None => ret None
      | Some (id, j) =>
          match UnmarshalPayload (j_payload j) with
          | Err e => throw e
          | Ok p => ret (Some (mkReserved id (j_queue j) p (j_payload j) (j_attempts j + 1)))
          end
      end
  end.

Definition Reserve (queues : list string) : M World (option ReservedJob) := reserveFromQueues queues.

(** The rotation from [startIndex], [fuel] queues left to try. *)
Fixpoint reserveFairFrom (fuel : nat) (queues : list string) (startIndex i : nat)
    : M World (option ReservedJob * nat) :=
  match fuel with
  | O => ret (None, startIndex)
  | S fuel =>
      let n := length queues in
      let idx := ((startIndex + i) mod n)%nat in
      let* job := reserveFromQueues [nth idx queues EmptyString] in
      match job with
      | Some j => ret (Some j, ((idx + 1) mod n)%nat)
      | None => reserveFairFrom fuel queues startIndex (S i)
      end
  end.

(** On an error the caller gets no cursor: it keeps its own. *)
Definition ReserveFair (queues : list string) (startIndex : nat) : M World (option ReservedJob * nat) :=
  match queues with
  | [] => ret (None, O)
  | _ => reserveFairFrom (length queues) queues startIndex 0
  end.

Definition Delete (id : Z) : M World unit :=
  stmt (modify (λ w, set_jobs (delete id (w_jobs w)) w)).

Definition Fail (job : ReservedJob) (jobErr : string) : M World unit :=
  let* uid := new_uuid in
  let* now := get w_now in
  stmt (modify (λ w, set_failed (w_failed w ++ [mkFailed uid (rj_Queue job) (rj_Raw job) jobErr now]) w)) ;;;
  Delete (rj_ID job).

Definition Release (job : ReservedJob) (maxAttempts : Z) (jobErr : string) : M World unit :=
  if (maxAttempts <=? Attempts job)%Z then Fail job jobErr
  else
    let* available := get (λ w, unix (w_now w + c_retryAfter c)) in
    stmt (modify (λ w, set_jobs (alter (λ j,
      mkJob (j_queue j) (j_payload j) (j_attempts j) None available (j_created_at j))
      (rj_ID job) (w_jobs w)) w)).

(** UPDATE job_batches SET pending_jobs = pending_jobs - 1 WHERE id = $1 AND pending_jobs > 0
    RETURNING pending_jobs, options; [None] is no row. *)
Definition decrement_pending (batchID : string) : M World (option (Z * option json)) := λ w,
  match w_batches w !! batchID with
  | Some b =>
      if (0 <? b_pending_jobs b)%Z then
        let b' := mkBatch (b_name b) (b_total_jobs b) (b_pending_jobs b - 1) (b_options b)
                    (b_created_at b) (b_finished_at b) in
        (Ok (Some (b_pending_jobs b', b_options b)), set_batches (<[batchID := b']> (w_batches w)) w)
      else (Ok None, w)
  | None => (Ok None, w)
  end.

Definition set_finished (batchID : string) (now : Z) : M World unit :=
  modify (λ w, set_batches (alter (λ b, mkBatch (b_name b) (b_total_jobs b) (b_pending_jobs b)
    (b_options b) (b_created_at b) (Some now)) batchID (w_batches w)) w).

(** What to enqueue when the batch is done: the stored options, or the caller's values. *)
Definition completion (options : option json) (completeQueue completeType : string)
    (completeArgs : option json) : string * string * option json :=
  match options ≫= dec_options with
  | Some (Some oc) =>
      if bool_decide (oc_Type oc = EmptyString) then (completeQueue, completeType, completeArgs)
      else (if bool_decide (oc_Queue oc = EmptyString) then completeQueue else oc_Queue oc,
            oc_Type oc, oc_Args oc)
  | _ => (completeQueue, completeType, completeArgs)
  end.

Definition CompleteBatchJob (batchID completeQueue completeType : string)
    (completeArgs : option json) : M World unit :=
  let* r := stmt (decrement_pending batchID) in
  match r with
  | None => ret tt
  | Some (pending, options) =>
      if (pending =? 0)%Z then
        let* now := get now_unix in
        ignore (stmt (set_finished batchID now)) ;;;
        let '(queue, typ, args) := completion options completeQueue completeType completeArgs in
        if bool_decide (typ = EmptyString) || bool_decide (queue = EmptyString) then ret tt
        else Enqueue queue typ args 0 ;;; ret tt
      else ret tt
  end.
End Queue.

(** ** Pools of queues (worker_queues.go) *)

Definition isFetchQueue (q : string) : bool := HasSuffix q "-sync-fetch".
Definition isPersistQueue (q : string) : bool := HasSuffix q "-sync-persist".

Fixpoint partitionWorkerQueues (queues : list string) : list string * list string * list string :=
  match queues with
  | [] => ([], [], [])
  | q :: r =>
      let '(fetch, persist, other) := partitionWorkerQueues r in
      if isFetchQueue q then (q :: fetch, persist, other)
      else if isPersistQueue q then (fetch, q :: persist, other)
      else (fetch, persist, q :: other)
  end.

(** ** Laws *)

(** Two clients' promise to each other: the envelope decodes to what was enqueued. *)
Lemma unmarshal_marshal_payload typ args :
  UnmarshalPayload (Some (MarshalPayload typ args))
  = Ok (mkJobPayload typ (match args with Some a => raw_of a | None => RawNil end)).
Proof. unfold UnmarshalPayload, MarshalPayload. codec_tac. by destruct args. Qed.

(** A decoded options document: [args] null reads back as absent. *)
Definition norm_args (o : option json) : option json :=
  match o with Some JNull => None | o => o end.

Lemma dec_enc_options oc :
  dec_options (enc_options oc)
  = Some (Some (mkOnComplete (oc_Queue oc) (oc_Type oc) (norm_args (oc_Args oc)))).
Proof.
  unfold dec_options, enc_options. codec_tac. unfold dec_on_complete. codec_tac.
  by destruct (oc_Args oc) as [[]|].
Qed.

(** A list searched for its least key: the head of the eligible jobs by id. *)
Lemma select_next_Some queues now jobs id j :
  select_next queues now jobs = Some (id, j) →
  jobs !! id = Some j ∧ eligible queues now j = true ∧
  ∀ id' j', jobs !! id' = Some j' → eligible queues now j' = true → (id <= id')%Z.
Proof.
  intros [Hin Hmin]%min_by_Some. rewrite list_elem_of_filter in Hin. destruct Hin as [He Hin].
  apply elem_of_map_to_list in Hin. simpl in *. split; [done|]. split; [by apply Is_true_true|].
  intros id' j' Hj' He'. apply (Hmin (id', j')).
  rewrite list_elem_of_filter. split; [by apply Is_true_true | by apply elem_of_map_to_list].
Qed.

Lemma select_next_None queues now jobs :
  select_next queues now jobs = None ↔
  ∀ id j, jobs !! id = Some j → eligible queues now j = false.
Proof.
  unfold select_next. rewrite min_by_None. split.
  - intros H id j Hj. destruct (eligible queues now j) eqn:E; [|done].
    assert (Hin : (id, j) ∈ filter (λ kv, eligible queues now kv.2) (map_to_list jobs)).
    { rewrite list_elem_of_filter. split; [by apply Is_true_true | by apply elem_of_map_to_list]. }
    rewrite H in Hin. by apply elem_of_nil in Hin.
  - intros H. destruct (filter _ _) as [|[id j] r] eqn:E; [done|].
    assert (Hin : (id, j) ∈ filter (λ kv, eligible queues now kv.2) (map_to_list jobs))
      by (rewrite E; constructor).
    rewrite list_elem_of_filter in Hin. destruct Hin as [He Hin%elem_of_map_to_list].
    simpl in He. by rewrite (H _ _ Hin) in He.
Qed.

Lemma select_next_find queues now jobs id j :
  jobs !! id = Some j → eligible queues now j = true →
  (∀ id' j', jobs !! id' = Some j' → eligible queues now j' = true → (id <= id')%Z) →
  select_next queues now jobs = Some (id, j).
Proof.
  intros Hj He Hmin. destruct (select_next queues now jobs) as [[id' j']|] eqn:E.
  - apply select_next_Some in E as (Hj' & He' & Hmin').
    assert (id = id') as <- by (pose proof (Hmin _ _ Hj' He'); pose proof (Hmin' _ _ Hj He); lia).
    congruence.
  - rewrite select_next_None in E. by rewrite (E _ _ Hj) in He.
Qed.

Lemma lookup_release_stale now before jobs id :
  release_stale now before jobs !! id =
  (λ j, match j_reserved_at j with
        | Some r => if (r <? before)%Z
                    then mkJob (j_queue j) (j_payload j) (j_attempts j) None now (j_created_at j)
                    else j
        | None => j
        end) <$> jobs !! id.
Proof. apply lookup_fmap. Qed.

Section Reserve.
Context {F : Faults}.

(** What [Reserve]'s transaction does, whatever the database refuses. *)
Lemma reserve_tx_spec queues now before w r w' :
  reserve_tx queues now before w = (r, w') →
  let jobs1 := release_stale now before (w_jobs w) in
  match r with
  | Ok (Some (id, j)) =>
      select_next queues now jobs1 = Some (id, j) ∧
      ∃ n, w' = set_ops n (set_jobs (alter (mark_reserved now) id jobs1) w)
  | Ok None => select_next queues now jobs1 = None ∧ ∃ n, w' = set_ops n w
  | Err e => e = db_error ∧ ∃ n, w' = set_ops n w
  end.
Proof.
  destruct w as [t jobs jseq fl bt us cu pg ps ls lseq gis cch [us1 us2 ds1 ds2 ts1 ts2 is1 is2] ops].
  unfold reserve_tx, tx, bind, stmt, ret, modify, get, set_ops, set_jobs, rolled_back, AccessData.rollback_access. simpl.
  destruct (fault ops); simpl; [intros [= <- <-]; eauto|].
  destruct (fault (S ops)); simpl; [intros [= <- <-]; eauto|].
  destruct (fault (S (S ops))); simpl; [intros [= <- <-]; eauto|].
  destruct (select_next _ _ _) as [[id j]|] eqn:E; simpl; [|intros [= <- <-]; eauto].
  destruct (fault (S (S (S ops)))); simpl; [intros [= <- <-]; eauto|].
  destruct (fault (S (S (S (S ops))))); simpl; intros [= <- <-]; eauto.
Qed.

Context {NF : NoFaults}.

Lemma reserve_tx_run queues now before w :
  let jobs1 := release_stale now before (w_jobs w) in
  ∃ n, reserve_tx queues now before w =
       match select_next queues now jobs1 with
       | Some (id, j) => (Ok (Some (id, j)), set_ops n (set_jobs (alter (mark_reserved now) id jobs1) w))
       | None => (Ok None, set_ops n w)
       end.
Proof.
  destruct w as [t jobs jseq fl bt us cu pg ps ls lseq gis cch [us1 us2 ds1 ds2 ts1 ts2 is1 is2] ops]. simpl.
  unfold reserve_tx, tx, bind, stmt, ret, modify, get, set_ops, set_jobs, rolled_back, AccessData.rollback_access. simpl.
  rewrite !no_fault. simpl. destruct (select_next _ _ _) as [[id j]|]; simpl; [|eauto].
  rewrite !no_fault. eauto.
Qed.
End Reserve.

Section QueueProperties.
Context {F : Faults} (c : Client).

(** The jobs as a reservation at [w] sees them: reservations older than the timeout released. *)
Definition visible_jobs (w : World) : gmap Z job_row :=
  release_stale (now_unix w) (now_unix w - seconds (c_reservationTimeout c)) (w_jobs w).

Lemma reserveFromQueues_spec q queues w r w' :
  reserveFromQueues c (q :: queues) w = (r, w') →
  match r with
  | Ok (Some rj) =>
      ∃ j n, select_next (q :: queues) (now_unix w) (visible_jobs w) = Some (rj_ID rj, j) ∧
        UnmarshalPayload (j_payload j) = Ok (rj_Payload rj) ∧
        rj = mkReserved (rj_ID rj) (j_queue j) (rj_Payload rj) (j_payload j) (j_attempts j + 1) ∧
        w' = set_ops n (set_jobs (alter (mark_reserved (now_unix w)) (rj_ID rj) (visible_jobs w)) w)
  | Ok None =>
      select_next (q :: queues) (now_unix w) (visible_jobs w) = None ∧ ∃ n, w' = set_ops n w
  | Err e =>
      (∃ n, w' = set_ops n w) ∨
      (∃ id j n, select_next (q :: queues) (now_unix w) (visible_jobs w) = Some (id, j) ∧
         UnmarshalPayload (j_payload j) = Err e ∧
         w' = set_ops n (set_jobs (alter (mark_reserved (now_unix w)) id (visible_jobs w)) w))
  end.
Proof.
  unfold reserveFromQueues. cbv zeta. unfold bind, get at 1. cbv beta iota.
  destruct (reserve_tx (q :: queues) (now_unix w)
    (now_unix w - seconds (c_reservationTimeout c)) w) as [r1 w1] eqn:E.
  apply reserve_tx_spec in E. cbv zeta in E. fold (visible_jobs w) in E.
  destruct r1 as [[[id j]|]|e].
  - destruct E as [Hs [n ->]].
    destruct (UnmarshalPayload (j_payload j)) as [p|e] eqn:Ep; intros [= <- <-].
    + exists j, n. split; [exact Hs|]. by split.
    + right. eauto 10.
  - destruct E as [Hs [n ->]]. intros [= <- <-]. eauto.
  - destruct E as [-> [n ->]]. intros [= <- <-]. eauto.
Qed.

(** [Reserve] claims the available job of least id: the job it returns was, once stale
    reservations are released, unreserved, on one of the queues and due; no due job of these
    queues has a smaller id; its attempt count went up by one, and it is the only job the
    call changed besides the stale releases. *)
Theorem reserve_claims_lowest queues w rj w' :
  Reserve c queues w = (Ok (Some rj), w') →
  ∃ j, visible_jobs w !! rj_ID rj = Some j ∧
    j_queue j ∈ queues ∧ j_reserved_at j = None ∧ (j_available_at j <= now_unix w)%Z ∧
    (∀ id' j', visible_jobs w !! id' = Some j' → eligible queues (now_unix w) j' = true →
               (rj_ID rj <= id')%Z) ∧
    rj_attempts rj = (j_attempts j + 1)%Z ∧ rj_Queue rj = j_queue j ∧ rj_Raw rj = j_payload j ∧
    w_jobs w' = <[rj_ID rj := mark_reserved (now_unix w) j]> (visible_jobs w).
Proof.
  unfold Reserve. destruct queues as [|q queues]; [done|].
  intros H. apply reserveFromQueues_spec in H as (j & n & Hs & Hp & Hrj & ->).
  apply select_next_Some in Hs as (Hj & He & Hmin). exists j.
  unfold eligible in He. apply andb_prop in He as [He Ha]. apply andb_prop in He as [Hq Hr].
  apply bool_decide_eq_true in Hq, Hr. apply Z.leb_le in Ha.
  repeat split; try done; try (by rewrite Hrj). simpl.
  apply map_eq; intros k. destruct (decide (k = rj_ID rj)) as [->|Hne].
  - by rewrite lookup_alter_eq, lookup_insert_eq, Hj.
  - by rewrite lookup_alter_ne, lookup_insert_ne.
Qed.

(** A job whose payload does not decode is claimed by the committed transaction and then
    dropped by the error return: it stays reserved with one more attempt, and neither
    failed_jobs nor the attempt limit ever sees it. *)
Theorem undecodable_job_never_fails q queues w id j e :
  NoFaults →
  select_next (q :: queues) (now_unix w) (visible_jobs w) = Some (id, j) →
  UnmarshalPayload (j_payload j) = Err e →
  ∃ w', Reserve c (q :: queues) w = (Err e, w') ∧
    w_jobs w' !! id = Some (mark_reserved (now_unix w) j) ∧ w_failed w' = w_failed w.
Proof.
  intros NF Hs Hp. unfold Reserve, reserveFromQueues, bind, get.
  destruct (reserve_tx_run (NF := NF) (q :: queues) (now_unix w)
    (now_unix w - seconds (c_reservationTimeout c)) w) as [n ->].
  fold (visible_jobs w). rewrite Hs, Hp. eexists. split; [reflexivity|]. simpl.
  apply select_next_Some in Hs as (Hj & _). by rewrite lookup_alter_eq, Hj.
Qed.

(** *** Fair rotation *)

Lemma reserveFair_progress fuel queues s i w rj s' w' :
  reserveFairFrom c fuel queues s i w = (Ok (Some rj, s'), w') →
  ∃ k, (i <= k < i + fuel)%nat ∧ let idx := ((s + k) mod length queues)%nat in
    rj_Queue rj = nth idx queues EmptyString ∧ s' = ((idx + 1) mod length queues)%nat ∧
    ∀ k', (i <= k' < k)%nat →
      select_next [nth ((s + k') mod length queues) queues EmptyString] (now_unix w) (visible_jobs w) = None.
Proof.
  revert i w. induction fuel as [|fuel IH]; intros i w; [done|].
  cbn [reserveFairFrom]. unfold bind at 1.
  destruct (reserveFromQueues c _ w) as [[[rj1|]|e] w1] eqn:E; [| |done].
  - apply reserveFromQueues_spec in E as (j & n & Hs & Hp & Hrj & ->).
    intros [= <- <- <-]. exists i. split; [lia|]. cbv zeta. split.
    + apply select_next_Some in Hs as (_ & He & _). unfold eligible in He.
      apply andb_prop in He as [He _]. apply andb_prop in He as [He _].
      apply bool_decide_eq_true, list_elem_of_singleton in He. by rewrite Hrj.
    + split; [done|]. intros k' Hk. lia.
  - apply reserveFromQueues_spec in E as [Hs [n ->]]. intros H.
    apply IH in H as (k & Hk & Hq & Hs' & Hbefore). exists k. split; [lia|].
    split; [done|]. split; [done|]. intros k' Hk'.
    destruct (decide (k' = i)) as [->|]; [exact Hs|]. apply (Hbefore k'). lia.
Qed.

(** A queue position has a due job. *)
Definition has_due (queues : list string) (p : nat) (w : World) : Prop :=
  ∃ id j, visible_jobs w !! id = Some j ∧
    eligible [nth p queues EmptyString] (now_unix w) j = true.

(** Successive [ReserveFair] calls that each found a job, the cursor threaded through, the
    world changing in between in any way that keeps a due job in queue [p]. *)
Inductive fair_calls (queues : list string) (p : nat) : nat → list ReservedJob → Prop :=
| fair_nil s : fair_calls queues p s []
| fair_cons s w rj s' w' l :
    has_due queues p w →
    ReserveFair c queues s w = (Ok (Some rj, s'), w') →
    fair_calls queues p s' l → fair_calls queues p s (rj :: l).

Lemma fair_calls_serve queues p s l d :
  (p < length queues)%nat → (d < length queues)%nat → ((s + d) mod length queues = p)%nat →
  fair_calls queues p s l → (d < length l)%nat →
  ∃ rj, rj ∈ l ∧ rj_Queue rj = nth p queues EmptyString.
Proof.
  intros Hp Hd Hsd Hl. revert d Hd Hsd. induction Hl as [s|s w rj s' w' l Hdue E Hl IH];
    intros d Hd Hsd Hlen; [simpl in Hlen; lia|].
  set (n := length queues) in *.
  assert (Hf : reserveFairFrom c n queues s 0 w = (Ok (Some rj, s'), w')).
  { unfold ReserveFair in E. by destruct queues. }
  apply reserveFair_progress in Hf as (k & Hk & Hq & Hs' & Hbefore). fold n in Hq, Hs', Hbefore.
  assert (Hkd : (k <= d)%nat).
  { destruct (decide (k <= d)%nat) as [|Hn]; [done|]. exfalso.
    pose proof (Hbefore d ltac:(lia)) as HN. rewrite Hsd in HN.
    rewrite select_next_None in HN. destruct Hdue as (id & j & Hj & He).
    by rewrite (HN _ _ Hj) in He. }
  destruct (decide (k = d)) as [->|Hne].
  { exists rj. split; [constructor|]. by rewrite Hq, Hsd. }
  destruct (IH (d - k - 1)%nat) as (rj' & Hin & Hrj').
  - lia.
  - rewrite Hs'. rewrite Nat.Div0.add_mod_idemp_l.
    replace ((s + k) mod n + 1 + (d - k - 1))%nat with ((s + k) mod n + (d - k))%nat by lia.
    rewrite Nat.Div0.add_mod_idemp_l. rewrite <- Hsd. f_equal. lia.
  - simpl in Hlen. lia.
  - exists rj'. split; [by constructor|done].
Qed.

(** C3 [ReserveFair] starves no queue: while a queue keeps having a due job, any run of as
    many successful calls as there are queues returns a job of that queue, whatever else is
    enqueued, reserved or finished between the calls. *)
Theorem reserve_fair_no_starvation queues p s l :
  (p < length queues)%nat → (s < length queues)%nat →
  fair_calls queues p s l → (length queues <= length l)%nat →
  ∃ rj, rj ∈ l ∧ rj_Queue rj = nth p queues EmptyString.
Proof.
  intros Hp Hs Hl Hlen. set (n := length queues) in *.
  apply (fair_calls_serve queues p s l ((p + n - s) mod n)%nat); try done.
  - apply Nat.mod_upper_bound. lia.
  - fold n. rewrite Nat.Div0.add_mod_idemp_r.
    replace (s + (p + n - s))%nat with (p + 1 * n)%nat by lia.
    rewrite Nat.Div0.mod_add. by apply Nat.mod_small.
  - pose proof (Nat.mod_upper_bound (p + n - s) n). fold n. lia.
Qed.
End QueueProperties.

(** ** Batches *)

Section Batches.
Context {F : Faults} {NF : NoFaults} (uuid : nat → string) (c : Client).

Lemma Enqueue_run q typ args w :
  ∃ n, Enqueue q typ args 0 w =
    (Ok (w_job_seq w), set_ops n (set_job_seq (w_job_seq w + 1)
       (set_jobs (<[w_job_seq w := mkJob q (Some (MarshalPayload typ args)) 0 None (now_unix w) (now_unix w)]>
          (w_jobs w)) w))).
Proof.
  unfold Enqueue, notify, bind, get, ignore, ret. rewrite !stmt_run. simpl.
  rewrite stmt_run. simpl. eauto.
Qed.

Definition pending_of (n : Z) (b : batch_row) : batch_row :=
  mkBatch (b_name b) (b_total_jobs b) n (b_options b) (b_created_at b) (b_finished_at b).

(** One child done: a decrement, and the completion job when it was the last. *)
Lemma CompleteBatchJob_run bid q oc w b :
  w_batches w !! bid = Some b → b_options b = Some (enc_options oc) →
  oc_Type oc ≠ EmptyString → oc_Queue oc ≠ EmptyString →
  let r := CompleteBatchJob bid q EmptyString None w in
  r.1 = Ok tt ∧
  w_now r.2 = w_now w ∧ w_failed r.2 = w_failed w ∧
  (if (b_pending_jobs b <=? 0)%Z
   then w_jobs r.2 = w_jobs w ∧ w_batches r.2 = w_batches w
   else
     (∃ b', w_batches r.2 !! bid = Some b' ∧ b_options b' = b_options b ∧
            b_pending_jobs b' = (b_pending_jobs b - 1)%Z) ∧
     w_jobs r.2 = (if (b_pending_jobs b =? 1)%Z
                   then <[w_job_seq w := mkJob (oc_Queue oc)
                            (Some (MarshalPayload (oc_Type oc) (norm_args (oc_Args oc)))) 0 None
                            (now_unix w) (now_unix w)]> (w_jobs w)
                   else w_jobs w) ∧
     w_job_seq r.2 = (if (b_pending_jobs b =? 1)%Z then w_job_seq w + 1 else w_job_seq w)%Z).
Proof.
  intros Hb Ho Ht Hq r.
  assert (Hd : ∀ w0, w_batches w0 = w_batches w → decrement_pending bid w0 =
    (if (b_pending_jobs b <=? 0)%Z then (Ok None, w0)
     else (Ok (Some (b_pending_jobs b - 1, b_options b)%Z),
           set_batches (<[bid := pending_of (b_pending_jobs b - 1) b]> (w_batches w)) w0))).
  { intros w0 E. unfold decrement_pending. rewrite E, Hb.
    destruct (Z.leb_spec (b_pending_jobs b) 0), (Z.ltb_spec 0 (b_pending_jobs b)); try lia; done. }
  assert (E : stmt (decrement_pending bid) w = decrement_pending bid (set_ops (S (w_ops w)) w))
    by apply stmt_run.
  rewrite Hd in E by done. clear Hd. unfold r, CompleteBatchJob. clear r.
  destruct (Z.leb_spec (b_pending_jobs b) 0).
  { rewrite (bind_ok _ _ _ _ _ E). by split_and!. }
  rewrite (bind_ok _ _ _ _ _ E). clear E.
  destruct (Z.eqb_spec (b_pending_jobs b - 1) 0), (Z.eqb_spec (b_pending_jobs b) 1); try lia.
  - unfold bind, get, ignore, ret. rewrite !stmt_run. rewrite Ho.
    unfold completion. cbn [mbind option_bind]. rewrite dec_enc_options. cbv iota beta.
    cbn [oc_Type oc_Queue oc_Args].
    rewrite !(bool_decide_eq_false_2 (oc_Type oc = EmptyString)) by done.
    rewrite !(bool_decide_eq_false_2 (oc_Queue oc = EmptyString)) by done. cbn [orb]. cbv iota.
    match goal with |- context [Enqueue (oc_Queue oc) ?t ?a 0 ?w1] =>
      destruct (Enqueue_run (oc_Queue oc) t a w1) as [n ->] end.
    simpl. split_and!; try done.
    eexists. rewrite lookup_alter_eq, lookup_insert_eq. simpl. split_and!; [reflexivity|done|done].
  - simpl. split_and!; try done. eexists. rewrite lookup_insert_eq. by split_and!.
Qed.

(** C5 The completion job of a batch is enqueued exactly once: after fewer than [n] of the
    [n] pending child jobs have completed nothing new is in the queue, the [n]th completion
    adds the stored on_complete job (its queue, type and args) and further completions of
    the same batch add nothing. *)
Theorem batch_completes_once bid q oc w b (k : nat) :
  w_batches w !! bid = Some b → b_options b = Some (enc_options oc) →
  oc_Type oc ≠ EmptyString → oc_Queue oc ≠ EmptyString → (0 < b_pending_jobs b)%Z →
  w_jobs (Nat.iter k (λ w, snd (CompleteBatchJob bid q EmptyString None w)) w) =
  if (Z.of_nat k <? b_pending_jobs b)%Z then w_jobs w
  else <[w_job_seq w := mkJob (oc_Queue oc) (Some (MarshalPayload (oc_Type oc) (norm_args (oc_Args oc))))
           0 None (now_unix w) (now_unix w)]> (w_jobs w).
Proof.
  intros Hb Ho Ht Hq Hp.
  assert (Hinv : let w' := Nat.iter k (λ w, snd (CompleteBatchJob bid q EmptyString None w)) w in
    w_now w' = w_now w ∧
    (∃ b', w_batches w' !! bid = Some b' ∧ b_options b' = b_options b ∧
           b_pending_jobs b' = Z.max 0 (b_pending_jobs b - Z.of_nat k)) ∧
    if (Z.of_nat k <? b_pending_jobs b)%Z then w_jobs w' = w_jobs w ∧ w_job_seq w' = w_job_seq w
    else w_jobs w' = <[w_job_seq w := mkJob (oc_Queue oc)
           (Some (MarshalPayload (oc_Type oc) (norm_args (oc_Args oc)))) 0 None (now_unix w) (now_unix w)]> (w_jobs w)).
  { induction k as [|k IH].
    - simpl. split; [done|]. destruct (Z.ltb_spec (Z.of_nat 0) (b_pending_jobs b)); [|lia].
      split; [|done]. exists b. split_and!; [done..|lia].
    - rewrite Nat.iter_succ. cbv zeta in IH |- *.
      generalize dependent (Nat.iter k (λ w, (CompleteBatchJob bid q EmptyString None w).2) w).
      intros w1 (Hnow & (b' & Hb' & Ho' & Hp') & Hj).
      destruct (CompleteBatchJob_run bid q oc w1 b' Hb' (eq_trans Ho' Ho) Ht Hq)
        as (_ & Hn & _ & Hc).
      cbv zeta. split; [congruence|].
      destruct (Z.leb_spec (b_pending_jobs b') 0).
      + destruct Hc as [Hcj Hcb]. split.
        * exists b'. rewrite Hcb. split_and!; [done..|lia].
        * destruct (Z.ltb_spec (Z.of_nat (S k)) (b_pending_jobs b)); [lia|].
          destruct (Z.ltb_spec (Z.of_nat k) (b_pending_jobs b)); [lia|]. by rewrite Hcj.
      + destruct Hc as ((b2 & Hb2 & Ho2 & Hp2) & Hcj & Hcs). split.
        * exists b2. split_and!; [done|congruence|lia].
        * destruct (Z.ltb_spec (Z.of_nat k) (b_pending_jobs b)); [|lia].
          destruct Hj as [Hj1 Hj2].
          destruct (Z.ltb_spec (Z.of_nat (S k)) (b_pending_jobs b)), (Z.eqb_spec (b_pending_jobs b') 1);
            try lia; rewrite Hcj; unfold now_unix; rewrite ?Hcs, Hj1, ?Hj2, ?Hnow; done. }
  destruct Hinv as (_ & _ & Hj). by destruct (Z.ltb _ _); [destruct Hj|].
Qed.
End Batches.

Section EnqueueBatch.
Context {F : Faults} (uuid : nat → string).

Definition child_job (spec : BatchSpec) (bid : string) (now : Z) (job : BatchJob) : job_row :=
  mkJob (bs_Queue spec) (Some (MarshalPayload (bj_Type job) (Some (batch_args bid (bj_Args job)))))
    0 None now now.

(** The child rows at consecutive ids. *)
Fixpoint insert_children (seq : Z) (l : list job_row) (jobs : gmap Z job_row) : gmap Z job_row :=
  match l with
  | [] => jobs
  | j :: r => insert_children (seq + 1) r (<[seq := j]> jobs)
  end.

Lemma lookup_insert_children seq l jobs id :
  insert_children seq l jobs !! id =
  if ((seq <=? id) && (id <? seq + Z.of_nat (length l)))%Z then l !! Z.to_nat (id - seq) else jobs !! id.
Proof.
  revert seq jobs. induction l as [|j r IH]; intros seq jobs; simpl.
  - destruct (_ && _)%bool eqn:E; [|done]. apply andb_prop in E as [?%Z.leb_le ?%Z.ltb_lt]. lia.
  - rewrite IH. destruct (decide (id = seq)) as [->|Hne].
    + rewrite lookup_insert_eq. destruct (Z.leb_spec (seq + 1) seq); [lia|]. simpl.
      destruct (Z.leb_spec seq seq); [|lia]. destruct (Z.ltb_spec seq (seq + Z.of_nat (S (length r)))); [|lia].
      simpl. by rewrite Z.sub_diag.
    + rewrite lookup_insert_ne by done.
      destruct (Z.leb_spec (seq + 1) id), (Z.leb_spec seq id); try lia; simpl; [|done].
      destruct (Z.ltb_spec id (seq + 1 + Z.of_nat (length r))),
        (Z.ltb_spec id (seq + Z.of_nat (S (length r)))); try lia; [|done].
      by replace (Z.to_nat (id - seq)) with (S (Z.to_nat (id - (seq + 1)))) by lia.
Qed.

Lemma insert_loop spec bid now l w r w' :
  for_each (λ job, stmt (insert_job (bs_Queue spec)
      (MarshalPayload (bj_Type job) (Some (batch_args bid (bj_Args job)))) now now) ;;; ret tt) l w = (r, w') →
  r = Ok tt →
  w_jobs w' = insert_children (w_job_seq w) (child_job spec bid now <$> l) (w_jobs w) ∧
  w_batches w' = w_batches w.
Proof.
  revert w. induction l as [|job l IH]; intros w; simpl; [by intros [= <- <-]|].
  unfold bind at 1 2, stmt at 1. destruct (fault _); simpl; [by intros [= <- <-]|].
  intros H Hr. by apply IH in H as [-> ->].
Qed.

(** C4 Enqueueing a batch is all or nothing, whatever statement the database refuses: on an
    error neither a child job nor the batch row exists; on success the batch row counts
    exactly its jobs as pending, and the child jobs are the given ones in order, at fresh
    consecutive ids, each linked to the batch in its payload. *)
Theorem enqueue_batch_atomic spec w r w' :
  EnqueueBatch uuid spec w = (r, w') →
  match r with
  | Err _ => w_jobs w' = w_jobs w ∧ w_batches w' = w_batches w
  | Ok bid =>
      bid = uuid (w_uuid_seq w) ∧
      (∃ b, w_batches w' = <[bid := b]> (w_batches w) ∧
            b_pending_jobs b = Z.of_nat (length (bs_Jobs spec)) ∧ b_finished_at b = None) ∧
      (∀ i job, bs_Jobs spec !! i = Some job →
         w_jobs w' !! (w_job_seq w + Z.of_nat i)%Z = Some (child_job spec bid (now_unix w) job)) ∧
      (∀ id, (id < w_job_seq w ∨ w_job_seq w + Z.of_nat (length (bs_Jobs spec)) <= id)%Z →
         w_jobs w' !! id = w_jobs w !! id)
  end.
Proof.
  unfold EnqueueBatch. destruct (bs_Jobs spec) as [|j0 jl] eqn:Ej; [by intros [= <- <-]|].
  rewrite <- Ej. clear Ej j0 jl. unfold bind at 1 2, new_uuid, get. cbv beta iota zeta.
  set (bid := uuid (w_uuid_seq w)). set (w1 := set_uuid_seq _ w).
  change (now_unix w1) with (now_unix w). unfold bind at 1.
  destruct (tx _ w1) as [[o|e] w2] eqn:E.
  - assert (Hw2 : w_jobs w2 = insert_children (w_job_seq w) (child_job spec bid (now_unix w) <$> bs_Jobs spec)
        (w_jobs w) ∧
      ∃ opts, w_batches w2 = <[bid := mkBatch (bs_Name spec) (Z.of_nat (length (bs_Jobs spec)))
        (Z.of_nat (length (bs_Jobs spec))) opts (now_unix w) None]> (w_batches w)).
    { unfold tx, stmt at 1 in E. destruct (fault _); simpl in E; [done|].
      unfold bind at 1, stmt at 1 in E. destruct (fault _); simpl in E; [done|].
      unfold bind at 1 in E. destruct (for_each _ _ _) as [[[]|e] w3] eqn:El; simpl in E; [|done].
      apply insert_loop in El as [Hj Hb]; [|done].
      unfold stmt in E. destruct (fault (w_ops w3)); simpl in E; [done|].
      injection E as <- <-. simpl. rewrite Hj, Hb. split; [done|]. eexists. done. }
    unfold bind, ret. intros H.
    assert (Hn : ∃ wn, notify w2 = (Ok tt, wn) ∧ w_jobs wn = w_jobs w2 ∧ w_batches wn = w_batches w2).
    { unfold notify, ignore, stmt. destruct (fault _); simpl; eauto. }
    destruct Hn as (wn & Hn & Hv). rewrite Hn in H. injection H as <- <-.
    destruct Hv as [-> ->]. destruct Hw2 as [-> [opts ->]]. split; [done|]. split; [eauto|]. split.
    + intros i job Hi. rewrite lookup_insert_children, length_fmap.
      pose proof (lookup_lt_Some _ _ _ Hi).
      destruct (Z.leb_spec (w_job_seq w) (w_job_seq w + Z.of_nat i)); [|lia].
      destruct (Z.ltb_spec (w_job_seq w + Z.of_nat i) (w_job_seq w + Z.of_nat (length (bs_Jobs spec)))); [|lia].
      simpl. replace (Z.to_nat _) with i by lia. by rewrite list_lookup_fmap, Hi.
    + intros id Hid. rewrite lookup_insert_children, length_fmap.
      destruct (Z.leb_spec (w_job_seq w) id); simpl; [|done].
      destruct (Z.ltb_spec id (w_job_seq w + Z.of_nat (length (bs_Jobs spec)))); [lia|done].
  - intros [= <- <-]. unfold tx in E. unfold stmt at 1 in E.
    destruct (fault _); simpl in E; [by injection E as <- <-|].
    destruct (bind _ _ _) as [[[[]|]|e'] w3]; simpl in E; try (by injection E as <- <-); [|done].
    unfold stmt in E. destruct (fault _); simpl in E; [by injection E as <- <- | done].
Qed.

Lemma set_jobs_twice n m a b j k w :
  set_ops n (set_job_seq a (set_jobs j (set_job_seq b (set_jobs k (set_ops m w)))))
  = set_ops n (set_job_seq a (set_jobs j w)).
Proof. by destruct w. Qed.

Lemma insert_loop_run `{NF : !NoFaults} spec bid now l w :
  ∃ n, for_each (λ job, stmt (insert_job (bs_Queue spec)
      (MarshalPayload (bj_Type job) (Some (batch_args bid (bj_Args job)))) now now) ;;; ret tt) l w =
    (Ok tt, set_ops n (set_job_seq (w_job_seq w + Z.of_nat (length l))
       (set_jobs (insert_children (w_job_seq w) (child_job spec bid now <$> l) (w_jobs w)) w))).
Proof.
  revert w. induction l as [|job l IH]; intros w.
  - exists (w_ops w). simpl. rewrite Z.add_0_r. by destruct w.
  - cbn [for_each].
    set (w1 := set_job_seq (w_job_seq w + 1) (set_jobs (<[w_job_seq w := child_job spec bid now job]> (w_jobs w))
      (set_ops (S (w_ops w)) w))).
    erewrite (bind_ok _ _ w tt w1).
    2: { unfold bind, ret. by rewrite stmt_run. }
    destruct (IH w1) as [n Hn]. exists n. rewrite Hn. unfold w1. rewrite set_jobs_twice. simpl length. cbn [fmap list_fmap insert_children].
    replace (w_job_seq w + Z.of_nat (S (length l)))%Z with (w_job_seq w + 1 + Z.of_nat (length l))%Z by lia.
    reflexivity.
Qed.

(** On a database that answers, the whole effect of enqueueing a batch. *)
Lemma EnqueueBatch_run `{NF : !NoFaults} spec w :
  bs_Jobs spec ≠ [] → bj_Type (bs_OnComplete spec) ≠ EmptyString →
  let bid := uuid (w_uuid_seq w) in
  let n := Z.of_nat (length (bs_Jobs spec)) in
  ∃ k, EnqueueBatch uuid spec w = (Ok bid,
    set_ops k (set_uuid_seq (S (w_uuid_seq w)) (set_batches (<[bid := mkBatch (bs_Name spec) n n
      (Some (enc_options (mkOnComplete (bs_Queue spec) (bj_Type (bs_OnComplete spec)) (bj_Args (bs_OnComplete spec)))))
      (now_unix w) None]> (w_batches w))
      (set_job_seq (w_job_seq w + n)
        (set_jobs (insert_children (w_job_seq w) (child_job spec bid (now_unix w) <$> bs_Jobs spec) (w_jobs w)) w))))).
Proof.
  intros Hne Ht. cbv zeta. unfold EnqueueBatch. destruct (bs_Jobs spec) as [|j0 jl] eqn:Ej; [done|]. rewrite <- Ej. clear Ej j0 jl Hne.
  unfold bind at 1 2, new_uuid, get. rewrite bool_decide_eq_false_2 by done. cbv beta iota zeta.
  set (opts := Some (enc_options _)). set (bid := uuid (w_uuid_seq w)). set (w1 := set_uuid_seq _ w).
  set (body := bind (stmt (insert_batch bid spec opts (now_unix w1))) _).
  assert (Hb : ∃ n, body (set_ops (S (w_ops w1)) w1) = (Ok (Some tt), set_ops n
    (set_uuid_seq (S (w_uuid_seq w)) (set_batches (<[bid := mkBatch (bs_Name spec) (Z.of_nat (length (bs_Jobs spec)))
      (Z.of_nat (length (bs_Jobs spec))) opts (now_unix w) None]> (w_batches w))
      (set_job_seq (w_job_seq w + Z.of_nat (length (bs_Jobs spec)))
        (set_jobs (insert_children (w_job_seq w) (child_job spec bid (now_unix w) <$> bs_Jobs spec) (w_jobs w)) w)))))).
  { unfold body, bind at 1. rewrite stmt_run. unfold insert_batch, modify.
    match goal with |- context [bind (for_each _ _) _ ?w'] =>
      destruct (insert_loop_run spec bid (now_unix w1) (bs_Jobs spec) w') as [n Hn] end.
    exists n. by rewrite (bind_ok _ _ _ _ _ Hn). }
  destruct Hb as [n Hb]. apply tx_commit in Hb. rewrite (bind_ok _ _ _ _ _ Hb).
  unfold notify, ignore, bind, ret. rewrite stmt_run. simpl. eexists. reflexivity.
Qed.
End EnqueueBatch.

(** ** Concrete runs *)

Definition sampleClient : Client := NewClient EmptyString EmptyString (120 * second) (3600 * second).

Definition sampleJob (q : string) : job_row := mkJob q (Some (MarshalPayload TypeNoop None)) 0 None 0 0.

Definition sampleWorld : World :=
  set_jobs {[1 := sampleJob "a"; 2 := sampleJob "a"; 3 := sampleJob "b"]} (empty_world (1000 * second)).

Definition sampleReserved (id : Z) (q : string) : ReservedJob :=
  mkReserved id q (mkJobPayload TypeNoop RawNil) (Some (MarshalPayload TypeNoop None)) 1.

Theorem reserve_claims_lowest_witness :
  ∃ w', @Reserve never_fails sampleClient ["a"; "b"] sampleWorld = (Ok (Some (sampleReserved 1 "a")), w') ∧
    ∃ j, visible_jobs sampleClient sampleWorld !! 1 = Some j ∧ j_queue j ∈ ["a"; "b"].
Proof.
  exists (@Reserve never_fails sampleClient ["a"; "b"] sampleWorld).2.
  split; [vm_compute; reflexivity|].
  destruct (@reserve_claims_lowest never_fails sampleClient ["a"; "b"] sampleWorld (sampleReserved 1 "a")
    (@Reserve never_fails sampleClient ["a"; "b"] sampleWorld).2) as (j & Hj & Hq & _).
  - vm_compute. reflexivity.
  - exists j. split; [exact Hj | exact Hq].
Defined.

Definition poisonWorld : World :=
  set_jobs {[1 := mkJob "a" None 7 None 0 0]} (empty_world (1000 * second)).

Theorem undecodable_job_never_fails_witness :
  ∃ w', @Reserve never_fails sampleClient ["a"] poisonWorld = (Err "json", w') ∧
    w_jobs w' !! 1 = Some (mark_reserved 1000 (mkJob "a" None 7 None 0 0)) ∧ w_failed w' = [].
Proof.
  apply (@undecodable_job_never_fails never_fails sampleClient "a" [] poisonWorld 1
    (mkJob "a" None 7 None 0 0) "json").
  - exact never_fails_ok.
  - vm_compute. reflexivity.
  - reflexivity.
Defined.

Theorem reserve_fair_no_starvation_witness :
  ∃ rj, rj ∈ [sampleReserved 1 "a"; sampleReserved 3 "b"] ∧ rj_Queue rj = "b".
Proof.
  apply (@reserve_fair_no_starvation never_fails sampleClient ["a"; "b"] 1 0).
  - simpl. lia.
  - simpl. lia.
  - eapply (fair_cons _ _ _ 0 sampleWorld _ 1
      (@ReserveFair never_fails sampleClient ["a"; "b"] 0 sampleWorld).2).
    + exists 3, (sampleJob "b"). split; vm_compute; reflexivity.
    + vm_compute. reflexivity.
    + eapply (fair_cons _ _ _ 1 sampleWorld _ 0
        (@ReserveFair never_fails sampleClient ["a"; "b"] 1 sampleWorld).2).
      * exists 3, (sampleJob "b"). split; vm_compute; reflexivity.
      * vm_compute. reflexivity.
      * constructor.
  - simpl. lia.
Defined.

Definition sampleBatchWorld : World :=
  set_batches {["u" := mkBatch "n" 2 2 (Some (enc_options (mkOnComplete "q" "t" None))) 0 None]}
    (empty_world (1000 * second)).

Theorem batch_completes_once_witness :
  w_jobs (Nat.iter 2 (λ w, snd (@CompleteBatchJob never_fails "u" "x" EmptyString None w)) sampleBatchWorld)
  = <[1 := mkJob "q" (Some (MarshalPayload "t" None)) 0 None 1000 1000]> ∅.
Proof.
  apply (@batch_completes_once never_fails never_fails_ok "u" "x" (mkOnComplete "q" "t" None)
    sampleBatchWorld (mkBatch "n" 2 2 (Some (enc_options (mkOnComplete "q" "t" None))) 0 None) 2);
    [reflexivity | reflexivity | discriminate | discriminate | reflexivity].
Defined.

Theorem enqueue_batch_atomic_witness :
  let spec := mkBatchSpec "n" "q" [mkBatchJob "t" None] (mkBatchJob "f" None) in
  let r := @EnqueueBatch never_fails (λ _, "u") spec (empty_world 0) in
  r.1 = Ok "u" ∧ w_jobs r.2 !! 1 = Some (child_job spec "u" 0 (mkBatchJob "t" None)).
Proof.
  cbv zeta. set (spec := mkBatchSpec _ _ _ _).
  pose proof (@enqueue_batch_atomic never_fails (λ _, "u") spec (empty_world 0)
    (Ok "u") (@EnqueueBatch never_fails (λ _, "u") spec (empty_world 0)).2) as H.
  destruct H as (_ & _ & Hc & _); [vm_compute; reflexivity|].
  split; [vm_compute; reflexivity|]. exact (Hc 0%nat (mkBatchJob "t" None) eq_refl).
Defined.
