(* ===== verification/Worker.v ===== *)
(** * The queue worker (package [queue], worker.go) and its guarantees

    A worker reserves a job (one queue, a fair rotation, or fetch and persist pools in turn),
    runs its handler and then deletes, releases or fails it. Several workers share the
    tables; their interleavings are a step relation. *)

From Stdlib Require Import Ascii String.
From stdpp Require Import gmap strings list.
From S2P Require Import Prelude GoStrings GoTime GoFloat GoJson Payload Database Queue.

Open Scope Z_scope.
Open Scope string_scope.

(** [HandlerFunc]: an error, and whatever it did to the tables. *)
Definition HandlerFunc : Type := ReservedJob → M World unit.

Record Worker := mkWorker {
  wk_queues : list string;
  wk_handlers : gmap string HandlerFunc;
  wk_maxAttempts : Z;
  wk_fairQueueCursor : nat;
  wk_fairFetchCursor : nat;
  wk_fairPersistCursor : nat;
  wk_fairOtherCursor : nat;
  wk_fairPoolCursor : nat;
}.

Definition NewWorker (queues : list string) : Worker := mkWorker queues ∅ 3 0 0 0 0 0.

Definition Register (typ : string) (fn : HandlerFunc) (wk : Worker) : Worker :=
  mkWorker (wk_queues wk) (<[typ := fn]> (wk_handlers wk)) (wk_maxAttempts wk)
    (wk_fairQueueCursor wk) (wk_fairFetchCursor wk) (wk_fairPersistCursor wk)
    (wk_fairOtherCursor wk) (wk_fairPoolCursor wk).

Definition set_queueCursor n wk := mkWorker (wk_queues wk) (wk_handlers wk) (wk_maxAttempts wk) n
  (wk_fairFetchCursor wk) (wk_fairPersistCursor wk) (wk_fairOtherCursor wk) (wk_fairPoolCursor wk).
Definition set_poolCursor n wk := mkWorker (wk_queues wk) (wk_handlers wk) (wk_maxAttempts wk)
  (wk_fairQueueCursor wk) (wk_fairFetchCursor wk) (wk_fairPersistCursor wk) (wk_fairOtherCursor wk) n.

(** The cursor of a pool: 0 fetch, 1 persist, 2 other. *)
Definition pool_cursor (i : nat) (wk : Worker) : nat :=
  match i with 0%nat => wk_fairFetchCursor wk | 1%nat => wk_fairPersistCursor wk | _ => wk_fairOtherCursor wk end.
Definition set_pool_cursor (i n : nat) (wk : Worker) : Worker :=
  match i with
  | 0%nat => mkWorker (wk_queues wk) (wk_handlers wk) (wk_maxAttempts wk) (wk_fairQueueCursor wk) n
               (wk_fairPersistCursor wk) (wk_fairOtherCursor wk) (wk_fairPoolCursor wk)
  | 1%nat => mkWorker (wk_queues wk) (wk_handlers wk) (wk_maxAttempts wk) (wk_fairQueueCursor wk)
               (wk_fairFetchCursor wk) n (wk_fairOtherCursor wk) (wk_fairPoolCursor wk)
  | _ => mkWorker (wk_queues wk) (wk_handlers wk) (wk_maxAttempts wk) (wk_fairQueueCursor wk)
               (wk_fairFetchCursor wk) (wk_fairPersistCursor wk) n (wk_fairPoolCursor wk)
  end.

(** The unknown-type message of [process]; [%q] of the type is a parameter-free quote here. *)
Definition unknown_job_type : string := "unknown job type".

Section Worker.
Context {F : Faults} (uuid : nat → string) (c : Client).

(** The turn over the pools from [fairPoolCursor]. An error returns no worker: every cursor
    it could have moved is moved to the value it had. *)
Fixpoint weightedFrom (fuel i : nat) (pools : list (list string)) (wk : Worker)
    : M World (option ReservedJob * Worker) :=
  match fuel with
  | O => ret (None, wk)
  | S fuel =>
      let n := length pools in
      let idx := ((wk_fairPoolCursor wk + i) mod n)%nat in
      match nth idx pools [] with
      | [] => weightedFrom fuel (S i) pools wk
      | q =>
          let* (job, next) := ReserveFair c q (pool_cursor idx wk) in
          let wk := set_pool_cursor idx next wk in
          match job with
          | Some j => ret (Some j, set_poolCursor ((idx + 1) mod n)%nat wk)
          | None => weightedFrom fuel (S i) pools wk
          end
      end
  end.

Definition reserveWeighted (fetchQ persistQ otherQ : list string) (wk : Worker)
    : M World (option ReservedJob * Worker) :=
  let pools := fetchQ :: persistQ :: match otherQ with [] => [] | _ => [otherQ] end in
  weightedFrom (length pools) 0 pools wk.

Definition reserveNext (wk : Worker) : M World (option ReservedJob * Worker) :=
  if (length (wk_queues wk) <=? 1)%nat then
    let* job := Reserve c (wk_queues wk) in ret (job, wk)
  else
    let '(fetchQ, persistQ, otherQ) := partitionWorkerQueues (wk_queues wk) in
    match fetchQ, persistQ with
    | _ :: _, _ :: _ => reserveWeighted fetchQ persistQ otherQ wk
    | _, _ =>
        let* (job, next) := ReserveFair c (wk_queues wk) (wk_fairQueueCursor wk) in
        ret (job, set_queueCursor next wk)
    end.

Definition process (wk : Worker) (job : ReservedJob) : M World unit :=
  if bool_decide (p_Type (rj_Payload job) = EmptyString) && IsLegacyLaravelPayload (rj_Raw job)
  then ret tt
  else match wk_handlers wk !! p_Type (rj_Payload job) with
       | None => throw unknown_job_type
       | Some fn => fn job
       end.

(** The batch_id of a child job's args, when they decode and it is set. *)
Definition batch_id_of (args : RawMessage) : option string :=
  match args with
  | RawText (Some j) =>
      match with_object j (λ m, dec_string (m !! "batch_id")) with
      | Some id => if bool_decide (id = EmptyString) then None else Some id
      | None => None
      end
  | _ => None
  end.

Definition handleBatchComplete (job : ReservedJob) : M World unit :=
  match batch_id_of (p_Args (rj_Payload job)) with
  | None => ret tt
  | Some id => ignore (CompleteBatchJob id (rj_Queue job) EmptyString None)
  end.

(** What [Run] does with the outcome of a job. *)
Definition settle (wk : Worker) (job : ReservedJob) (outcome : res unit) : M World unit :=
  match outcome with
  | Err e => ignore (Release uuid c job (wk_maxAttempts wk) e)
  | Ok _ => ignore (Delete (rj_ID job)) ;;; handleBatchComplete job
  end.

(** One turn of the loop of [Run]: the worker and the world after it. *)
Definition run_once (wk : Worker) (w : World) : Worker * World :=
  match reserveNext wk w with
  | (Err _, w1) => (wk, w1)
  | (Ok (None, wk'), w1) => (wk', w1)
  | (Ok (Some job, wk'), w1) =>
      let '(outcome, w2) := process wk' job w1 in
      (wk', (settle wk' job outcome w2).2)
  end.
End Worker.

(** ** Clients of the queue

    What a handler promises the worker: it may add jobs, but leaves the rows already in the
    queue, the failed jobs and the clock alone. Every operation the handlers use keeps it. *)

Definition ids_below (w : World) : Prop := ∀ id j, w_jobs w !! id = Some j → (id < w_job_seq w)%Z.

Definition adds_to (w w' : World) : Prop :=
  ids_below w' ∧ w_now w' = w_now w ∧ w_failed w' = w_failed w ∧
  ∀ id j, w_jobs w !! id = Some j → w_jobs w' !! id = Some j.

Definition adds_only {A} (m : M World A) : Prop := ∀ w, ids_below w → adds_to w (m w).2.

Lemma adds_to_refl w : ids_below w → adds_to w w.
Proof. by intros. Qed.

Lemma adds_to_trans w1 w2 w3 : adds_to w1 w2 → adds_to w2 w3 → adds_to w1 w3.
Proof. intros (H1 & H2 & H3 & H4) (K1 & K2 & K3 & K4). split_and!; [done|congruence|congruence|auto]. Qed.

Section AddsOnly.
Context {F : Faults}.

Lemma adds_only_ret {A} (a : A) : adds_only (ret a).
Proof. by intros w. Qed.
Lemma adds_only_throw {A} e : adds_only (@throw World A e).
Proof. by intros w. Qed.
Lemma adds_only_get {A} (f : World → A) : adds_only (get f).
Proof. by intros w. Qed.
Lemma adds_only_bind {A B} (m : M World A) (k : A → M World B) :
  adds_only m → (∀ a, adds_only (k a)) → adds_only (bind m k).
Proof.
  intros Hm Hk w Hw. pose proof (Hm w Hw) as H1. unfold bind.
  destruct (m w) as [[a|e] w1]; simpl in *; [|done].
  eapply adds_to_trans; [exact H1|]. apply Hk, H1.
Qed.
Lemma adds_only_ignore {A} (m : M World A) : adds_only m → adds_only (ignore m).
Proof. intros Hm w Hw. by apply Hm. Qed.
Lemma adds_only_for_each {A} (f : A → M World unit) l :
  (∀ a, adds_only (f a)) → adds_only (for_each f l).
Proof.
  intros Hf. induction l as [|x r IH]; simpl; [apply adds_only_ret|].
  apply adds_only_bind; auto.
Qed.
Lemma adds_only_stmt {A} (m : M World A) : adds_only m → adds_only (stmt m).
Proof.
  intros Hm w Hw. unfold stmt. destruct (fault _); [by split_and!|].
  by apply (Hm (set_ops (S (w_ops w)) w)).
Qed.
(** A rollback restores the rows but not the sequence. *)
Definition seq_grows (w w' : World) : Prop := (w_job_seq w <= w_job_seq w')%Z.

Lemma adds_only_tx {A} (m : M World (option A)) :
  (∀ w, w_job_seq w <= w_job_seq (m w).2)%Z → adds_only m → adds_only (tx m).
Proof.
  intros Hseq Hm w Hw.
  assert (Hrb : ∀ w2, adds_to w w2 → (w_job_seq w <= w_job_seq w2)%Z → adds_to w (rolled_back w w2)).
  { intros w2 (H1 & H2 & H3 & H4) Hle. split_and!; simpl; try done.
    intros id j Hj. simpl in *. specialize (Hw id j Hj). lia. }
  unfold tx, stmt at 1. destruct (fault (w_ops w)); simpl; [by split_and!|].
  pose proof (Hm (set_ops (S (w_ops w)) w) Hw) as H1.
  pose proof (Hseq (set_ops (S (w_ops w)) w)) as H2. simpl in H2.
  destruct (m _) as [[[a|]|e] w2]; simpl in *; [|by apply Hrb..].
  unfold stmt. destruct (fault (w_ops w2)); simpl; [|by destruct H1 as (?&?&?&?)].
  apply Hrb; [by destruct H1 as (?&?&?&?) | done].
Qed.

Lemma adds_only_insert_job q p a n : adds_only (insert_job q p a n).
Proof.
  intros w Hw. unfold insert_job. split_and!; simpl; try done.
  - intros id j. simpl. rewrite lookup_insert_Some. intros [[<- _]|[_ Hj]]; [lia|].
    specialize (Hw id j Hj). lia.
  - intros id j Hj. rewrite lookup_insert_ne; [done|]. specialize (Hw id j Hj). lia.
Qed.

Lemma adds_only_keeps {A} (m : M World A) :
  (∀ w, w_jobs (m w).2 = w_jobs w ∧ w_job_seq (m w).2 = w_job_seq w ∧
        w_failed (m w).2 = w_failed w ∧ w_now (m w).2 = w_now w) → adds_only m.
Proof.
  intros H w Hw. destruct (H w) as (H1 & H2 & H3 & H4). split_and!; try done.
  - intros id j. rewrite H1, H2. apply Hw.
  - by rewrite H1.
Qed.

(** A computation that only reads: an upstream request. *)
Lemma adds_only_lift {A} (f : World → res A) : adds_only (λ w, (f w, w)).
Proof. by apply adds_only_keeps. Qed.
End AddsOnly.
#[export] Hint Resolve adds_only_lift adds_only_ret adds_only_throw adds_only_get adds_only_bind adds_only_ignore
  adds_only_for_each adds_only_stmt adds_only_insert_job : go.

(** [adds_tac]: follow the binds and case splits of a computation. *)
Ltac adds_step :=
  lazymatch goal with
  | |- adds_only (bind _ _) => apply adds_only_bind; [|intros ?]
  | |- adds_only (ignore _) => apply adds_only_ignore
  | |- adds_only (stmt _) => apply adds_only_stmt
  | |- adds_only (for_each _ _) => apply adds_only_for_each; intros ?
  | |- adds_only (modify _) => apply adds_only_keeps; intros ?; split_and!; reflexivity
  | |- _ => case_match
  end.
Ltac adds_tac := repeat first [ solve [eauto with go] | adds_step ].

Section ClientOperations.
Context {F : Faults} (uuid : nat → string).

Lemma adds_only_notify : adds_only notify.
Proof. unfold notify. adds_tac. Qed.
#[local] Hint Resolve adds_only_notify : go.

Lemma adds_only_Enqueue q typ args d : adds_only (Enqueue q typ args d).
Proof. unfold Enqueue. adds_tac. Qed.
#[local] Hint Resolve adds_only_Enqueue : go.

Definition seq_mono {A} (m : M World A) : Prop := ∀ w, (w_job_seq w <= w_job_seq (m w).2)%Z.

Lemma seq_mono_bind {A B} (m : M World A) (k : A → M World B) :
  seq_mono m → (∀ a, seq_mono (k a)) → seq_mono (bind m k).
Proof.
  intros Hm Hk w. specialize (Hm w). unfold bind.
  destruct (m w) as [[a|e] w1]; simpl in *; [|done]. specialize (Hk a w1). lia.
Qed.
Lemma seq_mono_stmt {A} (m : M World A) : seq_mono m → seq_mono (stmt m).
Proof.
  intros Hm w. unfold stmt. destruct (fault _); simpl; [lia|].
  exact (Hm (set_ops (S (w_ops w)) w)).
Qed.
Lemma seq_mono_for_each {A} (f : A → M World unit) l : (∀ x, seq_mono (f x)) → seq_mono (for_each f l).
Proof.
  intros Hf. induction l as [|x r IH]; simpl; [by intros w|]. by apply seq_mono_bind.
Qed.

Lemma adds_only_EnqueueBatch spec : adds_only (EnqueueBatch uuid spec).
Proof.
  unfold EnqueueBatch. destruct (bs_Jobs spec) as [|j l]; [apply adds_only_throw|].
  apply adds_only_bind; [apply adds_only_keeps; by intros w|]. intros bid.
  apply adds_only_bind; [apply adds_only_get|]. intros now.
  apply adds_only_bind; [|intros ?; adds_tac].
  apply adds_only_tx; [|unfold insert_batch; adds_tac].
  apply seq_mono_bind; [apply seq_mono_stmt; by intros w|]. intros _.
  apply seq_mono_bind; [|by intros _ w]. apply seq_mono_for_each. intros x.
  apply seq_mono_bind; [|by intros _ w]. apply seq_mono_stmt. intros w. simpl. lia.
Qed.

Lemma adds_only_CompleteBatchJob bid q typ args : adds_only (CompleteBatchJob bid q typ args).
Proof.
  unfold CompleteBatchJob. apply adds_only_bind.
  - apply adds_only_stmt, adds_only_keeps. intros w. unfold decrement_pending.
    by repeat case_match.
  - intros r. unfold set_finished. adds_tac.
Qed.
End ClientOperations.
#[export] Hint Resolve adds_only_notify adds_only_Enqueue adds_only_EnqueueBatch
  adds_only_CompleteBatchJob : go.

(** ** What a reservation does, through whichever pool it came *)

Section ReserveEffect.
Context {F : Faults} (uuid : nat → string) (c : Client).

Definition claim (id : Z) (n : nat) (w : World) : World :=
  set_ops n (set_jobs (alter (mark_reserved (now_unix w)) id (visible_jobs c w)) w).

Inductive reserve_effect (w : World) : res (option ReservedJob) → World → Prop :=
| re_none n : reserve_effect w (Ok None) (set_ops n w)
| re_claim id j n p :
    visible_jobs c w !! id = Some j → j_reserved_at j = None → (j_available_at j <= now_unix w)%Z →
    UnmarshalPayload (j_payload j) = Ok p →
    reserve_effect w (Ok (Some (mkReserved id (j_queue j) p (j_payload j) (j_attempts j + 1)))) (claim id n w)
| re_err e n : reserve_effect w (Err e) (set_ops n w)
| re_poison id j n e :
    visible_jobs c w !! id = Some j → j_reserved_at j = None → UnmarshalPayload (j_payload j) = Err e →
    reserve_effect w (Err e) (claim id n w).

Lemma reserve_effect_ops w n r w' : reserve_effect (set_ops n w) r w' → reserve_effect w r w'.
Proof.
  intros H. inversion H; subst; clear H.
  - exact (re_none w n0).
  - by apply (re_claim w id j n0 p).
  - exact (re_err w e n0).
  - by apply (re_poison w id j n0 e).
Qed.

Lemma reserveFromQueues_effect queues w r w' :
  reserveFromQueues c queues w = (r, w') → reserve_effect w r w'.
Proof.
  destruct queues as [|q queues].
  { intros [= <- <-]. replace w with (set_ops (w_ops w) w) at 2 by by destruct w. constructor. }
  intros H. apply reserveFromQueues_spec in H. destruct r as [[rj|]|e].
  - destruct H as (j & n & Hs & Hp & Hrj & ->). rewrite Hrj.
    apply select_next_Some in Hs as (Hj & He & _). unfold eligible in He.
    apply andb_prop in He as [He Ha]. apply andb_prop in He as [_ Hr].
    apply bool_decide_eq_true in Hr. apply Z.leb_le in Ha. by apply re_claim.
  - destruct H as [_ [n ->]]. constructor.
  - destruct H as [[n ->]|(id & j & n & Hs & Hp & ->)]; [constructor|].
    apply select_next_Some in Hs as (Hj & He & _). unfold eligible in He.
    apply andb_prop in He as [He _]. apply andb_prop in He as [_ Hr].
    apply bool_decide_eq_true in Hr. by apply (re_poison w id j).
Qed.

(** Dropping what a reservation returns besides the job. *)
Definition job_of {A} (r : res (option ReservedJob * A)) : res (option ReservedJob) :=
  match r with Ok (o, _) => Ok o | Err e => Err e end.

Lemma reserveFairFrom_effect fuel queues s i w r w' :
  reserveFairFrom c fuel queues s i w = (r, w') → reserve_effect w (job_of r) w'.
Proof.
  revert i w. induction fuel as [|fuel IH]; intros i w; cbn [reserveFairFrom].
  { intros [= <- <-]. replace w with (set_ops (w_ops w) w) at 2 by by destruct w. constructor. }
  unfold bind at 1. destruct (reserveFromQueues c _ w) as [r1 w1] eqn:E.
  apply reserveFromQueues_effect in E. destruct r1 as [[j|]|e].
  - by intros [= <- <-].
  - intros H. apply IH in H. inversion E; subst. by eapply reserve_effect_ops.
  - by intros [= <- <-].
Qed.

Lemma ReserveFair_effect queues s w r w' :
  ReserveFair c queues s w = (r, w') → reserve_effect w (job_of r) w'.
Proof.
  unfold ReserveFair. destruct queues; [|apply reserveFairFrom_effect].
  intros [= <- <-]. replace w with (set_ops (w_ops w) w) at 2 by by destruct w. constructor.
Qed.

Lemma weightedFrom_effect fuel i pools wk w r w' :
  weightedFrom c fuel i pools wk w = (r, w') → reserve_effect w (job_of r) w'.
Proof.
  revert i wk w. induction fuel as [|fuel IH]; intros i wk w; cbn [weightedFrom].
  { intros [= <- <-]. replace w with (set_ops (w_ops w) w) at 2 by by destruct w. constructor. }
  destruct (nth _ pools []) as [|q l]; [apply IH|].
  unfold bind at 1. destruct (ReserveFair c _ _ w) as [r1 w1] eqn:E.
  apply ReserveFair_effect in E. destruct r1 as [[[j|] next]|e]; simpl in E.
  - by intros [= <- <-].
  - intros H. apply IH in H. inversion E; subst. by eapply reserve_effect_ops.
  - by intros [= <- <-].
Qed.

Lemma reserveNext_effect wk w r w' :
  reserveNext c wk w = (r, w') → reserve_effect w (job_of r) w'.
Proof.
  unfold reserveNext. case_match.
  { unfold bind, Reserve. destruct (reserveFromQueues c _ w) as [r1 w1] eqn:E.
    apply reserveFromQueues_effect in E. by destruct r1; intros [= <- <-]. }
  destruct (partitionWorkerQueues (wk_queues wk)) as [[f p] o].
  assert (Hf : (let* (job, next) := ReserveFair c (wk_queues wk) (wk_fairQueueCursor wk) in
                ret (job, set_queueCursor next wk)) w = (r, w') → reserve_effect w (job_of r) w').
  { unfold bind. destruct (ReserveFair c _ _ w) as [[[job next]|e] w1] eqn:E;
      apply ReserveFair_effect in E; by intros [= <- <-]. }
  destruct f, p; try exact Hf. apply weightedFrom_effect.
Qed.

Lemma visible_domain w id : is_Some (visible_jobs c w !! id) ↔ is_Some (w_jobs w !! id).
Proof. unfold visible_jobs. rewrite lookup_release_stale. apply fmap_is_Some. Qed.

(** A reservation adds and removes no row. *)
Lemma reserve_effect_domain w r w' id :
  reserve_effect w r w' → is_Some (w_jobs w' !! id) ↔ is_Some (w_jobs w !! id).
Proof.
  intros H. inversion H; subst; simpl; try done;
    (rewrite <- visible_domain; unfold claim; simpl; apply lookup_alter_is_Some).
Qed.

Lemma reserve_effect_frame w r w' :
  reserve_effect w r w' → w_now w' = w_now w ∧ w_failed w' = w_failed w ∧ w_job_seq w' = w_job_seq w.
Proof. intros H. by inversion H. Qed.

Lemma reserve_effect_ids w r w' : reserve_effect w r w' → ids_below w → ids_below w'.
Proof.
  intros H Hw id j Hj. destruct (reserve_effect_frame _ _ _ H) as (_ & _ & ->).
  destruct (proj1 (reserve_effect_domain _ _ _ id H)) as [j' Hj']; [eauto | by eapply Hw].
Qed.

(** The identity fields of a row survive a reservation. *)
Lemma reserve_effect_payload w r w' id j :
  reserve_effect w r w' → w_jobs w !! id = Some j →
  ∃ j', w_jobs w' !! id = Some j' ∧ j_queue j' = j_queue j ∧ j_payload j' = j_payload j.
Proof.
  intros H Hj.
  assert (Hv : ∃ j', visible_jobs c w !! id = Some j' ∧ j_queue j' = j_queue j ∧ j_payload j' = j_payload j).
  { unfold visible_jobs. rewrite lookup_release_stale, Hj. simpl. eexists. split; [done|].
    by repeat case_match. }
  inversion H; subst; simpl; try by eauto.
  all: destruct Hv as (j' & Hj' & Hq & Hp);
    match goal with |- context [alter _ ?id0 _] => destruct (decide (id0 = id)) as [->|Hne] end;
    [rewrite lookup_alter_eq, Hj'; simpl; eauto | rewrite lookup_alter_ne by done; eauto].
Qed.
End ReserveEffect.

(** ** Settling *)

(** A reservation moves cursors only. *)
Lemma weightedFrom_worker {F : Faults} c fuel i pools wk w o wk' w' :
  weightedFrom c fuel i pools wk w = (Ok (o, wk'), w') →
  wk_handlers wk' = wk_handlers wk ∧ wk_maxAttempts wk' = wk_maxAttempts wk.
Proof.
  revert i wk w. induction fuel as [|fuel IH]; intros i wk w; cbn [weightedFrom].
  { by intros [= <- <- <-]. }
  destruct (nth _ pools []) as [|q l]; [apply IH|].
  unfold bind at 1. destruct (ReserveFair c _ _ w) as [[[[j|] next]|e] w1]; [| |done].
  - intros [= <- <- <-]. unfold set_pool_cursor. by repeat case_match.
  - intros H. apply IH in H as [-> ->]. unfold set_pool_cursor. by repeat case_match.
Qed.

Lemma reserveNext_worker {F : Faults} c wk w o wk' w' :
  reserveNext c wk w = (Ok (o, wk'), w') →
  wk_handlers wk' = wk_handlers wk ∧ wk_maxAttempts wk' = wk_maxAttempts wk.
Proof.
  unfold reserveNext. case_match.
  { unfold bind. destruct (Reserve c _ w) as [[j|e] w1]; [by intros [= <- <- <-] | done]. }
  destruct (partitionWorkerQueues (wk_queues wk)) as [[f p] q].
  assert (Hf : (let* (job, next) := ReserveFair c (wk_queues wk) (wk_fairQueueCursor wk) in
                ret (job, set_queueCursor next wk)) w = (Ok (o, wk'), w') →
     wk_handlers wk' = wk_handlers wk ∧ wk_maxAttempts wk' = wk_maxAttempts wk).
  { unfold bind. destruct (ReserveFair c _ _ w) as [[[job next]|e] w1]; [by intros [= <- <- <-] | done]. }
  destruct f, p; try exact Hf. apply weightedFrom_worker.
Qed.

Section Settle.
Context {F : Faults} (uuid : nat → string) (c : Client).

Definition handlers_add (wk : Worker) : Prop :=
  ∀ typ fn, wk_handlers wk !! typ = Some fn → ∀ job, adds_only (fn job).

Lemma adds_only_process wk job : handlers_add wk → adds_only (process wk job).
Proof.
  intros Hh. unfold process. case_match; [apply adds_only_ret|].
  destruct (wk_handlers wk !! _) as [fn|] eqn:E; [by eapply Hh | apply adds_only_throw].
Qed.

Lemma adds_only_handleBatchComplete job : adds_only (handleBatchComplete job).
Proof. unfold handleBatchComplete. adds_tac. Qed.

(** The row another job has is not touched. *)
Lemma settle_other wk job outcome w id j :
  ids_below w → id ≠ rj_ID job → w_jobs w !! id = Some j →
  w_jobs (settle uuid c wk job outcome w).2 !! id = Some j.
Proof.
  intros Hw Hne Hj. unfold settle. destruct outcome as [[]|e].
  - unfold bind, ignore, Delete, stmt at 1. destruct (fault (w_ops w)); simpl.
    + by apply adds_only_handleBatchComplete.
    + apply adds_only_handleBatchComplete; simpl.
      * intros id' j'. simpl. rewrite lookup_delete_Some. intros [_ Hj']. by eapply Hw.
      * by rewrite lookup_delete_ne.
  - unfold ignore, Release. simpl. case_match.
    + unfold Fail, bind, new_uuid, get. simpl. unfold stmt at 1. simpl. destruct (fault _); simpl; [done|].
      unfold Delete, stmt. simpl. destruct (fault _); simpl; [done|]. by rewrite lookup_delete_ne.
    + unfold bind, get, stmt. simpl. destruct (fault _); simpl; [done|]. by rewrite lookup_alter_ne.
Qed.

(** A failed job's own row: kept, or recorded in failed_jobs before it goes. *)
Lemma settle_failed wk job e w j :
  w_jobs w !! rj_ID job = Some j →
  let w' := (settle uuid c wk job (Err e) w).2 in
  (∃ j', w_jobs w' !! rj_ID job = Some j' ∧ j_queue j' = j_queue j ∧ j_payload j' = j_payload j) ∨
  (∃ f, f ∈ w_failed w' ∧ f_queue f = rj_Queue job ∧ f_payload f = rj_Raw job ∧ f_exception f = e ∧
     (wk_maxAttempts wk <= Attempts job)%Z).
Proof.
  intros Hj w'. unfold w', settle, ignore, Release. clear w'.
  destruct (Z.leb_spec (wk_maxAttempts wk) (Attempts job)).
  - unfold Fail, Delete, bind, new_uuid, get, stmt, modify. simpl.
    destruct (fault (w_ops w)); simpl; [eauto 10|].
    right. eexists (mkFailed _ _ _ _ _). split_and!; [|reflexivity..|done].
    destruct (fault (S (w_ops w))); simpl; apply elem_of_app; right; constructor.
  - left. unfold bind, get, stmt. simpl. destruct (fault _); simpl; [eauto|].
    rewrite lookup_alter_eq, Hj. simpl. eauto.
Qed.

(** C1 No job is lost, whatever statements the database refuses: after one turn of a
    worker's loop every job that was queued is still queued with its payload, or was the
    job the worker ran and its handler succeeded, or is recorded in failed_jobs. *)
Theorem run_once_no_job_lost wk w id j wk' w' :
  handlers_add wk → ids_below w → w_jobs w !! id = Some j →
  run_once uuid c wk w = (wk', w') →
  (∃ j', w_jobs w' !! id = Some j' ∧ j_queue j' = j_queue j ∧ j_payload j' = j_payload j) ∨
  (∃ job w1 w2, reserveNext c wk w = (Ok (Some job, wk'), w1) ∧ rj_ID job = id ∧
     rj_Raw job = j_payload j ∧ process wk' job w1 = (Ok tt, w2)) ∨
  (∃ f, f ∈ w_failed w' ∧ f_queue f = j_queue j ∧ f_payload f = j_payload j).
Proof.
  intros Hh Hw Hj. unfold run_once. destruct (reserveNext c wk w) as [r w1] eqn:E.
  pose proof (reserveNext_effect _ _ _ _ _ E) as He.
  pose proof (reserve_effect_payload _ _ _ _ _ _ He Hj) as (j1 & Hj1 & Hq1 & Hp1).
  destruct r as [[[job|] wk1]|e]; simpl in He; [|intros [= <- <-]; eauto..].
  destruct (reserveNext_worker _ _ _ _ _ _ E) as [Hhe Hmx].
  assert (Hh1 : handlers_add wk1) by (unfold handlers_add; by rewrite Hhe).
  pose proof (reserve_effect_ids _ _ _ _ He Hw) as Hw1.
  destruct (process wk1 job w1) as [o w2] eqn:Ep.
  pose proof (adds_only_process wk1 job Hh1 w1 Hw1) as (Hw2 & _ & _ & Hkeep).
  rewrite Ep in Hw2, Hkeep. simpl in Hw2, Hkeep. apply Hkeep in Hj1.
  intros [= <- <-].
  destruct (decide (rj_ID job = id)) as [<-|Hne].
  2:{ left. exists j1. split_and!; try done. apply settle_other; [done|congruence|done]. }
  assert (Hjob : rj_Queue job = j_queue j ∧ rj_Raw job = j_payload j).
  { inversion He; subst; simpl in *. unfold visible_jobs in *.
    match goal with H : release_stale _ _ _ !! _ = Some _ |- _ =>
      rewrite lookup_release_stale, Hj in H; simpl in H; injection H as <- end.
    by repeat case_match. }
  destruct Hjob as [Hjq Hjr]. destruct o as [[]|e].
  - right; left. eauto 10.
  - destruct (settle_failed wk1 job e w2 j1 Hj1) as [(j' & Hj' & Hq' & Hp')|(f & Hf & Hfq & Hfp & _)].
    + left. exists j'. split_and!; congruence.
    + right; right. exists f. split_and!; congruence.
Qed.
End Settle.

(** ** The attempt limit *)

Section AttemptLimit.
Context {F : Faults} {NF : NoFaults} (uuid : nat → string) (c : Client).



End AttemptLimit.

(** ** A fleet of workers

    [fl_held] is what each worker has reserved and not settled yet, with the second of the
    reservation. A step is one atomic action of one worker, of a job producer, or of time. *)

Record Fleet := mkFleet { fl_world : World; fl_held : gmap nat (ReservedJob * Z) }.

Section Fleet.
Context {F : Faults} (uuid : nat → string) (c : Client).

(** A reservation is live until the timeout passes. *)
Definition live (w : World) (t : Z) : Prop := (now_unix w - t <= seconds (c_reservationTimeout c))%Z.

Inductive fleet_step : Fleet → Fleet → Prop :=
| fs_tick d w h : (0 <= d)%Z → fleet_step (mkFleet w h) (mkFleet (set_now (w_now w + d)%Z w) h)
| fs_produce (m : M World unit) w h : adds_only m → fleet_step (mkFleet w h) (mkFleet (m w).2 h)
| fs_idle wk r w w' h :
    reserveNext c wk w = (r, w') → job_of r ≠ Ok None → (∀ job, job_of r ≠ Ok (Some job)) →
    fleet_step (mkFleet w h) (mkFleet w' h)
| fs_empty wk wk' w w' h :
    reserveNext c wk w = (Ok (None, wk'), w') → fleet_step (mkFleet w h) (mkFleet w' h)
| fs_claim i wk wk' job w w' h :
    h !! i = None → reserveNext c wk w = (Ok (Some job, wk'), w') →
    fleet_step (mkFleet w h) (mkFleet w' (<[i := (job, now_unix w)]> h))
| fs_settle i wk job t o w w1 h :
    h !! i = Some (job, t) → live w t → handlers_add wk → process wk job w = (o, w1) →
    fleet_step (mkFleet w h) (mkFleet (settle uuid c wk job o w1).2 (delete i h))
| fs_crash i w h : fleet_step (mkFleet w h) (mkFleet w (delete i h)).

Definition fleet_inv (f : Fleet) : Prop :=
  let w := fl_world f in
  ids_below w ∧
  (∀ i job t, fl_held f !! i = Some (job, t) → live w t →
     ∃ j, w_jobs w !! rj_ID job = Some j ∧ j_reserved_at j = Some t) ∧
  (∀ i i' job job' t t', i ≠ i' → fl_held f !! i = Some (job, t) → fl_held f !! i' = Some (job', t') →
     live w t → live w t' → rj_ID job ≠ rj_ID job').

Lemma settle_frame wk job o w :
  ids_below w → w_now (settle uuid c wk job o w).2 = w_now w ∧ ids_below (settle uuid c wk job o w).2.
Proof.
  intros Hw. unfold settle. destruct o as [[]|e].
  - rewrite (bind_ok _ _ w tt (Delete (rj_ID job) w).2) by done.
    assert (H : ids_below (Delete (rj_ID job) w).2 ∧ w_now (Delete (rj_ID job) w).2 = w_now w).
    { unfold Delete, stmt, modify. destruct (fault _); simpl; split; try done.
      intros id j. simpl. rewrite lookup_delete_Some. intros [_ Hj]. by eapply Hw. }
    destruct H as [H1 H2]. destruct (adds_only_handleBatchComplete job _ H1) as (K1 & K2 & _).
    split; [congruence|done].
  - unfold ignore, Release. simpl. case_match.
    + unfold Fail, Delete, bind, new_uuid, get, stmt, modify. simpl.
      destruct (fault (w_ops w)); simpl; [done|]. destruct (fault _); simpl; [done|].
      split; [done|]. intros id j. simpl. rewrite lookup_delete_Some. intros [_ Hj]. by eapply Hw.
    + unfold bind, get, stmt, modify. simpl. destruct (fault _); simpl; [done|]. split; [done|].
      intros id j. simpl. intros Hj.
      destruct (lookup_alter_is_Some (λ j, mkJob (j_queue j) (j_payload j) (j_attempts j) None
        (unix (w_now w + c_retryAfter c)) (j_created_at j)) (w_jobs w) (rj_ID job) id) as [Ha _].
      destruct Ha as [j' Hj']; [eauto|]. by eapply Hw.
Qed.

Lemma now_unix_frame w w' : w_now w' = w_now w → now_unix w' = now_unix w.
Proof. unfold now_unix. by intros ->. Qed.

Lemma live_mono w w' t : (w_now w <= w_now w')%Z → live w' t → live w t.
Proof.
  unfold live, now_unix, unix. intros Hle Hl.
  pose proof (Z.div_le_mono (w_now w) (w_now w') second ltac:(done) Hle). lia.
Qed.

(** A live reservation is seen unchanged by other reservations. *)
Lemma visible_live w id j t :
  w_jobs w !! id = Some j → j_reserved_at j = Some t → live w t → visible_jobs c w !! id = Some j.
Proof.
  intros Hj Ht Hl. unfold visible_jobs. rewrite lookup_release_stale, Hj. simpl. rewrite Ht.
  unfold live in Hl. destruct (Z.ltb_spec t (now_unix w - seconds (c_reservationTimeout c))); [lia|done].
Qed.

Lemma reserve_effect_live w r w' id j t :
  reserve_effect c w r w' → w_jobs w !! id = Some j → j_reserved_at j = Some t → live w t →
  w_jobs w' !! id = Some j.
Proof.
  intros He Hj Ht Hl. pose proof (visible_live w id j t Hj Ht Hl) as Hv.
  inversion He; subst; simpl; try done;
    (rewrite lookup_alter_ne; [done|]; intros ->; congruence).
Qed.

Lemma fleet_inv_step f f' : fleet_inv f → fleet_step f f' → fleet_inv f'.
Proof.
  intros (Hids & Hrow & Hex) Hstep. destruct Hstep; unfold fleet_inv; simpl in *.
  - assert (Hm : ∀ t, live (set_now (w_now w + d)%Z w) t → live w t).
    { intros t. apply live_mono. simpl. lia. }
    split_and!; [done|intros; eapply Hrow; eauto|intros; eapply Hex; eauto].
  - destruct (H w Hids) as (H1 & H2 & _ & H4). apply now_unix_frame in H2.
    unfold live in *. rewrite H2. split_and!; [done| |done].
    intros i job t Hi Hl. destruct (Hrow i job t Hi Hl) as (j & Hj & Hr). eauto.
  - apply reserveNext_effect in H. destruct (reserve_effect_frame _ _ _ _ H) as (H2 & _ & _).
    pose proof (reserve_effect_ids _ _ _ _ H Hids). apply now_unix_frame in H2.
    unfold live in *. rewrite H2. split_and!; [done| |done].
    intros i job t Hi Hl. destruct (Hrow i job t Hi Hl) as (j & Hj & Hr).
    exists j. split; [by eapply reserve_effect_live|done].
  - apply reserveNext_effect in H. destruct (reserve_effect_frame _ _ _ _ H) as (H2 & _ & _).
    pose proof (reserve_effect_ids _ _ _ _ H Hids). apply now_unix_frame in H2.
    unfold live in *. rewrite H2. split_and!; [done| |done].
    intros i job t Hi Hl. destruct (Hrow i job t Hi Hl) as (j & Hj & Hr).
    exists j. split; [by eapply reserve_effect_live|done].
  - apply reserveNext_effect in H0. simpl in H0.
    destruct (reserve_effect_frame _ _ _ _ H0) as (H2 & _ & _).
    pose proof (reserve_effect_ids _ _ _ _ H0 Hids). apply now_unix_frame in H2.
    assert (Hnew : ∃ j, w_jobs w' !! rj_ID job = Some j ∧ j_reserved_at j = Some (now_unix w)).
    { inversion H0; subst; simpl in *. eexists. rewrite lookup_alter_eq.
      match goal with Hv : visible_jobs c w !! _ = Some _ |- _ => rewrite Hv end. by split. }
    assert (Hother : ∀ i' job' t', h !! i' = Some (job', t') → live w t' → rj_ID job' ≠ rj_ID job).
    { intros i' job' t' Hi' Hl Heq. destruct (Hrow _ _ _ Hi' Hl) as (j & Hj & Hr).
      pose proof (visible_live w _ j t' Hj Hr Hl) as Hv. rewrite Heq in Hv.
      inversion H0; subst; simpl in *. congruence. }
    unfold live in *. rewrite H2. split_and!; [done| |].
    + intros i' job' t'. rewrite lookup_insert. case_decide; [intros [= <- <-]; done|].
      intros Hi' Hl. destruct (Hrow _ _ _ Hi' Hl) as (j & Hj & Hr). exists j.
      split; [by eapply reserve_effect_live|done].
    + intros i1 i2 job1 job2 t1 t2 Hne. rewrite !lookup_insert.
      do 2 case_decide; subst; try done.
      * intros [= <- <-] Hi2 _ Hl Heq. by eapply (Hother i2).
      * intros Hi1 [= <- <-] Hl _ Heq. by eapply (Hother i1).
      * intros. by eapply (Hex i1 i2).
  - destruct (adds_only_process wk job H1 w Hids) as (K1 & K2 & _ & K4).
    rewrite H2 in K1, K2, K4. simpl in *.
    destruct (settle_frame wk job o w1 K1) as [S1 S2]. rewrite K2 in S1.
    apply now_unix_frame in S1. unfold live in *. rewrite S1.
    split_and!; [done| |].
    + intros i' job' t' [Hne Hi']%lookup_delete_Some Hl.
      destruct (Hrow _ _ _ Hi' Hl) as (j & Hj & Hr). exists j. split; [|done].
      apply settle_other; [done| |auto]. exact (Hex i' i job' job t' t (not_eq_sym Hne) Hi' H Hl H0).
    + intros i1 i2 job1 job2 t1 t2 Hne [_ Hi1]%lookup_delete_Some [_ Hi2]%lookup_delete_Some.
      by eapply (Hex i1 i2).
  - split_and!; [done| |].
    + intros i' job' t' [_ Hi']%lookup_delete_Some. by eapply Hrow.
    + intros i1 i2 job1 job2 t1 t2 Hne [_ Hi1]%lookup_delete_Some [_ Hi2]%lookup_delete_Some.
      by eapply (Hex i1 i2).
Qed.

(** C2 A job has one worker at a time: starting with nothing reserved, in every
    interleaving of producers, workers, crashes and time in which a worker settles a job
    only while its reservation is live, two workers never hold live reservations of the
    same job, whatever statements the database refuses. *)
Theorem fleet_exclusive w0 f i i' job job' t t' :
  ids_below w0 → rtc fleet_step (mkFleet w0 ∅) f →
  i ≠ i' → fl_held f !! i = Some (job, t) → fl_held f !! i' = Some (job', t') →
  live (fl_world f) t → live (fl_world f) t' → rj_ID job ≠ rj_ID job'.
Proof.
  intros Hw Hr. assert (Hinv : fleet_inv f).
  { remember (mkFleet w0 ∅) as f0 eqn:Ef. assert (H0 : fleet_inv f0) by (subst; split_and!; done).
    clear Ef Hw. induction Hr; [done|]. apply IHHr. by eapply fleet_inv_step. }
  destruct Hinv as (_ & _ & Hex). intros. by eapply Hex.
Qed.
End Fleet.

(** ** Concrete runs *)

Lemma ids_below_map w :
  bool_decide (map_Forall (λ id _, (id < w_job_seq w)%Z) (w_jobs w)) = true → ids_below w.
Proof. intros H%bool_decide_eq_true id j Hj. exact (H id j Hj). Qed.

Definition okWorker (queues : list string) : Worker := Register "t" (λ _, ret tt) (NewWorker queues).
Definition failWorker (queues : list string) : Worker := Register "t" (λ _, throw "boom") (NewWorker queues).

Lemma okWorker_add queues : handlers_add (okWorker queues).
Proof.
  intros typ fn. unfold okWorker, Register, NewWorker. simpl. rewrite insert_empty.
  intros [_ <-]%lookup_singleton_Some job. apply adds_only_ret.
Qed.
Lemma failWorker_add queues : handlers_add (failWorker queues).
Proof.
  intros typ fn. unfold failWorker, Register, NewWorker. simpl. rewrite insert_empty.
  intros [_ <-]%lookup_singleton_Some job. apply adds_only_throw.
Qed.

Definition tJob (q : string) : job_row := mkJob q (Some (MarshalPayload "t" None)) 0 None 0 0.
Definition tWorld : World := set_job_seq 10 (set_jobs {[1 := tJob "a"]} (empty_world (1000 * second))).


Theorem run_once_no_job_lost_witness :
  let w' := (@run_once never_fails (λ _, "u") sampleClient (failWorker ["a"]) tWorld).2 in
  (∃ j', w_jobs w' !! 1 = Some j' ∧ j_queue j' = "a" ∧ j_payload j' = Some (MarshalPayload "t" None)) ∨
  (∃ job w1 w2, @reserveNext never_fails sampleClient (failWorker ["a"]) tWorld
      = (Ok (Some job, failWorker ["a"]), w1) ∧ rj_ID job = 1 ∧
      rj_Raw job = Some (MarshalPayload "t" None) ∧ process (failWorker ["a"]) job w1 = (Ok tt, w2)) ∨
  (∃ f, f ∈ w_failed w' ∧ f_queue f = "a" ∧ f_payload f = Some (MarshalPayload "t" None)).
Proof.
  apply (@run_once_no_job_lost never_fails (λ _, "u") sampleClient (failWorker ["a"]) tWorld 1 (tJob "a")
    (failWorker ["a"]) (@run_once never_fails (λ _, "u") sampleClient (failWorker ["a"]) tWorld).2).
  - apply failWorker_add.
  - apply ids_below_map. vm_compute. reflexivity.
  - reflexivity.
  - vm_compute. reflexivity.
Defined.

Definition twoJobs : World :=
  set_job_seq 10 (set_jobs {[1 := tJob "a"; 2 := tJob "a"]} (empty_world (1000 * second))).

Theorem fleet_exclusive_witness :
  let job1 := mkReserved 1 "a" (mkJobPayload "t" RawNil) (Some (MarshalPayload "t" None)) 1 in
  let job2 := mkReserved 2 "a" (mkJobPayload "t" RawNil) (Some (MarshalPayload "t" None)) 1 in
  let w1 := (@reserveNext never_fails sampleClient (okWorker ["a"]) twoJobs).2 in
  let w2 := (@reserveNext never_fails sampleClient (okWorker ["a"]) w1).2 in
  rtc (@fleet_step never_fails (λ _, "u") sampleClient) (mkFleet twoJobs ∅)
    (mkFleet w2 (<[1%nat := (job2, 1000)]> (<[0%nat := (job1, 1000)]> ∅))) ∧
  rj_ID job1 ≠ rj_ID job2.
Proof.
  intros job1 job2 w1 w2.
  assert (Hr : rtc (@fleet_step never_fails (λ _, "u") sampleClient) (mkFleet twoJobs ∅)
    (mkFleet w2 (<[1%nat := (job2, 1000)]> (<[0%nat := (job1, 1000)]> ∅)))).
  { eapply rtc_l; [apply (fs_claim _ _ 0%nat (okWorker ["a"]) (okWorker ["a"]) job1 twoJobs w1);
      [reflexivity | vm_compute; reflexivity]|].
    eapply rtc_l; [apply (fs_claim _ _ 1%nat (okWorker ["a"]) (okWorker ["a"]) job2 w1 w2);
      [reflexivity | vm_compute; reflexivity]|].
    apply rtc_refl. }
  split; [exact Hr|].
  apply (@fleet_exclusive never_fails (λ _, "u") sampleClient twoJobs _ 0 1 job1 job2 1000 1000
    (ids_below_map twoJobs ltac:(vm_compute; reflexivity)) Hr).
  - discriminate.
  - reflexivity.
  - reflexivity.
  - vm_compute. discriminate.
  - vm_compute. discriminate.
Defined.

(** [Release] does not check whose reservation it releases: a worker that settles after
    its reservation expired frees the job under the worker that claimed it since, and a third
    worker then holds the same job while the second one's reservation is still live. *)
Theorem late_release_breaks_exclusivity :
  let reserve w := @Reserve never_fails sampleClient ["a"] w in
  let later s w := set_now (w_now w + s * second)%Z w in
  let job1 := mkReserved 1 "a" (mkJobPayload "t" RawNil) (Some (MarshalPayload "t" None)) 1 in
  let wA := (reserve tWorld).2 in               (* worker A claims job 1 at 1000 *)
  let wB := (reserve (later 3601 wA)).2 in      (* worker B claims it at 4601 *)
  let wR := (@Release never_fails (λ _, "u") sampleClient job1 3 "boom" wB).2 in  (* A gives up *)
  let wC := later 120 wR in                     (* worker C reserves at 4721 *)
  (reserve tWorld).1 = Ok (Some job1) ∧
  (∃ jb, (reserve (later 3601 wA)).1 = Ok (Some jb) ∧ rj_ID jb = 1) ∧
  (∃ jc, (reserve wC).1 = Ok (Some jc) ∧ rj_ID jc = 1) ∧
  (now_unix wC - now_unix wB <= seconds (c_reservationTimeout sampleClient))%Z.
Proof.
  cbv zeta. split; [vm_compute; reflexivity|]. split; [|split].
  - eexists. split; [vm_compute; reflexivity | reflexivity].
  - eexists. split; [vm_compute; reflexivity | reflexivity].
  - vm_compute. discriminate.
Qed.

(** A batch of two child jobs with a completion job. *)
Definition chunkJob : job_row :=
  mkJob "a" (Some (MarshalPayload "t" (Some (batch_args "u" None)))) 0 None 0 0.
Definition chunkWorld : World :=
  set_batches {["u" := mkBatch "n" 2 2 (Some (enc_options (mkOnComplete "a" "fin" None))) 0 None]}
    (set_job_seq 3 (set_jobs {[1 := chunkJob; 2 := chunkJob]} (empty_world (1000 * second)))).

(** The batch counter counts deliveries, not jobs: when the DELETE of a finished child job
    fails, the job runs again after the reservation timeout and is counted a second time, so
    the completion job is enqueued while another child job of the batch has never run. *)
Theorem redelivery_completes_batch_early :
  let F : Faults := λ n, Nat.eqb n 5 in         (* only the DELETE of the first run fails *)
  let turn w := (@run_once F (λ _, "u") sampleClient (okWorker ["a"]) w).2 in
  let w1 := turn chunkWorld in
  let w2 := turn (set_now (w_now w1 + 3601 * second)%Z w1) in
  (∃ j, w_jobs w2 !! 2 = Some j ∧ j_attempts j = 0 ∧ j_payload j = j_payload chunkJob) ∧
  (∃ j, w_jobs w2 !! 3 = Some j ∧ j_payload j = Some (MarshalPayload "fin" None)).
Proof.
  cbv zeta. split.
  - eexists. split; [vm_compute; reflexivity | split; reflexivity].
  - eexists. split; [vm_compute; reflexivity | vm_compute; reflexivity].
Qed.
