(* ===== verification/Replication.v ===== *)
(** * Replication state (package [sync]): cursors, staged pages, kickoff

    Models [cursor.go], [replica_page.go], [freshness.go], [kickoff.go], [fetch_guard.go],
    [rate_limit.go], [mirror_window.go] and [purge.go], with the job arguments of
    [bridge_worker.go] the kickoff enqueues. *)

From Stdlib Require Import Ascii String.
From stdpp Require Import gmap strings list.
From S2P Require Import Prelude GoStrings GoTime GoFloat GoJson MlsFields Payload Listing Config Database Queue Worker.

Open Scope Z_scope.
Open Scope string_scope.

(** ** Job arguments (bridge_worker.go) *)

Record fetchPageArgs := mkFetchArgs {
  fa_Dataset : string;
  fa_Mode : string;
  fa_IncrementalSkip : Z;
  fa_ChainDepth : Z;
}.

#[export] Instance fetchPageArgs_codec : JsonCodec fetchPageArgs := {
  marshal a := mk_obj [("dataset", enc_string (fa_Dataset a)); ("mode", enc_string (fa_Mode a));
    ("incremental_skip", enc_int (fa_IncrementalSkip a)); ("chain_depth", enc_int (fa_ChainDepth a))];
  unmarshal j := with_object j (λ m,
    d ← dec_string (m !! "dataset"); md ← dec_string (m !! "mode");
    s ← dec_int (m !! "incremental_skip"); c ← dec_int (m !! "chain_depth");
    Some (mkFetchArgs d md s c));
}.

#[export] Instance fetchPageArgs_roundtrip : JsonRoundTrip fetchPageArgs.
Proof. intros []. unfold unmarshal, marshal; simpl. codec_tac. done. Qed.

Record persistChunkArgs := mkChunkArgs {
  ca_ReplicaPageID : Z;
  ca_ChunkIndex : Z;
  ca_ChunkTotal : Z;
  ca_Dataset : string;
}.

#[export] Instance persistChunkArgs_codec : JsonCodec persistChunkArgs := {
  marshal a := mk_obj [("replica_page_id", enc_int (ca_ReplicaPageID a)); ("chunk_index", enc_int (ca_ChunkIndex a));
    ("chunk_total", enc_int (ca_ChunkTotal a)); ("dataset", enc_string (ca_Dataset a))];
  unmarshal j := with_object j (λ m,
    p ← dec_int (m !! "replica_page_id"); i ← dec_int (m !! "chunk_index");
    t ← dec_int (m !! "chunk_total"); d ← dec_string (m !! "dataset");
    Some (mkChunkArgs p i t d));
}.

#[export] Instance persistChunkArgs_roundtrip : JsonRoundTrip persistChunkArgs.
Proof. intros []. unfold unmarshal, marshal; simpl. codec_tac. done. Qed.

Record persistFinalizeArgs := mkFinalizeArgs {
  pf_ReplicaPageID : option Z;
  pf_Dataset : string;
  pf_ApplyReplicationState : bool;
  pf_ReplicationNextURL : option string;
  pf_ReplicationInProgress : option bool;
  pf_MaxModificationTs : option string;
  pf_IncrementalWindowEnd : option string;
  pf_MarkSyncFinished : bool;
  pf_DispatchIncrementalAfter : bool;
  pf_NextFetchMode : option string;
  pf_NextIncrementalSkip : Z;
  pf_NextChainDepth : Z;
}.

#[export] Instance persistFinalizeArgs_codec : JsonCodec persistFinalizeArgs := {
  marshal a := mk_obj [
    ("replica_page_id", omit_ptr enc_int (pf_ReplicaPageID a));
    ("dataset", enc_string (pf_Dataset a));
    ("apply_replication_state", omit_bool (pf_ApplyReplicationState a));
    ("replication_next_url", omit_ptr enc_string (pf_ReplicationNextURL a));
    ("replication_in_progress", omit_ptr enc_bool (pf_ReplicationInProgress a));
    ("max_modification_ts", omit_ptr enc_string (pf_MaxModificationTs a));
    ("incremental_window_end", omit_ptr enc_string (pf_IncrementalWindowEnd a));
    ("mark_sync_finished", omit_bool (pf_MarkSyncFinished a));
    ("dispatch_incremental_after", omit_bool (pf_DispatchIncrementalAfter a));
    ("next_fetch_mode", omit_ptr enc_string (pf_NextFetchMode a));
    ("next_incremental_skip", omit_int (pf_NextIncrementalSkip a));
    ("next_chain_depth", omit_int (pf_NextChainDepth a))];
  unmarshal j := with_object j (λ m,
    p ← dec_ptr dec_int (m !! "replica_page_id");
    d ← dec_string (m !! "dataset");
    ar ← dec_bool (m !! "apply_replication_state");
    nu ← dec_ptr dec_string (m !! "replication_next_url");
    ip ← dec_ptr dec_bool (m !! "replication_in_progress");
    mt ← dec_ptr dec_string (m !! "max_modification_ts");
    we ← dec_ptr dec_string (m !! "incremental_window_end");
    mf ← dec_bool (m !! "mark_sync_finished");
    di ← dec_bool (m !! "dispatch_incremental_after");
    nm ← dec_ptr dec_string (m !! "next_fetch_mode");
    ns ← dec_int (m !! "next_incremental_skip");
    nd ← dec_int (m !! "next_chain_depth");
    Some (mkFinalizeArgs p d ar nu ip mt we mf di nm ns nd));
}.

#[export] Instance persistFinalizeArgs_roundtrip : JsonRoundTrip persistFinalizeArgs.
Proof.
  intros []. cbn [unmarshal marshal persistFinalizeArgs_codec pf_ReplicaPageID pf_Dataset
    pf_ApplyReplicationState pf_ReplicationNextURL pf_ReplicationInProgress pf_MaxModificationTs
    pf_IncrementalWindowEnd pf_MarkSyncFinished pf_DispatchIncrementalAfter pf_NextFetchMode
    pf_NextIncrementalSkip pf_NextChainDepth].
  codec_tac. done.
Qed.

(** ** Cursors (cursor.go) *)

Record CursorPatch := mkPatch {
  cp_ApplyReplicationState : bool;
  cp_ReplicationNextURL : option string;
  cp_ReplicationInProgress : option bool;
  cp_MaxModificationTs : option Z;
  cp_IncrementalWindowEnd : option Z;
  cp_MarkSyncFinished : bool;
}.

Definition emptyPatch : CursorPatch := mkPatch false None None None None false.

Definition ReplicationChainActive (c : SyncCursor) : bool :=
  ReplicationInProgress c ||
  match ReplicationNextURL c with
  | Some u => negb (bool_decide (TrimSpace u = EmptyString))
  | None => false
  end.

(** A set, not blank next URL, without trimming: the check of freshness and polling. *)
Definition hasNextURL (c : SyncCursor) : bool :=
  match ReplicationNextURL c with Some u => negb (bool_decide (u = EmptyString)) | None => false end.

Definition ShouldRunIncremental (c : SyncCursor) : bool :=
  negb (ReplicationInProgress c) && bool_decide (is_Some (LastModificationTimestamp c)).

Definition mergeCursorPatch (c : SyncCursor) (patch : CursorPatch) (now : Z) : SyncCursor :=
  let inProgress := default (ReplicationInProgress c) (cp_ReplicationInProgress patch) in
  let nextURL := if cp_ApplyReplicationState patch then cp_ReplicationNextURL patch
                 else ReplicationNextURL c in
  let windowEnd := match cp_IncrementalWindowEnd patch with
                   | Some t => Some t
                   | None => IncrementalWindowEnd c
                   end in
  let lastMod :=
    match cp_MaxModificationTs patch with
    | Some t =>
        match LastModificationTimestamp c with
        | None => Some t
        | Some t0 => if (t0 <? t)%Z then Some t else Some t0
        end
    | None => LastModificationTimestamp c
    end in
  if cp_MarkSyncFinished patch
  then mkCursor (cur_DatasetSlug c) lastMod None nextURL inProgress (Some now)
  else mkCursor (cur_DatasetSlug c) lastMod windowEnd nextURL inProgress (LastSyncFinishedAt c).

Section Cursors.
Context {F : Faults}.

Definition freshCursor (dataset : string) : SyncCursor := mkCursor dataset None None None false None.

(** The returned row carries its key. *)
Definition keyed (dataset : string) (c : SyncCursor) : SyncCursor :=
  mkCursor dataset (LastModificationTimestamp c) (IncrementalWindowEnd c) (ReplicationNextURL c)
    (ReplicationInProgress c) (LastSyncFinishedAt c).

(** INSERT ... ON CONFLICT DO UPDATE ... RETURNING: the row, created when absent. *)
Definition ForDataset (dataset : string) : M World SyncCursor :=
  stmt (λ w,
    match w_cursors w !! dataset with
    | Some c => (Ok (keyed dataset c), w)
    | None => (Ok (freshCursor dataset),
               set_cursors (<[dataset := freshCursor dataset]> (w_cursors w)) w)
    end).

Definition MirrorSeeded (dataset : string) : M World bool :=
  stmt (get (λ w, existsb (λ kv, bool_decide (kv.1.1 = dataset)) (map_to_list (w_listings w)))).

Definition ShouldKickoffReplication (c : SyncCursor) : M World bool :=
  if ReplicationChainActive c then ret false
  else let* seeded := MirrorSeeded (cur_DatasetSlug c) in ret (negb seeded).

(** UPDATE ... WHERE dataset_slug = $1 *)
Definition update_cursor (dataset : string) (c : SyncCursor) : M World unit :=
  modify (λ w, set_cursors (alter (λ old, mkCursor (cur_DatasetSlug old) (LastModificationTimestamp c)
    (IncrementalWindowEnd c) (ReplicationNextURL c) (ReplicationInProgress c) (LastSyncFinishedAt c))
    dataset (w_cursors w)) w).

Definition ApplyPatch (dataset : string) (patch : CursorPatch) : M World unit :=
  let* c := ForDataset dataset in
  let* now := get w_now in
  stmt (update_cursor dataset (mergeCursorPatch c patch now)).
End Cursors.

(** ** Staged pages (replica_page.go)

    The compression of the parts (gzip and base64 of a JSON array) is reversible library
    code: the table keeps the decoded rows of each part. *)

Record ReplicaPageMeta := mkMeta {
  FetchURL : string;
  UpstreamURL : string;
  ODataQuery : gmap string string;
}.

Definition nonempty (s : string) : option string :=
  if bool_decide (s = EmptyString) then None else Some s.

Section Pages.
Context {F : Faults} (cfg : Config).

Definition chunkOf (chunkSize : Z) : nat := Z.to_nat (if (chunkSize <=? 0)%Z then 50 else chunkSize).

Definition insert_page (p : page_row) : M World Z := λ w,
  let id := w_page_seq w in
  (Ok id, set_page_seq (id + 1)%Z (set_pages (<[id := p]> (w_pages w)) w)).

(** The page's id and its number of parts. Marshalling a row that is not JSON fails. *)
Definition StorePage (provider dataset mode : string) (rows : list text) (chunkSize : Z)
    (meta : ReplicaPageMeta) : M World (Z * Z) :=
  if existsb (λ r, bool_decide (r = None)) rows then throw "json"
  else
    let parts := chunks (chunkOf chunkSize) rows in
    let* now := get w_now in
    let* id := stmt (insert_page
      {| pg_provider := provider; pg_dataset := dataset; pg_mode := mode; pg_status := PagePending;
         pg_parts := parts; pg_row_count := Z.of_nat (length rows);
         pg_fetch_url := nonempty (FetchURL meta); pg_upstream_url := nonempty (UpstreamURL meta);
         pg_odata := if bool_decide (ODataQuery meta = ∅) then None else Some (ODataQuery meta);
         pg_batch_id := None; pg_created_at := now; pg_processed_at := None |}) in
    ret (id, Z.of_nat (length parts)).

Definition set_status (st : page_status) (batch : option string) (processed : option Z) (p : page_row) : page_row :=
  mkPage (pg_provider p) (pg_dataset p) (pg_mode p) st (pg_parts p) (pg_row_count p) (pg_fetch_url p)
    (pg_upstream_url p) (pg_odata p) batch (pg_created_at p) processed.

Definition MarkProcessing (pageID : Z) (batchID : string) : M World unit :=
  stmt (modify (λ w, set_pages (alter (λ p,
    set_status PageProcessing (nonempty batchID) (pg_processed_at p) p) pageID (w_pages w)) w)).

Definition RowsForChunk (pageID chunkIndex chunkTotal : Z) : M World (list text) :=
  let* p := stmt (get (λ w, w_pages w !! pageID)) in
  match p with
  | None => throw "no rows in result set"
  | Some p =>
      if (chunkIndex <? 1)%Z || (Z.of_nat (length (pg_parts p)) <? chunkIndex)%Z
      then throw "chunk index out of range"
      else match pg_parts p !! Z.to_nat (chunkIndex - 1) with
           | Some rows => ret rows
           | None => throw "chunk index out of range"
           end
  end.

Definition MarkCompleted (pageID : Z) : M World unit :=
  stmt (modify (λ w, set_pages (alter (λ p,
    set_status PageCompleted (pg_batch_id p) (Some (w_now w)) p) pageID (w_pages w)) w)).

Definition DeletePage (pageID : Z) : M World unit :=
  stmt (modify (λ w, set_pages (delete pageID (w_pages w)) w)).

(** The instants before which completed and failed pages go. *)
Definition completedCutoff (now : Z) : Z :=
  let hours := mls_ReplicaPageRetentionHours (cfg_MLS cfg) in
  now - (if (hours <=? 0)%Z then 24 else hours) * hour.
Definition failedCutoff (now : Z) : Z :=
  let days := mls_ReplicaPageFailedRetentionDays (cfg_MLS cfg) in
  add_date now 0 0 (- (if (days <=? 0)%Z then 7 else days)).

Definition delete_pages (dead : page_row → bool) : M World unit :=
  modify (λ w, set_pages (filter (λ kv, dead kv.2 = false) (w_pages w)) w).

Definition completed_before (cutoff : Z) (p : page_row) : bool :=
  bool_decide (pg_status p = PageCompleted) &&
  match pg_processed_at p with Some t => (t <? cutoff)%Z | None => false end.
Definition failed_before (cutoff : Z) (p : page_row) : bool :=
  bool_decide (pg_status p = PageFailed) && (pg_created_at p <? cutoff)%Z.

Definition PurgeEligible : M World unit :=
  let* now := get w_now in
  stmt (delete_pages (completed_before (completedCutoff now))) ;;;
  stmt (delete_pages (failed_before (failedCutoff now))).

Definition is_active (provider dataset : string) (p : page_row) : bool :=
  bool_decide (pg_provider p = provider) && bool_decide (pg_dataset p = dataset) &&
  (bool_decide (pg_status p = PagePending) || bool_decide (pg_status p = PageProcessing)).

Definition active_page (provider dataset : string) (w : World) : bool :=
  existsb (λ kv, is_active provider dataset kv.2) (map_to_list (w_pages w)).

Definition HasActivePage (provider dataset : string) : M World bool :=
  stmt (get (active_page provider dataset)).

(** fetch_guard.go *)
Definition skipReplicationFetchWhenPageActive (provider dataset mode : string) : M World bool :=
  if negb (bool_decide (mode = "replication")) then ret false
  else HasActivePage provider dataset.
End Pages.

(** ** Freshness and kickoff (freshness.go, kickoff.go) *)

Definition ModeCatchUp : string := "catch_up".
Definition ModeSteady : string := "steady".

Section Kickoff.
Context {F : Faults} (cfg : Config).

(** The freshness window: MLS_REPLICATION_FRESHNESS_MINUTES, 15 when not positive. *)
Definition freshnessWindow : Z :=
  let threshold := mls_ReplicationFreshnessMinutes (cfg_MLS cfg) in
  (if (threshold <? 1)%Z then 15 else threshold) * minute.

Definition IsCurrent (dataset provider : string) : M World bool :=
  let* active := HasActivePage provider dataset in
  if active then ret false
  else
    let* c := ForDataset dataset in
    if ReplicationInProgress c then ret false
    else if hasNextURL c then ret false
    else
      let* seeded := (if bool_decide (is_Some (LastSyncFinishedAt c)) then ret true
                      else MirrorSeeded dataset) in
      if negb seeded then ret false
      else match LastModificationTimestamp c, LastSyncFinishedAt c with
           | Some _, Some finished =>
               let* now := get w_now in
               ret (negb (finished <? now - freshnessWindow)%Z)
           | _, _ => ret false
           end.

Definition Mode (dataset provider : string) : M World string :=
  let* current := IsCurrent dataset provider in
  ret (if current then ModeSteady else ModeCatchUp).

Definition shouldPollIncremental (now : Z) (c : SyncCursor) : bool :=
  if ReplicationInProgress c then false
  else if hasNextURL c then false
  else match LastSyncFinishedAt c with
       | None => true
       | Some finished => (freshnessWindow <=? now - finished)%Z
       end.

Definition enqueueFetch (dataset fetchQueue jobType mode : string) : M World unit :=
  Enqueue fetchQueue jobType (Some (marshal (mkFetchArgs dataset mode 0 0))) 0 ;;; ret tt.

Definition tryIncrementalKickoff (provider dataset fetchQueue jobType : string) (cursor : SyncCursor)
    : M World unit :=
  if ReplicationChainActive cursor then ret tt
  else
    let* mode := Mode dataset provider in
    if bool_decide (mode = ModeCatchUp) then ret tt
    else if negb (ShouldRunIncremental cursor) then ret tt
    else
      let* now := get w_now in
      if negb (shouldPollIncremental now cursor) then ret tt
      else enqueueFetch dataset fetchQueue jobType "incremental".

Definition dispatchDataset (provider dataset fetchQueue jobType : string) : M World unit :=
  let* active := HasActivePage provider dataset in
  if active then ret tt
  else
    let* cursor := ForDataset dataset in
    if ReplicationChainActive cursor then ret tt
    else
      let* runRep := ShouldKickoffReplication cursor in
      if runRep then enqueueFetch dataset fetchQueue jobType "replication"
      else tryIncrementalKickoff provider dataset fetchQueue jobType cursor.

Definition dispatchBridge : M World unit :=
  if negb (mls_StellarEnabled (cfg_MLS cfg)) then ret tt
  else for_each (λ ds, dispatchDataset "bridge" ds (br_SyncFetchQueue (cfg_Bridge cfg)) TypeBridgeFetchPage)
         (br_Datasets (cfg_Bridge cfg)).

Definition dispatchSpark : M World unit :=
  if negb (mls_BeachesEnabled (cfg_MLS cfg)) then ret tt
  else if bool_decide (sp_AccessToken (cfg_Spark cfg) = EmptyString) then ret tt
  else for_each (λ ds, dispatchDataset "spark" ds (sp_SyncFetchQueue (cfg_Spark cfg)) TypeSparkFetchPage)
         (sp_Datasets (cfg_Spark cfg)).

Definition KickoffRun : M World unit := dispatchBridge ;;; dispatchSpark.
End Kickoff.

(** ** Rate limit (rate_limit.go)

    [wait] returns the limiter and the instant the caller goes on at, for a caller arriving
    at [now]; the mutex makes the calls sequential. *)

Record syncRateLimiter := mkLimiter { minInterval : Z; lastCall : option Z }.

Definition newSyncRateLimiter (maxPerSecond : Z) : option syncRateLimiter :=
  if (maxPerSecond <=? 0)%Z then None else Some (mkLimiter (Z.quot second maxPerSecond) None).

Definition limiter_wait (r : option syncRateLimiter) (now : Z) : option syncRateLimiter * Z :=
  match r with
  | None => (None, now)
  | Some r =>
      let go := match lastCall r with
                | None => now
                | Some l => let wait := (minInterval r - (now - l))%Z in
                            if (0 <? wait)%Z then (now + wait)%Z else now
                end in
      (Some (mkLimiter (minInterval r) (Some go)), go)
  end.

(** ** OData filters (mirror_window.go, spark_sync.go) *)

Definition activePendingStatusFilter : string :=
  "(StandardStatus eq 'Active' or StandardStatus eq 'Pending')".

Section Window.
Context (cfg : Config).

Definition MirrorRollingCutoff (now : Z) : option Z :=
  let months := mls_LocalMirrorRollingMonths (cfg_MLS cfg) in
  if (months <=? 0)%Z then None else Some (add_date now 0 (- months) 0).

Definition BridgeReplicationFilter : string := activePendingStatusFilter.

Definition bridgeIncrementalTimestampClause (dataset : string) (since : Z) : string :=
  ODataGTFilter (ModificationODataField dataset) since.

Definition BridgeIncrementalFilter (dataset : string) (since : Z) : string :=
  "(" +:+ activePendingStatusFilter +:+ ") and " +:+ bridgeIncrementalTimestampClause dataset since.

(** The layout 2006-01-02T15:04:05Z of a UTC time is RFC 3339's. *)
Definition sparkRollingTimestampLiteral (t : Z) : string := format_rfc3339 t.

Definition replicationStatusFilter (now : Z) (tsFn : Z → string) : string :=
  match MirrorRollingCutoff now with
  | None => activePendingStatusFilter
  | Some cutoff => activePendingStatusFilter +:+ " and ModificationTimestamp gt " +:+ tsFn cutoff
  end.

Definition SparkReplicationFilter (now : Z) : string :=
  replicationStatusFilter now sparkRollingTimestampLiteral.

Definition activePendingReplicationBaseFilter (now : Z) : string :=
  match MirrorRollingCutoff now with
  | None => "StandardStatus eq 'Active' or StandardStatus eq 'Pending'"
  | Some cutoff => "(StandardStatus eq 'Active' or StandardStatus eq 'Pending') and ModificationTimestamp gt "
                   +:+ sparkRollingTimestampLiteral cutoff
  end.
End Window.

(** ** Purging the mirror (purge.go) *)

Section Purge.
Context {F : Faults} (cfg : Config).

(** LOWER(TRIM(COALESCE(standard_status, ''))) *)
Definition sqlStatus (l : listing_row) : string :=
  ToLower (TrimByte (default EmptyString (StandardStatus (l_rec l))) " "%char).

(** The WHERE clause with a rolling window; [cutoff::date] is the UTC day of the cutoff.
    mirror_persisted_at is never NULL, so it is the COALESCE. *)
Definition purge_dead (cutoff : option Z) (l : listing_row) : bool :=
  bool_decide (sqlStatus l = "closed") ||
  match cutoff with
  | None => false
  | Some cutoff =>
      (bool_decide (sqlStatus l ∈ ["active"; "pending"]) && (l_mirror_persisted_at l <? cutoff)%Z) ||
      match CloseDate (l_rec l) with Some d => (d <? midnight cutoff)%Z | None => false end
  end.

Definition PurgeClosedRun : M World unit :=
  let* now := get w_now in
  stmt (modify (λ w, set_listings
    (filter (λ kv, purge_dead (MirrorRollingCutoff cfg now) kv.2 = false) (w_listings w)) w)).
End Purge.

(** ** Promises to the queue

    None of these operations touches a queued job: the worker's guarantees apply to them. *)

Section ClientPromises.
Context {F : Faults} (cfg : Config).

Lemma adds_only_ForDataset ds : adds_only (ForDataset ds).
Proof. apply adds_only_stmt, adds_only_keeps. intros w. by destruct (w_cursors w !! ds). Qed.
#[local] Hint Resolve adds_only_ForDataset : go.

Lemma adds_only_MirrorSeeded ds : adds_only (MirrorSeeded ds).
Proof. unfold MirrorSeeded. adds_tac. Qed.
Lemma adds_only_HasActivePage p ds : adds_only (HasActivePage p ds).
Proof. unfold HasActivePage. adds_tac. Qed.
#[local] Hint Resolve adds_only_MirrorSeeded adds_only_HasActivePage : go.

Lemma adds_only_ApplyPatch ds patch : adds_only (ApplyPatch ds patch).
Proof. unfold ApplyPatch, update_cursor. adds_tac. Qed.
Lemma adds_only_insert_page p : adds_only (insert_page p).
Proof. by apply adds_only_keeps. Qed.
#[local] Hint Resolve adds_only_insert_page : go.
Lemma adds_only_StorePage p ds md rows n meta : adds_only (StorePage p ds md rows n meta).
Proof. unfold StorePage. adds_tac. Qed.
Lemma adds_only_MarkProcessing id b : adds_only (MarkProcessing id b).
Proof. unfold MarkProcessing. adds_tac. Qed.
Lemma adds_only_RowsForChunk id i t : adds_only (RowsForChunk id i t).
Proof. unfold RowsForChunk. adds_tac. Qed.
Lemma adds_only_MarkCompleted id : adds_only (MarkCompleted id).
Proof. unfold MarkCompleted. adds_tac. Qed.
Lemma adds_only_DeletePage id : adds_only (DeletePage id).
Proof. unfold DeletePage. adds_tac. Qed.
Lemma adds_only_PurgeEligible : adds_only (PurgeEligible cfg).
Proof. unfold PurgeEligible, delete_pages. adds_tac. Qed.
Lemma adds_only_skip p ds md : adds_only (skipReplicationFetchWhenPageActive p ds md).
Proof. unfold skipReplicationFetchWhenPageActive. adds_tac. Qed.
Lemma adds_only_PurgeClosed : adds_only (PurgeClosedRun cfg).
Proof. unfold PurgeClosedRun. adds_tac. Qed.

Lemma adds_only_IsCurrent ds p : adds_only (IsCurrent cfg ds p).
Proof. unfold IsCurrent. adds_tac. Qed.
#[local] Hint Resolve adds_only_IsCurrent : go.
Lemma adds_only_enqueueFetch ds q jt md : adds_only (enqueueFetch ds q jt md).
Proof. unfold enqueueFetch. adds_tac. Qed.
#[local] Hint Resolve adds_only_enqueueFetch : go.
Lemma adds_only_tryIncremental p ds q jt c : adds_only (tryIncrementalKickoff cfg p ds q jt c).
Proof. unfold tryIncrementalKickoff, Mode. adds_tac. Qed.
#[local] Hint Resolve adds_only_tryIncremental : go.
Lemma adds_only_dispatchDataset p ds q jt : adds_only (dispatchDataset cfg p ds q jt).
Proof. unfold dispatchDataset, ShouldKickoffReplication. adds_tac. Qed.
#[local] Hint Resolve adds_only_dispatchDataset : go.
Lemma adds_only_KickoffRun : adds_only (KickoffRun cfg).
Proof. unfold KickoffRun, dispatchBridge, dispatchSpark. adds_tac. Qed.
End ClientPromises.
#[export] Hint Resolve adds_only_ForDataset adds_only_MirrorSeeded adds_only_HasActivePage
  adds_only_ApplyPatch adds_only_StorePage adds_only_MarkProcessing adds_only_RowsForChunk
  adds_only_MarkCompleted adds_only_DeletePage adds_only_PurgeEligible adds_only_skip
  adds_only_PurgeClosed adds_only_KickoffRun : go.

(** ** The high-water mark *)

Definition mark_le (a b : option Z) : Prop :=
  match a, b with Some x, Some y => x <= y | Some _, None => False | None, _ => True end.

#[export] Instance mark_le_preorder : PreOrder mark_le.
Proof. split; [intros []; simpl; lia | intros [] [] []; simpl; try done; lia]. Qed.

Lemma mergeCursorPatch_mark c patch now :
  mark_le (LastModificationTimestamp c) (LastModificationTimestamp (mergeCursorPatch c patch now)) ∧
  mark_le (cp_MaxModificationTs patch) (LastModificationTimestamp (mergeCursorPatch c patch now)).
Proof.
  unfold mergeCursorPatch. destruct (cp_MarkSyncFinished patch); simpl;
  destruct (LastModificationTimestamp c) as [t0|], (cp_MaxModificationTs patch) as [t|]; simpl; try lia;
    destruct (Z.ltb_spec t0 t); simpl; lia.
Qed.

Definition mark_of (ds : string) (w : World) : option Z :=
  w_cursors w !! ds ≫= LastModificationTimestamp.

Section CursorLaws.
Context {F : Faults}.

Lemma ForDataset_spec ds w r w' :
  ForDataset ds w = (r, w') →
  match r with
  | Ok c => c = keyed ds (default (freshCursor ds) (w_cursors w !! ds)) ∧
            w_cursors w' = <[ds := default (freshCursor ds) (w_cursors w !! ds)]> (w_cursors w)
  | Err e => w_cursors w' = w_cursors w
  end ∧ w_jobs w' = w_jobs w ∧ w_pages w' = w_pages w ∧ w_listings w' = w_listings w ∧ w_now w' = w_now w.
Proof.
  unfold ForDataset, stmt. destruct (fault _); [by intros [= <- <-]|]. simpl.
  destruct (w_cursors w !! ds) as [c|] eqn:E; intros [= <- <-]; simpl; split_and!; try done.
  by rewrite insert_id.
Qed.

(** C20 The replication high-water mark never moves back: applying any patch, whatever
    statement fails, leaves every dataset's last modification timestamp at least what it was,
    and a patch that was applied leaves it at least the patch's timestamp. *)
Theorem high_water_mark_monotone ds patch w r w' ds' :
  ApplyPatch ds patch w = (r, w') →
  mark_le (mark_of ds' w) (mark_of ds' w') ∧
  (r = Ok tt → mark_le (cp_MaxModificationTs patch) (mark_of ds w')).
Proof.
  unfold ApplyPatch, bind at 1. destruct (ForDataset ds w) as [[c|e] w1] eqn:E;
    apply ForDataset_spec in E as [E _]; unfold mark_of.
  - destruct E as [-> E]. unfold bind, get. unfold stmt. destruct (fault _); simpl.
    + intros [= <- <-]. split; [|done]. simpl. rewrite E.
      destruct (decide (ds = ds')) as [<-|Hne]; [|by rewrite lookup_insert_ne].
      rewrite lookup_insert_eq. destruct (w_cursors w !! ds); done.
    + intros [= <- <-]. simpl. rewrite E.
      pose proof (mergeCursorPatch_mark (keyed ds (default (freshCursor ds) (w_cursors w !! ds))) patch (w_now w1)) as [M1 M2].
      split; [|intros _; rewrite lookup_alter_eq, lookup_insert_eq; simpl; exact M2].
      destruct (decide (ds = ds')) as [<-|Hne]; [|by rewrite lookup_alter_ne, lookup_insert_ne].
      rewrite lookup_alter_eq, lookup_insert_eq. simpl.
      destruct (w_cursors w !! ds); [exact M1 | done].
  - intros [= <- <-]. rewrite E. split; [done|discriminate].
Qed.
End CursorLaws.

(** ** Staged pages *)

Section PageLaws.
Context {F : Faults} {NF : NoFaults}.

Lemma chunkOf_pos size : (0 < chunkOf size)%nat.
Proof. unfold chunkOf. destruct (Z.leb_spec size 0); lia. Qed.

(** The row [StorePage] inserts. *)
Definition staged (provider dataset mode : string) (rows : list text) (size : Z) (meta : ReplicaPageMeta) (now : Z) : page_row :=
  {| pg_provider := provider; pg_dataset := dataset; pg_mode := mode; pg_status := PagePending;
     pg_parts := chunks (chunkOf size) rows; pg_row_count := Z.of_nat (length rows);
     pg_fetch_url := nonempty (FetchURL meta); pg_upstream_url := nonempty (UpstreamURL meta);
     pg_odata := if bool_decide (ODataQuery meta = ∅) then None else Some (ODataQuery meta);
     pg_batch_id := None; pg_created_at := now; pg_processed_at := None |}.

Lemma StorePage_run provider dataset mode rows size meta w :
  Forall (λ r, r ≠ None) rows →
  StorePage provider dataset mode rows size meta w =
    (Ok (w_page_seq w, Z.of_nat (length (chunks (chunkOf size) rows))),
     set_page_seq (w_page_seq w + 1) (set_pages (<[w_page_seq w :=
       staged provider dataset mode rows size meta (w_now w)]> (w_pages w)) (set_ops (S (w_ops w)) w))).
Proof.
  intros Hr. unfold StorePage. destruct (existsb _ rows) eqn:E.
  { apply existsb_exists in E as (r & Hin & Hn%bool_decide_eq_true). rewrite Forall_forall in Hr.
    by destruct (Hr r); [apply list_elem_of_In|]. }
  unfold bind, get, ret. by rewrite stmt_run.
Qed.

(** Chunk job i reads the i-th part of its page. *)
Lemma RowsForChunk_run w id p i total part :
  w_pages w !! id = Some p → pg_parts p !! i = Some part →
  RowsForChunk id (Z.of_nat i + 1) total w = (Ok part, set_ops (S (w_ops w)) w).
Proof.
  intros Hp Hi. unfold RowsForChunk, bind. rewrite stmt_run. simpl. rewrite Hp.
  pose proof (lookup_lt_Some _ _ _ Hi).
  destruct (Z.ltb_spec (Z.of_nat i + 1) 1); [lia|].
  destruct (Z.ltb_spec (Z.of_nat (length (pg_parts p))) (Z.of_nat i + 1)); [lia|].
  simpl. replace (Z.to_nat (Z.of_nat i + 1 - 1)) with i by lia. by rewrite Hi.
Qed.

(** Staging loses and reorders nothing: after [StorePage] the chunk jobs 1..total read
    back consecutive runs of the fetched rows, none empty and none longer than the chunk
    size, which together are the rows of the page. *)
Theorem staged_page_roundtrip provider dataset mode rows size meta w id total w' :
  StorePage provider dataset mode rows size meta w = (Ok (id, total), w') →
  ∃ parts, concat parts = rows ∧ Z.of_nat (length parts) = total ∧
    Forall (λ p, p ≠ [] ∧ (length p <= chunkOf size)%nat) parts ∧
    ∀ i part, parts !! i = Some part →
      (RowsForChunk id (Z.of_nat i + 1) total w').1 = Ok part.
Proof.
  intros H. assert (Hok : Forall (λ r, r ≠ None) rows).
  { apply Forall_forall. intros r Hin ->. revert H. unfold StorePage.
    replace (existsb (λ r, bool_decide (r = None)) rows) with true; [done|].
    symmetry. apply existsb_exists. exists None. split; [by apply list_elem_of_In|done]. }
  rewrite StorePage_run in H by done. injection H as <- <- <-.
  exists (chunks (chunkOf size) rows). split; [by apply chunks_concat, chunkOf_pos|]. split; [done|]. split.
  - pose proof (chunks_nonempty (length rows) (chunkOf size) rows (chunkOf_pos size)) as H1.
    pose proof (chunks_fuel_bound (length rows) (chunkOf size) rows) as H2.
    fold (chunks (chunkOf size) rows) in H1, H2. rewrite Forall_forall in *. auto.
  - intros i part Hi. by erewrite RowsForChunk_run; [|apply lookup_insert_eq|exact Hi].
Qed.
End PageLaws.

(** ** The rate limiter *)

Fixpoint limiter_run (r : option syncRateLimiter) (arrivals : list Z) : list Z :=
  match arrivals with
  | [] => []
  | a :: l => let '(r', go) := limiter_wait r a in go :: limiter_run r' l
  end.

Lemma limiter_run_spaced m l0 arrivals :
  match limiter_run (Some (mkLimiter m (Some l0))) arrivals with
  | [] => True
  | go :: _ => l0 + m <= go
  end.
Proof.
  destruct arrivals as [|a l]; [done|]. simpl.
  destruct (Z.ltb_spec 0 (m - (a - l0))); lia.
Qed.

(** Requests to the upstream are spaced: whatever the arrival times, consecutive callers
    of one limiter go on at least [second / maxPerSecond] apart, and none before it arrived. *)
Theorem limiter_spacing n arrivals i a b :
  0 < n →
  limiter_run (newSyncRateLimiter n) arrivals !! i = Some a →
  limiter_run (newSyncRateLimiter n) arrivals !! S i = Some b →
  a + Z.quot second n <= b ∧ (∀ t, arrivals !! i = Some t → t <= a).
Proof.
  intros Hn. unfold newSyncRateLimiter. destruct (Z.leb_spec n 0); [lia|]. clear Hn H.
  generalize (Z.quot second n). intros m. generalize (@None Z). revert i.
  induction arrivals as [|t l IH]; intros i o; [done|]. cbn [limiter_run limiter_wait lastCall minInterval].
  destruct i as [|i]; simpl.
  - intros [= <-] Hb. split.
    + match type of Hb with limiter_run (Some (mkLimiter m (Some ?g))) l !! 0%nat = _ =>
        pose proof (limiter_run_spaced m g l) as Hs end.
      destruct (limiter_run _ l); [done|]. simpl in Hb. injection Hb as <-. lia.
    + intros t' [= <-]. destruct o as [l0|]; [|lia]. destruct (Z.ltb_spec 0 (m - (t - l0))); lia.
  - intros Ha Hb. by apply (IH i _ Ha Hb).
Qed.

(** ** Kickoff *)

Section KickoffLaws.
Context {F : Faults} (cfg : Config).

Lemma HasActivePage_spec p ds w r w' :
  HasActivePage p ds w = (r, w') →
  (∃ n, w' = set_ops n w) ∧ (∀ b, r = Ok b → b = active_page p ds w).
Proof.
  unfold HasActivePage, stmt. destruct (fault _); intros [= <- <-]; split; eauto; by intros b [= <-].
Qed.

Definition seeded (ds : string) (w : World) : bool :=
  existsb (λ kv, bool_decide (kv.1.1 = ds)) (map_to_list (w_listings w)).

Lemma MirrorSeeded_spec ds w r w' :
  MirrorSeeded ds w = (r, w') →
  (∃ n, w' = set_ops n w) ∧ (∀ b, r = Ok b → b = seeded ds w).
Proof.
  unfold MirrorSeeded, stmt. destruct (fault _); intros [= <- <-]; split; eauto; by intros b [= <-].
Qed.

(** Steady mode: the last cycle finished within the window. *)
Lemma IsCurrent_true ds p w w' :
  IsCurrent cfg ds p w = (Ok true, w') →
  ∃ c f, w_cursors w !! ds = Some c ∧ LastSyncFinishedAt c = Some f ∧
    w_now w - freshnessWindow cfg <= f.
Proof.
  unfold IsCurrent, bind at 1. destruct (HasActivePage p ds w) as [[a|e] w1] eqn:E1; [|done].
  apply HasActivePage_spec in E1 as [[n ->] _]. destruct a; [done|].
  unfold bind at 1. destruct (ForDataset ds _) as [[c|e] w2] eqn:E2; [|done].
  apply ForDataset_spec in E2 as ([Hc _] & _ & _ & _ & Hnow). simpl in Hc, Hnow.
  destruct (ReplicationInProgress c); [done|]. destruct (hasNextURL c); [done|].
  unfold bind at 1.
  destruct ((if bool_decide (is_Some (LastSyncFinishedAt c)) then ret true else MirrorSeeded ds) w2)
    as [[s|e] w3] eqn:E3; [|done].
  assert (Hnow3 : w_now w3 = w_now w2).
  { case_bool_decide; [by injection E3 as _ <-|]. by apply MirrorSeeded_spec in E3 as [[n' ->] _]. }
  destruct s; [|done]. cbn [negb].
  destruct (LastModificationTimestamp c) eqn:El; [|done].
  destruct (LastSyncFinishedAt c) as [f|] eqn:Ef; [|done].
  unfold bind, get, ret. intros [= Hb _]. apply negb_true_iff, Z.ltb_ge in Hb.
  destruct (w_cursors w !! ds) as [c0|]; simpl in Hc; subst c; [|done].
  exists c0, f. split_and!; [done..|]. rewrite Hnow3, Hnow in Hb. done.
Qed.

Lemma IsCurrent_jobs ds p : keeps w_jobs (IsCurrent cfg ds p).
Proof.
  assert (H1 : ∀ p ds, keeps w_jobs (HasActivePage p ds)) by (intros; apply keeps_stmt; [apply _|]; auto with go).
  assert (H2 : ∀ ds, keeps w_jobs (ForDataset ds)).
  { intros d. apply keeps_stmt; [apply _|]. intros w. by destruct (w_cursors w !! d). }
  assert (H3 : ∀ ds, keeps w_jobs (MirrorSeeded ds)) by (intros; apply keeps_stmt; [apply _|]; auto with go).
  unfold IsCurrent. keeps_tac.
Qed.

Lemma IsCurrent_now ds p : keeps w_now (IsCurrent cfg ds p).
Proof.
  assert (H1 : ∀ p ds, keeps w_now (HasActivePage p ds)) by (intros; apply keeps_stmt; [apply _|]; auto with go).
  assert (H2 : ∀ ds, keeps w_now (ForDataset ds)).
  { intros d. apply keeps_stmt; [apply _|]. intros w. by destruct (w_cursors w !! d). }
  assert (H3 : ∀ ds, keeps w_now (MirrorSeeded ds)) by (intros; apply keeps_stmt; [apply _|]; auto with go).
  unfold IsCurrent. keeps_tac.
Qed.

(** An incremental kickoff that adds a job was steady and due at the same clock reading. *)
Lemma tryIncremental_adds provider ds q jt c w r w' :
  tryIncrementalKickoff cfg provider ds q jt c w = (r, w') → w_jobs w' ≠ w_jobs w →
  ∃ c' f', w_cursors w !! ds = Some c' ∧ LastSyncFinishedAt c' = Some f' ∧
    w_now w - freshnessWindow cfg <= f' ∧
    (LastSyncFinishedAt c = None ∨ ∃ f, LastSyncFinishedAt c = Some f ∧ freshnessWindow cfg <= w_now w - f).
Proof.
  intros H Hne. unfold tryIncrementalKickoff, Mode in H.
  destruct (ReplicationChainActive c); [by injection H as <- <-|].
  pose proof (IsCurrent_jobs ds provider w) as Hk. pose proof (IsCurrent_now ds provider w) as Hn.
  unfold bind at 1 2 in H.
  destruct (IsCurrent cfg ds provider w) as [[b|e] w4] eqn:E4; simpl in Hk, Hn.
  2: { by injection H as <- <-. }
  unfold ret at 1 in H. destruct b; cycle 1.
  { rewrite bool_decide_eq_true_2 in H by done. injection H as <- <-. done. }
  destruct (IsCurrent_true _ _ _ _ E4) as (c' & f' & Hc' & Hf' & Hle).
  rewrite bool_decide_eq_false_2 in H by done.
  destruct (ShouldRunIncremental c); [|by injection H as <- <-]. cbn [negb] in H.
  unfold bind at 1, get at 1 in H.
  destruct (shouldPollIncremental cfg (w_now w4) c) eqn:Ep; [|by injection H as <- <-].
  exists c', f'. split_and!; try done. unfold shouldPollIncremental in Ep.
  destruct (ReplicationInProgress c); [done|]. destruct (hasNextURL c); [done|].
  destruct (LastSyncFinishedAt c) as [f|]; [right|by left]. exists f. split; [done|].
  rewrite Hn in Ep. by apply Z.leb_le.
Qed.

(** A running chain is left alone. *)
Lemma dispatchDataset_chain provider ds q jt w :
  ReplicationChainActive (default (freshCursor ds) (w_cursors w !! ds)) = true →
  w_jobs (dispatchDataset cfg provider ds q jt w).2 = w_jobs w.
Proof.
  intros Hc. unfold dispatchDataset, bind at 1.
  destruct (HasActivePage provider ds w) as [[a|e] w1] eqn:E1;
    apply HasActivePage_spec in E1 as [[n ->] _]; [|done]. destruct a; [done|].
  unfold bind at 1. destruct (ForDataset ds _) as [[c|e] w2] eqn:E2;
    apply ForDataset_spec in E2 as (Hk & Hj & _); [|done]. destruct Hk as [-> _].
  change (ReplicationChainActive (keyed ds ?c)) with (ReplicationChainActive c). simpl. by rewrite Hc.
Qed.

(** What a kickoff that adds a job went through. *)
Lemma dispatchDataset_adds provider ds q jt w r w' :
  dispatchDataset cfg provider ds q jt w = (r, w') → w_jobs w' ≠ w_jobs w →
  active_page provider ds w = false ∧
  ReplicationChainActive (default (freshCursor ds) (w_cursors w !! ds)) = false ∧
  (seeded ds w = false ∨
   ∃ c f, w_cursors w !! ds = Some c ∧ LastSyncFinishedAt c = Some f ∧
     w_now w - f = freshnessWindow cfg).
Proof.
  unfold dispatchDataset, bind at 1.
  destruct (HasActivePage provider ds w) as [[a|e] w1] eqn:E1;
    apply HasActivePage_spec in E1 as [[n ->] Ha]; [|by intros [= <- <-]].
  specialize (Ha a eq_refl). destruct a; [by intros [= <- <-]|]. rewrite <- Ha.
  unfold bind at 1. destruct (ForDataset ds _) as [[c|e] w2] eqn:E2;
    apply ForDataset_spec in E2 as (Hc & Hj & _ & Hl & Hnow); simpl in *;
    [|intros [= <- <-]; congruence].
  destruct Hc as [Hc Hcs].
  destruct (ReplicationChainActive c) eqn:Ech; [intros [= <- <-]; congruence|].
  intros H Hne. split; [done|]. split; [by rewrite Hc in Ech|].
  unfold ShouldKickoffReplication in H. rewrite Ech in H. unfold bind at 1 2 in H.
  destruct (MirrorSeeded (cur_DatasetSlug c) w2) as [[s|e] w3] eqn:E3;
    apply MirrorSeeded_spec in E3 as [[n3 ->] Hs]; [|injection H as <- <-; by destruct Hne].
  specialize (Hs s eq_refl). unfold seeded in Hs. rewrite Hl, Hc in Hs. simpl in Hs.
  fold (seeded ds w) in Hs. destruct s; [right|by left]. cbn [negb ret] in H.
  apply tryIncremental_adds in H as (c' & f' & Hc' & Hf' & Hle & Hdue); [|simpl; congruence].
  simpl in Hc', Hle, Hdue. rewrite Hcs, lookup_insert_eq in Hc'. injection Hc' as Hc'.
  rewrite Hc in Hdue. simpl in Hdue. rewrite Hc', Hf' in Hdue.
  destruct Hdue as [?|(f & [= <-] & Hdue)]; [done|]. rewrite Hnow in *.
  destruct (w_cursors w !! ds) as [c0|]; simpl in Hc'; subst c'; [|done].
  exists c0, f'. split_and!; [done..|lia].
Qed.

(** C21 The kickoff never overlaps a running chain: it enqueues a fetch for a dataset only
    when no page of it is pending or processing, replication is not in progress and no next
    URL is stored, whatever statements fail. *)
Theorem kickoff_respects_running_chain provider ds q jt w r w' :
  dispatchDataset cfg provider ds q jt w = (r, w') → w_jobs w' ≠ w_jobs w →
  active_page provider ds w = false ∧
  ReplicationChainActive (default (freshCursor ds) (w_cursors w !! ds)) = false.
Proof. intros H Hne. apply dispatchDataset_adds in H as (H1 & H2 & _); done. Qed.

(** Incremental polling never becomes due: once the mirror of a dataset holds listings,
    the kickoff enqueues a fetch only when the last sync finished exactly one freshness
    window ago. Steady mode wants it finished within the window, the polling rule wants it at
    least a window old, and both use MLS_REPLICATION_FRESHNESS_MINUTES. *)
Theorem kickoff_incremental_only_at_window provider ds q jt w r w' :
  dispatchDataset cfg provider ds q jt w = (r, w') → w_jobs w' ≠ w_jobs w → seeded ds w = true →
  ∃ c f, w_cursors w !! ds = Some c ∧ LastSyncFinishedAt c = Some f ∧
    w_now w - f = freshnessWindow cfg.
Proof.
  intros H Hne Hs. apply dispatchDataset_adds in H as (_ & _ & [H|H]); [congruence|done|done].
Qed.
(** Time passing, the purge of the staging table and kickoffs, in any order. *)
Inductive maintenance := Pass (d : Z) | PurgePages | KickoffAll.

Definition maintain (a : maintenance) (w : World) : World :=
  match a with
  | Pass d => set_now (w_now w + d) w
  | PurgePages => (PurgeEligible cfg w).2
  | KickoffAll => (KickoffRun cfg w).2
  end.

Definition maintenance_run (l : list maintenance) (w : World) : World := foldr maintain w l.

Definition is_active_at (provider ds : string) (w : World) : Prop :=
  ∃ id p, w_pages w !! id = Some p ∧ is_active provider ds p = true.

Lemma active_page_iff provider ds w : active_page provider ds w = true ↔ is_active_at provider ds w.
Proof.
  unfold active_page, is_active_at. rewrite existsb_exists. split.
  - intros ([id p] & Hin & H). exists id, p. split; [|done].
    by apply elem_of_map_to_list, list_elem_of_In.
  - intros (id & p & Hp & H). exists (id, p). split; [|done].
    by apply list_elem_of_In, elem_of_map_to_list.
Qed.

Lemma delete_pages_active dead provider ds w :
  (∀ p, is_active provider ds p = true → dead p = false) →
  is_active_at provider ds w → is_active_at provider ds (stmt (delete_pages dead) w).2.
Proof.
  intros Hd (id & p & Hp & Ha). unfold stmt. destruct (fault _); [by exists id, p|].
  exists id, p. split; [|done]. simpl. apply map_lookup_filter_Some. split; [done|by apply Hd].
Qed.

Lemma is_active_status provider ds p :
  is_active provider ds p = true → pg_status p ≠ PageCompleted ∧ pg_status p ≠ PageFailed.
Proof. unfold is_active. destruct (pg_status p); [done..| |]; rewrite !andb_false_r; done. Qed.

Lemma PurgeEligible_active provider ds w :
  is_active_at provider ds w → is_active_at provider ds (PurgeEligible cfg w).2.
Proof.
  intros Ha. unfold PurgeEligible, bind at 1, get. cbv beta iota.
  assert (H1 := delete_pages_active (completed_before (completedCutoff cfg (w_now w))) provider ds w).
  specialize (H1 ltac:(intros p [? _]%is_active_status; unfold completed_before;
    by rewrite bool_decide_eq_false_2 by done) Ha).
  unfold bind. destruct (stmt _ w) as [[[]|e] w1]; simpl in *; [|done].
  apply delete_pages_active; [|done].
  intros p [_ ?]%is_active_status. unfold failed_before. by rewrite bool_decide_eq_false_2 by done.
Qed.

Lemma KickoffRun_pages : keeps w_pages (KickoffRun cfg).
Proof.
  assert (H1 : ∀ p ds, keeps w_pages (HasActivePage p ds)) by (intros; apply keeps_stmt; [apply _|]; auto with go).
  assert (H2 : ∀ ds, keeps w_pages (ForDataset ds)).
  { intros d. apply keeps_stmt; [apply _|]. intros w. by destruct (w_cursors w !! d). }
  assert (H3 : ∀ ds, keeps w_pages (MirrorSeeded ds)) by (intros; apply keeps_stmt; [apply _|]; auto with go).
  assert (H4 : ∀ q jt a d, keeps w_pages (Enqueue q jt a d)).
  { intros. unfold Enqueue, notify, insert_job. keeps_tac; try (apply keeps_stmt; [apply _|]; intros ?; done). }
  assert (H5 : ∀ ds q jt md, keeps w_pages (enqueueFetch ds q jt md)) by (intros; unfold enqueueFetch; keeps_tac).
  assert (H6 : ∀ p ds q jt, keeps w_pages (dispatchDataset cfg p ds q jt)).
  { intros. unfold dispatchDataset, ShouldKickoffReplication, tryIncrementalKickoff, Mode, IsCurrent. keeps_tac. }
  unfold KickoffRun, dispatchBridge, dispatchSpark. keeps_tac.
Qed.

Lemma maintenance_active provider ds l w :
  is_active_at provider ds w → is_active_at provider ds (maintenance_run l w).
Proof.
  intros H. induction l as [|a l IH]; [done|]. simpl. destruct a as [d| |]; simpl.
  - exact IH.
  - by apply PurgeEligible_active.
  - unfold is_active_at. by rewrite KickoffRun_pages.
Qed.

(** A staged page that is never completed stops its dataset for good: while a page is
    pending or processing, no sequence of kickoffs, staging purges and passing time removes
    it, and no kickoff of the dataset enqueues a fetch, whatever statements fail. The status
    'failed', which the purge would remove after its retention, is never written. *)
Theorem stuck_page_blocks_dataset provider ds l q jt w :
  active_page provider ds w = true →
  let w' := maintenance_run l w in
  active_page provider ds w' = true ∧
  w_jobs (dispatchDataset cfg provider ds q jt w').2 = w_jobs w'.
Proof.
  intros H. assert (Hr : active_page provider ds (maintenance_run l w) = true)
    by (apply active_page_iff, maintenance_active; by apply active_page_iff).
  split; [done|]. unfold dispatchDataset, bind at 1.
  destruct (HasActivePage provider ds _) as [[b|e] w1] eqn:E;
    apply HasActivePage_spec in E as [[n ->] Hb]; [|done].
  by rewrite (Hb b eq_refl), Hr.
Qed.
End KickoffLaws.

(** ** Concrete runs *)

(** A world at second [t] with one dataset's cursor. *)
Definition cursorWorld (t : Z) (ds : string) (c : SyncCursor) : World :=
  set_cursors {[ds := c]} (empty_world (t * second)).

Definition stellarCursor (mark : Z) (finished : option Z) : SyncCursor :=
  mkCursor "stellar" (Some (mark * second)) None None false (fmap (λ f, f * second) finished).

Definition fetchQueue : string := "bridge-sync-fetch".

Theorem high_water_mark_monotone_witness :
  let w := cursorWorld 2000 "stellar" (stellarCursor 1000 None) in
  let patch := mkPatch false None None (Some (1500 * second)) None false in
  let w' := (@ApplyPatch never_fails "stellar" patch w).2 in
  mark_of "stellar" w' = Some (1500 * second) ∧ mark_le (mark_of "stellar" w) (mark_of "stellar" w').
Proof.
  cbv zeta. split; [vm_compute; reflexivity|].
  eapply (@high_water_mark_monotone never_fails "stellar"
    (mkPatch false None None (Some (1500 * second)) None false)
    (cursorWorld 2000 "stellar" (stellarCursor 1000 None)) (Ok tt)).
  vm_compute. reflexivity.
Defined.

Theorem staged_page_roundtrip_witness :
  ∃ parts w', @StorePage never_fails "bridge" "stellar" "replication" [Some JNull; Some (JBool true); Some JNull] 2
      (mkMeta EmptyString EmptyString ∅) (empty_world 0) = (Ok (1, 2), w') ∧
    concat parts = [Some JNull; Some (JBool true); Some JNull] ∧ length parts = 2%nat.
Proof.
  destruct (@staged_page_roundtrip never_fails never_fails_ok "bridge" "stellar" "replication"
    [Some JNull; Some (JBool true); Some JNull] 2 (mkMeta EmptyString EmptyString ∅) (empty_world 0) 1 2
    (@StorePage never_fails "bridge" "stellar" "replication" [Some JNull; Some (JBool true); Some JNull] 2
      (mkMeta EmptyString EmptyString ∅) (empty_world 0)).2) as (parts & Hc & Hl & _).
  - vm_compute. reflexivity.
  - exists parts, (@StorePage never_fails "bridge" "stellar" "replication" [Some JNull; Some (JBool true); Some JNull] 2
      (mkMeta EmptyString EmptyString ∅) (empty_world 0)).2.
    split; [vm_compute; reflexivity|]. split; [exact Hc|lia].
Defined.

Theorem limiter_spacing_witness :
  limiter_run (newSyncRateLimiter 2) [0; 10] = [0; 500000000] ∧ 0 + Z.quot second 2 <= 500000000.
Proof.
  split; [vm_compute; reflexivity|].
  apply (limiter_spacing 2 [0; 10] 0 0 500000000); [lia | vm_compute; reflexivity | vm_compute; reflexivity].
Defined.

Theorem kickoff_respects_running_chain_witness :
  let w := empty_world (1000 * second) in
  w_jobs (@dispatchDataset never_fails defaultConfig "bridge" "stellar" fetchQueue TypeBridgeFetchPage w).2 ≠ w_jobs w ∧
  active_page "bridge" "stellar" w = false.
Proof.
  cbv zeta.
  assert (Hne : w_jobs (@dispatchDataset never_fails defaultConfig "bridge" "stellar" fetchQueue TypeBridgeFetchPage
    (empty_world (1000 * second))).2 ≠ w_jobs (empty_world (1000 * second))).
  { intros H. apply (f_equal (λ m, is_Some (m !! 1%Z))) in H.
    assert (H' : is_Some ((@dispatchDataset never_fails defaultConfig "bridge" "stellar" fetchQueue TypeBridgeFetchPage
      (empty_world (1000 * second))).2.(w_jobs) !! 1%Z)) by (vm_compute; eexists; reflexivity).
    rewrite H in H'. destruct H' as [? H']. discriminate H'. }
  split; [exact Hne|].
  eapply (@kickoff_respects_running_chain never_fails defaultConfig "bridge" "stellar" fetchQueue TypeBridgeFetchPage
    (empty_world (1000 * second)) _ _ (surjective_pairing _) Hne).
Defined.

(** One mirrored listing of the dataset. *)
Definition mirrorRow (slug key : string) : listing_row :=
  mkListingRow 1 (zeroListing slug key) None None None RawNil None false 0 0 0.

Definition dueWorld : World :=
  set_listings {[("stellar", "1") := mirrorRow "stellar" "1"]}
    (cursorWorld 10000 "stellar" (stellarCursor 1000 (Some (10000 - 900)))).

Theorem kickoff_incremental_only_at_window_witness :
  (w_jobs (@dispatchDataset never_fails defaultConfig "bridge" "stellar" fetchQueue TypeBridgeFetchPage dueWorld).2
     ≠ w_jobs dueWorld) ∧
  ∃ c f, w_cursors dueWorld !! "stellar" = Some c ∧ LastSyncFinishedAt c = Some f ∧
    w_now dueWorld - f = freshnessWindow defaultConfig.
Proof.
  assert (Hne : w_jobs (@dispatchDataset never_fails defaultConfig "bridge" "stellar" fetchQueue TypeBridgeFetchPage
    dueWorld).2 ≠ w_jobs dueWorld).
  { intros H. apply (f_equal (λ m, is_Some (m !! 1%Z))) in H.
    assert (H' : is_Some ((@dispatchDataset never_fails defaultConfig "bridge" "stellar" fetchQueue TypeBridgeFetchPage
      dueWorld).2.(w_jobs) !! 1%Z)) by (vm_compute; eexists; reflexivity).
    rewrite H in H'. destruct H' as [? H']. discriminate H'. }
  split; [exact Hne|].
  eapply (@kickoff_incremental_only_at_window never_fails defaultConfig "bridge" "stellar" fetchQueue
    TypeBridgeFetchPage dueWorld _ _ (surjective_pairing _) Hne).
  vm_compute. reflexivity.
Defined.

Definition stuckPage : page_row :=
  mkPage "bridge" "stellar" "replication" PageProcessing [[Some JNull]] 1 None None None (Some "u") 0 None.
Definition stuckWorld : World := set_pages {[7 := stuckPage]} (empty_world (1000 * second)).

Theorem stuck_page_blocks_dataset_witness :
  active_page "bridge" "stellar" stuckWorld = true ∧
  let w' := @maintenance_run never_fails defaultConfig [KickoffAll; PurgePages; Pass (365 * 24 * hour)] stuckWorld in
  w_jobs (@dispatchDataset never_fails defaultConfig "bridge" "stellar" fetchQueue TypeBridgeFetchPage w').2 = w_jobs w'.
Proof.
  split; [vm_compute; reflexivity|].
  apply (@stuck_page_blocks_dataset never_fails defaultConfig "bridge" "stellar"
    [KickoffAll; PurgePages; Pass (365 * 24 * hour)] fetchQueue TypeBridgeFetchPage stuckWorld).
  vm_compute. reflexivity.
Defined.
