(* ===== verification/Upstream.v ===== *)
(** * The MLS servers as the sync sees them: URLs, replies, paging links

    [url.Values] and their encoding, the replies of the HTTP client, and the next-page link
    of [bridge_sync.go]. What a server answers is a parameter, which may depend on the whole
    state, the attempt and the URL. *)

From Stdlib Require Import Ascii String.
From stdpp Require Import gmap strings list pretty.
From S2P Require Import Prelude GoStrings GoTime GoFloat GoJson Database.

Open Scope string_scope.

(** ** url.Values

    The code only uses [Set]: one value per key. *)

Abbreviation Values := (gmap string string).

Definition hex_digit (n : N) : ascii :=
  if (n <? 10)%N then ascii_of_N (48 + n) else ascii_of_N (55 + n).

(** Letters, digits and [-_.~] stay. *)
Definition unreserved (c : ascii) : bool :=
  let n := byte_val c in
  ((65 <=? n) && (n <=? 90))%N || ((97 <=? n) && (n <=? 122))%N || ((48 <=? n) && (n <=? 57))%N ||
  bool_decide (c = "-"%char) || bool_decide (c = "_"%char) || bool_decide (c = "."%char) ||
  bool_decide (c = "~"%char).

Definition escape_byte (c : ascii) : string :=
  if unreserved c then String c EmptyString
  else if bool_decide (c = " "%char) then "+"
  else String "%" (String (hex_digit (byte_val c / 16)) (String (hex_digit (byte_val c mod 16)) EmptyString)).

Fixpoint QueryEscape (s : string) : string :=
  match s with
  | EmptyString => EmptyString
  | String c r => escape_byte c +:+ QueryEscape r
  end.

(** [Values.Encode]: sorted by key. *)
Definition Encode (q : Values) : string :=
  Join ((λ k, QueryEscape k +:+ "=" +:+ QueryEscape (default EmptyString (q !! k))) <$>
        sort_strings (map_to_list q).*1) "&".

(** [fmt.Sprintf("%d", n)] *)
Definition show_int (n : Z) : string := pretty n.

(** The request URL of [fetchPage]: the query is appended with ? or &. *)
Definition requestURL (fetchURL : string) (query : Values) : string :=
  if bool_decide (query = ∅) then fetchURL
  else fetchURL +:+ (if Contains fetchURL "?" then "&" else "?") +:+ Encode query.

(** ** Replies *)

Inductive http_reply :=
| HttpFail (e : string)
| HttpReply (status : Z) (link : string) (body : text).

Class Upstream := http_get : World → nat → string → http_reply.

(** ** The next page *)

Definition re_space (c : ascii) : bool :=
  let n := byte_val c in
  (n =? 9)%N || (n =? 10)%N || (n =? 12)%N || (n =? 13)%N || (n =? 32)%N.

Definition drop_quote (s : string) : string :=
  match s with
  | String c r => if bool_decide (byte_val c = 34%N) || bool_decide (byte_val c = 39%N) then r else s
  | EmptyString => s
  end.

(** ;\s*rel\s*=\s*["']?next["']? at the start of [s]; the last quote is optional. *)
Definition rel_next (s : string) : bool :=
  if HasPrefix s ";" then
    let s := trim_left re_space (drop_bytes 1 s) in
    if HasPrefix s "rel" then
      let s := trim_left re_space (drop_bytes 3 s) in
      if HasPrefix s "=" then
        HasPrefix (drop_quote (trim_left re_space (drop_bytes 1 s))) "next"
      else false
    else false
  else false.

(** The bytes up to the first >, and what follows it. *)
Fixpoint until_gt (s : string) : option (string * string) :=
  match s with
  | EmptyString => None
  | String c r => if bool_decide (c = ">"%char) then Some (EmptyString, r)
                  else '(u, t) ← until_gt r; Some (String c u, t)
  end.

(** [linkNextRE]: the group of the leftmost match. *)
Fixpoint linkNextRE (s : string) : option string :=
  match s with
  | EmptyString => None
  | String c r =>
      let here :=
        if bool_decide (c = "<"%char) then
          match until_gt r with
          | Some (u, t) => if negb (bool_decide (u = EmptyString)) && rel_next t then Some u else None
          | None => None
          end
        else None in
      match here with Some u => Some u | None => linkNextRE r end
  end.

Fixpoint first_match (segments : list string) : option string :=
  match segments with
  | [] => None
  | seg :: r => match linkNextRE (TrimSpace seg) with Some u => Some u | None => first_match r end
  end.

Definition bodyNextLink (body : text) : option string :=
  j ← body;
  next ← with_object j (λ m, dec_string (m !! "@odata.nextLink"));
  if bool_decide (next = EmptyString) then None else Some next.

Definition extractNextURL (linkHeader : string) (body : text) : option string :=
  match (if bool_decide (linkHeader = EmptyString) then None
         else first_match (Split linkHeader ","%char)) with
  | Some u => Some u
  | None => bodyNextLink body
  end.

(** ** Laws *)

(** A next link is never blank: paging by it always has a URL to fetch. *)
Lemma linkNextRE_nonempty s u : linkNextRE s = Some u → u ≠ EmptyString.
Proof.
  induction s as [|c r IH]; [done|]. cbn [linkNextRE].
  destruct (bool_decide (c = "<"%char)); [|exact IH].
  destruct (until_gt r) as [[v t]|]; [|exact IH].
  case_bool_decide; simpl; [exact IH|]. destruct (rel_next t); [by intros [= <-] | exact IH].
Qed.

Lemma first_match_nonempty l u : first_match l = Some u → u ≠ EmptyString.
Proof.
  induction l as [|seg r IH]; simpl; [done|].
  destruct (linkNextRE (TrimSpace seg)) eqn:E; [|exact IH].
  intros [= <-]. by apply linkNextRE_nonempty in E.
Qed.

Lemma bodyNextLink_nonempty body u : bodyNextLink body = Some u → u ≠ EmptyString.
Proof.
  unfold bodyNextLink. destruct body as [j|]; simpl; [|done].
  destruct (with_object _ _) as [n|]; simpl; [|done]. case_bool_decide; [done|]. by intros [= <-].
Qed.

Lemma extractNextURL_nonempty link body u : extractNextURL link body = Some u → u ≠ EmptyString.
Proof.
  unfold extractNextURL. case_match eqn:E.
  - intros [= <-]. case_bool_decide; [done|]. by apply first_match_nonempty in E.
  - apply bodyNextLink_nonempty.
Qed.
