(* ===== verification/GisRepo.v ===== *)
(** * The GIS repository (package [gisrepo])

    The statements on the gis tables: generations, parcels, boundaries, the source catalog.
    The spatial predicates of PostGIS are parameters. *)

From Stdlib Require Import Ascii String.
From stdpp Require Import gmap strings list.
From S2P Require Import Prelude GoStrings GoTime GoFloat GoNum GoJson Payload Config GisData Database.

Open Scope Z_scope.
Open Scope string_scope.

(** What PostGIS decides: whether a GeoJSON document makes a MultiPolygon, whether two
    geometries meet, the area of their intersection, whether one meets an envelope, how one is
    printed; and in which order a scan or an UPDATE visits its rows. *)
Class PostGIS := {
  st_valid : json → bool;
  st_intersects : json → json → bool;
  st_area : json → json → float64;
  st_in_envelope : BBox → json → bool;
  st_asgeojson : json → json;
  scan_order : ∀ A, list A → list A;
  scan_order_perm : ∀ A (l : list A), scan_order A l ≡ₚ l;
  update_order : gmap Z CityRow → list Z;
  update_order_perm : ∀ m, update_order m ≡ₚ (map_to_list m).*1;
}.

(** ** Column constraints *)

(** NUMERIC(p,s): the value rounded to s digits keeps below 10^(p-s). *)
Definition numeric_ok (limit : string) (o : option float64) : bool :=
  match o with Some x => f_lt (f_abs x) (lit limit) | None => true end.
Definition int4_ok (n : Z) : bool := (- 2 ^ 31 <=? n)%Z && (n <? 2 ^ 31)%Z.

(** county ~ '^[a-z0-9-]+$' *)
Fixpoint slug_bytes (s : string) : bool :=
  match s with
  | EmptyString => true
  | String c r => let n := byte_val c in
                  (((97 <=? n) && (n <=? 122))%N || ((48 <=? n) && (n <=? 57))%N || (n =? 45)%N) && slug_bytes r
  end.
Definition slug_ok (s : string) : bool := negb (bool_decide (s = EmptyString)) && slug_bytes s.

Section Repository.
Context {F : Faults} {PG : PostGIS}.

Definition on_gis (f : GisTables → GisTables) : M World unit := modify (λ w, set_gis (f (w_gis w)) w).

(** ** Source generations ([parcels.go]) *)

Definition SourceGeneration (key : string) : M World Z :=
  stmt (λ w, match gt_states (w_gis w) !! key with
             | Some s => (Ok (ss_generation s), w)
             | None => (Err "no rows in result set", w)
             end).

Definition EnsureSourceState (key : string) : M World unit :=
  stmt (on_gis (λ g, match gt_states g !! key with
                     | Some _ => g
                     | None => set_states (<[key := mkSourceState None 0 None None]> (gt_states g)) g
                     end)).

(** UPDATE ... RETURNING generation *)
Definition BumpSourceGeneration (key : string) : M World Z :=
  stmt (λ w, let g := w_gis w in
    match gt_states g !! key with
    | Some s =>
        let n := (ss_generation s + 1)%Z in
        (Ok n, set_gis (set_states (<[key := mkSourceState (ss_fingerprint s) n (ss_last_checked_at s)
                                               (Some (w_now w))]> (gt_states g)) g) w)
    | None => (Err "no rows in result set", w)
    end).

(** No caller of the program uses it. *)
Definition SetSourceGeneration (key : string) (gen : Z) (fingerprint : string) : M World unit :=
  stmt (λ w,
    if char_fits 128 fingerprint
    then on_gis (λ g, set_states (alter (λ s, mkSourceState (Some fingerprint) gen (Some (w_now w)) (Some (w_now w))) key (gt_states g)) g) w
    else (Err "value too long for type character varying", w)).

(** ** Parcels *)

Definition parcel_key (r : ParcelRow) : string * string := (pr_ParcelID r, pr_SourceKey r).

Definition parcel_accepted (r : ParcelRow) : bool :=
  slug_ok (pr_County r) && st_valid (pr_Geometry r) &&
  numeric_ok "9999999999999.995" (pr_JustValue r) && numeric_ok "9999999999999.995" (pr_AssessedValue r) &&
  numeric_ok "9999999999999.995" (pr_LandValue r) && numeric_ok "9999999999.995" (pr_LivingAreaSqft r) &&
  match pr_YearBuilt r with Some y => int4_ok y | None => true end &&
  numeric_ok "99999999.99995" (pr_Acres r) && numeric_ok "9999999999999.995" (pr_LastSalePrice r) &&
  int4_ok (pr_SourceGeneration r).

(** [last_synced_at = NOW()] of the rows with these keys. *)
Definition stamp {K} `{Countable K} (now : Z) (ks : list K) (m : gmap K Z) : gmap K Z := foldr (λ k, <[k := now]>) m ks.
Definition stamp_parcels (now : Z) (rows : list ParcelRow) (s : SyncTimes) : SyncTimes :=
  mkSynced (stamp now (parcel_key <$> rows) (sy_parcels s)) (sy_cities s) (sy_counties s) (sy_zips s).
Definition stamp_cities (now : Z) (ids : list Z) (s : SyncTimes) : SyncTimes :=
  mkSynced (sy_parcels s) (stamp now ids (sy_cities s)) (sy_counties s) (sy_zips s).
Definition stamp_counties (now : Z) (rows : list CountyRow) (s : SyncTimes) : SyncTimes :=
  mkSynced (sy_parcels s) (sy_cities s) (stamp now (co_CountySlug <$> rows) (sy_counties s)) (sy_zips s).
Definition stamp_zips (now : Z) (rows : list ZipRow) (s : SyncTimes) : SyncTimes :=
  mkSynced (sy_parcels s) (sy_cities s) (sy_counties s) (stamp now (zi_ZipCode <$> rows) (sy_zips s)).

Definition put_parcel (t : gmap (string * string) ParcelRow) (r : ParcelRow) : gmap (string * string) ParcelRow :=
  <[parcel_key r := r]> t.

(** One INSERT ... ON CONFLICT DO UPDATE: a key named twice is an error, as a row that a
    column refuses is. *)
Definition upsertParcelBatch (rows : list ParcelRow) : M World unit :=
  stmt (λ w,
    if negb (bool_decide (NoDup (parcel_key <$> rows)))
    then (Err "ON CONFLICT DO UPDATE command cannot affect row a second time", w)
    else if negb (forallb parcel_accepted rows) then (Err "parcel row refused", w)
    else on_gis (λ g, set_synced (stamp_parcels (w_now w) rows (gt_synced g)) (set_parcels (foldl put_parcel (gt_parcels g) rows) g)) w).

Definition BulkUpsertParcels (rows : list ParcelRow) (chunkSize : Z) : M World unit :=
  let chunkSize := if (chunkSize <=? 0)%Z then 500 else chunkSize in
  for_each upsertParcelBatch (chunks (Z.to_nat chunkSize) rows).

(** The rows of a source, and of a county when one is named, from before a generation. *)
Definition stale_parcel (sourceKey county : string) (currentGen : Z) (r : ParcelRow) : bool :=
  bool_decide (pr_SourceKey r = sourceKey) && (pr_SourceGeneration r <? currentGen)%Z &&
  (bool_decide (county = EmptyString) || bool_decide (pr_County r = county)).

Definition DeleteStaleParcels (sourceKey county : string) (currentGen : Z) : M World Z :=
  stmt (λ w, let g := w_gis w in
    let dead := filter (λ kv, stale_parcel sourceKey county currentGen kv.2 = true) (gt_parcels g) in
    (Ok (Z.of_nat (size dead)),
     set_gis (set_parcels (filter (λ kv, stale_parcel sourceKey county currentGen kv.2 = false) (gt_parcels g)) g) w)).

(** [CountParcels(ctx, "")] *)
Definition CountParcels : M World Z := stmt (get (λ w, Z.of_nat (size (gt_parcels (w_gis w))))).

(** ** The source catalog ([parcel_sources.go]) *)

Definition source_accepted (r : ParcelSourceRow) : bool :=
  slug_ok (sr_CountySlug r) && bool_decide (sr_SyncMode r ∈ ["bbox"; "paginate"; "where_filter"; "shapefile"]) &&
  ((-32768 <=? sr_Priority r) && (sr_Priority r <=? 32767))%Z.

Definition upsertParcelSource (r : ParcelSourceRow) : M World unit :=
  stmt (λ w,
    if source_accepted r
    then on_gis (λ g, set_sources (<[sr_SourceKey r := (r, gt_sources g !! sr_SourceKey r ≫= snd)]> (gt_sources g)) g) w
    else (Err "parcel source refused", w)).

Definition EnsureParcelSourceCatalog (specs : list ParcelSourceRow) : M World unit :=
  for_each upsertParcelSource specs.

Definition TouchParcelSourceSynced (key : string) : M World unit :=
  stmt (λ w, on_gis (λ g, set_sources (alter (λ p, (p.1, Some (w_now w))) key (gt_sources g)) g) w).

(** ** Boundaries ([boundaries.go]) *)

(** Batches of 100. *)
Definition in_batches {A} (one : list A → M World unit) (rows : list A) : M World unit :=
  for_each one (chunks 100 rows).

Definition orFDOT (sk : string) : string := if bool_decide (sk = EmptyString) then FDOTAdminBoundariesKey else sk.

Definition city_row (r : CityRow) : CityRow :=
  mkCityRow (ci_CityName r) (ci_County r) (orFDOT (ci_SourceKey r)) (ci_Geometry r) (ci_Properties r)
    (ci_SourceGeneration r) (ci_SourceFingerprint r).

(** The unique (city_name, county): rows without a county never conflict. *)
Definition same_city (a b : CityRow) : bool :=
  bool_decide (ci_CityName a = ci_CityName b) && bool_decide (is_Some (ci_County a)) &&
  bool_decide (ci_County a = ci_County b).

Definition conflicting (r : CityRow) (cities : gmap Z CityRow) : option Z :=
  head (filter (λ kv, same_city r kv.2 = true) (map_to_list cities)).*1.

(** INSERT ... ON CONFLICT (city_name, county) DO UPDATE of one row. *)
Definition put_city (r : CityRow) (t : gmap Z CityRow * Z) : gmap Z CityRow * Z :=
  match conflicting r t.1 with
  | Some id => (<[id := r]> t.1, t.2)
  | None => (<[t.2 := r]> t.1, (t.2 + 1)%Z)
  end.

(** The ids of the rows a statement writes. *)
Fixpoint city_ids (rows : list CityRow) (t : gmap Z CityRow * Z) : list Z :=
  match rows with
  | [] => []
  | r :: rest => default t.2 (conflicting r t.1) :: city_ids rest (put_city r t)
  end.

(** A key that two rows of the statement share. *)
Fixpoint named_twice {A} (same : A → A → bool) (rows : list A) : bool :=
  match rows with
  | [] => false
  | r :: rest => existsb (same r) rest || named_twice same rest
  end.

Definition upsertCityBatch (rows : list CityRow) : M World unit :=
  let rows := city_row <$> rows in
  stmt (λ w,
    if named_twice same_city rows
    then (Err "ON CONFLICT DO UPDATE command cannot affect row a second time", w)
    else if negb (forallb (λ r, st_valid (ci_Geometry r) && int4_ok (ci_SourceGeneration r)) rows)
    then (Err "city row refused", w)
    else on_gis (λ g, let t := foldl (λ t r, put_city r t) (gt_cities g, gt_city_seq g) rows in
                      set_synced (stamp_cities (w_now w) (city_ids rows (gt_cities g, gt_city_seq g)) (gt_synced g)) (set_cities t.1 t.2 g)) w).

Definition BulkUpsertCities : list CityRow → M World unit := in_batches upsertCityBatch.

Definition county_row (r : CountyRow) : CountyRow :=
  mkCountyRow (co_CountyName r)
    (if bool_decide (co_CountySlug r = EmptyString) then co_CountyName r else co_CountySlug r)
    (co_FIPSCode r) (co_MLSStellar r) (co_MLSBeaches r) (orFDOT (co_SourceKey r)) (co_Geometry r)
    (co_Properties r) (co_SourceGeneration r) (co_SourceFingerprint r).

Definition put_county (t : gmap string CountyRow) (r : CountyRow) : gmap string CountyRow :=
  <[co_CountySlug r := r]> t.

(** The unique fips_code. *)
Definition fips_unique (t : gmap string CountyRow) : bool :=
  bool_decide (NoDup (omap co_FIPSCode (map_to_list t).*2)).

Definition upsertCountyBatch (rows : list CountyRow) : M World unit :=
  let rows := county_row <$> rows in
  stmt (λ w,
    let t := foldl put_county (gt_counties (w_gis w)) rows in
    if negb (bool_decide (NoDup (co_CountySlug <$> rows)))
    then (Err "ON CONFLICT DO UPDATE command cannot affect row a second time", w)
    else if negb (forallb (λ r, st_valid (co_Geometry r) && int4_ok (co_SourceGeneration r)) rows)
    then (Err "county row refused", w)
    else if negb (fips_unique t) then (Err "duplicate key value violates unique constraint", w)
    else on_gis (λ g, set_synced (stamp_counties (w_now w) rows (gt_synced g)) (set_counties t g)) w).

Definition BulkUpsertCounties : list CountyRow → M World unit := in_batches upsertCountyBatch.

Definition zip_row (r : ZipRow) : ZipRow :=
  mkZipRow (zi_ZipCode r) (orFDOT (zi_SourceKey r)) (zi_Geometry r) (zi_Properties r)
    (zi_SourceGeneration r) (zi_SourceFingerprint r).

Definition put_zip (t : gmap string ZipRow) (r : ZipRow) : gmap string ZipRow := <[zi_ZipCode r := r]> t.

Definition upsertZipBatch (rows : list ZipRow) : M World unit :=
  let rows := zip_row <$> rows in
  stmt (λ w,
    if negb (bool_decide (NoDup (zi_ZipCode <$> rows)))
    then (Err "ON CONFLICT DO UPDATE command cannot affect row a second time", w)
    else if negb (forallb (λ r, st_valid (zi_Geometry r) && int4_ok (zi_SourceGeneration r)) rows)
    then (Err "zip row refused", w)
    else on_gis (λ g, set_synced (stamp_zips (w_now w) rows (gt_synced g)) (set_zips (foldl put_zip (gt_zips g) rows) g)) w).

Definition BulkUpsertZips : list ZipRow → M World unit := in_batches upsertZipBatch.

(** [deleteStale] on the three tables. *)
Definition superseded (key : string) (gen : Z) (sourceKey : string) (g : Z) : bool :=
  bool_decide (sourceKey = key) && (g <? gen)%Z.

Definition DeleteStaleCities (key : string) (gen : Z) : M World unit :=
  stmt (on_gis (λ g, set_cities (filter (λ kv, superseded key gen (ci_SourceKey kv.2) (ci_SourceGeneration kv.2) = false)
                                  (gt_cities g)) (gt_city_seq g) g)).
Definition DeleteStaleCounties (key : string) (gen : Z) : M World unit :=
  stmt (on_gis (λ g, set_counties (filter (λ kv, superseded key gen (co_SourceKey kv.2) (co_SourceGeneration kv.2) = false)
                                    (gt_counties g)) g)).
Definition DeleteStaleZips (key : string) (gen : Z) : M World unit :=
  stmt (on_gis (λ g, set_zips (filter (λ kv, superseded key gen (zi_SourceKey kv.2) (zi_SourceGeneration kv.2) = false)
                                (gt_zips g)) g)).

Definition CountBoundaries : M World (Z * Z * Z) :=
  let* cities := stmt (get (λ w, Z.of_nat (size (gt_cities (w_gis w))))) in
  let* counties := stmt (get (λ w, Z.of_nat (size (gt_counties (w_gis w))))) in
  let* zips := stmt (get (λ w, Z.of_nat (size (gt_zips (w_gis w))))) in
  ret (cities, counties, zips).

Definition CountCitiesMissingCounty : M World Z :=
  stmt (get (λ w, Z.of_nat (size (filter (λ kv, ci_County kv.2 = None) (gt_cities (w_gis w)))))).

(** ROW_NUMBER() ... ORDER BY area DESC, the first: the county of largest intersection among
    those the join keeps; the first listed of equals. *)
Definition larger (city : json) (best : option CountyRow) (co : CountyRow) : option CountyRow :=
  match best with
  | None => Some co
  | Some b => if f_lt (st_area city (co_Geometry b)) (st_area city (co_Geometry co)) then Some co else best
  end.

Definition ranked (joins : CityRow → CountyRow → bool) (counties : gmap string CountyRow) (c : CityRow)
    : option CountyRow :=
  foldl (larger (ci_Geometry c)) None
    (filter (λ co, (st_intersects (ci_Geometry c) (co_Geometry co) && joins c co) = true) (map_to_list counties).*2).

Definition with_county (slug : string) (c : CityRow) : CityRow :=
  mkCityRow (ci_CityName c) (Some slug) (ci_SourceKey c) (ci_Geometry c) (ci_Properties c)
    (ci_SourceGeneration c) (ci_SourceFingerprint c).

(** UPDATE gis_cities SET county = ...: row by row, each checked against the unique
    constraint; a violation undoes the statement. *)
Fixpoint assign_counties (pick : CityRow → option CountyRow) (ids : list Z) (cities : gmap Z CityRow) (n : Z)
    : option (gmap Z CityRow * Z) :=
  match ids with
  | [] => Some (cities, n)
  | id :: r =>
      match cities !! id ≫= (λ c, (c,.) <$> pick c) with
      | None => assign_counties pick r cities n
      | Some (c, co) =>
          let c' := with_county (co_CountySlug co) c in
          if bool_decide (is_Some (conflicting c' (delete id cities))) then None
          else assign_counties pick r (<[id := c']> cities) (n + 1)
      end
  end.

Definition backfill (joins : CityRow → CountyRow → bool) : M World Z :=
  stmt (λ w, let g := w_gis w in
    match assign_counties (ranked joins (gt_counties g)) (update_order (gt_cities g)) (gt_cities g) 0 with
    | Some (cities, n) => (Ok n, set_gis (set_cities cities (gt_city_seq g) g) w)
    | None => (Err "duplicate key value violates unique constraint", w)
    end).

Definition BackfillMissingCityCounties : M World Z :=
  backfill (λ c co, bool_decide (ci_County c = None) && (ci_SourceGeneration c =? co_SourceGeneration co)%Z).

Definition BackfillCityCounties (generation : Z) : M World Z :=
  backfill (λ c co, (ci_SourceGeneration c =? generation)%Z && (co_SourceGeneration co =? generation)%Z).

(** [IsPersistentEmpty] *)
Definition IsPersistentEmpty : M World bool :=
  let* parcels := CountParcels in
  let* b := CountBoundaries in
  let '(cities, counties, zips) := b in
  ret ((parcels =? 0) && (cities =? 0) && (counties =? 0) && (zips =? 0))%Z.

(** ** Layer counts ([layer_counts.go]) *)

Record LayerCounts := mkCounts { lc_Parcels : Z; lc_Cities : Z; lc_Counties : Z; lc_Zips : Z }.

Definition AllEmpty (c : LayerCounts) : bool :=
  ((lc_Parcels c =? 0) && (lc_Cities c =? 0) && (lc_Counties c =? 0) && (lc_Zips c =? 0))%Z.
Definition NeedsBootstrap (c : LayerCounts) : bool :=
  ((lc_Parcels c =? 0) || (lc_Cities c =? 0) || (lc_Counties c =? 0) || (lc_Zips c =? 0))%Z.

Definition LoadLayerCounts : M World LayerCounts :=
  let* parcels := CountParcels in
  let* b := CountBoundaries in
  let '(cities, counties, zips) := b in
  ret (mkCounts parcels cities counties zips).

(** ** Active parcel jobs ([queue.go]) *)

(** doc->>key = value *)
Definition has_text (m : row) (key value : string) : bool :=
  match m !! key with Some (JStr s) => bool_decide (s = value) | _ => false end.

(** A queued page job of the source that is pending or reserved within two hours. *)
Definition is_parcel_job (queueName sourceKey : string) (now : Z) (j : job_row) : bool :=
  bool_decide (j_queue j = queueName) &&
  match j_payload j with
  | Some (JObj m) =>
      has_text m "type" "gis.parcel_sync_page" &&
      match m !! "args" with
      | Some (JObj a) => has_text a "source_key" sourceKey
      | _ => false
      end
  | _ => false
  end &&
  match j_reserved_at j with
  | None => true
  | Some t => (unix now - 7200 <? t)%Z
  end.

Definition parcel_job_active (queueName sourceKey : string) (w : World) : bool :=
  existsb (λ kv, is_parcel_job queueName sourceKey (w_now w) kv.2) (map_to_list (w_jobs w)).

(** A payload of the queue that is not JSON makes the cast, and so the query, fail. *)
Definition HasActiveParcelSyncJob (queueName sourceKey : string) : M World bool :=
  if bool_decide (queueName = EmptyString) || bool_decide (sourceKey = EmptyString) then ret false
  else stmt (λ w,
    if existsb (λ kv, bool_decide (j_queue kv.2 = queueName) && bool_decide (j_payload kv.2 = None)) (map_to_list (w_jobs w))
    then (Err "invalid input syntax for type json", w)
    else (Ok (parcel_job_active queueName sourceKey w), w)).
End Repository.

(** A geometry engine for concrete runs: every geometry is valid, joins every other and has no area. *)
Definition samplePostGIS : PostGIS.
Proof.
  refine {| st_valid := λ _, true; st_intersects := λ _ _, true; st_area := λ _ _, f_zero;
            st_in_envelope := λ _ _, true; st_asgeojson := λ g, g; scan_order := λ _ l, l; update_order := λ m, (map_to_list m).*1 |}.
  all: done.
Defined.
