(* ===== verification/GisFetch.v ===== *)
(** * The ArcGIS client and field extraction (package [gis], [arcgis_client.go],
    [field_extract.go])

    One page request and what is read from its features. What a server answers is a
    parameter of the state and the URL. *)

From Stdlib Require Import Ascii String.
From stdpp Require Import gmap strings list.
From S2P Require Import Prelude GoStrings GoTime GoFloat GoNum GoJson Payload Config GisData Database Upstream.

Open Scope Z_scope.
Open Scope string_scope.

(** ** Requests *)

(** The HTTP client fails, or gives a status and the body ([AgUnread]: it cannot be read;
    [RawNil]: it is empty). *)
Inductive arcgis_reply :=
| AgFail (e : string)
| AgUnread (status : Z)
| AgBody (status : Z) (body : RawMessage).

(** The document of a body, when there is one. *)
Definition text_of (body : RawMessage) : text := match body with RawNil => None | RawText t => t end.

Class ArcGIS := arcgis_get : World → string → arcgis_reply.

(** The text before the first byte [c], and the rest from it on. *)
Fixpoint cut_at (c : ascii) (s : string) : string * string :=
  match s with
  | EmptyString => (EmptyString, EmptyString)
  | String d r => if bool_decide (d = c) then (EmptyString, s)
                  else let '(a, b) := cut_at c r in (String d a, b)
  end.

(** [u.RawQuery = q; u.String()] of a URL that parses: the fragment stays at the end. *)
Definition with_raw_query (u q : string) : string :=
  let '(u, fragment) := cut_at "#"%char u in
  (cut_at "?"%char u).1 +:+ "?" +:+ q +:+ fragment.

(** [BBox.EsriEnvelope] *)
Definition EsriEnvelope (b : BBox) : string :=
  FormatFixed 6 (West b) +:+ "," +:+ FormatFixed 6 (South b) +:+ "," +:+
  FormatFixed 6 (East b) +:+ "," +:+ FormatFixed 6 (North b).

Definition baseQueryParams (format : string) : Values :=
  <["f" := if bool_decide (format = FormatJSON) then "json" else "geojson"]>
    (<["outFields" := "*"]> {["returnGeometry" := "true"]}).

Definition whereOr (w : string) : string := if bool_decide (w = EmptyString) then "1=1" else w.

Definition pageQuery (offset pageSize : Z) (q : Values) : Values :=
  <["resultRecordCount" := show_int pageSize]> (<["resultOffset" := show_int offset]>
    (<["outSR" := "4326"]> q)).

Definition parcelQuery (spec : ParcelSourceSpec) (bbox : BBox) (offset pageSize : Z) : Values :=
  let q := baseQueryParams (sp_ResponseFormat spec) in
  pageQuery offset pageSize
    (if bool_decide (sp_SyncMode spec = SyncModePaginate) then <["where" := whereOr (sp_ArcGISWhere spec)]> q
     else
       let q := <["spatialRel" := "esriSpatialRelIntersects"]> (<["inSR" := "4326"]>
                  (<["geometryType" := "esriGeometryEnvelope"]> (<["geometry" := EsriEnvelope bbox]> q))) in
       if bool_decide (sp_ArcGISWhere spec = EmptyString) then q else <["where" := sp_ArcGISWhere spec]> q).

(** [arcGISResponseError]: the message of an error object in the body. *)
Definition arcGISResponseError (body : text) : option string :=
  match body with
  | Some (JObj doc) =>
      match doc !! "error" with
      | Some (JObj e) =>
          let msg := match e !! "message" with
                     | Some (JStr s) => if bool_decide (s = EmptyString) then "arcgis query failed" else s
                     | _ => "arcgis query failed"
                     end in
          let msg := match e !! "details" with
                     | Some (JArr (JStr d :: _)) => if bool_decide (d = EmptyString) then msg else d
                     | _ => msg
                     end in
          Some ("arcgis error: " +:+ msg)
      | _ => None
      end
  | _ => None
  end.

Definition effectivePageSize (clientPageSize pageSize : Z) : Z :=
  if (pageSize <=? 0)%Z then clientPageSize else pageSize.

(** [NewArcGISClient]: the page size of the client. *)
Definition clientPageSize (cfg : GISConfig) : Z :=
  if (gis_SyncPageSize cfg <=? 0)%Z then 2000 else gis_SyncPageSize cfg.

Section Client.
Context {AG : ArcGIS} (cfg : GISConfig).

(** [ArcGISClient.get] *)
Definition ag_get (w : World) (url : string) : res RawMessage :=
  match arcgis_get w url with
  | AgFail e => Err e
  | AgUnread status => if (400 <=? status)%Z then Err "arcgis status" else Err "unexpected EOF"
  | AgBody status body =>
      if (400 <=? status)%Z then Err "arcgis status"
      else match arcGISResponseError (text_of body) with
           | Some e => Err e
           | None => Ok body
           end
  end.

Definition FetchParcelPage (w : World) (spec : ParcelSourceSpec) (bbox : BBox) (offset pageSize : Z) : res RawMessage :=
  let pageSize := effectivePageSize (clientPageSize cfg) pageSize in
  ag_get w (with_raw_query (sp_QueryURL spec) (Encode (parcelQuery spec bbox offset pageSize))).

(** [FetchBBoxPage], for the live proxy. *)
Definition FetchBBoxPage (w : World) (src : Source) (bbox : BBox) (offset pageSize : Z) : res RawMessage :=
  FetchParcelPage w {|
    sp_SourceKey := EmptyString; sp_CountySlug := EmptyString; sp_QueryURL := so_QueryURL src;
    sp_SyncMode := SyncModeBBox;
    sp_ArcGISWhere := if bool_decide (so_CountyCO src = EmptyString) then so_Where src
                      else "CO_NO=" +:+ so_CountyCO src;
    sp_SyncBBox := zeroBBox; sp_ResponseFormat := FormatGeoJSON; sp_MLSFeed := EmptyString;
    sp_Enabled := false; sp_Priority := 0; sp_HTTPTimeoutSec := 0; sp_ParcelIDFields := [];
    sp_Notes := EmptyString |} bbox offset pageSize.

Definition FetchLayerPage (w : World) (endpoint whereClause : string) (offset pageSize : Z) : res RawMessage :=
  let pageSize := effectivePageSize (clientPageSize cfg) pageSize in
  ag_get w (with_raw_query endpoint
    (Encode (pageQuery offset pageSize (<["where" := whereOr whereClause]> (baseQueryParams FormatGeoJSON))))).
End Client.

(** ** Pages *)

Record ArcGISFeature := mkFeature { ft_Geometry : json; ft_Properties : row }.
Record ArcGISPageResult := mkAgPage { ag_Features : list ArcGISFeature; ag_ExceededTransferLimit : bool }.

Definition boolField (doc : row) (key : string) : bool :=
  match doc !! key with Some (JBool b) => b | _ => false end.

(** The properties, else the attributes, else none. *)
Definition featureProperties (feat : row) : row :=
  match feat !! "properties" with
  | Some (JObj p) => p
  | _ => match feat !! "attributes" with Some (JObj p) => p | _ => ∅ end
  end.

Definition parseFeature (rf : json) : option ArcGISFeature :=
  match rf with
  | JObj feat => Some (mkFeature (at_key feat "geometry") (featureProperties feat))
  | _ => None
  end.

(** A body that is null decodes to a nil map: no features. *)
Definition ParseFeatureCollection (body : RawMessage) : res ArcGISPageResult :=
  match text_of body with
  | Some (JObj doc) =>
      Ok (mkAgPage (match doc !! "features" with Some (JArr l) => omap parseFeature l | _ => [] end)
            (boolField doc "exceededTransferLimit"))
  | Some JNull => Ok (mkAgPage [] false)
  | _ => Err "json"
  end.

(** ** Fields *)

(** [json.Marshal] of a decoded array or object, as text: a parameter. *)
Class GoJsonText := json_text : json → string.

Section Extract.
Context {FT : GoFloatText} {JT : GoJsonText}.

Definition fmtAny (v : json) : string :=
  match v with
  | JStr s => s
  | JNum n => let t := num_float n in
              if f_eq t (f_of_Z (f_to_int64 t)) then FormatInt (f_to_int64 t) else FormatFloat t
  | JBool b => if b then "true" else "false"
  | JNull => "null"
  | _ => TrimByte (json_text v) (ascii_of_nat 34)
  end.

Fixpoint firstString (props : row) (keys : list string) : string :=
  match keys with
  | [] => EmptyString
  | k :: r =>
      match props !! k with
      | None | Some JNull => firstString props r
      | Some v => let s := TrimSpace (fmtAny v) in
                  if bool_decide (s = EmptyString) then firstString props r else s
      end
  end.

Fixpoint firstFloat (props : row) (keys : list string) : float64 :=
  match keys with
  | [] => f_zero
  | k :: r =>
      match props !! k with
      | Some (JNum n) => num_float n
      | Some (JStr s) => match ParseFloat (TrimSpace s) with
                         | Some f => f
                         | None => firstFloat props r
                         end
      | _ => firstFloat props r
      end
  end.

Definition firstInt (props : row) (keys : list string) : Z :=
  let f := firstFloat props keys in
  if f_eq f f_zero then 0 else f_to_int64 f.

Definition strPtr (s : string) : option string := if bool_decide (s = EmptyString) then None else Some s.
Definition floatPtr (v : float64) : option float64 := if f_eq v f_zero then None else Some v.
Definition intPtr (v : Z) : option Z := if (v =? 0)%Z then None else Some v.

Definition CONOFromProperties (props : row) : option Z :=
  let v := firstFloat props ["CO_NO"] in
  if f_eq v f_zero then None else Some (f_to_int64 v).

(** [parseArcGISDate]: milliseconds or one of four layouts; the instant in nanoseconds. *)
Definition parseArcGISDate (s : string) : option Z :=
  let s := TrimSpace s in
  match Atoi s with
  | Some ms => Some (ms * 1000000)%Z
  | None => match parse_rfc3339 s with
            | Some t => Some t
            | None => match parse_local_datetime s with
                      | Some t => Some t
                      | None => match parse_date_only s with
                                | Some t => Some t
                                | None => parse_us_date s
                                end
                      end
            end
  end.

Definition defaultIDFields : list string :=
  ["PARCEL_ID"; "PARCELID"; "PARCELNO"; "PARCEL_NO"; "PC_PID"; "PIN"; "FOLIO"; "OBJECTID"].

Definition parcelIDOf (props : row) (idFields : list string) : string :=
  let keys := match idFields with [] => defaultIDFields | _ => idFields end in
  let id := firstString props keys in
  TrimSpace (if bool_decide (id = EmptyString) then firstString props ["GlobalID"; "FID"] else id).

Definition ExtractParcelRow (feat : ArcGISFeature) (sourceKey county : string) (gen : Z)
    (fingerprint : option string) (idFields : list string) : res ParcelRow :=
  let p := ft_Properties feat in
  if match ft_Geometry feat with JNull => true | _ => false end then Err "missing geometry"
  else
    let parcelID := parcelIDOf p idFields in
    if bool_decide (parcelID = EmptyString) then Err "missing parcel id"
    else
      let saleDate := firstString p ["SALE_DATE1"; "SALE_DATE"; "LAST_SALE_DATE"] in
      Ok {| pr_ParcelID := parcelID; pr_SourceKey := sourceKey; pr_County := county;
            pr_Geometry := ft_Geometry feat; pr_Properties := p;
            pr_SiteAddress := strPtr (firstString p ["PHY_ADDR1"; "SITE_ADDR"; "SITUS_ADDR"; "ADDRESS"; "LOC_ADDR"]);
            pr_OwnerName := strPtr (firstString p ["OWN_NAME"; "OWNER"; "OWNER_NAME"; "OWNERNME1"]);
            pr_City := strPtr (firstString p ["PHY_CITY"; "SITE_CITY"; "CITY"; "MUNICIPAL"]);
            pr_ZipCode := strPtr (firstString p ["PHY_ZIPCD"; "ZIP"; "ZIP_CODE"; "POSTAL"]);
            pr_JustValue := floatPtr (firstFloat p ["JV"; "JUST"; "JUST_VALUE"; "TOT_VAL"]);
            pr_AssessedValue := floatPtr (firstFloat p ["AV_SD"; "ASSESSED"; "ASSESSED_VALUE"; "TAXABLE"]);
            pr_LandValue := floatPtr (firstFloat p ["LV"; "LAND"; "LAND_VALUE"]);
            pr_LivingAreaSqft := floatPtr (firstFloat p ["TOT_LVG_AR"; "LIVING_AREA"; "BLDG_AREA"; "HEATED_AREA"]);
            pr_YearBuilt := intPtr (firstInt p ["ACT_YR_BLT"; "YEAR_BUILT"; "YR_BLT"]);
            pr_Acres := floatPtr (firstFloat p ["ACRES"; "GIS_ACRES"; "CALC_ACRES"]);
            pr_LandUseCode := strPtr (firstString p ["DOR_UC"; "LAND_USE"; "LU_CODE"; "USE_CODE"]);
            pr_LastSalePrice := floatPtr (firstFloat p ["SALE_PRC1"; "SALE_PRICE"; "LAST_SALE_PRICE"]);
            pr_LastSaleDate := if bool_decide (saleDate = EmptyString) then None else parseArcGISDate saleDate;
            pr_SourceGeneration := gen; pr_SourceFingerprint := fingerprint |}.

Definition ExtractCityRow (feat : ArcGISFeature) (gen : Z) (fingerprint : option string) : res CityRow :=
  let p := ft_Properties feat in
  if match ft_Geometry feat with JNull => true | _ => false end then Err "missing geometry"
  else
    let name := firstString p ["NAME"; "CITYNAME"; "CITY_NAME"; "MUNICIPAL"] in
    if bool_decide (name = EmptyString) then Err "missing name"
    else Ok {| ci_CityName := name;
               ci_County := strPtr (firstString p ["COUNTY"; "COUNTYNAME"; "COUNTY_NAME"]);
               ci_SourceKey := FDOTAdminBoundariesKey; ci_Geometry := ft_Geometry feat; ci_Properties := p;
               ci_SourceGeneration := gen; ci_SourceFingerprint := fingerprint |}.

Definition ExtractCountyRow (feat : ArcGISFeature) (gen : Z) (fingerprint : option string) : res CountyRow :=
  let p := ft_Properties feat in
  if match ft_Geometry feat with JNull => true | _ => false end then Err "missing geometry"
  else
    let name := firstString p ["NAME"; "COUNTY"; "COUNTYNAME"] in
    let fips := firstString p ["FIPS"; "FIPS_CODE"; "COUNTYFIPS"; "GEOID"] in
    if bool_decide (name = EmptyString) && bool_decide (fips = EmptyString) then Err "missing name"
    else
      let name := if bool_decide (name = EmptyString) then fips else name in
      let slug := CountyNameToSlug name in
      Ok {| co_CountyName := name; co_CountySlug := slug; co_FIPSCode := strPtr fips;
            co_MLSStellar := bool_decide (slug ∈ MLSStellarSlugs);
            co_MLSBeaches := bool_decide (slug ∈ MLSBeachesSlugs);
            co_SourceKey := FDOTAdminBoundariesKey; co_Geometry := ft_Geometry feat; co_Properties := p;
            co_SourceGeneration := gen; co_SourceFingerprint := fingerprint |}.

Definition ExtractZipRow (feat : ArcGISFeature) (gen : Z) (fingerprint : option string) : res ZipRow :=
  let p := ft_Properties feat in
  if match ft_Geometry feat with JNull => true | _ => false end then Err "missing geometry"
  else
    let zip := firstString p ["ZIP"; "ZIP_CODE"; "ZCTA5CE10"; "ZCTA5CE20"; "GEOID10"] in
    if bool_decide (zip = EmptyString) then Err "missing zip code"
    else Ok {| zi_ZipCode := zip; zi_SourceKey := FDOTAdminBoundariesKey; zi_Geometry := ft_Geometry feat;
               zi_Properties := p; zi_SourceGeneration := gen; zi_SourceFingerprint := fingerprint |}.
End Extract.
