(* ===== verification/GisQuery.v ===== *)
(** * Reading the gis tables (packages [gisrepo] and [gis], [persistent.go])

    The bbox queries with the SQL they send, on one line. pgx checks a statement's parameters
    before it runs: [pgx_error] is what it and PostgreSQL answer when the arguments do not
    match the placeholders, which decides most of these queries. *)

From Stdlib Require Import Ascii String.
From stdpp Require Import gmap strings list sorting.
From S2P Require Import Prelude GoStrings GoTime GoFloat GoNum GoJson Payload Config GisData Database Upstream GisRepo GisFetch.

Open Scope Z_scope.
Open Scope string_scope.

(** ** Statements and their arguments *)

Inductive sql_arg := ArgFloat (f : float64) | ArgStrings (l : list string) | ArgInt (n : Z).

(** The numbers of the $n of a statement. *)
Fixpoint placeholders (sql : string) : list Z :=
  match sql with
  | EmptyString => []
  | String c r =>
      if bool_decide (c = "$"%char)
      then match take_digits 0 0 r with
           | (n, k, _) => if (k =? 0)%Z then placeholders r else n :: placeholders r
           end
      else placeholders r
  end.

(** A statement has as many parameters as its largest $n; PostgreSQL cannot type one that
    does not occur, and pgx wants exactly that many arguments. *)
Definition pgx_error (sql : string) (args : list sql_arg) : option string :=
  let ps := placeholders sql in
  let n := foldr Z.max 0 ps in
  if negb (forallb (λ k, bool_decide (Z.of_nat k ∈ ps)) (seq 1 (Z.to_nat n)))
  then Some "could not determine data type of parameter"
  else if negb (Z.of_nat (length args) =? n)%Z then Some "expected another number of arguments"
  else None.

Definition bboxEnvelopeSQL : string := "ST_MakeEnvelope($1, $2, $3, $4, 4326)".

(** QueryType: the table of a request. *)
Inductive QueryType := QueryTypeParcel | QueryTypeCity | QueryTypeCounty | QueryTypeZip.
#[export] Instance QueryType_eq_dec : EqDecision QueryType.
Proof. solve_decision. Defined.

Record FeatureResult := mkFeatureResult { fr_GeometryJSON : json; fr_Properties : row }.

Section Queries.
Context {F : Faults} {PG : PostGIS}.

Definition pgx_query {A} (sql : string) (args : list sql_arg) (rows : World → A) : M World A :=
  stmt (λ w, match pgx_error sql args with
             | Some e => (Err e, w)
             | None => (Ok (rows w), w)
             end).

Definition bbox_args (b : BBox) : list sql_arg := [ArgFloat (West b); ArgFloat (South b); ArgFloat (East b); ArgFloat (North b)].

(** The rows of the boundary tables as features. *)
Definition table_features (table : QueryType) (w : World) : list (json * row) :=
  match table with
  | QueryTypeCity => (λ kv, (ci_Geometry kv.2, ci_Properties kv.2)) <$> map_to_list (gt_cities (w_gis w))
  | QueryTypeCounty => (λ kv, (co_Geometry kv.2, co_Properties kv.2)) <$> map_to_list (gt_counties (w_gis w))
  | QueryTypeZip => (λ kv, (zi_Geometry kv.2, zi_Properties kv.2)) <$> map_to_list (gt_zips (w_gis w))
  | QueryTypeParcel => []
  end.

Definition table_name (table : QueryType) : string :=
  match table with
  | QueryTypeCity => "gis_cities"
  | QueryTypeCounty => "gis_counties"
  | QueryTypeZip => "gis_zips"
  | QueryTypeParcel => "gis_parcels"
  end.

(** [hasInBBox] *)
Definition hasInBBox (table : QueryType) (b : BBox) : M World bool :=
  pgx_query ("SELECT EXISTS ( SELECT 1 FROM " +:+ table_name table +:+ " WHERE geometry && " +:+ bboxEnvelopeSQL +:+
             " AND ST_Intersects(geometry, " +:+ bboxEnvelopeSQL +:+ ") )")
    (bbox_args b ++ bbox_args b)
    (λ w, existsb (λ f, st_in_envelope b f.1) (table_features table w)).

Definition feature_result (f : json * row) : FeatureResult := mkFeatureResult (st_asgeojson f.1) f.2.

(** [queryByBBox] *)
Definition queryByBBox (table : QueryType) (b : BBox) (limit : Z) : M World (list FeatureResult) :=
  pgx_query ("SELECT ST_AsGeoJSON(geometry)::text, properties FROM " +:+ table_name table +:+ " WHERE geometry && " +:+
             bboxEnvelopeSQL +:+ " AND ST_Intersects(geometry, " +:+ bboxEnvelopeSQL +:+ ") LIMIT $5")
    (bbox_args b ++ [ArgInt limit])
    (λ w, feature_result <$> take (Z.to_nat limit)
            (filter (λ f, st_in_envelope b f.1 = true) (scan_order _ (table_features table w)))).

(** [QueryCountySlugsByBBox] *)
Definition QueryCountySlugsByBBox (b : BBox) : M World (list string) :=
  pgx_query ("SELECT county_slug FROM gis_counties WHERE geometry && " +:+ bboxEnvelopeSQL +:+
             " AND ST_Intersects(geometry, " +:+ bboxEnvelopeSQL +:+ ") ORDER BY county_slug")
    (bbox_args b ++ bbox_args b)
    (λ w, sort_strings (omap (λ kv, if st_in_envelope b (co_Geometry kv.2) then Some kv.1 else None)
                          (map_to_list (gt_counties (w_gis w))))).

Definition parcel_matches (b : BBox) (counties : list string) (r : ParcelRow) : bool :=
  st_in_envelope b (pr_Geometry r) && (bool_decide (counties = []) || bool_decide (pr_County r ∈ counties)).

(** [HasParcelsInBBox] *)
Definition HasParcelsInBBox (b : BBox) (counties : list string) : M World bool :=
  pgx_query ("SELECT EXISTS ( SELECT 1 FROM gis_parcels WHERE geometry && " +:+ bboxEnvelopeSQL +:+
             " AND ST_Intersects(geometry, " +:+ bboxEnvelopeSQL +:+ ")" +:+
             (if bool_decide (counties = []) then EmptyString else " AND county = ANY($5)") +:+ ")")
    (bbox_args b ++ bbox_args b ++ (if bool_decide (counties = []) then [] else [ArgStrings counties]))
    (λ w, existsb (λ kv, parcel_matches b counties kv.2) (map_to_list (gt_parcels (w_gis w)))).

(** CASE source_key ... END *)
Definition source_rank (key : string) : Z :=
  if bool_decide (key = "pinellas_enterprise_parcels") then 1
  else if bool_decide (key = "hillsborough_hc_parcels") then 2
  else if bool_decide (key = FloridaStatewideCadastralKey) then 3 else 4.

Definition rank_le (a b : ParcelRow) : Prop :=
  str_leb (pr_ParcelID a) (pr_ParcelID b) = true ∧
  (pr_ParcelID a = pr_ParcelID b → source_rank (pr_SourceKey a) <= source_rank (pr_SourceKey b)).
#[local] Instance rank_le_dec : RelDecision rank_le.
Proof. intros a b. unfold rank_le. apply _. Defined.

(** DISTINCT ON (parcel_id): the first row of each id. *)
Fixpoint distinct_on (seen : gset string) (l : list ParcelRow) : list ParcelRow :=
  match l with
  | [] => []
  | r :: rest => if bool_decide (pr_ParcelID r ∈ seen) then distinct_on seen rest
                 else r :: distinct_on ({[pr_ParcelID r]} ∪ seen) rest
  end.

(** [QueryParcelsByBBox] *)
Definition QueryParcelsByBBox (b : BBox) (counties : list string) (limit : Z) : M World (list FeatureResult) :=
  let args := (bbox_args b ++ bbox_args b ++ (if bool_decide (counties = []) then [] else [ArgStrings counties]))%list in
  pgx_query ("SELECT ST_AsGeoJSON(geometry)::text, properties FROM ( SELECT DISTINCT ON (parcel_id) parcel_id, geometry, properties, source_key FROM gis_parcels WHERE geometry && " +:+
             bboxEnvelopeSQL +:+ " AND ST_Intersects(geometry, " +:+ bboxEnvelopeSQL +:+ ")" +:+
             (if bool_decide (counties = []) then EmptyString else " AND county = ANY($5)") +:+
             " ORDER BY parcel_id, CASE source_key WHEN 'pinellas_enterprise_parcels' THEN 1 WHEN 'hillsborough_hc_parcels' THEN 2 WHEN 'florida_statewide_cadastral' THEN 3 ELSE 4 END ) ranked LIMIT $" +:+
             FormatInt (Z.of_nat (length args) + 1))
    (args ++ [ArgInt limit])
    (λ w, (λ r, feature_result (pr_Geometry r, pr_Properties r)) <$> take (Z.to_nat limit)
            (distinct_on ∅ (merge_sort rank_le
               (filter (λ r, parcel_matches b counties r = true) (map_to_list (gt_parcels (w_gis w))).*2)))).

(** ** The persistent query service ([persistent.go]) *)

Context (cfg : Config).

Definition ParseQueryType (raw : string) : QueryType :=
  let s := ToLower (TrimSpace raw) in
  if bool_decide (s ∈ ["city"; "cities"]) then QueryTypeCity
  else if bool_decide (s ∈ ["county"; "counties"]) then QueryTypeCounty
  else if bool_decide (s ∈ ["zip"; "zips"; "postal"]) then QueryTypeZip
  else QueryTypeParcel.

Definition countiesForBBox (b : BBox) : M World (list string) := λ w,
  match QueryCountySlugsByBBox b w with
  | (Ok (s :: l), w') => (Ok (s :: l), w')
  | (_, w') => (Ok (sp_CountySlug <$> FailoverSourcesForBBox b), w')
  end.

Definition HasData (qtype : QueryType) (b : BBox) : M World bool :=
  match qtype with
  | QueryTypeParcel => let* counties := countiesForBBox b in HasParcelsInBBox b counties
  | _ => hasInBBox qtype b
  end.

(** The features whose geometry and properties parse; a GeoJSON document. *)
Definition featuresToGeoJSON (feats : list FeatureResult) : json :=
  JObj {["type" := JStr "FeatureCollection";
         "features" := JArr ((λ f, JObj {["type" := JStr "Feature"; "geometry" := fr_GeometryJSON f;
                                          "properties" := JObj (fr_Properties f)]}) <$> feats)]}.

Definition PersistentQuery (qtype : QueryType) (b : BBox) (limit : Z) : M World json :=
  let limit := if (limit <=? 0)%Z then gis_MaxFeatures (cfg_GIS cfg) else limit in
  let limit := if (limit <=? 0)%Z then 500 else limit in
  let* feats := (match qtype with
                 | QueryTypeParcel => let* counties := countiesForBBox b in QueryParcelsByBBox b counties limit
                 | _ => queryByBBox qtype b limit
                 end) in
  ret (featuresToGeoJSON feats).

(** fmt.Sscanf(raw, "%d", &n): a sign and digits; what follows them is left unread. *)
Definition scan_int (raw : string) : option Z :=
  let '(neg, r) := signed raw in
  match take_digits 0 0 r with
  | (n, k, _) => if (k =? 0)%Z then None
                 else let n := if neg then (- n)%Z else n in
                      if int64_ok n then Some n else None
  end.

Definition ParseLimit (raw : string) : Z :=
  let max := if (gis_MaxFeatures (cfg_GIS cfg) <=? 0)%Z then 500 else gis_MaxFeatures (cfg_GIS cfg) in
  let raw := TrimSpace raw in
  if bool_decide (raw = EmptyString) then max
  else match scan_int raw with
       | None => max
       | Some n => if (n <=? 0)%Z then max else if (max <? n)%Z then max else n
       end.
End Queries.

(** ** Laws *)

(** A limit is always between 1 and the maximum. *)
Lemma ParseLimit_bounds cfg raw :
  1 <= ParseLimit cfg raw <= Z.max 500 (gis_MaxFeatures (cfg_GIS cfg)).
Proof.
  unfold ParseLimit. destruct (Z.leb_spec (gis_MaxFeatures (cfg_GIS cfg)) 0); case_bool_decide; try lia;
    (destruct (scan_int _) as [n|]; [|lia]); destruct (Z.leb_spec n 0); try lia;
    match goal with |- context [Z.ltb ?a ?b] => destruct (Z.ltb_spec a b) end; lia.
Qed.

Section ArityLaws.
Context {F : Faults} {PG : PostGIS}.

Lemma pgx_refused {A} sql args (rows : World → A) w e :
  pgx_error sql args = Some e → ∃ e' w', pgx_query sql args rows w = (Err e', w') ∧ w_gis w' = w_gis w.
Proof. intros H. unfold pgx_query, stmt. destruct (fault _); [by eexists _, _|]. rewrite H. by eexists _, _. Qed.

Lemma hasInBBox_refused table b w : ∃ e w', hasInBBox table b w = (Err e, w') ∧ w_gis w' = w_gis w.
Proof. destruct table; (eapply pgx_refused; vm_compute; reflexivity). Qed.

Lemma QueryCountySlugs_refused b w : ∃ e w', QueryCountySlugsByBBox b w = (Err e, w') ∧ w_gis w' = w_gis w.
Proof. eapply pgx_refused. vm_compute. reflexivity. Qed.

Lemma HasParcels_refused b counties w : ∃ e w', HasParcelsInBBox b counties w = (Err e, w') ∧ w_gis w' = w_gis w.
Proof. unfold HasParcelsInBBox. case_bool_decide; (eapply pgx_refused; vm_compute; reflexivity). Qed.

Lemma HasData_refused qtype b w : ∃ e w', HasData qtype b w = (Err e, w') ∧ w_gis w' = w_gis w.
Proof.
  destruct qtype; try apply hasInBBox_refused. simpl. unfold bind, countiesForBBox.
  destruct (QueryCountySlugs_refused b w) as (e & w1 & -> & H1).
  destruct (HasParcels_refused b (sp_CountySlug <$> FailoverSourcesForBBox b) w1) as (e' & w2 & -> & H2).
  exists e', w2. split; [done|]. congruence.
Qed.

(** The persistent GIS tables are never read: whatever they hold, whatever the box, the
    query for data in it fails, because it passes the four bounds twice to a statement with
    four parameters; and the query for the parcels themselves fails too, as its parameters 5
    to 8 do not occur in the statement. *)
Theorem persistent_reads_fail qtype b counties limit w :
  (∃ e w', HasData qtype b w = (Err e, w')) ∧ (∃ e w', QueryParcelsByBBox b counties limit w = (Err e, w')).
Proof.
  split.
  - destruct (HasData_refused qtype b w) as (e & w' & H & _). by exists e, w'.
  - unfold QueryParcelsByBBox.
    case_bool_decide; match goal with |- context [pgx_query ?q ?a ?r w] =>
      destruct (pgx_refused q a r w "could not determine data type of parameter") as (e & w' & Hq & _); [vm_compute; reflexivity|]
    end; by exists e, w'.
Qed.
End ArityLaws.
