(* ===== verification/GisProxy.v ===== *)
(** * The GIS proxy (package [gis], [proxy.go], [query.go], [teaser.go])

    One request: the box, the edge cache, the persistent tables, the live servers, the teaser
    cut and the meta object of the answer. A request is what the code reads of it: its first
    query values, the text of its query arguments, and the access flag the authentication
    middleware left. The replica the reads may use is the database itself here. *)

From Stdlib Require Import Ascii String SpecFloat.
From stdpp Require Import gmap strings list.
From S2P Require Import Prelude GoStrings GoFloat GoNum GoJson Payload Config GisData Database Upstream GisRepo GisFetch GisQuery.

Open Scope Z_scope.
Open Scope string_scope.

(** ** The box ([query.go]) *)

Record GisRequest := mkGisRequest {
  rq_query : gmap string string;
  rq_args : string;
  rq_full_access : option bool;
}.

Definition Query (rq : GisRequest) (key : string) : string := default EmptyString (rq_query rq !! key).
Definition parseFloatQuery (rq : GisRequest) (key : string) : option float64 := ParseFloat (TrimSpace (Query rq key)).

Definition ParseBBox (rq : GisRequest) : res BBox :=
  let raw := TrimSpace (Query rq "bbox") in
  if negb (bool_decide (raw = EmptyString))
  then match (λ p, ParseFloat (TrimSpace p)) <$> Split raw ","%char with
       | [w; s; e; n] =>
           match w, s, e, n with
           | Some w, Some s, Some e, Some n => Ok (mkBBox w s e n)
           | _, _, _, _ => Err "invalid bbox"
           end
       | _ => Err "bbox must have four comma-separated values"
       end
  else match parseFloatQuery rq "north", parseFloatQuery rq "south", parseFloatQuery rq "east", parseFloatQuery rq "west" with
       | Some n, Some s, Some e, Some w => Ok (mkBBox w s e n)
       | _, _, _, _ =>
           let none := Err "bbox, north/south/east/west, or lat/lng/radius required" in
           match parseFloatQuery rq "lat", parseFloatQuery rq "lng", parseFloatQuery rq "radius" with
           | Some lat, Some lng, Some radius =>
               if f_lt f_zero radius
               then let deg := f_div radius (f_of_Z 111320) in
                    Ok (mkBBox (f_sub lng deg) (f_sub lat deg) (f_add lng deg) (f_add lat deg))
               else none
           | _, _, _ => none
           end
       end.

Definition SpanDeg (b : BBox) : float64 :=
  let w := f_sub (East b) (West b) in
  let h := f_sub (North b) (South b) in
  let w := if f_lt w f_zero then f_neg w else w in
  let h := if f_lt h f_zero then f_neg h else h in
  if f_lt h w then w else h.

Definition Centroid (b : BBox) : float64 * float64 :=
  (f_div (f_add (South b) (North b)) (f_of_Z 2), f_div (f_add (West b) (East b)) (f_of_Z 2)).

(** ** The teaser ([teaser.go]) *)

(** The loop of [math.Pow(x, y)] for an integer y > 0: squares of the fraction [x1] of x, the
    exponents kept apart. *)
Fixpoint pow_loop (fuel : nat) (a1 : float64) (ae : Z) (x1 : float64) (xe i : Z) : float64 * Z :=
  match fuel with
  | O => (a1, ae)
  | S fuel =>
      if (i =? 0)%Z then (a1, ae)
      else if ((xe <? - 4096) || (4096 <? xe))%Z then (a1, (ae + xe)%Z)
      else
        let '(a1, ae) := if Z.odd i then (f_mul a1 x1, (ae + xe)%Z) else (a1, ae) in
        let x1 := f_mul x1 x1 in
        let xe := (2 * xe)%Z in
        let '(x1, xe) := if f_lt x1 (lit "0.5") then (f_add x1 x1, (xe - 1)%Z) else (x1, xe) in
        pow_loop fuel a1 ae x1 xe (i / 2)
  end.
Definition Pow10 (y : Z) : float64 :=
  let '(x1, xe) := SFfrexp 53 1024 (f_of_Z 10) in
  let '(a1, ae) := pow_loop 64 (f_of_Z 1) 0 x1 xe y in
  SFldexp 53 1024 a1 ae.

Definition roundCoord (v : float64) (decimals : Z) : float64 :=
  if (decimals <? 0)%Z then v else let p := Pow10 decimals in f_div (Round (f_mul v p)) p.

Fixpoint roundCoordsAny (decimals : Z) (v : json) : json :=
  match v with
  | JNum n => JNum (NFlt (roundCoord (num_float n) decimals))
  | JArr l => JArr (roundCoordsAny decimals <$> l)
  | _ => v
  end.

(** [json.Unmarshal] of a body into [map[string]any]: [Some None] is the nil map of a null. *)
Definition decode_map (body : RawMessage) : option (option row) :=
  match text_of body with
  | Some (JObj m) => Some (Some (as_any <$> m))
  | Some JNull => Some None
  | _ => None
  end.

Definition truncateFeatureCollection (fc : row) (max : Z) : row * bool :=
  match fc !! "features" with
  | Some (JArr feats) =>
      if (Z.of_nat (length feats) <=? max)%Z then (fc, false)
      else (<["features" := JArr (take (Z.to_nat max) feats)]> fc, true)
  | _ => (fc, false)
  end.

Definition roundFeature (decimals : Z) (f : json) : json :=
  match f with
  | JObj feat =>
      match feat !! "geometry" with
      | Some (JObj geom) =>
          match geom !! "coordinates" with
          | Some coords => JObj (<["geometry" := JObj (<["coordinates" := roundCoordsAny decimals coords]> geom)]> feat)
          | None => f
          end
      | _ => f
      end
  | _ => f
  end.

Definition roundFeatureCollectionCoords (fc : row) (decimals : Z) : row :=
  match fc !! "features" with
  | Some (JArr feats) => <["features" := JArr (roundFeature decimals <$> feats)]> fc
  | _ => fc
  end.

Definition requestFullAccess (rq : GisRequest) : bool := default true (rq_full_access rq).

Definition teaserMaxFeatures (cfg : GISConfig) : Z := if (gis_TeaserMaxFeatures cfg <=? 0)%Z then 40 else gis_TeaserMaxFeatures cfg.
Definition teaserDecimals (cfg : GISConfig) : Z := if (gis_TeaserCoordDecimals cfg <=? 0)%Z then 4 else gis_TeaserCoordDecimals cfg.

Definition applyTeaser (geojson : RawMessage) (cfg : GISConfig) (fullAccess : bool) : RawMessage * bool :=
  if fullAccess then (geojson, false)
  else match decode_map geojson with
       | None => (geojson, false)
       | Some None => (RawText (Some JNull), false)
       | Some (Some fc) =>
           let '(fc, truncated) := truncateFeatureCollection fc (teaserMaxFeatures cfg) in
           let out := JObj (roundFeatureCollectionCoords fc (teaserDecimals cfg)) in
           if encodes out then (RawText (Some out), truncated) else (geojson, false)
       end.

(** ** The answer ([proxy.go]) *)

Record responseMeta := mkMeta {
  SourceUsed : string;
  SourceTier : string;
  CountyHint : string;
  meta_QueryType : string;
  Teaser : bool;
  FullAccess : bool;
  Degraded : bool;
  LeafletFallback : option string;
  CacheGeneration : Z;
  Cached : bool;
  CacheHit : option string;
  Warnings : list string;
}.

Definition meta_json (m : responseMeta) : json :=
  mk_obj [("source_used", enc_string (SourceUsed m)); ("source_tier", enc_string (SourceTier m));
          ("county_hint", enc_string (CountyHint m)); ("query_type", omit_string (meta_QueryType m));
          ("teaser", enc_bool (Teaser m)); ("full_access", enc_bool (FullAccess m));
          ("degraded", enc_bool (Degraded m)); ("leaflet_fallback", enc_ptr enc_string (LeafletFallback m));
          ("cache_generation", enc_int (CacheGeneration m)); ("cached", enc_bool (Cached m));
          ("cache_hit", enc_ptr enc_string (CacheHit m)); ("warnings", omit_strings (Warnings m))].

(** A fiber error, a body sent with its X-IDX-Cache header, or a panic that the server's
    recover middleware answers. *)
Inductive gis_answer :=
| Refused (status : Z) (message : string)
| Sent (cache : string) (body : RawMessage)
| Panicked.

(** [c.Send(wrapWithMeta(body, meta))]: assigning to the nil map of a null document panics. *)
Definition send (cache : string) (body : RawMessage) (meta : responseMeta) : gis_answer :=
  match decode_map body with
  | None => Sent cache body
  | Some None => Panicked
  | Some (Some fc) =>
      let out := JObj (<["meta" := meta_json meta]> fc) in
      Sent cache (if encodes out then RawText (Some out) else body)
  end.

(** fmt.Sprintf("%x", s) *)
Definition hex_nibble (n : N) : ascii := if (n <? 10)%N then ascii_of_N (48 + n) else ascii_of_N (87 + n).
Fixpoint hex_string (s : string) : string :=
  match s with
  | EmptyString => EmptyString
  | String c r => String (hex_nibble (byte_val c / 16)) (String (hex_nibble (byte_val c mod 16)) (hex_string r))
  end.
Definition queryHash (rq : GisRequest) : string := hex_string (rq_args rq).

Definition query_type_name (q : QueryType) : string :=
  match q with
  | QueryTypeParcel => "parcel" | QueryTypeCity => "city" | QueryTypeCounty => "county" | QueryTypeZip => "zip"
  end.

Definition emptyDoc : row := {["type" := JStr "FeatureCollection"; "features" := JArr []]}.
Definition emptyCollection : RawMessage := RawText (Some (JObj emptyDoc)).

(** The order Go walks the map of county boxes in. *)
Class MapOrder := county_order : list (string * BBox).

Section Proxy.
Context {F : Faults} {PG : PostGIS} {AG : ArcGIS} {MO : MapOrder} (cfg : Config).

Definition allowedMLS (code : string) : bool :=
  existsb (λ c, bool_decide (ToLower c = ToLower (TrimSpace code))) (gis_FloridaMLSCodes (cfg_GIS cfg)).

Definition fromCache (hash : string) (fullAccess : bool) (qtype : QueryType) : M World (option (RawMessage * responseMeta)) := λ w,
  match stmt (get (λ w, match gt_cache (w_gis w) !! hash with
                        | Some r => if (w_now w <? gc_expires_at r)%Z then Some r else None
                        | None => None
                        end)) w with
  | (Ok (Some r), w') =>
      (Ok (Some (gc_geojson r,
        {| SourceUsed := gc_source_used r; SourceTier := "cached"; CountyHint := EmptyString;
           meta_QueryType := query_type_name qtype; Teaser := negb fullAccess; FullAccess := fullAccess;
           Degraded := false; LeafletFallback := None; CacheGeneration := gc_source_generation r;
           Cached := true; CacheHit := Some "edge"; Warnings := [] |})), w')
  | (_, w') => (Ok None, w')
  end.

(** query_hash is VARCHAR(64), source_used VARCHAR(96). *)
Definition cache_accepted (hash sourceKey : string) : bool :=
  ((Z.of_nat (String.length hash) <=? 64) && (Z.of_nat (String.length sourceKey) <=? 96))%Z.

Definition storeCache (hash : string) (body : RawMessage) (sourceKey : string) (gen : Z) : M World unit :=
  stmt (λ w, if cache_accepted hash sourceKey
             then on_gis (λ g, set_gis_cache (<[hash := mkGisCache body (w_now w + gis_EdgeCacheTTL (cfg_GIS cfg)) sourceKey gen]>
                                                (gt_cache g)) g) w
             else (Err "value too long for type character varying", w)).

(** [gen, _ := SourceGeneration(key)] *)
Definition sourceGeneration (key : string) : M World Z := λ w,
  match SourceGeneration key w with
  | (Ok n, w') => (Ok n, w')
  | (Err _, w') => (Ok 0, w')
  end.

Definition hint_of (b : BBox) : string := let '(lat, lng) := Centroid b in countyHint county_order lat lng.

Definition buildPersistentMeta (b : BBox) (qtype : QueryType) (fullAccess : bool) : M World responseMeta :=
  let* gen := sourceGeneration (table_name qtype) in
  let* gen := (if (gen =? 0)%Z then sourceGeneration FDOTAdminBoundariesKey else ret gen) in
  ret {| SourceUsed := table_name qtype; SourceTier := "persistent"; CountyHint := hint_of b;
         meta_QueryType := query_type_name qtype; Teaser := negb fullAccess; FullAccess := fullAccess;
         Degraded := false; LeafletFallback := None; CacheGeneration := gen; Cached := false;
         CacheHit := None; Warnings := [] |}.

Definition buildMeta (b : BBox) (src : Source) (failed fullAccess : bool) : M World responseMeta :=
  let* gen := sourceGeneration (so_Key src) in
  let known := negb (bool_decide (so_Key src = EmptyString)) in
  ret {| SourceUsed := if known then so_Key src else "unknown"; SourceTier := if known then so_Tier src else "none";
         CountyHint := hint_of b; meta_QueryType := "parcel"; Teaser := negb fullAccess; FullAccess := fullAccess;
         Degraded := failed; LeafletFallback := None; CacheGeneration := gen; Cached := false;
         CacheHit := None; Warnings := [] |}.

Definition fetchSource (w : World) (src : Source) (b : BBox) : res RawMessage :=
  let limit := gis_MaxFeatures (cfg_GIS cfg) in
  FetchBBoxPage (cfg_GIS cfg) w src b 0 (if (limit <=? 0)%Z then 500 else limit).

Definition noSource : Source := mkSource EmptyString EmptyString EmptyString EmptyString EmptyString.

(** The first source that answers with a body, else the last error if the last one failed. *)
Fixpoint fetchLive (w : World) (b : BBox) (failed : bool) (sources : list Source) : RawMessage * Source * bool :=
  match sources with
  | [] => (RawNil, noSource, failed)
  | src :: rest =>
      match fetchSource w src b with
      | Ok RawNil => fetchLive w b false rest
      | Ok body => (body, src, false)
      | Err _ => fetchLive w b true rest
      end
  end.

Definition set_degraded (fallback : option string) (warnings : list string) (m : responseMeta) : responseMeta :=
  {| SourceUsed := SourceUsed m; SourceTier := SourceTier m; CountyHint := CountyHint m;
     meta_QueryType := meta_QueryType m; Teaser := Teaser m; FullAccess := FullAccess m; Degraded := true;
     LeafletFallback := fallback; CacheGeneration := CacheGeneration m; Cached := Cached m;
     CacheHit := CacheHit m; Warnings := warnings |}.

Definition tileFallback : string := "https://{s}.tile.openstreetmap.org/{z}/{x}/{y}.png".

(** The persistent tables, when they have data and answer. *)
Definition fetchPersistent (qtype : QueryType) (b : BBox) (limit : Z) : M World (option json) := λ w,
  match HasData qtype b w with
  | (Ok true, w1) => match PersistentQuery cfg qtype b limit w1 with
                     | (Ok raw, w2) => (Ok (Some raw), w2)
                     | (Err _, w2) => (Ok None, w2)
                     end
  | (_, w1) => (Ok None, w1)
  end.

Definition answer (cache : string) (raw : RawMessage) (meta : responseMeta) (fullAccess : bool) : gis_answer :=
  send cache (applyTeaser raw (cfg_GIS cfg) fullAccess).1 meta.

Definition servePersistent (rq : GisRequest) (b : BBox) (qtype : QueryType) (raw : json) : M World gis_answer :=
  let fullAccess := requestFullAccess rq in
  let* meta := buildPersistentMeta b qtype fullAccess in
  let* gen := sourceGeneration (SourceUsed meta) in
  ignore (storeCache (queryHash rq) (RawText (Some raw)) (SourceUsed meta) gen) ;;;
  ret (answer "persistent" (RawText (Some raw)) meta fullAccess).

Definition serveNoBoundaries (rq : GisRequest) (b : BBox) (qtype : QueryType) : M World gis_answer :=
  let fullAccess := requestFullAccess rq in
  let* meta := buildPersistentMeta b qtype fullAccess in
  let warn := "No persistent " +:+ query_type_name qtype +:+ " boundaries loaded for this area; run gis.annual_boundaries_refresh." in
  ret (answer "miss" emptyCollection (set_degraded None [warn] meta) fullAccess).

Definition serveLive (rq : GisRequest) (b : BBox) : M World gis_answer := λ w,
  let fullAccess := requestFullAccess rq in
  let '(raw, used, failed) := fetchLive w b false (sourcesForBBox b) in
  (let* meta := buildMeta b used failed fullAccess in
   let '(raw, meta) := if failed then (emptyCollection, set_degraded (Some tileFallback) (Warnings meta) meta) else (raw, meta) in
   let* gen := sourceGeneration (SourceUsed meta) in
   ignore (storeCache (queryHash rq) raw (SourceUsed meta) gen) ;;;
   ret (answer "miss" raw meta fullAccess)) w.

Definition Fetch (rq : GisRequest) (mlsCode : option string) : M World gis_answer :=
  if match mlsCode with Some code => negb (allowedMLS code) | None => false end
  then ret (Refused 404 "MLS code not supported for GIS")
  else match ParseBBox rq with
       | Err e => ret (Refused 400 e)
       | Ok b =>
           if f_lt (gis_MaxBboxSpanDeg (cfg_GIS cfg)) (SpanDeg b) then ret (Refused 422 "bbox span exceeds limit")
           else
             let qtype := ParseQueryType (Query rq "type") in
             let limit := ParseLimit cfg (Query rq "limit") in
             let fullAccess := requestFullAccess rq in
             let* hit := fromCache (queryHash rq) fullAccess qtype in
             match hit with
             | Some (body, meta) => ret (answer "edge" body meta fullAccess)
             | None =>
                 let* data := fetchPersistent qtype b limit in
                 match data with
                 | Some raw => servePersistent rq b qtype raw
                 | None => if bool_decide (qtype = QueryTypeParcel) then serveLive rq b
                           else serveNoBoundaries rq b qtype
                 end
             end
       end.
End Proxy.

(** ** Laws *)

Lemma length_hex_string s : String.length (hex_string s) = (2 * String.length s)%nat.
Proof. induction s as [|c s IH]; [done|]. cbn [hex_string String.length]. lia. Qed.

Lemma take_as_any max (feats : list json) : take max (as_any <$> feats) = as_any <$> take max feats.
Proof. by rewrite fmap_take. Qed.

(** C29 What a caller without full access gets of a feature collection: the first features up
    to the teaser maximum, with the coordinates of their geometries rounded, every other key
    as it was, and whether any was cut; except that a collection whose rounded coordinates
    overflow is returned whole. *)
Theorem teaser_functional cfg m feats :
  m !! "features" = Some (JArr feats) →
  let max := teaserMaxFeatures cfg in
  let shown := roundFeature (teaserDecimals cfg) <$> take (Z.to_nat max) (as_any <$> feats) in
  let out := JObj (<["features" := JArr shown]> (as_any <$> m)) in
  applyTeaser (RawText (Some (JObj m))) cfg false =
    if encodes out then (RawText (Some out), (max <? Z.of_nat (length feats))%Z)
    else (RawText (Some (JObj m)), false).
Proof.
  intros Hm max shown out. unfold applyTeaser, decode_map, truncateFeatureCollection. cbn [text_of].
  assert (Hf : (as_any <$> m) !! "features" = Some (JArr (as_any <$> feats)))
    by (by rewrite lookup_fmap, Hm).
  rewrite Hf, length_fmap. fold max. destruct (Z.leb_spec (Z.of_nat (length feats)) max) as [Hle|Hgt].
  - replace (max <? _)%Z with false by lia. unfold roundFeatureCollectionCoords. rewrite Hf.
    unfold out, shown. by rewrite (take_ge (as_any <$> feats)) by (rewrite length_fmap; lia).
  - replace (max <? _)%Z with true by lia. unfold roundFeatureCollectionCoords.
    rewrite lookup_insert_eq, insert_insert_eq. fold shown out. by destruct (encodes out).
Qed.

Section ProxyLaws.
Context {F : Faults} {PG : PostGIS} {AG : ArcGIS} {MO : MapOrder} (cfg : Config).

(** The tables and the clock, which only [storeCache] changes. *)
Definition gis_view (w : World) : GisTables * Z := (w_gis w, w_now w).

Lemma keeps_stmt_get {A} (f : World → A) : keeps gis_view (stmt (get f)).
Proof. intros w. unfold stmt. by destruct (fault _). Qed.

Lemma keeps_pgx {A} sql args (rows : World → A) : keeps gis_view (pgx_query sql args rows).
Proof. intros w. unfold pgx_query, stmt. destruct (fault _); [done|]. by destruct (pgx_error _ _). Qed.

Lemma keeps_countiesForBBox b : keeps gis_view (countiesForBBox b).
Proof.
  intros w. unfold countiesForBBox. pose proof (keeps_pgx
    ("SELECT county_slug FROM gis_counties WHERE geometry && " +:+ bboxEnvelopeSQL +:+
     " AND ST_Intersects(geometry, " +:+ bboxEnvelopeSQL +:+ ") ORDER BY county_slug")
    (bbox_args b ++ bbox_args b)
    (λ w, sort_strings (omap (λ kv, if st_in_envelope b (co_Geometry kv.2) then Some kv.1 else None)
                          (map_to_list (gt_counties (w_gis w))))) w) as H.
  unfold QueryCountySlugsByBBox. destruct (pgx_query _ _ _ w) as [[[|s l]|e] w']; exact H.
Qed.

Lemma keeps_HasData qtype b : keeps gis_view (HasData qtype b).
Proof.
  destruct qtype; try apply keeps_pgx. apply keeps_bind; [apply keeps_countiesForBBox|].
  intros counties. apply keeps_pgx.
Qed.

Lemma keeps_PersistentQuery qtype b limit : keeps gis_view (PersistentQuery cfg qtype b limit).
Proof.
  apply keeps_bind; [|intros ?; apply keeps_ret]. destruct qtype; try apply keeps_pgx.
  apply keeps_bind; [apply keeps_countiesForBBox|intros ?; apply keeps_pgx].
Qed.

Lemma keeps_fetchPersistent qtype b limit : keeps gis_view (fetchPersistent cfg qtype b limit).
Proof.
  intros w. unfold fetchPersistent. pose proof (keeps_HasData qtype b w) as H1.
  destruct (HasData qtype b w) as [[[|]|e] w1]; [|exact H1..].
  pose proof (keeps_PersistentQuery qtype b limit w1) as H2.
  destruct (PersistentQuery cfg qtype b limit w1) as [[raw|e] w2]; (etrans; [exact H2|exact H1]).
Qed.

Lemma keeps_fromCache hash fa q : keeps gis_view (fromCache hash fa q).
Proof.
  intros w. unfold fromCache. match goal with |- context [stmt (get ?f) w] => pose proof (keeps_stmt_get f w) as H end.
  destruct (stmt _ w) as [[[r|]|e] w']; exact H.
Qed.

Lemma keeps_sourceGeneration key : keeps gis_view (sourceGeneration key).
Proof.
  intros w. unfold sourceGeneration, SourceGeneration, stmt. destruct (fault _); [done|].
  by destruct (gt_states _ !! key).
Qed.

Lemma keeps_storeCache hash body key gen :
  (64 < Z.of_nat (String.length hash))%Z → keeps gis_view (storeCache cfg hash body key gen).
Proof.
  intros H w. unfold storeCache, stmt. destruct (fault _); [done|].
  unfold cache_accepted. by replace (_ <=? 64)%Z with false by lia.
Qed.

Lemma keeps_buildPersistentMeta b q fa : keeps gis_view (buildPersistentMeta b q fa).
Proof.
  apply keeps_bind; [apply keeps_sourceGeneration|intros n].
  apply keeps_bind; [destruct (n =? 0)%Z; [apply keeps_sourceGeneration|apply keeps_ret]|intros; apply keeps_ret].
Qed.

Lemma keeps_buildMeta b src failed fa : keeps gis_view (buildMeta b src failed fa).
Proof. apply keeps_bind; [apply keeps_sourceGeneration|intros; apply keeps_ret]. Qed.

(** The reads of a generation always give a number. *)
Lemma sourceGeneration_run key w : ∃ n w', sourceGeneration key w = (Ok n, w') ∧ gis_view w' = gis_view w.
Proof.
  pose proof (keeps_sourceGeneration key w) as H. unfold sourceGeneration in *.
  destruct (SourceGeneration key w) as [[n|e] w']; eauto.
Qed.

Lemma buildPersistentMeta_run b q fa w : ∃ meta w', buildPersistentMeta b q fa w = (Ok meta, w').
Proof.
  unfold buildPersistentMeta. destruct (sourceGeneration_run (table_name q) w) as (n & w1 & H1 & _).
  rewrite (bind_ok _ _ _ _ _ H1). destruct (n =? 0)%Z; [|by eexists _, _].
  destruct (sourceGeneration_run FDOTAdminBoundariesKey w1) as (n' & w2 & H2 & _).
  rewrite (bind_ok _ _ _ _ _ H2). by eexists _, _.
Qed.

(** The persistent tables never answer: the query for data always fails. *)
Lemma fetchPersistent_none q b limit w :
  ∃ w', fetchPersistent cfg q b limit w = (Ok None, w') ∧ gis_view w' = gis_view w.
Proof.
  pose proof (keeps_fetchPersistent q b limit w) as H. unfold fetchPersistent in *.
  destruct (HasData_refused q b w) as (e & w' & Hq & _). rewrite Hq in *. by exists w'.
Qed.

Lemma teaserMax_pos c : (0 < teaserMaxFeatures c)%Z.
Proof. unfold teaserMaxFeatures. destruct (Z.leb_spec (gis_TeaserMaxFeatures c) 0); lia. Qed.

(** The empty collection is sent empty, whatever the access. *)
Lemma answer_empty cache meta fa :
  ∃ doc, answer cfg cache emptyCollection meta fa = Sent cache (RawText (Some (JObj doc))) ∧
         doc !! "features" = Some (JArr []).
Proof.
  assert (Hsend : ∀ m, m !! "features" = Some (JArr []) →
    ∃ doc, send cache (RawText (Some (JObj m))) meta = Sent cache (RawText (Some (JObj doc))) ∧ doc !! "features" = Some (JArr [])).
  { intros m Hm. unfold send, decode_map. cbn [text_of]. destruct (encodes _); eexists; (split; [reflexivity|]); [|done].
    rewrite lookup_insert_ne by discriminate. by rewrite lookup_fmap, Hm. }
  unfold answer, applyTeaser. destruct fa; [by apply Hsend|].
  change (decode_map emptyCollection) with (Some (Some emptyDoc)). cbv beta iota.
  assert (Htr : truncateFeatureCollection emptyDoc (teaserMaxFeatures (cfg_GIS cfg)) = (emptyDoc, false)).
  { unfold truncateFeatureCollection. change (emptyDoc !! "features") with (Some (JArr [])). cbv iota.
    pose proof (teaserMax_pos (cfg_GIS cfg)). by rewrite (proj2 (Z.leb_le _ _)) by (cbn; lia). }
  rewrite Htr. change (roundFeatureCollectionCoords emptyDoc _) with emptyDoc. by apply Hsend.
Qed.

(** A request for cities, counties or zip codes is answered by an empty collection marked
    degraded, whatever the persistent tables hold, unless its answer is in the cache: the
    queries that read the tables never run. *)
Theorem boundary_requests_empty rq mlsCode b w w1 :
  match mlsCode with Some code => allowedMLS cfg code = true | None => True end →
  ParseBBox rq = Ok b → f_lt (gis_MaxBboxSpanDeg (cfg_GIS cfg)) (SpanDeg b) = false →
  ParseQueryType (Query rq "type") ≠ QueryTypeParcel →
  fromCache (queryHash rq) (requestFullAccess rq) (ParseQueryType (Query rq "type")) w = (Ok None, w1) →
  ∃ meta doc w', Fetch cfg rq mlsCode w = (Ok (Sent "miss" (RawText (Some (JObj doc)))), w') ∧
    doc !! "features" = Some (JArr []) ∧
    Sent "miss" (RawText (Some (JObj doc))) = answer cfg "miss" emptyCollection meta (requestFullAccess rq) ∧
    Degraded meta = true.
Proof.
  intros Hmls Hb Hspan Hq Hc. set (q := ParseQueryType (Query rq "type")) in *.
  destruct (fetchPersistent_none q b (ParseLimit cfg (Query rq "limit")) w1) as (w2 & Hp & _).
  destruct (buildPersistentMeta_run b q (requestFullAccess rq) w2) as (meta & w3 & Hm).
  unfold Fetch. replace (match mlsCode with Some _ => _ | None => _ end) with false
    by (destruct mlsCode; [by rewrite Hmls|done]).
  rewrite Hb, Hspan. fold q. rewrite (bind_ok _ _ _ _ _ Hc), (bind_ok _ _ _ _ _ Hp). rewrite bool_decide_false by done.
  unfold serveNoBoundaries. rewrite (bind_ok _ _ _ _ _ Hm).
  match goal with |- context [set_degraded ?a ?b ?m] => set (dm := set_degraded a b m) end.
  destruct (answer_empty "miss" dm (requestFullAccess rq)) as (doc & Ha & Hf).
  exists dm, doc, w3. unfold ret. by rewrite Ha.
Qed.

(** A request whose query arguments are longer than 32 bytes is never cached: the key is
    their hexadecimal text and the column holds 64 bytes, so every one of its answers leaves
    the cache as it was. *)
Theorem long_query_never_cached rq mlsCode w :
  (32 < String.length (rq_args rq))%nat →
  gt_cache (w_gis (Fetch cfg rq mlsCode w).2) = gt_cache (w_gis w).
Proof.
  intros H. assert (Hs : ∀ body key gen, keeps gis_view (storeCache cfg (queryHash rq) body key gen))
    by (intros; apply keeps_storeCache; unfold queryHash; rewrite length_hex_string; lia).
  enough (Hk : keeps gis_view (Fetch cfg rq mlsCode)) by (by injection (Hk w) as -> _).
  unfold Fetch.
  destruct (match mlsCode with Some _ => _ | None => _ end); [apply keeps_ret|].
  destruct (ParseBBox rq) as [b|e]; [|apply keeps_ret].
  destruct (f_lt _ _); [apply keeps_ret|].
  apply keeps_bind; [apply keeps_fromCache|intros [[body meta]|]; [apply keeps_ret|]].
  apply keeps_bind; [apply keeps_fetchPersistent|intros [raw|]].
  - apply keeps_bind; [apply keeps_buildPersistentMeta|intros meta]. apply keeps_bind; [apply keeps_sourceGeneration|intros gen].
    apply keeps_bind; [apply keeps_ignore, Hs|intros; apply keeps_ret].
  - case_bool_decide.
    + intros v. unfold serveLive. destruct (fetchLive cfg v b false _) as [[raw used] failed]. revert v.
      apply keeps_bind; [apply keeps_buildMeta|]. intros meta. destruct failed; (apply keeps_bind; [apply keeps_sourceGeneration|intros gen];
          apply keeps_bind; [apply keeps_ignore, Hs|intros; apply keeps_ret]).
    + apply keeps_bind; [apply keeps_buildPersistentMeta|intros; apply keeps_ret].
Qed.

(** With a database that does not fail, a short query is stored. *)
Lemma storeCache_run hash body key gen w :
  (∀ n, fault n = false) → cache_accepted hash key = true →
  storeCache cfg hash body key gen w =
    (Ok tt, set_gis (set_gis_cache (<[hash := mkGisCache body (w_now w + gis_EdgeCacheTTL (cfg_GIS cfg)) key gen]>
                       (gt_cache (w_gis w))) (w_gis w)) (set_ops (S (w_ops w)) w)).
Proof. intros Hf Ha. unfold storeCache, stmt. rewrite Hf, Ha. reflexivity. Qed.

Lemma fetchLive_fails w b failed srcs :
  (∀ src, src ∈ srcs → ∃ e, fetchSource cfg w src b = Err e) → srcs ≠ [] →
  fetchLive cfg w b failed srcs = (RawNil, noSource, true).
Proof.
  revert failed. induction srcs as [|src rest IH]; intros failed H Hne; [done|]. simpl.
  destruct (H src) as [e ->]; [set_solver|]. destruct rest as [|src' rest]; [done|].
  apply IH; [set_solver|done].
Qed.

(** A failure of every live server is remembered as a good answer: the first request is
    answered by an empty collection marked degraded and stored, and until it expires the same
    request is answered from the cache by the same empty collection, no longer marked. *)
Theorem outage_cached_as_healthy rq b w t :
  (∀ n, fault n = false) → (String.length (rq_args rq) ≤ 32)%nat →
  ParseBBox rq = Ok b → f_lt (gis_MaxBboxSpanDeg (cfg_GIS cfg)) (SpanDeg b) = false →
  ParseQueryType (Query rq "type") = QueryTypeParcel →
  gt_cache (w_gis w) !! queryHash rq = None →
  (∀ v src, src ∈ sourcesForBBox b → ∃ e, fetchSource cfg v src b = Err e) → sourcesForBBox b ≠ [] →
  t < w_now w + gis_EdgeCacheTTL (cfg_GIS cfg) →
  ∃ meta1 w1 meta2 w2,
    Fetch cfg rq None w = (Ok (answer cfg "miss" emptyCollection meta1 (requestFullAccess rq)), w1) ∧
    Degraded meta1 = true ∧
    Fetch cfg rq None (set_now t w1) = (Ok (answer cfg "edge" emptyCollection meta2 (requestFullAccess rq)), w2) ∧
    Degraded meta2 = false.
Proof.
  intros Hf Hl Hb Hspan Hq Hc Hsrc Hne Ht.
  set (fa := requestFullAccess rq). set (w0 := set_ops (S (w_ops w)) w).
  assert (Hmiss : fromCache (queryHash rq) fa QueryTypeParcel w = (Ok None, w0)).
  { unfold fromCache, stmt. rewrite Hf. cbn. by rewrite Hc. }
  destruct (fetchPersistent_none QueryTypeParcel b (ParseLimit cfg (Query rq "limit")) w0) as (wp & Hp & Gp).
  destruct (sourceGeneration_run EmptyString wp) as (n1 & wm & Hm & Gm).
  eassert (Hmeta : buildMeta b noSource true fa wp = (Ok (mkMeta "unknown" _ _ _ _ _ _ _ _ _ _ _), wm))
    by (unfold buildMeta; rewrite (bind_ok (sourceGeneration (so_Key noSource)) _ _ _ _ Hm); reflexivity).
  destruct (sourceGeneration_run "unknown" wm) as (n2 & wg & Hg & Gg).
  rewrite Gm, Gp in Gg. injection Gg as Ggis Gnow.
  assert (Ha : cache_accepted (queryHash rq) "unknown" = true).
  { unfold cache_accepted, queryHash. rewrite length_hex_string. apply andb_true_intro; split; [clear - Hl; apply Z.leb_le; lia|done]. }
  pose proof (storeCache_run (queryHash rq) emptyCollection "unknown" n2 wg Hf Ha) as Hs.
  match type of Hs with _ = (_, ?x) => set (w1 := x) in * end.
  assert (Hfirst : ∃ meta1, Fetch cfg rq None w = (Ok (answer cfg "miss" emptyCollection meta1 fa), w1) ∧ Degraded meta1 = true).
  { unfold Fetch. rewrite Hb, Hspan, Hq. fold fa. rewrite (bind_ok _ _ _ _ _ Hmiss), (bind_ok _ _ _ _ _ Hp).
    rewrite bool_decide_true by done. unfold serveLive.
    rewrite (fetchLive_fails wp b false (sourcesForBBox b) (Hsrc wp) Hne). fold fa.
    rewrite (bind_ok _ _ _ _ _ Hmeta). cbn [SourceUsed set_degraded]. rewrite (bind_ok _ _ _ _ _ Hg).
    unfold bind, ignore. rewrite Hs. by eexists. }
  destruct Hfirst as (meta1 & H1 & D1).
  destruct (fromCache (queryHash rq) fa QueryTypeParcel (set_now t w1)) as [r w2] eqn:Hhit.
  unfold fromCache, stmt in Hhit. rewrite Hf in Hhit. cbn in Hhit. rewrite lookup_insert_eq in Hhit. cbn in Hhit.
  rewrite (proj2 (Z.ltb_lt _ _)) in Hhit by (rewrite Gnow; exact Ht). injection Hhit as <- <-.
  eexists meta1, w1, _, _. split; [exact H1|]. split; [exact D1|]. split.
  - unfold Fetch. rewrite Hb, Hspan, Hq. fold fa. unfold bind at 1, fromCache, stmt. rewrite Hf. cbn.
    rewrite lookup_insert_eq. cbn. rewrite (proj2 (Z.ltb_lt _ _)) by (rewrite Gnow; exact Ht). reflexivity.
  - reflexivity.
Qed.
End ProxyLaws.

(** ** Concrete runs *)

#[local] Existing Instance never_fails.
#[local] Existing Instance samplePostGIS.
#[local] Instance deadServers : ArcGIS := λ _ _, AgFail "connection refused".
#[local] Instance listOrder : MapOrder := countySyncBBoxes.

Definition tampaRequest : GisRequest :=
  mkGisRequest {["bbox" := "-82.5,27.9,-82.4,28.0"]} "bbox=-82.5,27.9,-82.4,28.0" None.
Definition tampaBox : BBox := Eval vm_compute in bbox_of "-82.5" "27.9" "-82.4" "28.0".

Lemma outage_cached_as_healthy_witness : ∃ meta1 w1 meta2 w2,
  Fetch defaultConfig tampaRequest None (empty_world 0) =
    (Ok (answer defaultConfig "miss" emptyCollection meta1 (requestFullAccess tampaRequest)), w1) ∧
  Degraded meta1 = true ∧
  Fetch defaultConfig tampaRequest None (set_now 60 w1) =
    (Ok (answer defaultConfig "edge" emptyCollection meta2 (requestFullAccess tampaRequest)), w2) ∧
  Degraded meta2 = false.
Proof.
  apply (outage_cached_as_healthy defaultConfig tampaRequest tampaBox (empty_world 0) 60);
    try (vm_compute; reflexivity).
  - vm_compute. lia.
  - intros v src _. by eexists.
  - vm_compute. discriminate.
Defined.

Definition citiesRequest : GisRequest :=
  mkGisRequest {["bbox" := "-82.5,27.9,-82.4,28.0"; "type" := "city"]} "bbox=-82.5,27.9,-82.4,28.0&type=city" (Some false).

Lemma boundary_requests_empty_witness : ∃ meta doc w',
  Fetch defaultConfig citiesRequest (Some "stellar") (empty_world 0) = (Ok (Sent "miss" (RawText (Some (JObj doc)))), w') ∧
  doc !! "features" = Some (JArr []) ∧
  Sent "miss" (RawText (Some (JObj doc))) = answer defaultConfig "miss" emptyCollection meta (requestFullAccess citiesRequest) ∧
  Degraded meta = true.
Proof.
  eapply (boundary_requests_empty defaultConfig citiesRequest (Some "stellar") tampaBox);
    try (vm_compute; reflexivity). vm_compute. discriminate.
Defined.

Lemma long_query_never_cached_witness :
  gt_cache (w_gis (Fetch defaultConfig citiesRequest None (empty_world 0)).2) = ∅.
Proof. rewrite (long_query_never_cached defaultConfig citiesRequest None (empty_world 0)); [reflexivity|vm_compute; lia]. Defined.

Definition sampleFeatures : list json :=
  (λ x, JObj {["geometry" := JObj {["coordinates" := JArr [JNum (NFlt (lit x)); JNum (NInt 28)]]}]}) <$>
    ["-82.123456789"; "-82.987654321"].
Definition twoAndTwo : GISConfig := Eval vm_compute in cfg_GIS (Load (λ k,
  if bool_decide (k = "GIS_TEASER_MAX_FEATURES") then "1" else if bool_decide (k = "GIS_TEASER_COORD_DECIMALS") then "2" else EmptyString)).

Lemma teaser_functional_witness :
  applyTeaser (RawText (Some (JObj {["features" := JArr sampleFeatures]}))) twoAndTwo false =
  (RawText (Some (JObj {["features" := JArr [JObj {["geometry" := JObj {["coordinates" :=
      JArr [JNum (NFlt (lit "-82.12")); JNum (NFlt (lit "28"))]]}]}]]})), true).
Proof.
  rewrite (teaser_functional twoAndTwo {["features" := JArr sampleFeatures]} sampleFeatures) by (vm_compute; reflexivity).
  vm_compute. reflexivity.
Defined.
