(* ===== verification/Caches.v ===== *)
(** * The caches and the crypto prices (packages [cache], [compscache], [crypto])

    The proxy cache (mls_search_cache), the closed comparables (listings_cache), the purge
    job over both, and the CoinGecko snapshots with their injection into a response. gzip is
    its round trip: a compressed column holds the body itself. *)

From Stdlib Require Import Ascii String.
From stdpp Require Import gmap strings list sorting.
From S2P Require Import Prelude GoStrings GoTime GoFloat GoNum GoJson Payload Config GisData CacheData Database Queue Worker.

Open Scope Z_scope.
Open Scope string_scope.

(** ** Fingerprints ([canonical.go]) *)

Definition newline : string := String (ascii_of_N 10) EmptyString.

(** What a request is to the fingerprint: the query values in the order they came. *)
Record CachedRequest := mkCachedRequest {
  cq_method : string;
  cq_query : list (string * string);
  cq_body : string;
}.

(** [c.Query(k)]: the first value. *)
Definition query_value (q : list (string * string)) (k : string) : string :=
  match list_find (λ kv, kv.1 = k) q with Some (_, (_, v)) => v | None => EmptyString end.

Definition fingerprint_keys (q : list (string * string)) : list string :=
  sort_strings (filter (λ k, EqualFold k "domain" = false) (dedup_from ∅ q.*1)).

(** The bytes that are hashed. *)
Definition fingerprint_text (rq : CachedRequest) (upstreamPath : string) : string :=
  cq_method rq +:+ newline +:+ upstreamPath +:+ newline +:+
  foldr (λ k s, k +:+ "=" +:+ query_value (cq_query rq) k +:+ newline +:+ s) (cq_body rq)
    (fingerprint_keys (cq_query rq)).

(** [sha256_hex] is the digest, a parameter. *)
Definition FingerprintRequest (sha256_hex : string → string) (rq : CachedRequest) (upstreamPath : string) : string :=
  sha256_hex (fingerprint_text rq upstreamPath).

Definition WebPartition (domainSlug feedCode auditType : string) : string :=
  domainSlug +:+ ":" +:+ feedCode +:+ ":web:" +:+ auditType.
Definition ResoPartition (domainSlug feedCode entity : string) : string :=
  domainSlug +:+ ":" +:+ feedCode +:+ ":reso:" +:+ entity.
Definition SearchPartition (domainSlug feedCode : string) : string := domainSlug +:+ ":" +:+ feedCode +:+ ":search".
Definition LookupPartition (domainSlug feedCode : string) : string := domainSlug +:+ ":" +:+ feedCode +:+ ":lookup".

(** The order PostgreSQL gives rows a statement does not order. *)
Class RowOrder := {
  row_order : ∀ A, list A → list A;
  row_order_perm : ∀ A (l : list A), row_order A l ≡ₚ l;
}.

Definition too_long : string := "value too long for type character varying".

Definition on_caches (f : CacheTables → CacheTables) : M World unit := modify (λ w, set_caches (f (w_caches w)) w).

Section Caches.
Context {F : Faults} {RO : RowOrder} (cfg : Config).

(** ** The proxy cache ([proxy_cache.go]) *)

Definition TTLForPartition (partition : string) : Z :=
  if HasSuffix partition ":lookup" then br_LookupCacheTTL (cfg_Bridge cfg) else br_ListingsCacheTTL (cfg_Bridge cfg).

(** A failing query is a miss. *)
Definition CacheGet (partition fingerprint : string) : M World (option RawMessage) := λ w,
  match stmt (get (λ w, ct_search (w_caches w) !! (partition, fingerprint))) w with
  | (Ok (Some r), w') =>
      if (TTLForPartition partition <? w_now w' - sc_last_updated r)%Z then (Ok None, w') else (Ok (Some (sc_data r)), w')
  | (_, w') => (Ok None, w')
  end.

Definition CachePut (partition fingerprint : string) (body : RawMessage) : M World unit :=
  stmt (λ w, if char_fits 255 partition && char_fits 64 fingerprint
             then on_caches (λ t, set_search (<[(partition, fingerprint) := mkSearchCache body (w_now w)]> (ct_search t)) t) w
             else (Err too_long, w)).

(** [DELETE ... WHERE last_updated < cutoff], with how many rows it took. *)
Definition SearchPurgeExpired : M World Z :=
  let days := mls_ProxyCacheRetentionDays (cfg_MLS cfg) in
  let days := if (days <=? 0)%Z then 30 else days in
  let* now := get w_now in
  stmt (λ w, let kept := filter (λ kv, (sc_last_updated kv.2 <? add_date now 0 0 (- days))%Z = false) (ct_search (w_caches w)) in
             (Ok (Z.of_nat (size (ct_search (w_caches w)) - size kept)), set_caches (set_search kept (w_caches w)) w)).

(** ** Closed comparables ([comps_cache/listings.go]) *)

Record ClosedUpsertRow := mkClosedUpsert {
  cu_ListingKey : string;
  cu_StandardStatus : string;
  cu_CloseDate : option Z;
  cu_Latitude : option float64;
  cu_Longitude : option float64;
  cu_ClosePrice : option float64;
  cu_PayloadRaw : RawMessage;
}.
Record CachedClosedRow := mkCachedClosed {
  cc_ListingKey : string;
  cc_Payload : RawMessage;
  cc_Latitude : float64;
  cc_Longitude : float64;
}.
Record ScopeQuery := mkScopeQuery { sq_Type : string; sq_RadiusMiles : option float64; sq_PostalCodes : list string }.

(** The DATE of an instant. *)
Definition date_of (t : Z) : Z := t / (24 * hour) * (24 * hour).

(** NUMERIC(14,2) keeps two decimals: positive from half a cent. *)
Definition price_positive (o : option float64) : bool :=
  match o with Some p => f_le (lit "0.005") p | None => false end.

(** The rows of a domain's feed that are closed since the cutoff, fresh, priced and in the box. *)
Definition closed_in_scope (domainSlug feedCode : string) (lat lng deg : float64) (closeCutoff maxAge now : Z)
    (k : string * string * string) (r : closed_row) : bool :=
  bool_decide (k.1.1 = domainSlug) && bool_decide (k.1.2 = feedCode) &&
  bool_decide (ToLower (TrimSpace (cl_standard_status r)) = "closed") &&
  match cl_close_date r with Some d => (date_of closeCutoff <=? d)%Z | None => false end &&
  (now - maxAge <=? cl_last_refreshed_at r)%Z && price_positive (cl_close_price r) &&
  match cl_latitude r, cl_longitude r with
  | Some a, Some b => f_le (f_sub lat deg) a && f_le a (f_add lat deg) && f_le (f_sub lng deg) b && f_le b (f_add lng deg)
  | _, _ => false
  end.

Definition closed_date_ge (a b : string * closed_row) : Prop :=
  default 0 (cl_close_date b.2) <= default 0 (cl_close_date a.2).
#[local] Instance closed_date_ge_dec : RelDecision closed_date_ge.
Proof. intros a b. unfold closed_date_ge. apply _. Defined.

Definition FindClosedInScope (domainSlug feedCode : string) (lat lng : float64) (scope : ScopeQuery)
    (closeCutoff maxAge limit : Z) : M World (list CachedClosedRow) :=
  if bool_decide (domainSlug = EmptyString) || bool_decide (feedCode = EmptyString) || (limit <=? 0)%Z then ret []
  else if EqualFold (sq_Type scope) "zip" then ret []
  else
    let radius := match sq_RadiusMiles scope with Some r => if f_lt f_zero r then r else f_of_Z 5 | None => f_of_Z 5 end in
    let deg := f_div radius (f_of_Z 69) in
    stmt (get (λ w,
      (λ kr, mkCachedClosed kr.1 (cl_payload kr.2) (default f_zero (cl_latitude kr.2)) (default f_zero (cl_longitude kr.2)))
      <$> take (Z.to_nat limit) (merge_sort closed_date_ge (row_order _
            (omap (λ kr, if closed_in_scope domainSlug feedCode lat lng deg closeCutoff maxAge (w_now w) kr.1 kr.2
                         then Some (kr.1.2, kr.2) else None) (map_to_list (ct_closed (w_caches w)))))))).

Definition closed_accepted (domainSlug feedCode : string) (r : ClosedUpsertRow) : bool :=
  char_fits 255 domainSlug && char_fits 64 feedCode && char_fits 191 (cu_ListingKey r) &&
  char_fits 64 (ToLower (TrimSpace (cu_StandardStatus r))) &&
  match cu_ClosePrice r with Some p => f_lt (f_abs p) (lit "999999999999.995") | None => true end.

Definition put_closed (domainSlug feedCode : string) (now : Z) (r : ClosedUpsertRow) (t : CacheTables) : CacheTables :=
  let k := (domainSlug, feedCode, cu_ListingKey r) in
  let status := ToLower (TrimSpace (cu_StandardStatus r)) in
  set_closed (<[k := {| cl_standard_status := if bool_decide (status = EmptyString) then "closed" else status;
      cl_close_date := date_of <$> cu_CloseDate r; cl_latitude := cu_Latitude r; cl_longitude := cu_Longitude r;
      cl_close_price := cu_ClosePrice r; cl_payload := cu_PayloadRaw r;
      cl_first_cached_at := match ct_closed t !! k with Some old => cl_first_cached_at old | None => now end;
      cl_last_refreshed_at := now |}]> (ct_closed t)) t.

Definition UpsertClosedBatch (domainSlug feedCode : string) (rows : list ClosedUpsertRow) : M World unit :=
  let* now := get w_now in
  for_each (λ r, stmt (λ w, if closed_accepted domainSlug feedCode r
                            then on_caches (put_closed domainSlug feedCode now r) w else (Err too_long, w))) rows.

Definition ClosedPurgeExpired (retentionDays : Z) : M World Z :=
  let days := if (retentionDays <=? 0)%Z then 30 else retentionDays in
  let* now := get w_now in
  stmt (λ w, let kept := filter (λ kv, (cl_last_refreshed_at kv.2 <? add_date now 0 0 (- days))%Z = false) (ct_closed (w_caches w)) in
             (Ok (Z.of_nat (size (ct_closed (w_caches w)) - size kept)), set_caches (set_closed kept (w_caches w)) w)).

(** The handler of [mls.proxy_cache_purge] ([refresh_job.go]). *)
Definition RefreshJobRun (job : ReservedJob) : M World unit :=
  let* n := SearchPurgeExpired in
  let* closed := ClosedPurgeExpired (comps_ClosedCacheDays (cfg_Comps cfg)) in
  ret tt.
End Caches.

(** ** Crypto prices ([assets.go], [pricing.go], [pricing_reader.go]) *)

Definition coingeckoTrackedAssets : list (string * string) :=
  [("bitcoin", "btc"); ("ethereum", "eth"); ("solana", "sol"); ("ripple", "xrp")].
Definition coingeckoIDs : list string := coingeckoTrackedAssets.*1.
Definition assetKeyForCoingeckoID (id : string) : option string :=
  match list_find (λ a, a.1 = id) coingeckoTrackedAssets with Some (_, (_, k)) => Some k | None => None end.

(** What CoinGecko answers: no connection, or a body. *)
Class CoinGecko := coingecko_get : World → string → res text.

Section Crypto.
Context {F : Faults} {RO : RowOrder} {CG : CoinGecko} (cfg : Config).

Definition pricingURL : string :=
  TrimRightByte (cg_BaseURL (cfg_Coingecko cfg)) "/"%char +:+ "/simple/price?ids=" +:+ Join coingeckoIDs "," +:+ "&vs_currencies=usd".

(** [map[string]map[string]float64]: null is an empty map, or a zero price. *)
Definition decode_quotes (v : json) : option (list (string * float64)) :=
  match v with
  | JObj m => mapM (λ kv, match kv.2 with
                          | JNum n => Some (kv.1, num_float n)
                          | JNull => Some (kv.1, f_zero)
                          | _ => None
                          end) (map_to_list m)
  | JNull => Some []
  | _ => None
  end.
Definition decode_prices (body : text) : option (list (string * list (string * float64))) :=
  match body with
  | Some (JObj m) => mapM (λ kv, (λ q, (kv.1, q)) <$> decode_quotes kv.2) (map_to_list m)
  | Some JNull => Some []
  | _ => None
  end.

Definition price_accepted (key cur : string) (p : float64) : bool :=
  char_fits 32 key && char_fits 8 cur && f_lt (f_abs p) (lit "1000000000000").

Definition put_price (key cur : string) (p : float64) (now : Z) : M World unit :=
  stmt (λ w, if price_accepted key cur p
             then on_caches (λ t, set_prices (<[(key, cur) := mkPrice p now]> (ct_prices t)) t) w
             else (Err too_long, w)).

(** [Refresh]: the maps are ranged over in the order [row_order] leaves open; the errors of
    the statements are dropped. *)
Definition CryptoRefresh : M World unit :=
  let* body := (λ w, (coingecko_get w pricingURL, w)) in
  match decode_prices body with
  | None => throw "json"
  | Some prices =>
      let* now := get w_now in
      for_each (λ '(asset, quotes), match assetKeyForCoingeckoID asset with
                                    | None => ret tt
                                    | Some key => for_each (λ '(cur, p), ignore (put_price key cur p now)) (row_order _ quotes)
                                    end) (row_order _ prices)
  end.

(** [LatestSnapshot] *)
Definition LatestSnapshot : M World (gmap string float64) :=
  stmt (get (λ w, list_to_map (omap (λ kr, if bool_decide (kr.1.2 = "usd") then Some (kr.1.1, px_price kr.2) else None)
                                 (map_to_list (ct_prices (w_caches w)))))).

(** [InjectIntoJSON]; [None]: assigning to the nil map of a null document panics. *)
Definition InjectIntoJSON (body : RawMessage) : M World (option RawMessage) := λ w,
  match LatestSnapshot w with
  | (Ok snap, w') =>
      if bool_decide (snap = ∅) then (Ok (Some body), w')
      else match unmarshal_map body with
           | Err _ => (Ok (Some body), w')
           | Ok None => (Ok None, w')
           | Ok (Some doc) =>
               let prices := JObj ((λ p, JNum (NFlt p)) <$> snap) in
               (Ok (Some (RawText (Some (JObj (<["pricing_converted" := prices]> (<["pricing" := prices]> (as_any <$> doc))))))), w')
           end
  | (Err _, w') => (Ok (Some body), w')
  end.
End Crypto.

(** ** Laws *)

Section CacheLaws.
Context {F : Faults} {NF : NoFaults} (cfg : Config).

(** What the proxy cache stores it gives back until its partition's time to live is over,
    and no longer: a hit within it is the stored body, and after it the entry is a miss. *)
Theorem proxy_cache_roundtrip partition fingerprint body w w1 w2 :
  char_fits 255 partition = true → char_fits 64 fingerprint = true →
  CachePut partition fingerprint body w = (Ok tt, w1) →
  ct_search (w_caches w2) !! (partition, fingerprint) = ct_search (w_caches w1) !! (partition, fingerprint) →
  (CacheGet cfg partition fingerprint w2).1 =
    Ok (if (w_now w2 - w_now w <=? TTLForPartition cfg partition)%Z then Some body else None).
Proof.
  intros Hp Hf Hput Hsame. unfold CachePut in Hput. rewrite stmt_run in Hput. rewrite Hp, Hf in Hput.
  injection Hput as <-. cbn in Hsame. rewrite lookup_insert_eq in Hsame.
  unfold CacheGet. rewrite stmt_run. cbn. rewrite Hsame. cbn.
  destruct (Z.ltb_spec (TTLForPartition cfg partition) (w_now w2 - w_now w));
    destruct (Z.leb_spec (w_now w2 - w_now w) (TTLForPartition cfg partition)); done || lia.
Qed.
End CacheLaws.

Definition q_get (q : list (string * string)) : CachedRequest := mkCachedRequest "GET" q EmptyString.

(** The fingerprint does not separate requests: a value that holds a line break makes the
    text of one query the text of two, so requests that differ share a cache entry under every
    digest. *)
Theorem fingerprint_collision sha256_hex path k1 v1 k2 v2 :
  EqualFold k1 "domain" = false → EqualFold k2 "domain" = false → k1 ≠ k2 → str_leb k1 k2 = true →
  FingerprintRequest sha256_hex (q_get [(k1, v1 +:+ newline +:+ k2 +:+ "=" +:+ v2)]) path =
  FingerprintRequest sha256_hex (q_get [(k1, v1); (k2, v2)]) path.
Proof.
  intros H1 H2 Hne Hle. unfold FingerprintRequest, fingerprint_text, q_get. cbn [cq_method cq_query cq_body]. f_equal.
  do 4 f_equal.
  assert (K1 : ∀ v, fingerprint_keys [(k1, v)] = [k1]).
  { intros v. unfold fingerprint_keys. change ([(k1, v)].*1) with [k1].
    assert (dedup_from ∅ [k1] = [k1]) as -> by (simpl; by rewrite decide_False by set_solver).
    by rewrite filter_keep_all by by repeat constructor. }
  assert (K2 : fingerprint_keys [(k1, v1); (k2, v2)] = [k1; k2]).
  { unfold fingerprint_keys. change ([(k1, v1); (k2, v2)].*1) with [k1; k2].
    assert (dedup_from ∅ [k1; k2] = [k1; k2]) as -> by (simpl; rewrite !decide_False by set_solver; done).
    rewrite filter_keep_all by by repeat constructor. unfold sort_strings, merge_sort; simpl. by rewrite decide_True. }
  rewrite K1, K2. cbn [foldr].
  assert (Q1 : ∀ v r, query_value ((k1, v) :: r) k1 = v) by (intros v r; unfold query_value; cbn; by rewrite decide_True).
  assert (Q2 : query_value [(k1, v1); (k2, v2)] k2 = v2).
  { unfold query_value. cbn. rewrite decide_False by done. cbn. by rewrite decide_True. }
  rewrite !Q1, Q2. by rewrite !string_app_assoc.
Qed.

Lemma fingerprint_collision_witness :
  FingerprintRequest (λ s, s) (q_get [("city", "Tampa" +:+ newline +:+ "limit" +:+ "=" +:+ "5")]) "/listings" =
  FingerprintRequest (λ s, s) (q_get [("city", "Tampa"); ("limit", "5")]) "/listings".
Proof. apply fingerprint_collision; try reflexivity. discriminate. Defined.

Definition afterPut : World := (CachePut (F:=never_fails) "d:f:search" "ab" (RawText (Some (JBool true))) (empty_world 0)).2.

Lemma proxy_cache_roundtrip_witness :
  (CacheGet (F:=never_fails) defaultConfig "d:f:search" "ab" (set_now (900 * second) afterPut)).1 =
  Ok (Some (RawText (Some (JBool true)))).
Proof.
  refine (eq_trans (@proxy_cache_roundtrip never_fails never_fails_ok defaultConfig "d:f:search" "ab" (RawText (Some (JBool true)))
    (empty_world 0) afterPut (set_now (900 * second) afterPut) eq_refl eq_refl eq_refl eq_refl) _).
  vm_compute. reflexivity.
Defined.
