(* ===== verification/ParcelSync.v ===== *)
(** * The parcel sync (package [gis], [sync_parcels.go])

    The kickoff enqueues one page job per source; a page job fetches an ArcGIS page, upserts
    its parcels and enqueues the next page, or deletes what older generations left. *)

From Stdlib Require Import Ascii String.
From stdpp Require Import gmap strings list.
From S2P Require Import Prelude GoStrings GoTime GoFloat GoNum GoJson Payload Config GisData Database Queue Worker Upstream GisRepo GisFetch.

Open Scope Z_scope.
Open Scope string_scope.

(** ** Job arguments *)

Record ParcelSyncPageArgs := mkPageArgs {
  ps_SourceKey : string;
  ps_County : string;
  ps_QueryURL : string;
  ps_SyncMode : string;
  ps_ArcGISWhere : string;
  ps_ResponseFormat : string;
  ps_BBox : BBox;
  ps_ParcelIDFields : list string;
  ps_Offset : Z;
  ps_Generation : Z;
}.

#[export] Instance ParcelSyncPageArgs_codec : JsonCodec ParcelSyncPageArgs := {
  marshal a := mk_obj [("source_key", enc_string (ps_SourceKey a)); ("county", enc_string (ps_County a));
    ("query_url", enc_string (ps_QueryURL a)); ("sync_mode", enc_string (ps_SyncMode a));
    ("arcgis_where", omit_string (ps_ArcGISWhere a)); ("response_format", omit_string (ps_ResponseFormat a));
    ("bbox_west", enc_float (West (ps_BBox a))); ("bbox_south", enc_float (South (ps_BBox a)));
    ("bbox_east", enc_float (East (ps_BBox a))); ("bbox_north", enc_float (North (ps_BBox a)));
    ("parcel_id_fields", omit_strings (ps_ParcelIDFields a)); ("offset", enc_int (ps_Offset a));
    ("generation", enc_int (ps_Generation a))];
  unmarshal j := with_object j (λ m,
    sk ← dec_string (m !! "source_key"); co ← dec_string (m !! "county");
    u ← dec_string (m !! "query_url"); md ← dec_string (m !! "sync_mode");
    wh ← dec_string (m !! "arcgis_where"); fmt ← dec_string (m !! "response_format");
    bw ← dec_float (m !! "bbox_west"); bs ← dec_float (m !! "bbox_south");
    be ← dec_float (m !! "bbox_east"); bn ← dec_float (m !! "bbox_north");
    ids ← dec_strings (m !! "parcel_id_fields"); off ← dec_int (m !! "offset");
    g ← dec_int (m !! "generation");
    Some (mkPageArgs sk co u md wh fmt (mkBBox bw bs be bn) ids off g));
}.
#[export] Instance ParcelSyncPageArgs_roundtrip : JsonRoundTrip ParcelSyncPageArgs.
Proof. intros [? ? ? ? ? ? [] ? ? ?]. unfold unmarshal, marshal; simpl. codec_tac. done. Qed.

Definition UnmarshalParcelSyncPageArgs : RawMessage → option ParcelSyncPageArgs := decode_args.

Definition argsFromSpec (spec : ParcelSourceSpec) (gen offset : Z) : ParcelSyncPageArgs :=
  {| ps_SourceKey := sp_SourceKey spec; ps_County := sp_CountySlug spec; ps_QueryURL := sp_QueryURL spec;
     ps_SyncMode := sp_SyncMode spec; ps_ArcGISWhere := sp_ArcGISWhere spec;
     ps_ResponseFormat := sp_ResponseFormat spec; ps_BBox := sp_SyncBBox spec;
     ps_ParcelIDFields := sp_ParcelIDFields spec; ps_Offset := offset; ps_Generation := gen |}.

Definition at_offset (o : Z) (a : ParcelSyncPageArgs) : ParcelSyncPageArgs :=
  mkPageArgs (ps_SourceKey a) (ps_County a) (ps_QueryURL a) (ps_SyncMode a) (ps_ArcGISWhere a)
    (ps_ResponseFormat a) (ps_BBox a) (ps_ParcelIDFields a) o (ps_Generation a).

Definition parcelSourceRowsFromSpecs (specs : list ParcelSourceSpec) : list ParcelSourceRow :=
  (λ s, {| sr_SourceKey := sp_SourceKey s; sr_CountySlug := sp_CountySlug s; sr_QueryURL := sp_QueryURL s;
           sr_SyncMode := sp_SyncMode s; sr_ArcGISWhere := strPtr (sp_ArcGISWhere s);
           sr_BBoxWest := Some (West (sp_SyncBBox s)); sr_BBoxSouth := Some (South (sp_SyncBBox s));
           sr_BBoxEast := Some (East (sp_SyncBBox s)); sr_BBoxNorth := Some (North (sp_SyncBBox s));
           sr_HTTPTimeoutSec := if (0 <? sp_HTTPTimeoutSec s)%Z then Some (sp_HTTPTimeoutSec s) else None;
           sr_PageSize := None; sr_MLSFeed := sp_MLSFeed s; sr_Enabled := sp_Enabled s;
           sr_Priority := sp_Priority s; sr_Notes := strPtr (sp_Notes s) |}) <$> specs.

Section ParcelSync.
Context {F : Faults} {PG : PostGIS} {AG : ArcGIS} {FT : GoFloatText} {JT : GoJsonText} (cfg : Config).

Definition syncQueue : string :=
  let q := gis_SyncQueue (cfg_GIS cfg) in if bool_decide (q = EmptyString) then "default" else q.

Definition enqueuePage (args : ParcelSyncPageArgs) : M World unit :=
  Enqueue syncQueue TypeGISParcelSyncPage (Some (marshal args)) 0 ;;; ret tt.

(** ** The kickoff *)

Definition parcelSyncTargets (countyFilter : string) : list ParcelSourceSpec :=
  filter (λ s, (bool_decide (countyFilter = EmptyString) || bool_decide (sp_CountySlug s = countyFilter)) = true)
    (EnabledParcelSourcesForConfig (cfg_GIS cfg)).

(** The loop over the targets; [seen] holds the generations bumped so far. *)
Fixpoint kickoffTargets (seen : gmap string Z) (targets : list ParcelSourceSpec) : M World unit :=
  match targets with
  | [] => ret tt
  | spec :: rest =>
      let key := sp_SourceKey spec in
      let* active := HasActiveParcelSyncJob syncQueue key in
      if active then kickoffTargets seen rest
      else
        EnsureSourceState key ;;;
        let* seen := (match seen !! key with
                      | Some _ => ret seen
                      | None => let* gen := BumpSourceGeneration key in ret (<[key := gen]> seen)
                      end) in
        enqueuePage (argsFromSpec spec (default 0 (seen !! key)) 0) ;;;
        kickoffTargets seen rest
  end.

Definition kickoff (countyFilter : string) : M World unit :=
  match parcelSyncTargets countyFilter with
  | [] => throw "no parcel sync targets"
  | targets =>
      EnsureParcelSourceCatalog (parcelSourceRowsFromSpecs ParcelSourceCatalog) ;;;
      kickoffTargets ∅ targets
  end.

Definition RunMonthlyRefresh : M World unit := kickoff EmptyString.

Definition ParcelRunInitialSync : M World unit :=
  let* empty := IsPersistentEmpty in
  if empty then kickoff EmptyString
  else
    let* parcels := CountParcels in
    if (0 <? parcels)%Z then ret tt else kickoff EmptyString.

Definition KickoffCounty (countySlug : string) : M World unit :=
  if bool_decide (countySlug = EmptyString) then throw "county slug required"
  else match parcelSyncTargets countySlug with
       | [] => throw "unknown or disabled county"
       | _ => kickoff countySlug
       end.

(** ** One page *)

(** The spec a page job's arguments describe. *)
Definition specOfArgs (args : ParcelSyncPageArgs) : ParcelSourceSpec :=
  {| sp_SourceKey := ps_SourceKey args; sp_CountySlug := ps_County args; sp_QueryURL := ps_QueryURL args;
     sp_SyncMode := if bool_decide (ps_SyncMode args = EmptyString) then SyncModeBBox else ps_SyncMode args;
     sp_ArcGISWhere := ps_ArcGISWhere args; sp_SyncBBox := ps_BBox args;
     sp_ResponseFormat := if bool_decide (ps_ResponseFormat args = EmptyString) then FormatGeoJSON
                          else ps_ResponseFormat args;
     sp_MLSFeed := EmptyString; sp_Enabled := false; sp_Priority := 0;
     sp_HTTPTimeoutSec := match ParcelSourceSpecByKey (ps_SourceKey args) with
                          | Some c => if (0 <? sp_HTTPTimeoutSec c)%Z then sp_HTTPTimeoutSec c else 0
                          | None => 0
                          end;
     sp_ParcelIDFields := ps_ParcelIDFields args; sp_Notes := EmptyString |}.

Definition is_zero_bbox (b : BBox) : bool :=
  f_eq (West b) f_zero && f_eq (South b) f_zero && f_eq (East b) f_zero && f_eq (North b) f_zero.

Definition pageBBox (args : ParcelSyncPageArgs) : BBox :=
  if is_zero_bbox (ps_BBox args) then countyBBox (ps_County args) else ps_BBox args.

(** The county of a feature: the source's, or for the statewide layer the pilot county its
    CO_NO names; [None] skips the feature. *)
Definition featureCounty (args : ParcelSyncPageArgs) (feat : ArcGISFeature) : option string :=
  if IsStatewideCadastralSource (ps_SourceKey args) then
    coNo ← CONOFromProperties (ft_Properties feat);
    slug ← CountySlugFromCONO coNo;
    if IsMLSPilotCounty slug then Some slug else None
  else Some (ps_County args).

Definition parcelOf (args : ParcelSyncPageArgs) (feat : ArcGISFeature) : option ParcelRow :=
  county ← featureCounty args feat;
  match ExtractParcelRow feat (ps_SourceKey args) county (ps_Generation args) (Some EmptyString) (ps_ParcelIDFields args) with
  | Ok row => Some row
  | Err _ => None
  end.

Definition upsertChunkSize : Z :=
  let c := gis_SyncUpsertChunk (cfg_GIS cfg) in if (c <=? 0)%Z then 500 else c.

(** The loop over the features: a full batch is written and emptied. *)
Fixpoint upsertFeatures (args : ParcelSyncPageArgs) (batch : list ParcelRow) (feats : list ArcGISFeature)
    : M World (list ParcelRow) :=
  match feats with
  | [] => ret batch
  | feat :: rest =>
      match parcelOf args feat with
      | None => upsertFeatures args batch rest
      | Some row =>
          let batch := (batch ++ [row])%list in
          if (upsertChunkSize <=? Z.of_nat (length batch))%Z
          then BulkUpsertParcels batch upsertChunkSize ;;; upsertFeatures args [] rest
          else upsertFeatures args batch rest
      end
  end.

Definition syncPageSize : Z :=
  let n := gis_SyncPageSize (cfg_GIS cfg) in if (n <=? 0)%Z then 2000 else n.

(** After the last page: what older generations left is deleted. *)
Definition finishParcels (args : ParcelSyncPageArgs) : M World unit :=
  DeleteStaleParcels (ps_SourceKey args)
    (if IsStatewideCadastralSource (ps_SourceKey args) then EmptyString else ps_County args) (ps_Generation args) ;;;
  ignore (TouchParcelSourceSynced (ps_SourceKey args)).

Definition handlePage (args : ParcelSyncPageArgs) (page : ArcGISPageResult) : M World unit :=
  if bool_decide (ag_Features page = []) && (ps_Offset args =? 0)%Z then throw "gis parcel sync empty first page"
  else
    let* batch := upsertFeatures args [] (ag_Features page) in
    (match batch with [] => ret tt | _ => BulkUpsertParcels batch upsertChunkSize end) ;;;
    if ag_ExceededTransferLimit page || (syncPageSize <=? Z.of_nat (length (ag_Features page)))%Z
    then enqueuePage (at_offset (ps_Offset args + syncPageSize) args)
    else finishParcels args.

Definition fetchParcels (args : ParcelSyncPageArgs) (w : World) : res ArcGISPageResult :=
  res_bind (FetchParcelPage (cfg_GIS cfg) w (specOfArgs args) (pageBBox args) (ps_Offset args)
              (gis_SyncPageSize (cfg_GIS cfg))) ParseFeatureCollection.

Definition SyncPage (args : ParcelSyncPageArgs) : M World unit :=
  let* page := (λ w, (fetchParcels args w, w)) in
  handlePage args page.

(** The handler of [gis.parcel_sync_page] ([handlers.go]). *)
Definition handleGISParcelSyncPage (job : ReservedJob) : M World unit :=
  match UnmarshalParcelSyncPageArgs (p_Args (rj_Payload job)) with
  | None => throw "json"
  | Some args => SyncPage args
  end.
End ParcelSync.

(** ** Promises to the queue *)

Section GisPromises.
Context {F : Faults} {PG : PostGIS} {AG : ArcGIS} {FT : GoFloatText} {JT : GoJsonText} (cfg : Config).

Ltac gis_statement := apply adds_only_stmt, adds_only_keeps; intros ?; repeat case_match; by split_and!.

Lemma adds_only_on_gis f : adds_only (stmt (on_gis f)).
Proof. unfold on_gis. gis_statement. Qed.
Lemma adds_only_SourceGeneration k : adds_only (SourceGeneration k).
Proof. unfold SourceGeneration. gis_statement. Qed.
Lemma adds_only_BumpSourceGeneration k : adds_only (BumpSourceGeneration k).
Proof. unfold BumpSourceGeneration. gis_statement. Qed.
Lemma adds_only_upsertParcelBatch rows : adds_only (upsertParcelBatch rows).
Proof. unfold upsertParcelBatch. gis_statement. Qed.
Lemma adds_only_DeleteStaleParcels k c g : adds_only (DeleteStaleParcels k c g).
Proof. unfold DeleteStaleParcels. gis_statement. Qed.
Lemma adds_only_upsertParcelSource r : adds_only (upsertParcelSource r).
Proof. unfold upsertParcelSource. gis_statement. Qed.
Lemma adds_only_TouchParcelSourceSynced k : adds_only (TouchParcelSourceSynced k).
Proof. unfold TouchParcelSourceSynced. gis_statement. Qed.
Lemma adds_only_HasActiveParcelSyncJob q k : adds_only (HasActiveParcelSyncJob q k).
Proof. unfold HasActiveParcelSyncJob. case_match; [apply adds_only_ret|]. gis_statement. Qed.
#[local] Hint Resolve adds_only_on_gis adds_only_BumpSourceGeneration adds_only_upsertParcelBatch
  adds_only_DeleteStaleParcels adds_only_upsertParcelSource adds_only_TouchParcelSourceSynced
  adds_only_HasActiveParcelSyncJob : go.

Lemma adds_only_CountBoundaries : adds_only CountBoundaries.
Proof. unfold CountBoundaries. adds_tac. Qed.
Lemma adds_only_CountParcels : adds_only CountParcels.
Proof. unfold CountParcels. adds_tac. Qed.
#[local] Hint Resolve adds_only_CountBoundaries adds_only_CountParcels : go.

Lemma adds_only_kickoffTargets seen l : adds_only (kickoffTargets cfg seen l).
Proof.
  revert seen. induction l as [|s l IH]; intros seen; cbn [kickoffTargets]; [apply adds_only_ret|].
  unfold EnsureSourceState, enqueuePage. adds_tac.
Qed.
#[local] Hint Resolve adds_only_kickoffTargets : go.

Lemma adds_only_kickoff c : adds_only (kickoff cfg c).
Proof. unfold kickoff, EnsureParcelSourceCatalog. adds_tac. Qed.
#[local] Hint Resolve adds_only_kickoff : go.

Lemma adds_only_ParcelRunInitialSync : adds_only (ParcelRunInitialSync cfg).
Proof. unfold ParcelRunInitialSync, IsPersistentEmpty. adds_tac. Qed.

Lemma adds_only_upsertFeatures args batch feats : adds_only (upsertFeatures cfg args batch feats).
Proof.
  revert batch. induction feats as [|f l IH]; intros batch; cbn [upsertFeatures]; [apply adds_only_ret|].
  unfold BulkUpsertParcels. adds_tac.
Qed.
#[local] Hint Resolve adds_only_upsertFeatures : go.

Lemma adds_only_handlePage args page : adds_only (handlePage cfg args page).
Proof. unfold handlePage, enqueuePage, finishParcels, BulkUpsertParcels. adds_tac. Qed.
#[local] Hint Resolve adds_only_handlePage : go.

Lemma adds_only_SyncPage args : adds_only (SyncPage cfg args).
Proof. unfold SyncPage. adds_tac. Qed.
#[local] Hint Resolve adds_only_SyncPage : go.

Lemma adds_only_handleGISParcelSyncPage job : adds_only (handleGISParcelSyncPage cfg job).
Proof. unfold handleGISParcelSyncPage. adds_tac. Qed.
End GisPromises.
#[export] Hint Resolve adds_only_on_gis adds_only_SourceGeneration adds_only_BumpSourceGeneration adds_only_CountBoundaries
  adds_only_CountParcels adds_only_kickoff adds_only_ParcelRunInitialSync adds_only_handleGISParcelSyncPage
  adds_only_SyncPage : go.

(** ** The chain of page jobs *)

(** The arguments of the page job a run enqueued, as its handler decodes them. *)
Definition next_page (w w' : World) : option ParcelSyncPageArgs :=
  match w_jobs w' !! w_job_seq w with
  | Some j => match UnmarshalPayload (j_payload j) with
              | Ok p => UnmarshalParcelSyncPageArgs (p_Args p)
              | Err _ => None
              end
  | None => None
  end.

Definition parcels (w : World) : gmap (string * string) ParcelRow := gt_parcels (w_gis w).

Definition with_parcels (t : gmap (string * string) ParcelRow) (s : SyncTimes) (n : nat) (w : World) : World :=
  set_ops n (set_gis (set_synced s (set_parcels t (w_gis w))) w).

Section ParcelLaws.
Context {F : Faults} {NF : NoFaults} {PG : PostGIS} {AG : ArcGIS} {FT : GoFloatText} {JT : GoJsonText} (cfg : Config).

(** The runs of a chain, each with the arguments the one before enqueued. *)
Fixpoint parcel_chain (fuel : nat) (args : ParcelSyncPageArgs) (w : World) : res unit * World :=
  match fuel with
  | O => (Err "chain not finished", w)
  | S fuel =>
      match SyncPage cfg args w with
      | (Err e, w') => (Err e, w')
      | (Ok _, w') => match next_page w w' with
                      | Some args' => parcel_chain fuel args' w'
                      | None => (Ok tt, w')
                      end
      end
  end.

Definition put_all (rows : list ParcelRow) (t : gmap (string * string) ParcelRow) := foldl put_parcel t rows.

Lemma put_all_app l1 l2 t : put_all (l1 ++ l2) t = put_all l2 (put_all l1 t).
Proof. apply foldl_app. Qed.

Definition rows_fit (rows : list ParcelRow) : Prop :=
  NoDup (parcel_key <$> rows) ∧ Forall (λ r, parcel_accepted r = true) rows.

Lemma rows_fit_app l1 l2 : rows_fit (l1 ++ l2) → rows_fit l1 ∧ rows_fit l2.
Proof.
  unfold rows_fit. rewrite fmap_app, NoDup_app, Forall_app. tauto.
Qed.

Lemma upsertParcelBatch_run rows w :
  rows_fit rows → upsertParcelBatch rows w =
    (Ok tt, with_parcels (put_all rows (parcels w)) (stamp_parcels (w_now w) rows (gt_synced (w_gis w))) (S (w_ops w)) w).
Proof.
  intros [Hn Ha]. unfold upsertParcelBatch. rewrite stmt_run, bool_decide_true by done. simpl negb. cbv beta iota.
  replace (forallb parcel_accepted rows) with true; [done|].
  symmetry. apply forallb_forall. intros r Hr. rewrite Forall_forall in Ha. by apply Ha, list_elem_of_In.
Qed.

Lemma for_each_batches l w :
  rows_fit (concat l) →
  ∃ s n, for_each upsertParcelBatch l w = (Ok tt, with_parcels (put_all (concat l) (parcels w)) s n w).
Proof.
  revert w. induction l as [|b l IH]; intros w Hf; simpl.
  - exists (gt_synced (w_gis w)), (w_ops w). by destruct w as [? ? ? ? ? ? ? ? ? ? ? [] ?].
  - simpl in Hf. apply rows_fit_app in Hf as [Hb Hl].
    rewrite (bind_ok _ _ _ _ _ (upsertParcelBatch_run b w Hb)).
    destruct (IH (with_parcels (put_all b (parcels w)) (stamp_parcels (w_now w) b (gt_synced (w_gis w))) (S (w_ops w)) w) Hl) as (s & n & Hn).
    exists s, n. rewrite Hn, put_all_app. done.
Qed.

Lemma BulkUpsertParcels_run rows c w :
  rows_fit rows → ∃ s n, BulkUpsertParcels rows c w = (Ok tt, with_parcels (put_all rows (parcels w)) s n w).
Proof.
  intros Hf. unfold BulkUpsertParcels. set (k := Z.to_nat _).
  assert (Hk : (0 < k)%nat) by (subst k; destruct (Z.leb_spec c 0); lia).
  destruct (for_each_batches (chunks k rows) w) as (s & n & Hn); rewrite chunks_concat in * by done; eauto.
Qed.

(** The rows a page's features make. *)
Definition parcels_of (args : ParcelSyncPageArgs) (feats : list ArcGISFeature) : list ParcelRow :=
  omap (parcelOf args) feats.

Lemma parcels_of_app args l1 l2 : parcels_of args (l1 ++ l2) = (parcels_of args l1 ++ parcels_of args l2)%list.
Proof. apply omap_app. Qed.

Lemma upsertFeatures_run args feats batch w :
  rows_fit (batch ++ parcels_of args feats) →
  ∃ rest t s n, upsertFeatures cfg args batch feats w = (Ok rest, with_parcels t s n w) ∧ rows_fit rest ∧
    put_all rest t = put_all (batch ++ parcels_of args feats) (parcels w).
Proof.
  revert batch w. induction feats as [|feat rest IH]; intros batch w Hf.
  - simpl in *. rewrite List.app_nil_r in *. exists batch, (parcels w), (gt_synced (w_gis w)), (w_ops w). split_and!; try done.
    by destruct w as [? ? ? ? ? ? ? ? ? ? ? [] ?].
  - simpl in *. destruct (parcelOf args feat) as [r|]; [|by apply IH]. simpl in Hf.
    replace (batch ++ r :: parcels_of args rest)%list with ((batch ++ [r]) ++ parcels_of args rest)%list in *
      by by rewrite <- List.app_assoc.
    case_match; [|by apply IH].
    apply rows_fit_app in Hf as [Hb Hr].
    destruct (BulkUpsertParcels_run (batch ++ [r]) (upsertChunkSize cfg) w Hb) as (s & n & Hn).
    rewrite (bind_ok _ _ _ _ _ Hn).
    destruct (IH [] (with_parcels (put_all (batch ++ [r]) (parcels w)) s n w) Hr) as (rs & t & s' & m & -> & Hfit & Hput).
    exists rs, t, s', m. split_and!; [done..|]. rewrite Hput. symmetry. apply put_all_app.
Qed.

(** What the last page of a chain deletes, and the rest. *)
Definition stale_for (args : ParcelSyncPageArgs) (r : ParcelRow) : bool :=
  stale_parcel (ps_SourceKey args)
    (if IsStatewideCadastralSource (ps_SourceKey args) then EmptyString else ps_County args)
    (ps_Generation args) r.

Definition swept (args : ParcelSyncPageArgs) (t : gmap (string * string) ParcelRow) :=
  filter (λ kv, stale_for args kv.2 = false) t.

Lemma next_page_enqueued w w' q a n m :
  w_jobs w' = <[w_job_seq w := mkJob q (Some (MarshalPayload TypeGISParcelSyncPage (Some (marshal a)))) 0 None n n]> m →
  next_page w w' = Some a.
Proof.
  intros Hj. unfold next_page. rewrite Hj, lookup_insert_eq. unfold j_payload. rewrite unmarshal_marshal_payload.
  apply decode_args_marshal.
Qed.

(** What one page job does with a page whose rows fit. *)
Lemma handlePage_run args page w :
  ids_below w → rows_fit (parcels_of args (ag_Features page)) →
  (ag_Features page = [] → ps_Offset args ≠ 0) →
  ∃ w', handlePage cfg args page w = (Ok tt, w') ∧ ids_below w' ∧
    let T := put_all (parcels_of args (ag_Features page)) (parcels w) in
    if ag_ExceededTransferLimit page || (syncPageSize cfg <=? Z.of_nat (length (ag_Features page)))%Z
    then parcels w' = T ∧ next_page w w' = Some (at_offset (ps_Offset args + syncPageSize cfg) args)
    else parcels w' = swept args T ∧ next_page w w' = None.
Proof.
  intros Hids Hfit Hne.
  pose proof (adds_only_handlePage cfg args page w Hids) as Hadds. revert Hadds. unfold handlePage.
  replace (bool_decide (ag_Features page = []) && (ps_Offset args =? 0)%Z) with false.
  2: { symmetry. case_bool_decide as E; [|done]. simpl. apply Z.eqb_neq. by apply Hne. }
  destruct (upsertFeatures_run args (ag_Features page) [] w Hfit) as (rest & t & s & n & Hu & Hr & Ht).
  rewrite (bind_ok _ _ _ _ _ Hu).
  assert (∃ s' n', (match rest with [] => ret tt | _ => BulkUpsertParcels rest (upsertChunkSize cfg) end) (with_parcels t s n w)
    = (Ok tt, with_parcels (put_all (parcels_of args (ag_Features page)) (parcels w)) s' n' w)) as (s' & n' & Hb).
  { simpl in Ht. rewrite <- Ht. destruct rest as [|r l]; [by exists s, n|].
    destruct (BulkUpsertParcels_run (r :: l) (upsertChunkSize cfg) (with_parcels t s n w) Hr) as (s' & n' & Hn). by exists s', n'. }
  rewrite (bind_ok _ _ _ _ _ Hb). set (T := put_all _ (parcels w)).
  destruct (ag_ExceededTransferLimit page || _).
  - unfold enqueuePage. destruct (Enqueue_run (syncQueue cfg) TypeGISParcelSyncPage
      (Some (marshal (at_offset (ps_Offset args + syncPageSize cfg) args))) (with_parcels T s' n' w)) as [k Hk].
    rewrite (bind_ok _ _ _ _ _ Hk). unfold ret. intros (Hids' & _). eexists. split; [reflexivity|]. split; [done|].
    split; [done|]. by eapply next_page_enqueued.
  - unfold finishParcels, DeleteStaleParcels, TouchParcelSourceSynced, bind, ignore. rewrite !stmt_run. simpl. intros (Hids' & _). eexists. split; [reflexivity|]. split; [done|]. split; [done|].
    unfold next_page. simpl. destruct (w_jobs w !! w_job_seq w) as [j|] eqn:E; [|done].
    specialize (Hids _ _ E). lia.
Qed.

(** ** A layer of features *)

(** The features of [l] that pages of at most [m] features show, asked for at multiples of
    [size]. *)
Fixpoint visible (fuel m size : nat) (l : list ArcGISFeature) : list ArcGISFeature :=
  match fuel, l with
  | S fuel, _ :: _ => (take m l ++ visible fuel m size (drop size l))%list
  | _, _ => []
  end.

Lemma visible_nil fuel m size : visible fuel m size [] = [].
Proof. by destruct fuel. Qed.

Lemma visible_step fuel m size l : visible (S fuel) m size l = (take m l ++ visible fuel m size (drop size l))%list.
Proof. destruct l; [|done]. simpl. by rewrite take_nil, drop_nil, visible_nil. Qed.


Lemma visible_sublist fuel m size l : (m <= size)%nat → visible fuel m size l `sublist_of` l.
Proof.
  intros Hm. revert l. induction fuel as [|fuel IH]; intros l; [apply sublist_nil_l|]. rewrite visible_step.
  rewrite <- (take_drop m l) at 3. apply sublist_app; [done|].
  replace (drop size l) with (drop (size - m) (drop m l)) by (rewrite drop_drop; f_equal; lia).
  etrans; [apply IH|]. apply sublist_drop.
Qed.

Lemma take_sublist_le m i (l : list ArcGISFeature) : (m <= i)%nat → take m l `sublist_of` take i l.
Proof.
  intros H. rewrite <- (take_drop m (take i l)), take_take, Nat.min_l by lia. by apply sublist_inserts_r.
Qed.

(** A feature past the [m] first of its page is not among them. *)
Lemma visible_hidden fuel m size l i :
  (m <= size)%nat → (m <= i mod size)%nat →
  visible fuel m size l `sublist_of` (take i l ++ drop (S i) l)%list.
Proof.
  intros Hm. revert l i. induction fuel as [|fuel IH]; intros l i Hi; [apply sublist_nil_l|].
  rewrite visible_step. destruct (decide (i < size)%nat) as [Hlt|Hge].
  - rewrite Nat.mod_small in Hi by done. apply sublist_app; [by apply take_sublist_le|].
    trans (drop size l); [by apply visible_sublist|].
    replace (drop size l) with (drop (size - S i) (drop (S i) l)) by (rewrite drop_drop; f_equal; lia).
    apply sublist_drop.
  - set (j := (i - size)%nat).
    assert (Hj : (m <= j mod size)%nat).
    { replace i with (j + 1 * size)%nat in Hi by (subst j; lia). by rewrite Nat.Div0.mod_add in Hi. }
    specialize (IH (drop size l) j Hj). rewrite drop_drop in IH.
    replace (size + S j)%nat with (S i) in IH by (subst j; lia).
    replace (take i l) with (take size l ++ take j (drop size l))%list.
    2: { rewrite take_drop_commute. replace (size + j)%nat with i by (subst j; lia).
         rewrite <- (take_drop size (take i l)) at 2. by rewrite take_take, Nat.min_l by lia. }
    rewrite <- List.app_assoc. apply sublist_app; [by apply take_sublist_le|done].
Qed.

(** A server that shows at most [cap] features per page, whatever is asked for, and says
    when more remain. *)
Definition pageCap (cap : nat) : nat := Nat.min (Z.to_nat (syncPageSize cfg)) cap.

Definition layer_served (args : ParcelSyncPageArgs) (cap : nat) (feats : list ArcGISFeature) : Prop :=
  ∀ w o, (o < length feats + Z.to_nat (syncPageSize cfg))%nat →
    fetchParcels cfg (at_offset (Z.of_nat o) args) w =
    Ok (mkAgPage (take (pageCap cap) (drop o feats)) (bool_decide (o + pageCap cap < length feats)%nat)).

Lemma syncPageSize_pos : 0 < syncPageSize cfg.
Proof. unfold syncPageSize. case_match; lia. Qed.

Lemma rows_fit_part args l1 l2 l3 :
  rows_fit (parcels_of args (l1 ++ l2 ++ l3)) → rows_fit (parcels_of args l2).
Proof. rewrite !parcels_of_app. intros [_ H]%rows_fit_app. by apply rows_fit_app in H as []. Qed.

Lemma parcel_chain_run args cap feats fuel o w :
  layer_served args cap feats → (0 < cap)%nat → feats ≠ [] → rows_fit (parcels_of args feats) →
  ids_below w → (length feats - o < fuel)%nat → (o < length feats + Z.to_nat (syncPageSize cfg))%nat →
  ∃ w', parcel_chain fuel (at_offset (Z.of_nat o) args) w = (Ok tt, w') ∧
    parcels w' = swept args (put_all (parcels_of args
      (visible fuel (pageCap cap) (Z.to_nat (syncPageSize cfg)) (drop o feats))) (parcels w)).
Proof.
  intros Hserve Hcap Hne Hfit. pose proof syncPageSize_pos as Hpos.
  set (size := Z.to_nat (syncPageSize cfg)). set (m := pageCap cap).
  assert (Hm : (0 < m <= size)%nat) by (subst m size; unfold pageCap; lia).
  revert o w. induction fuel as [|fuel IH]; intros o w Hids Hfuel Ho0; [lia|].
  cbn [parcel_chain]. unfold SyncPage, bind at 1. rewrite (Hserve w o Ho0). cbv beta iota.
  set (page := mkAgPage _ _).
  assert (Hpage : rows_fit (parcels_of (at_offset (Z.of_nat o) args) (ag_Features page))).
  { eapply (rows_fit_part args (take o feats) _ (drop m (drop o feats))). simpl. by rewrite !take_drop. }
  destruct (handlePage_run (at_offset (Z.of_nat o) args) page w Hids Hpage) as (w1 & H1 & Hids1 & Hmore).
  { simpl. intros He Ho. destruct o; [|lia]. rewrite drop_0 in He.
    apply Hne, nil_length_inv. apply (f_equal length) in He. rewrite length_take in He. simpl in He. fold m in He. lia. }
  rewrite H1. cbn [ag_Features ag_ExceededTransferLimit page] in Hmore. fold m in Hmore.
  rewrite visible_step, parcels_of_app, put_all_app, drop_drop.
  change (parcels_of (at_offset (Z.of_nat o) args)) with (parcels_of args) in Hmore.
  assert (Hlen : length (take m (drop o feats)) = Nat.min m (length feats - o)) by (by rewrite length_take, length_drop).
  destruct (bool_decide (o + m < length feats)%nat || _) eqn:Eb; destruct Hmore as [Hp Hn]; rewrite Hn.
  - assert (Ho : (o < length feats)%nat).
    { apply orb_true_iff in Eb as [Eb|Eb]; [apply bool_decide_eq_true in Eb; lia|]. apply Z.leb_le in Eb. lia. }
    change (at_offset (ps_Offset (at_offset (Z.of_nat o) args) + syncPageSize cfg) (at_offset (Z.of_nat o) args))
      with (at_offset (Z.of_nat o + syncPageSize cfg) args).
    replace (Z.of_nat o + syncPageSize cfg) with (Z.of_nat (o + size)) by (subst size; lia).
    destruct (IH (o + size)%nat w1 Hids1 ltac:(lia) ltac:(lia)) as (w' & -> & Hw'). exists w'. split; [done|]. by rewrite Hw', Hp.
  - exists w1. split; [done|]. rewrite Hp. apply orb_false_iff in Eb as [Eb _]. apply bool_decide_eq_false in Eb.
    rewrite (drop_ge feats (o + size)) by lia. by rewrite visible_nil.
Qed.


Lemma put_all_out rows t k : k ∉ parcel_key <$> rows → put_all rows t !! k = t !! k.
Proof.
  revert t. induction rows as [|x rows IH]; intros t Hk; [done|]. simpl in *. rewrite not_elem_of_cons in Hk.
  rewrite IH by tauto. unfold put_parcel. rewrite lookup_insert_ne; [done|]. intros E. by destruct Hk.
Qed.


Lemma swept_lookup args t k : swept args t !! k = r ← t !! k; if stale_for args r then None else Some r.
Proof.
  unfold swept. rewrite map_lookup_filter. destruct (t !! k) as [r|]; [|done]. simpl.
  case_guard as E; simpl; destruct (stale_for args r); congruence.
Qed.


(** A server that caps its pages below the page size loses parcels: paging steps by the
    configured size while the server shows only [cap] features, so the features past the cap
    of each page are never fetched, and the rows an earlier run stored for them are deleted
    as stale at the end of a run that reports success. *)
Theorem capped_pages_delete_parcels args cap feats fuel w i feat r r0 :
  layer_served args cap feats → (0 < cap < Z.to_nat (syncPageSize cfg))%nat →
  rows_fit (parcels_of args feats) → ids_below w → (length feats < fuel)%nat →
  feats !! i = Some feat → (cap <= i mod Z.to_nat (syncPageSize cfg))%nat →
  parcelOf args feat = Some r → parcels w !! parcel_key r = Some r0 → stale_for args r0 = true →
  ∃ w', parcel_chain fuel (at_offset 0 args) w = (Ok tt, w') ∧ parcels w' !! parcel_key r = None.
Proof.
  intros Hserve Hcap Hfit Hids Hfuel Hi Hmod Hr Hold Hstale.
  destruct (parcel_chain_run args cap feats fuel 0 w) as (w' & Hrun & Hw'); try done; [lia|by intros ->|lia|lia|].
  exists w'. split; [done|]. rewrite Hw', drop_0. unfold pageCap. rewrite Nat.min_r by lia.
  rewrite swept_lookup, put_all_out; [by rewrite Hold; simpl; rewrite Hstale|].
  intros Hin. apply list_elem_of_fmap in Hin as (x & Hkey & (f & Hf & Hx)%list_elem_of_omap).
  eapply elem_of_submseteq in Hf; [|apply sublist_submseteq, (visible_hidden _ _ _ _ i); lia].
  destruct Hfit as [Hn _]. rewrite <- (take_drop_middle feats i feat Hi) in Hn.
  unfold parcels_of in Hn. rewrite omap_app in Hn. simpl in Hn. rewrite Hr in Hn.
  rewrite fmap_app in Hn. simpl in Hn. apply NoDup_app in Hn as (_ & H1 & H2). apply NoDup_cons in H2 as [H2 _].
  rewrite Hkey in *. apply elem_of_app in Hf as [Hf|Hf].
  - apply (H1 (parcel_key x)); [|by apply elem_of_cons; left].
    apply list_elem_of_fmap. exists x. split; [done|]. apply list_elem_of_omap. by exists f.
  - apply H2. apply list_elem_of_fmap. exists x. split; [done|]. apply list_elem_of_omap. by exists f.
Qed.
End ParcelLaws.

(** ** Concrete runs *)

Definition smallPages : Config := Eval vm_compute in Load (λ k,
  if bool_decide (k = "GIS_SYNC_PAGE_SIZE") then "2" else EmptyString).

Definition hillsboroughArgs : ParcelSyncPageArgs := Eval vm_compute in
  match ParcelSourceSpecByKey "hillsborough_hc_parcels" with
  | Some s => argsFromSpec s 1 0
  | None => mkPageArgs EmptyString EmptyString EmptyString EmptyString EmptyString EmptyString zeroBBox [] 0 0
  end.

Definition parcelFeature (id : string) : row :=
  {["geometry" := JObj {["type" := JStr "MultiPolygon"]}; "properties" := JObj {["PARCEL_ID" := JStr id]}]}.
Definition layerRows : list row := [parcelFeature "P1"; parcelFeature "P2"; parcelFeature "P3"].
Definition layerFeatures : list ArcGISFeature := Eval vm_compute in omap parseFeature (JObj <$> layerRows).

(** The server's body for the page at [o], of at most [m] features. *)
Definition pageBody (m o : nat) : json :=
  JObj {["features" := JArr (JObj <$> take m (drop o layerRows));
         "exceededTransferLimit" := JBool (bool_decide (o + m < 3)%nat)]}.

Definition pageURL (o : nat) : string :=
  with_raw_query (ps_QueryURL hillsboroughArgs)
    (Encode (parcelQuery (specOfArgs hillsboroughArgs) (pageBBox hillsboroughArgs) (Z.of_nat o) 2)).

Definition pageServer (m : nat) : ArcGIS := λ _ url,
  match list_find (λ o, pageURL o = url) (seq 0 6) with
  | Some (_, o) => AgBody 200 (raw_of (pageBody m o))
  | None => AgFail "no such page"
  end.

#[local] Instance sampleFloats : GoFloatText := λ _, EmptyString.
#[local] Instance sampleJson : GoJsonText := λ _, EmptyString.

Lemma layer_served_sample cap : cap = 1%nat ∨ cap = 2%nat →
  @layer_served (pageServer cap) smallPages hillsboroughArgs cap layerFeatures.
Proof.
  intros Hc w o Ho. change (Z.to_nat (syncPageSize smallPages)) with 2%nat in Ho. simpl in Ho.
  destruct Hc as [-> | ->]; do 5 (destruct o as [|o]; [vm_compute; reflexivity|]); lia.
Qed.

Lemma layer_fits : @rows_fit samplePostGIS (@parcels_of _ _ hillsboroughArgs layerFeatures).
Proof. split; [apply (bool_decide_unpack _); vm_compute; exact I|]. repeat constructor. Qed.

(** P2 was stored by the run before. *)
Definition oldP2 : ParcelRow := Eval vm_compute in
  match @parcels_of _ _ hillsboroughArgs layerFeatures with
  | [_; r; _] => mkParcelRow (pr_ParcelID r) (pr_SourceKey r) (pr_County r) (pr_Geometry r) (pr_Properties r)
      None None None None None None None None None None None None None 0 None
  | _ => mkParcelRow EmptyString EmptyString EmptyString JNull ∅ None None None None None None None None None None
           None None None 0 None
  end.
Definition parcelWorld : World :=
  set_gis (set_parcels {[parcel_key oldP2 := oldP2]} emptyGis) (empty_world 0).

Lemma parcelWorld_ids : ids_below parcelWorld.
Proof. by intros id j H. Qed.


Theorem capped_pages_delete_parcels_witness :
  ∃ w', @parcel_chain never_fails samplePostGIS (pageServer 1) _ _ smallPages 9 (at_offset 0 hillsboroughArgs) parcelWorld
    = (Ok tt, w') ∧ parcels w' !! parcel_key oldP2 = None.
Proof.
  destruct layerFeatures as [|f1 [|f2 l]] eqn:E; [discriminate E..|].
  destruct (@capped_pages_delete_parcels never_fails never_fails_ok samplePostGIS (pageServer 1) _ _ smallPages
    hillsboroughArgs 1 layerFeatures 9 parcelWorld 1 f2
    (match parcelOf hillsboroughArgs f2 with Some r => r | None => oldP2 end) oldP2) as (w' & H & Hn).
  - apply layer_served_sample. by left.
  - change (Z.to_nat (syncPageSize smallPages)) with 2%nat. lia.
  - exact layer_fits.
  - exact parcelWorld_ids.
  - simpl. lia.
  - by rewrite E.
  - vm_compute. lia.
  - injection E as _ <- _. vm_compute. reflexivity.
  - injection E as _ <- _. vm_compute. reflexivity.
  - vm_compute. reflexivity.
  - exists w'. split; [exact H|]. injection E as _ <- _. exact Hn.
Defined.
