(* ===== verification/BoundarySync.v ===== *)
(** * Boundaries, bootstrap and probes (package [gis], [sync_boundaries.go],
    [sync_coordinator.go], [persistent_service.go], [metadata.go])

    The FDOT layers are fetched page by page inside one job. The loop of [syncLayer] runs on
    fuel; [syncLayer_terminates] says how much is enough. *)

From Stdlib Require Import Ascii String.
From stdpp Require Import gmap strings list.
From S2P Require Import Prelude GoStrings GoTime GoFloat GoNum GoJson Payload Config GisData Database Queue Worker Upstream GisRepo GisFetch ParcelSync.

Open Scope Z_scope.
Open Scope string_scope.

Definition FDOTCountiesURL : string := "https://gis.fdot.gov/arcgis/rest/services/Admin_Boundaries/FeatureServer/6/query".
Definition FDOTCitiesURL : string := "https://gis.fdot.gov/arcgis/rest/services/Admin_Boundaries/FeatureServer/7/query".
Definition FDOTZipsURL : string := "https://gis.fdot.gov/arcgis/rest/services/Admin_Boundaries/FeatureServer/8/query".

Definition BoundariesAllEmpty (cities counties zips : Z) : bool :=
  ((cities =? 0) && (counties =? 0) && (zips =? 0))%Z.

Definition out_of_fuel : string := "out of fuel".

Section Boundaries.
Context {F : Faults} {PG : PostGIS} {AG : ArcGIS} {FT : GoFloatText} {JT : GoJsonText} (cfg : Config) (fuel : nat).

(** The loop the three upserters share: rows that extract are collected and written in
    batches of [SyncUpsertChunk]. *)
Fixpoint upsertRows {A} (extract : ArcGISFeature → res A) (bulk : list A → M World unit) (batch : list A)
    (feats : list ArcGISFeature) : M World (list A) :=
  match feats with
  | [] => ret batch
  | feat :: rest =>
      match extract feat with
      | Err _ => upsertRows extract bulk batch rest
      | Ok row =>
          let batch := (batch ++ [row])%list in
          if (upsertChunkSize cfg <=? Z.of_nat (length batch))%Z
          then bulk batch ;;; upsertRows extract bulk [] rest
          else upsertRows extract bulk batch rest
      end
  end.

Definition syncRows {A} (extract : ArcGISFeature → res A) (bulk : list A → M World unit)
    (feats : list ArcGISFeature) : M World unit :=
  let* batch := upsertRows extract bulk [] feats in
  match batch with [] => ret tt | _ => bulk batch end.

Definition syncCounties (feats : list ArcGISFeature) (gen : Z) (fp : string) : M World unit :=
  syncRows (λ f, ExtractCountyRow f gen (Some fp)) BulkUpsertCounties feats.
Definition syncCities (feats : list ArcGISFeature) (gen : Z) (fp : string) : M World unit :=
  syncRows (λ f, ExtractCityRow f gen (Some fp)) BulkUpsertCities feats.
Definition syncZips (feats : list ArcGISFeature) (gen : Z) (fp : string) : M World unit :=
  syncRows (λ f, ExtractZipRow f gen (Some fp)) BulkUpsertZips feats.

Definition zipSyncPageSize : Z :=
  let n := gis_SyncPageSize (cfg_GIS cfg) in if ((0 <? n) && (n <? 500))%Z then n else 500.

(** The page size [syncLayer] uses. *)
Definition layerPageSize (pageSize : Z) : Z :=
  let n := if (pageSize <=? 0)%Z then gis_SyncPageSize (cfg_GIS cfg) else pageSize in
  if (n <=? 0)%Z then 2000 else n.

Definition fetchLayer (endpoint : string) (offset pageSize : Z) (w : World) : res ArcGISPageResult :=
  res_bind (FetchLayerPage (cfg_GIS cfg) w endpoint "1=1" offset pageSize) ParseFeatureCollection.

Fixpoint syncPages (fuel : nat) (endpoint : string) (upsert : list ArcGISFeature → M World unit)
    (pageSize offset : Z) : M World unit :=
  match fuel with
  | O => throw out_of_fuel
  | S fuel =>
      let* page := (λ w, (fetchLayer endpoint offset pageSize w, w)) in
      upsert (ag_Features page) ;;;
      if negb (ag_ExceededTransferLimit page) && (Z.of_nat (length (ag_Features page)) <? pageSize)%Z then ret tt
      else syncPages fuel endpoint upsert pageSize (offset + pageSize)
  end.

Definition syncLayer (endpoint : string) (gen : Z) (fp : string)
    (upsert : list ArcGISFeature → Z → string → M World unit) (pageSize : Z) : M World unit :=
  syncPages fuel endpoint (λ feats, upsert feats gen fp) (layerPageSize pageSize) 0.

Definition runFullBoundarySync (fingerprint : string) : M World unit :=
  let* gen := BumpSourceGeneration FDOTAdminBoundariesKey in
  syncLayer FDOTCountiesURL gen fingerprint syncCounties 0 ;;;
  syncLayer FDOTCitiesURL gen fingerprint syncCities 0 ;;;
  BackfillCityCounties gen ;;;
  syncLayer FDOTZipsURL gen fingerprint syncZips zipSyncPageSize ;;;
  DeleteStaleCities FDOTAdminBoundariesKey gen ;;;
  DeleteStaleCounties FDOTAdminBoundariesKey gen ;;;
  DeleteStaleZips FDOTAdminBoundariesKey gen.

Definition RunAnnualRefresh : M World unit := runFullBoundarySync "fdot_annual_sync".

Definition ensureCityCountiesBackfilled : M World unit :=
  let* missing := CountCitiesMissingCounty in
  if (missing =? 0)%Z then ret tt else BackfillMissingCityCounties ;;; ret tt.

Definition RunGapFill : M World unit :=
  let* b := CountBoundaries in
  let '(cities, counties, zips) := b in
  if ((0 <? cities) && (0 <? counties) && (0 <? zips))%Z then ensureCityCountiesBackfilled
  else
    let* gen := BumpSourceGeneration FDOTAdminBoundariesKey in
    let fp := "fdot_gap_fill" in
    (if (counties =? 0)%Z then
       syncLayer FDOTCountiesURL gen fp syncCounties 0 ;;; DeleteStaleCounties FDOTAdminBoundariesKey gen
     else ret tt) ;;;
    (if (cities =? 0)%Z then
       syncLayer FDOTCitiesURL gen fp syncCities 0 ;;; BackfillCityCounties gen ;;;
       DeleteStaleCities FDOTAdminBoundariesKey gen
     else ret tt) ;;;
    (if (zips =? 0)%Z then
       syncLayer FDOTZipsURL gen fp syncZips zipSyncPageSize ;;; DeleteStaleZips FDOTAdminBoundariesKey gen
     else ret tt) ;;;
    ensureCityCountiesBackfilled.

Definition RunBootstrapBoundaries : M World unit :=
  let* b := CountBoundaries in
  let '(cities, counties, zips) := b in
  if BoundariesAllEmpty cities counties zips then runFullBoundarySync "fdot_initial_sync" else RunGapFill.

Definition RunZipSync : M World unit :=
  let* gen := BumpSourceGeneration FDOTAdminBoundariesKey in
  syncLayer FDOTZipsURL gen "fdot_zip_sync" syncZips zipSyncPageSize ;;;
  DeleteStaleZips FDOTAdminBoundariesKey gen.

(** ** Bootstrap ([sync_coordinator.go]) *)

Record BootstrapAction := mkAction { ba_Name : string; ba_JobType : string }.

Definition PlanBootstrapActions (counts : LayerCounts) : list BootstrapAction :=
  if AllEmpty counts then [mkAction "gis-initial-sync" TypeGISInitialSync]
  else
    ((if (lc_Parcels counts =? 0)%Z then [mkAction "gis-parcel-gap-fill" TypeGISMonthlyParcelRefresh] else []) ++
     (if (lc_Zips counts =? 0)%Z then [mkAction "gis-zip-gap-fill" TypeGISZipSync] else []) ++
     (if ((lc_Cities counts =? 0) || (lc_Counties counts =? 0))%Z
      then [mkAction "gis-boundary-gap-fill" TypeGISAnnualBoundariesRefresh] else []))%list.

Definition CoordinatorRunGapFill : M World unit :=
  let* counts := LoadLayerCounts in
  (if (lc_Parcels counts =? 0)%Z then kickoff cfg EmptyString else ret tt) ;;;
  RunGapFill.

Definition InitialSyncRun : M World unit :=
  let* before := LoadLayerCounts in
  RunBootstrapBoundaries ;;;
  ParcelRunInitialSync cfg ;;;
  let* after := LoadLayerCounts in
  ret tt.

(** ** Metadata probes ([metadata.go]) *)

(** [sha256] in hex, of a text: a parameter. *)
Context (sha256_hex : string → string).

Definition queryMetaURL (queryURL : string) : string :=
  TrimSuffix (TrimSpace queryURL) "/query" +:+ "?f=json".

(** [jsonString]: the JSON text of a member, nothing for nil. *)
Definition jsonString (v : json) : string :=
  match v with JNull => EmptyString | _ => json_text v end.

Definition metadataFingerprint (body : text) : string :=
  let doc : row := match body with Some (JObj m) => m | _ => ∅ end in
  let parts := [jsonString (at_key doc "currentVersion"); jsonString (at_key doc "serviceItemId")] in
  let parts := match doc !! "editingInfo" with
               | Some (JObj ei) => (parts ++ [jsonString (at_key ei "lastEditDate")])%list
               | _ => parts
               end in
  sha256_hex (Join parts "|").

(** The probed endpoints: a Go map, ranged over in any order. *)
Definition probeEndpoints : gmap string string :=
  foldl (λ m s, if bool_decide (sp_CountySlug s = EmptyString) || bool_decide (sp_CountySlug s = "statewide") then m
                else <[sp_SourceKey s := queryMetaURL (sp_QueryURL s)]> m)
    (<[FDOTAdminBoundariesKey := "https://gis.fdot.gov/arcgis/rest/services/Admin_Boundaries/FeatureServer/6?f=json"]>
       {[FloridaStatewideCadastralKey := queryMetaURL FloridaStatewideCadastralURL]})
    (EnabledParcelSourcesForConfig (cfg_GIS cfg)).

(** The body of a probe, whatever the status. *)
Definition probeBody (w : World) (endpoint : string) : res text :=
  match arcgis_get w endpoint with
  | AgFail e => Err e
  | AgUnread _ => Err "unexpected EOF"
  | AgBody _ body => Ok (text_of body)
  end.

Definition probeOne (sourceKey endpoint : string) : M World unit :=
  EnsureSourceState sourceKey ;;;
  let* body := (λ w, (probeBody w endpoint, w)) in
  let fp := metadataFingerprint body in
  let* prev := stmt (λ w, match gt_states (w_gis w) !! sourceKey with
                          | Some s => (Ok (ss_fingerprint s), w)
                          | None => (Err "no rows in result set", w)
                          end) in
  if bool_decide (prev = Some fp) then
    stmt (λ w, on_gis (λ g, set_states (alter (λ s, mkSourceState (ss_fingerprint s) (ss_generation s)
      (Some (w_now w)) (ss_last_changed_at s)) sourceKey (gt_states g)) g) w)
  else
    stmt (λ w, on_gis (λ g, set_states (alter (λ s, mkSourceState (Some fp) (ss_generation s + 1)
      (Some (w_now w)) (Some (w_now w))) sourceKey (gt_states g)) g) w).

(** [order] is how the map is ranged over. *)
Definition ProbeAll (order : list (string * string)) : M World unit :=
  for_each (λ '(key, endpoint), ignore (probeOne key endpoint)) order.
End Boundaries.

(** ** Promises to the queue *)

Section BoundaryPromises.
Context {F : Faults} {PG : PostGIS} {AG : ArcGIS} {FT : GoFloatText} {JT : GoJsonText} (cfg : Config) (fuel : nat).

Ltac gis_statement := apply adds_only_stmt, adds_only_keeps; intros ?; repeat case_match; by split_and!.

Lemma adds_only_upsertCityBatch rows : adds_only (upsertCityBatch rows).
Proof. unfold upsertCityBatch. gis_statement. Qed.
Lemma adds_only_upsertCountyBatch rows : adds_only (upsertCountyBatch rows).
Proof. unfold upsertCountyBatch. gis_statement. Qed.
Lemma adds_only_upsertZipBatch rows : adds_only (upsertZipBatch rows).
Proof. unfold upsertZipBatch. gis_statement. Qed.
Lemma adds_only_backfill joins : adds_only (backfill joins).
Proof. unfold backfill. gis_statement. Qed.
#[local] Hint Resolve adds_only_upsertCityBatch adds_only_upsertCountyBatch adds_only_upsertZipBatch adds_only_backfill : go.

Lemma adds_only_upsertRows {A} extract (bulk : list A → M World unit) batch feats :
  (∀ rows, adds_only (bulk rows)) → adds_only (upsertRows cfg extract bulk batch feats).
Proof.
  intros Hb. revert batch. induction feats as [|f l IH]; intros batch; cbn [upsertRows]; adds_tac.
Qed.

Lemma adds_only_syncRows {A} extract (bulk : list A → M World unit) feats :
  (∀ rows, adds_only (bulk rows)) → adds_only (syncRows cfg extract bulk feats).
Proof. intros Hb. unfold syncRows. pose proof (@adds_only_upsertRows A extract bulk). adds_tac. Qed.

Lemma adds_only_syncCounties feats gen fp : adds_only (syncCounties cfg feats gen fp).
Proof. apply adds_only_syncRows. intros. unfold BulkUpsertCounties, in_batches. adds_tac. Qed.
Lemma adds_only_syncCities feats gen fp : adds_only (syncCities cfg feats gen fp).
Proof. apply adds_only_syncRows. intros. unfold BulkUpsertCities, in_batches. adds_tac. Qed.
Lemma adds_only_syncZips feats gen fp : adds_only (syncZips cfg feats gen fp).
Proof. apply adds_only_syncRows. intros. unfold BulkUpsertZips, in_batches. adds_tac. Qed.

Lemma adds_only_syncPages n endpoint upsert size offset :
  (∀ feats, adds_only (upsert feats)) → adds_only (syncPages cfg n endpoint upsert size offset).
Proof. intros Hu. revert offset. induction n as [|n IH]; intros offset; cbn [syncPages]; adds_tac. Qed.

Lemma adds_only_syncLayer endpoint gen fp upsert size :
  (∀ feats g f, adds_only (upsert feats g f)) → adds_only (syncLayer cfg fuel endpoint gen fp upsert size).
Proof. intros Hu. by apply adds_only_syncPages. Qed.
#[local] Hint Resolve adds_only_syncCounties adds_only_syncCities adds_only_syncZips adds_only_syncLayer : go.

Lemma adds_only_runFullBoundarySync fp : adds_only (runFullBoundarySync cfg fuel fp).
Proof. unfold runFullBoundarySync, BackfillCityCounties, DeleteStaleCities, DeleteStaleCounties, DeleteStaleZips. adds_tac. Qed.
#[local] Hint Resolve adds_only_runFullBoundarySync : go.

Lemma adds_only_RunGapFill : adds_only (RunGapFill cfg fuel).
Proof.
  unfold RunGapFill, ensureCityCountiesBackfilled, CountCitiesMissingCounty, BackfillCityCounties,
    BackfillMissingCityCounties, DeleteStaleCities, DeleteStaleCounties, DeleteStaleZips. adds_tac.
Qed.
#[local] Hint Resolve adds_only_RunGapFill : go.

Lemma adds_only_InitialSyncRun : adds_only (InitialSyncRun cfg fuel).
Proof. unfold InitialSyncRun, LoadLayerCounts, RunBootstrapBoundaries. adds_tac. Qed.

Lemma adds_only_RunAnnualRefresh : adds_only (RunAnnualRefresh cfg fuel).
Proof. unfold RunAnnualRefresh. adds_tac. Qed.

Lemma adds_only_RunZipSync : adds_only (RunZipSync cfg fuel).
Proof. unfold RunZipSync, DeleteStaleZips. adds_tac. Qed.

Lemma adds_only_ProbeAll sha order : adds_only (ProbeAll sha order).
Proof.
  unfold ProbeAll. apply adds_only_for_each. intros [k e]. apply adds_only_ignore. unfold probeOne, EnsureSourceState.
  adds_tac; apply adds_only_keeps; intros ?; repeat case_match; by split_and!.
Qed.
End BoundaryPromises.
#[export] Hint Resolve adds_only_InitialSyncRun adds_only_RunAnnualRefresh adds_only_RunZipSync adds_only_ProbeAll : go.

(** ** The loop ends *)

Section LayerLoop.
Context {AG : ArcGIS} (cfg : Config).
Context (endpoint : string) (upsert : list ArcGISFeature → M World unit) (pageSize : Z).

(** The loop of [syncLayer] as it is written: a run from an offset, without fuel. *)
Inductive layer_run : Z → World → res unit → World → Prop :=
| run_fetch_error offset w e :
    fetchLayer cfg endpoint offset pageSize w = Err e → layer_run offset w (Err e) w
| run_upsert_error offset w page e w' :
    fetchLayer cfg endpoint offset pageSize w = Ok page → upsert (ag_Features page) w = (Err e, w') →
    layer_run offset w (Err e) w'
| run_last offset w page w' :
    fetchLayer cfg endpoint offset pageSize w = Ok page → upsert (ag_Features page) w = (Ok tt, w') →
    ag_ExceededTransferLimit page = false → Z.of_nat (length (ag_Features page)) < pageSize →
    layer_run offset w (Ok tt) w'
| run_next offset w page w' r w'' :
    fetchLayer cfg endpoint offset pageSize w = Ok page → upsert (ag_Features page) w = (Ok tt, w') →
    ag_ExceededTransferLimit page = true ∨ pageSize <= Z.of_nat (length (ag_Features page)) →
    layer_run (offset + pageSize) w' r w'' → layer_run offset w r w''.

(** A server whose layer ends before [last]: on the page from there on it shows no feature
    and does not claim more. *)
Definition layer_ends (last : Z) : Prop :=
  ∀ w offset, last <= offset < last + pageSize →
    match fetchLayer cfg endpoint offset pageSize w with
    | Ok page => ag_Features page = [] ∧ ag_ExceededTransferLimit page = false
    | Err _ => True
    end.

Lemma syncPages_run last fuel offset w :
  layer_ends last → 0 < pageSize → (0 < fuel)%nat → offset < last + pageSize →
  last <= offset + (Z.of_nat fuel - 1) * pageSize →
  ∃ r w', syncPages cfg fuel endpoint upsert pageSize offset w = (r, w') ∧ layer_run offset w r w'.
Proof.
  intros Hends Hsize. revert offset w. induction fuel as [|fuel IH]; intros offset w Hf Ho Hlast; [lia|].
  cbn [syncPages]. unfold bind at 1. destruct (fetchLayer cfg endpoint offset pageSize w) as [page|e] eqn:Ep.
  2: { exists (Err e), w. split; [done|]. by constructor. }
  unfold bind at 1. destruct (upsert (ag_Features page) w) as [[[]|e] w1] eqn:Eu.
  2: { exists (Err e), w1. split; [done|]. by eapply run_upsert_error. }
  destruct (negb (ag_ExceededTransferLimit page) && (Z.of_nat (length (ag_Features page)) <? pageSize)%Z) eqn:Eb.
  { exists (Ok tt), w1. split; [done|]. apply andb_true_iff in Eb as [E1 E2].
    eapply run_last; [done..|by apply negb_true_iff|by apply Z.ltb_lt]. }
  assert (Hmore : ag_ExceededTransferLimit page = true ∨ pageSize <= Z.of_nat (length (ag_Features page))).
  { apply andb_false_iff in Eb as [E|E]; [left; by apply negb_false_iff|right; by apply Z.ltb_ge]. }
  destruct (decide (last <= offset)) as [Hl|Hl].
  - specialize (Hends w offset (conj Hl Ho)). rewrite Ep in Hends. destruct Hends as [Hn Hx].
    rewrite Hn, Hx in Hmore. destruct Hmore as [?|?]; [done|simpl in *; lia].
  - destruct fuel as [|fuel]; [lia|]. destruct (IH (offset + pageSize) w1) as (r & w' & Hr & Hrun); [lia|lia|lia|].
    exists r, w'. split; [done|]. by eapply run_next.
Qed.
End LayerLoop.

Lemma layerPageSize_pos cfg n : 0 < layerPageSize cfg n.
Proof. unfold layerPageSize. repeat case_match; lia. Qed.

(** A layer sync ends: against a server whose layer ends, the loop without fuel has a
    result, whatever the upserts do, and the fuelled definition computes it as soon as the
    fuel covers the pages. *)
Theorem syncLayer_terminates {AG : ArcGIS} cfg fuel endpoint gen fp upsert n last w :
  layer_ends cfg endpoint (layerPageSize cfg n) last → 0 <= last → (0 < fuel)%nat →
  last <= (Z.of_nat fuel - 1) * layerPageSize cfg n →
  ∃ r w', syncLayer cfg fuel endpoint gen fp upsert n w = (r, w') ∧
    layer_run cfg endpoint (λ feats, upsert feats gen fp) (layerPageSize cfg n) 0 w r w'.
Proof.
  intros Hends H0 Hf Hl. pose proof (layerPageSize_pos cfg n). eapply syncPages_run; [done..|lia|lia].
Qed.

(** ** Why a second refresh fails *)

Section Backfill.
Context {F : Faults} {PG : PostGIS}.

Lemma ranked_none joins counties c : (∀ co, joins c co = false) → ranked joins counties c = None.
Proof.
  intros Hj. unfold ranked. replace (filter _ _) with (@nil CountyRow); [done|].
  symmetry. apply filter_drop_all, Forall_forall. intros co _. rewrite Hj, andb_false_r. done.
Qed.

Lemma conflicting_some c' cities id1 c1 :
  cities !! id1 = Some c1 → same_city c' c1 = true → is_Some (conflicting c' cities).
Proof.
  intros H Hs. unfold conflicting. destruct (filter _ (map_to_list cities)) as [|x l] eqn:E; [|by eexists].
  assert ((id1, c1) ∈ filter (λ kv : Z * CityRow, same_city c' kv.2 = true) (map_to_list cities)) as Hin.
  { apply list_elem_of_filter. split; [done|]. by apply elem_of_map_to_list. }
  rewrite E in Hin. by apply elem_of_nil in Hin.
Qed.

Lemma assign_counties_conflict pick ids cities n id1 c1 id2 c2 co :
  cities !! id1 = Some c1 → pick c1 = None → cities !! id2 = Some c2 → pick c2 = Some co →
  same_city (with_county (co_CountySlug co) c2) c1 = true → id2 ∈ ids → NoDup ids →
  assign_counties pick ids cities n = None.
Proof.
  intros H1 Hp1 H2 Hp2 Hs. revert cities n H1 H2.
  induction ids as [|id ids IH]; intros cities n H1 H2 Hin Hnd; [by apply elem_of_nil in Hin|].
  apply NoDup_cons in Hnd as [Hid Hnd]. assert (Hne : id1 ≠ id2) by (intros ->; congruence). simpl.
  destruct (decide (id = id2)) as [->|Hd].
  - rewrite H2. simpl. rewrite Hp2. simpl. rewrite bool_decide_true; [done|].
    eapply conflicting_some; [|exact Hs]. by rewrite lookup_delete_ne.
  - apply elem_of_cons in Hin as [->|Hin]; [done|].
    destruct (cities !! id) as [c|] eqn:Ec; simpl; [|by apply IH].
    destruct (pick c) as [co'|] eqn:Epc; simpl; [|by apply IH].
    case_bool_decide; [done|]. apply IH; [| |done|done].
    + rewrite lookup_insert_ne; [done|]. intros ->. congruence.
    + by rewrite lookup_insert_ne.
Qed.

Lemma BackfillCityCounties_conflict gen w id1 c1 id2 c2 co :
  gt_cities (w_gis w) !! id1 = Some c1 → gt_cities (w_gis w) !! id2 = Some c2 →
  ci_CityName c1 = ci_CityName c2 → ci_County c1 = Some (co_CountySlug co) →
  ci_SourceGeneration c1 ≠ gen →
  ranked (λ c co, (ci_SourceGeneration c =? gen)%Z && (co_SourceGeneration co =? gen)%Z)
    (gt_counties (w_gis w)) c2 = Some co →
  ∃ e w', BackfillCityCounties gen w = (Err e, w') ∧ w_gis w' = w_gis w.
Proof.
  intros H1 H2 Hname Hcounty Hgen Hr. unfold BackfillCityCounties, backfill, stmt.
  destruct (fault (w_ops w)); [by eexists _, _|].
  erewrite (assign_counties_conflict _ _ _ _ id1 c1 id2 c2 co); [by eexists _, _|done| |done|done| | |].
  - apply ranked_none. intros co'. apply andb_false_iff. left. by apply Z.eqb_neq.
  - unfold same_city, with_county. simpl. rewrite Hname, Hcounty. by rewrite !bool_decide_true by (done || by eexists).
  - change (w_gis (set_ops (S (w_ops w)) w)) with (w_gis w). rewrite update_order_perm.
    apply list_elem_of_fmap. exists (id2, c2). split; [done|]. by apply elem_of_map_to_list.
  - rewrite update_order_perm. apply NoDup_fst_map_to_list.
Qed.
End Backfill.

(** A boundary refresh is blocked by the one before it: once a row of gis_cities got its
    county from the backfill, a refresh that inserts the city again (its feature carries no
    county, so the row does not conflict) and ranks the same county first fails in the
    backfill, whatever statements fail, before anything stale is deleted and before the zips
    are synced. *)
Theorem annual_refresh_blocked {F : Faults} {PG : PostGIS} {AG : ArcGIS} {FT : GoFloatText} {JT : GoJsonText}
    cfg fuel w gen w0 w1 w2 id1 c1 id2 c2 co :
  BumpSourceGeneration FDOTAdminBoundariesKey w = (Ok gen, w0) →
  syncLayer cfg fuel FDOTCountiesURL gen "fdot_annual_sync" (syncCounties cfg) 0 w0 = (Ok tt, w1) →
  syncLayer cfg fuel FDOTCitiesURL gen "fdot_annual_sync" (syncCities cfg) 0 w1 = (Ok tt, w2) →
  gt_cities (w_gis w2) !! id1 = Some c1 → ci_County c1 = Some (co_CountySlug co) → ci_SourceGeneration c1 ≠ gen →
  gt_cities (w_gis w2) !! id2 = Some c2 → ci_CityName c1 = ci_CityName c2 →
  ranked (λ c co, (ci_SourceGeneration c =? gen)%Z && (co_SourceGeneration co =? gen)%Z)
    (gt_counties (w_gis w2)) c2 = Some co →
  ∃ e w', RunAnnualRefresh cfg fuel w = (Err e, w') ∧ w_gis w' = w_gis w2.
Proof.
  intros Hb Hco Hci H1 Hcounty Hgen H2 Hname Hr.
  destruct (BackfillCityCounties_conflict gen w2 id1 c1 id2 c2 co) as (e & w' & He & Hw'); try done.
  exists e, w'. split; [|done]. unfold RunAnnualRefresh, runFullBoundarySync.
  rewrite (bind_ok _ _ _ _ _ Hb), (bind_ok _ _ _ _ _ Hco), (bind_ok _ _ _ _ _ Hci). by apply bind_err.
Qed.

(** ** Concrete runs *)

(** One county, one city without a county attribute, one zip. *)
Definition namedFeature (k v : string) : json :=
  JObj {["geometry" := JObj {["type" := JStr "MultiPolygon"]}; "properties" := JObj {[k := JStr v]}]}.
Definition onePage (l : list json) : arcgis_reply := AgBody 200 (raw_of (JObj {["features" := JArr l]})).

Definition layerURL (endpoint : string) (offset pageSize : Z) : string :=
  with_raw_query endpoint
    (Encode (pageQuery offset pageSize (<["where" := "1=1"]> (baseQueryParams FormatGeoJSON)))).

(** Only the first page of each layer has features. *)
Definition fdotServer : ArcGIS := λ _ url,
  if bool_decide (url = layerURL FDOTCountiesURL 0 2) then onePage [namedFeature "NAME" "Pinellas County"]
  else if bool_decide (url = layerURL FDOTCitiesURL 0 2) then onePage [namedFeature "NAME" "Clearwater"]
  else if bool_decide (url = layerURL FDOTZipsURL 0 2) then onePage [namedFeature "ZIP" "33755"]
  else onePage [].

#[local] Instance sampleFloats : GoFloatText := λ _, EmptyString.
#[local] Instance sampleJson : GoJsonText := λ _, EmptyString.

#[local] Existing Instance never_fails.
#[local] Existing Instance samplePostGIS.
#[local] Existing Instance fdotServer.

Definition annualRefresh : World → res unit * World :=
  @RunAnnualRefresh never_fails samplePostGIS fdotServer _ _ smallPages 2.

Definition afterFirst : World := (annualRefresh (empty_world 0)).2.

Theorem annual_refresh_blocked_witness :
  (annualRefresh (empty_world 0)).1 = Ok tt ∧ ∃ e w', annualRefresh afterFirst = (Err e, w').
Proof.
  split; [vm_compute; reflexivity|].
  assert (∃ e w', annualRefresh afterFirst = (Err e, w') ∧
    w_gis w' = w_gis (syncLayer smallPages 2 FDOTCitiesURL 2 "fdot_annual_sync" (syncCities smallPages) 0
      (syncLayer smallPages 2 FDOTCountiesURL 2 "fdot_annual_sync" (syncCounties smallPages) 0
        (BumpSourceGeneration FDOTAdminBoundariesKey afterFirst).2).2).2) as (e & w' & H & _); [|by exists e, w'].
  eapply (annual_refresh_blocked smallPages 2 afterFirst 2) with (id1 := 1) (id2 := 2);
    try (vm_compute; reflexivity); vm_compute; first [reflexivity | discriminate].
Defined.

Theorem syncLayer_terminates_witness :
  ∃ r w', syncLayer smallPages 2 FDOTZipsURL 1 "fp" (syncZips smallPages) 0 (empty_world 0) = (r, w') ∧ r = Ok tt.
Proof.
  destruct (syncLayer_terminates smallPages 2 FDOTZipsURL 1 "fp" (syncZips smallPages) 0 1 (empty_world 0)) as (r & w' & H & _).
  - intros w offset Ho. change (layerPageSize smallPages 0) with 2 in *.
    assert (offset = 1 ∨ offset = 2) as [-> | ->] by lia; vm_compute; by split.
  - lia.
  - lia.
  - vm_compute. discriminate.
  - exists r, w'. split; [exact H|]. revert H. vm_compute. by intros [= <- _].
Defined.
