(* ===== verification/Fetch.v ===== *)
(** * Fetched pages (package [sync], [bridge_sync.go])

    The result of one page request and the steps both providers share: the decoded body,
    the newest modification timestamp, and what paging does with a reply. *)

From Stdlib Require Import Ascii String.
From stdpp Require Import gmap strings list.
From S2P Require Import Prelude GoStrings GoTime GoFloat GoJson MlsFields Payload Database Upstream.

Open Scope Z_scope.
Open Scope string_scope.

Record PageResult := mkPageResult {
  Rows : list text;
  NextReplicationURL : option string;
  ReplicationComplete : bool;
  IncrementalHasMore : bool;
  MaxModificationTs : option Z;
  ResultWindowEnd : option Z;
  Forbidden : bool;
  HTTPError : bool;
  HTTPStatus : Z;
  ResultFetchURL : string;
  ResultUpstreamURL : string;
  ResultODataQuery : Values;
}.

(** [PageResult{}] and the updates the code makes to a result. *)
Definition emptyResult : PageResult :=
  mkPageResult [] None false false None None false false 0 EmptyString EmptyString ∅.

Definition requested (fetchURL reqURL : string) (query : Values) (status : Z) : PageResult :=
  mkPageResult [] None false false None None false false status fetchURL reqURL query.

Definition set_complete (b : bool) (r : PageResult) : PageResult :=
  mkPageResult (Rows r) (NextReplicationURL r) b (IncrementalHasMore r) (MaxModificationTs r)
    (ResultWindowEnd r) (Forbidden r) (HTTPError r) (HTTPStatus r) (ResultFetchURL r)
    (ResultUpstreamURL r) (ResultODataQuery r).
Definition set_has_more (b : bool) (r : PageResult) : PageResult :=
  mkPageResult (Rows r) (NextReplicationURL r) (ReplicationComplete r) b (MaxModificationTs r)
    (ResultWindowEnd r) (Forbidden r) (HTTPError r) (HTTPStatus r) (ResultFetchURL r)
    (ResultUpstreamURL r) (ResultODataQuery r).
Definition set_forbidden (r : PageResult) : PageResult :=
  mkPageResult (Rows r) (NextReplicationURL r) (ReplicationComplete r) (IncrementalHasMore r)
    (MaxModificationTs r) (ResultWindowEnd r) true (HTTPError r) (HTTPStatus r) (ResultFetchURL r)
    (ResultUpstreamURL r) (ResultODataQuery r).
Definition set_http_error (r : PageResult) : PageResult :=
  mkPageResult (Rows r) (NextReplicationURL r) (ReplicationComplete r) (IncrementalHasMore r)
    (MaxModificationTs r) (ResultWindowEnd r) (Forbidden r) true (HTTPStatus r) (ResultFetchURL r)
    (ResultUpstreamURL r) (ResultODataQuery r).
Definition set_window_end (e : option Z) (r : PageResult) : PageResult :=
  mkPageResult (Rows r) (NextReplicationURL r) (ReplicationComplete r) (IncrementalHasMore r)
    (MaxModificationTs r) e (Forbidden r) (HTTPError r) (HTTPStatus r) (ResultFetchURL r)
    (ResultUpstreamURL r) (ResultODataQuery r).
Definition set_rows (rows : list text) (ts : option Z) (next : option string) (r : PageResult) : PageResult :=
  mkPageResult rows next (ReplicationComplete r) (IncrementalHasMore r) ts
    (ResultWindowEnd r) (Forbidden r) (HTTPError r) (HTTPStatus r) (ResultFetchURL r)
    (ResultUpstreamURL r) (ResultODataQuery r).

(** The body's "value" array as raw documents; [None] when it does not decode. *)
Definition decodeValue (body : text) : option (list text) :=
  j ← body;
  with_object j (λ m,
    match m !! "value" with
    | None | Some JNull => Some []
    | Some (JArr l) => Some (Some <$> l)
    | Some _ => None
    end).

Section Results.
Context {Fmt : GoFmt}.

Definition row_timestamp (dataset : string) (raw : text) : option Z :=
  match raw with
  | Some (JObj m) => MaxModificationFromRow dataset m
  | Some JNull => MaxModificationFromRow dataset ∅
  | _ => None
  end.

(** The latest of the rows' timestamps. *)
Fixpoint maxModificationFrom (dataset : string) (acc : option Z) (rows : list text) : option Z :=
  match rows with
  | [] => acc
  | raw :: r =>
      maxModificationFrom dataset
        (match row_timestamp dataset raw with
         | None => acc
         | Some ts => match acc with
                      | None => Some ts
                      | Some m => if (m <? ts)%Z then Some ts else Some m
                      end
         end) r
  end.

Definition maxModificationTimestampFromRows (dataset : string) (rows : list text) : option Z :=
  maxModificationFrom dataset None rows.

(** What [fetchPage] makes of the last reply: the result, complete or with more to come. *)
Definition pageOfReply (provider : string) (dataset : string) (replication : bool) (top : Z)
    (result : PageResult) (link : string) (body : text) : res PageResult :=
  let lastStatus := HTTPStatus result in
  if (lastStatus =? 403)%Z then Ok (set_forbidden result)
  else if (lastStatus <? 200)%Z || (300 <=? lastStatus)%Z then Ok (set_http_error result)
  else match decodeValue body with
       | None => Err ("decode " +:+ provider +:+ " odata")
       | Some rows =>
           let next := extractNextURL link body in
           let result := set_rows rows (maxModificationTimestampFromRows dataset rows) next result in
           if replication
           then Ok (set_complete (match next with
                                  | None => true
                                  | Some u => bool_decide (u = EmptyString)
                                  end) result)
           else if bool_decide (rows = []) then Ok (set_complete true result)
           else Ok (set_has_more (top <=? Z.of_nat (length rows))%Z result)
       end.
End Results.

(** ** Laws *)

Section ResultLaws.
Context {Fmt : GoFmt}.

Lemma maxModificationFrom_spec dataset acc rows :
  (∀ t, acc = Some t → ∃ m, maxModificationFrom dataset acc rows = Some m ∧ t <= m) ∧
  (∀ raw t, raw ∈ rows → row_timestamp dataset raw = Some t →
     ∃ m, maxModificationFrom dataset acc rows = Some m ∧ t <= m) ∧
  (∀ m, maxModificationFrom dataset acc rows = Some m →
     acc = Some m ∨ ∃ raw, raw ∈ rows ∧ row_timestamp dataset raw = Some m).
Proof.
  revert acc. induction rows as [|raw r IH]; intros acc; simpl.
  - split_and!; [intros t ->; eauto with lia | by intros ?? ?%elem_of_nil | by left].
  - set (acc' := match row_timestamp dataset raw with None => acc | Some _ => _ end).
    destruct (IH acc') as (H1 & H2 & H3). clear IH. split_and!.
    + intros t ->. subst acc'. destruct (row_timestamp dataset raw) as [ts|]; [|by apply H1].
      destruct (Z.ltb_spec t ts); [|by apply H1].
      destruct (H1 ts eq_refl) as (m & Hm & ?). exists m. split; [done|lia].
    + intros raw' t [->|Hin]%elem_of_cons Hts; [|by eapply H2].
      subst acc'. rewrite Hts in *. destruct acc as [m0|]; [|by apply H1].
      destruct (Z.ltb_spec m0 t); [by apply H1|].
      destruct (H1 m0 eq_refl) as (m & Hm & ?). exists m. split; [done|lia].
    + intros m Hm. destruct (H3 m Hm) as [Ha|(raw' & Hin & Hts)]; [|right; set_solver].
      subst acc'. destruct (row_timestamp dataset raw) as [ts|] eqn:Hts; [|by left].
      destruct acc as [m0|]; [destruct (Z.ltb_spec m0 ts)|].
      * injection Ha as ->. right. exists raw. set_solver.
      * by left.
      * injection Ha as ->. right. exists raw. set_solver.
Qed.

(** A result whose rows are all newer than its recorded mark does not exist: the mark is
    the newest timestamp of the page. *)
Lemma maxModificationTimestampFromRows_max dataset rows raw t :
  raw ∈ rows → row_timestamp dataset raw = Some t →
  ∃ m, maxModificationTimestampFromRows dataset rows = Some m ∧ t <= m.
Proof. intros Hin Ht. by eapply maxModificationFrom_spec. Qed.

Lemma maxModificationTimestampFromRows_in dataset rows m :
  maxModificationTimestampFromRows dataset rows = Some m →
  ∃ raw, raw ∈ rows ∧ row_timestamp dataset raw = Some m.
Proof. intros [H|H]%maxModificationFrom_spec; [done|exact H]. Qed.

(** A replication page that is not complete has a next URL to go on with. *)
Lemma pageOfReply_next provider dataset top result link body r :
  pageOfReply provider dataset true top result link body = Ok r →
  HTTPError r = false → Forbidden r = false →
  ReplicationComplete r = false → ∃ u, NextReplicationURL r = Some u ∧ u ≠ EmptyString.
Proof.
  unfold pageOfReply. destruct (Z.eqb _ _); [by intros [= <-] _|].
  destruct (_ || _)%bool; [by intros [= <-]|]. destruct (decodeValue body); [|done].
  intros [= <-] _ _. simpl. destruct (extractNextURL link body) as [u|] eqn:E; [|done].
  intros _. exists u. split; [done|]. by eapply extractNextURL_nonempty.
Qed.
End ResultLaws.
