(* ===== verification/BridgeSync.v ===== *)
(** * Fetching Bridge pages (package [sync], [bridge_sync.go])

    [BridgeSync]: the URLs, filters, select and expand lists of replication, incremental and
    hydration requests, and [fetchPage] with its retries. The rate limiter and the pauses
    between attempts only pass time and are left out (the limiter is in Replication). *)

From Stdlib Require Import Ascii String.
From stdpp Require Import gmap strings list.
From S2P Require Import Prelude GoStrings GoTime GoFloat GoJson MlsFields Payload Config Database Replication Upstream Fetch.

Open Scope Z_scope.
Open Scope string_scope.

Section BridgeSync.
Context {Fmt : GoFmt} {U : Upstream} (cfg : Config).

Definition incrementalTop : Z :=
  let top := br_SyncIncrementalTop (cfg_Bridge cfg) in if (top <=? 0)%Z then 200 else top.
Definition replicationTop : Z :=
  let top := br_SyncReplicationTop (cfg_Bridge cfg) in if (top <=? 0)%Z then 2000 else top.

Definition oDataPropertyBase (dataset : string) : string :=
  let host := TrimRightByte (br_Host (cfg_Bridge cfg)) "/"%char in
  let prefix := TrimByte (br_PathPrefix (cfg_Bridge cfg)) "/"%char in
  let resoRoot := TrimByte (br_ResoRoot (cfg_Bridge cfg)) "/"%char in
  let basePath :=
    if negb (bool_decide (prefix = EmptyString)) then prefix +:+ "/OData/" +:+ dataset
    else if negb (bool_decide (resoRoot = EmptyString)) then resoRoot +:+ "/OData/" +:+ dataset
    else "OData/" +:+ dataset in
  host +:+ "/" +:+ basePath.

Definition propertyCollectionURL (dataset : string) : string := oDataPropertyBase dataset +:+ "/Property".
Definition propertyReplicationURL (dataset : string) : string :=
  oDataPropertyBase dataset +:+ "/Property/replication".

Definition syncFields (dataset : string) : list string :=
  let upper := ToUpper dataset in
  ["ListingKey"; "ListingId"; "BridgeModificationTimestamp"; "ModificationTimestamp";
   "StandardStatus"; "ListPrice"; "ClosePrice"; "PreviousListPrice"; "PriceChangeTimestamp";
   "BedroomsTotal"; "BathroomsTotalDecimal"; "LivingArea"; "LotSizeAcres"; "YearBuilt";
   "City"; "CountyOrParish"; "PostalCode"; "StateOrProvince"; "PropertyType"; "PropertySubType";
   "OnMarketDate"; "CloseDate"; "Latitude"; "Longitude"; "Coordinates";
   "WaterfrontYN"; "PoolPrivateYN"; "NewConstructionYN"; "GarageYN"; "AssociationYN";
   "SpaYN"; "FireplaceYN"; "SeniorCommunityYN"; "SpecialListingConditions"; "SubdivisionName";
   "ElementarySchool"; "MiddleOrJuniorSchool"; "HighSchool"; "StreetNumber"; "StreetName";
   "ListAgentMlsId"; "ListOfficeMlsId"; "Media";
   upper +:+ "_FloodZoneCode"; upper +:+ "_TotalMonthlyFees"].

Definition selected (l : list string) (skip : list string) : string :=
  Join (dedup_from ∅ (filter (λ f, f ≠ EmptyString ∧ f ∉ skip) (TrimSpace <$> l))) ",".

Definition syncSelectList (dataset : string) : string :=
  let fields := syncFields dataset in
  let fields := if negb (br_SyncIncludeMedia (cfg_Bridge cfg)) then filter (λ f, f ≠ "Media") fields
                else fields in
  selected fields ["DockYN"].

Definition replicationSelectList (dataset : string) : string :=
  selected (Split (syncSelectList dataset) ","%char ++ ParseExpandKeys (br_SyncExpand (cfg_Bridge cfg)))%list [].

Definition applySyncExpand (query : Values) : Values :=
  if br_SyncFullProperty (cfg_Bridge cfg) then
    let nav := BridgeNavigationExpandCSV (br_SyncExpand (cfg_Bridge cfg)) in
    if negb (bool_decide (nav = EmptyString)) then <["$expand" := nav]> query else query
  else
    let expand := TrimSpace (br_SyncExpand (cfg_Bridge cfg)) in
    if negb (bool_decide (expand = EmptyString)) then <["$expand" := expand]> query else query.

(** The attempt loop: another request after 429 and 503 while attempts are left. The fuel is
    the number of retries. *)
Fixpoint send (w : World) (reqURL : string) (retries attempt : nat) : res (Z * string * text) :=
  match http_get w attempt reqURL with
  | HttpFail e => Err e
  | HttpReply status link body =>
      if negb (status =? 429)%Z && negb (status =? 503)%Z then Ok (status, link, body)
      else match retries with
           | O => Ok (status, link, body)
           | S retries => send w reqURL retries (S attempt)
           end
  end.

Definition maxRetries : nat :=
  let n := br_SyncMaxHTTPRetries (cfg_Bridge cfg) in Z.to_nat (if (n <? 1)%Z then 1 else n).

Definition fetchPage (w : World) (fetchURL : string) (query : Values) (dataset : string)
    (replication : bool) : res PageResult :=
  if bool_decide (br_APIKey (cfg_Bridge cfg) = EmptyString) then Err "BRIDGE_API_KEY is not configured"
  else
    let reqURL := requestURL fetchURL query in
    res_bind (send w reqURL (Nat.pred maxRetries) 0) (λ '(status, link, body),
      pageOfReply "bridge" dataset replication incrementalTop
        (requested fetchURL reqURL query status) link body).

Definition FetchReplicationPage (w : World) (dataset : string) (cursor : SyncCursor) : res PageResult :=
  let first :=
    let query : Values := <["$top" := show_int replicationTop]>
      (<["$filter" := BridgeReplicationFilter]> ∅) in
    let query := if negb (br_SyncFullProperty (cfg_Bridge cfg))
                 then <["$select" := replicationSelectList dataset]> query else query in
    fetchPage w (propertyReplicationURL dataset) (applySyncExpand query) dataset true in
  match ReplicationNextURL cursor with
  | Some u => if negb (bool_decide (u = EmptyString)) then fetchPage w u ∅ dataset true else first
  | None => first
  end.

Definition incrementalQuery (dataset : string) (filter odataField : string) (skip : Z) : Values :=
  let query : Values :=
    <["$skip" := show_int skip]> (<["$top" := show_int incrementalTop]>
      (<["$orderby" := odataField +:+ " asc"]> (<["$filter" := filter]> ∅))) in
  let unselect (q : Values) := if negb (br_SyncIncludeMedia (cfg_Bridge cfg))
                               then <["$unselect" := "Media"]> q else q in
  let query := if br_SyncFullProperty (cfg_Bridge cfg) then unselect query
               else unselect (<["$select" := syncSelectList dataset]> query) in
  applySyncExpand query.

Definition FetchIncrementalPage (w : World) (dataset : string) (cursor : SyncCursor) (skip : Z) : res PageResult :=
  match LastModificationTimestamp cursor with
  | None => Ok (set_complete true emptyResult)
  | Some since =>
      let odataField := ModificationODataField dataset in
      let url := propertyCollectionURL dataset in
      let query := incrementalQuery dataset (BridgeIncrementalFilter dataset since) odataField skip in
      res_bind (fetchPage w url query dataset false) (λ result,
        if HTTPError result && ((HTTPStatus result =? 400)%Z || (HTTPStatus result =? 501)%Z)
           && negb (bool_decide (odataField = "ModificationTimestamp"))
        then
          let filter := "(" +:+ activePendingStatusFilter +:+ ") and " +:+
                        ODataGTFilter "ModificationTimestamp" since in
          fetchPage w url (<["$orderby" := "ModificationTimestamp asc"]> (<["$filter" := filter]> query))
            dataset false
        else Ok result)
  end.

Definition FetchNavHydratePage (w : World) (dataset : string) (skip : Z) : res PageResult :=
  let query : Values := <["$skip" := show_int skip]> (<["$top" := show_int incrementalTop]>
    (<["$filter" := BridgeReplicationFilter]> ∅)) in
  let query := if negb (br_SyncFullProperty (cfg_Bridge cfg))
               then <["$select" := replicationSelectList dataset]> query else query in
  res_bind (fetchPage w (propertyCollectionURL dataset) (applySyncExpand query) dataset false) (λ result,
    if bool_decide (Rows result = []) then Ok (set_complete true result)
    else Ok (set_has_more (incrementalTop <=? Z.of_nat (length (Rows result)))%Z result)).
End BridgeSync.
