(* ===== verification/SparkSync.v ===== *)
(** * Fetching Spark pages (package [sync], [spark_sync.go]) *)

From Stdlib Require Import Ascii String.
From stdpp Require Import gmap strings list.
From S2P Require Import Prelude GoStrings GoTime GoFloat GoJson MlsFields Payload Config Database Replication Upstream Fetch.

Open Scope Z_scope.
Open Scope string_scope.

Section SparkSync.
Context {Fmt : GoFmt} {U : Upstream} (cfg : Config).

(** The page size the code asks for, at most 1000. *)
Definition capped (top : Z) : Z :=
  let top := if (top <=? 0)%Z then 1000 else top in if (1000 <? top)%Z then 1000 else top.

(** The page size the code counts with, not capped. *)
Definition incrementalTop : Z :=
  let top := sp_SyncIncrementalTop (cfg_Spark cfg) in if (top <=? 0)%Z then 1000 else top.

Definition propertyCollectionURL : string :=
  TrimRightByte (sp_ReplicationHost (cfg_Spark cfg)) "/"%char +:+ "/" +:+
  TrimByte (sp_ReplicationReso (cfg_Spark cfg)) "/"%char +:+ "/Property".

Definition applySyncExpand (query : Values) (replication : bool) : Values :=
  let expand := TrimSpace (mls_SyncExpand (cfg_MLS cfg)) in
  let repl := TrimSpace (mls_SyncReplicationExpand (cfg_MLS cfg)) in
  let expand := if replication && negb (bool_decide (repl = EmptyString)) then repl else expand in
  if negb (bool_decide (expand = EmptyString)) then <["$expand" := expand]> query else query.

Definition fetchPage (w : World) (fetchURL : string) (query : Values) (dataset : string)
    (replication : bool) : res PageResult :=
  if bool_decide (sp_AccessToken (cfg_Spark cfg) = EmptyString) then Err "SPARK_ACCESS_TOKEN is not configured"
  else
    let reqURL := requestURL fetchURL query in
    match http_get w 0 reqURL with
    | HttpFail e => Err e
    | HttpReply status link body =>
        pageOfReply "spark" dataset replication incrementalTop
          (requested fetchURL reqURL query status) link body
    end.

Definition FetchReplicationPage (w : World) (cursor : SyncCursor) : res PageResult :=
  let first :=
    let query : Values := <["$top" := show_int (capped (sp_SyncReplicationTop (cfg_Spark cfg)))]>
      (<["$filter" := SparkReplicationFilter cfg (w_now w)]> ∅) in
    fetchPage w propertyCollectionURL (applySyncExpand query true) (cur_DatasetSlug cursor) true in
  match ReplicationNextURL cursor with
  | Some u => if negb (bool_decide (u = EmptyString)) then fetchPage w u ∅ (cur_DatasetSlug cursor) true
              else first
  | None => first
  end.

Definition windowFilter (since windowEnd : Z) : string :=
  "(" +:+ activePendingStatusFilter +:+ ") and ModificationTimestamp gt " +:+ format_rfc3339 since +:+
  " and ModificationTimestamp lt " +:+ format_rfc3339 windowEnd.

Definition FetchIncrementalPage (w : World) (cursor : SyncCursor) (skip : Z) : res PageResult :=
  match LastModificationTimestamp cursor with
  | None => Ok (set_complete true emptyResult)
  | Some since =>
      let windowEnd := default (w_now w) (IncrementalWindowEnd cursor) in
      let query : Values := <["$skip" := show_int skip]>
        (<["$top" := show_int (capped (sp_SyncIncrementalTop (cfg_Spark cfg)))]>
          (<["$orderby" := "ModificationTimestamp asc"]>
            (<["$filter" := windowFilter since windowEnd]> ∅))) in
      res_bind (fetchPage w propertyCollectionURL (applySyncExpand query false) (cur_DatasetSlug cursor) false)
        (λ result, match IncrementalWindowEnd cursor with
                   | None => Ok (set_window_end (Some windowEnd) result)
                   | Some _ => Ok result
                   end)
  end.
End SparkSync.
