(* ===== verification/Mirror.v ===== *)
(** * The listings mirror writer (package [sync], [listing_mirror.go])

    [HydrateReplicaBatch]: rows are upserted in flushes of [upsertChunk] records, each flush
    one transaction that also writes the PostGIS coordinates; the deletes come last. *)

From Stdlib Require Import Ascii String.
From stdpp Require Import gmap strings list.
From S2P Require Import Prelude GoStrings GoTime GoFloat GoJson MlsFields Payload Listing Config Database Queue Worker.

Open Scope Z_scope.
Open Scope string_scope.

Record HydrateStats := mkStats { RowsReceived : Z; Upserted : Z; Deleted : Z; Skipped : Z }.

Record coordPair := mkPair { cp_datasetSlug : string; cp_listingKey : string; cp_lng : float64; cp_lat : float64 }.

Record ListingMirrorWriter := mkWriter {
  upsertChunk : Z;
  sparkExpand : string;
  bridgeExpand : string;
}.

Definition NewListingMirrorWriter (chunk : Z) (spark bridge : string) : ListingMirrorWriter :=
  mkWriter (if (chunk <=? 0)%Z then 250 else chunk) spark bridge.

Definition expandKeys (wr : ListingMirrorWriter) (provider : MirrorProvider) : list string :=
  PersistExpandKeys provider (sparkExpand wr) (bridgeExpand wr).

(** What Go and SQL leave open: the order a map is ranged over, and the row an UPDATE takes
    from several VALUES that join with it. *)
Class Unordered := {
  map_order : gset string → list string;
  map_order_perm : ∀ s, map_order s ≡ₚ elements s;
  join_pick : coordPair → list coordPair → coordPair;
  join_pick_in : ∀ x l, join_pick x l ∈ x :: l;
}.

(** ** One record *)

(** The bounds PostgreSQL checks: NUMERIC precision and SMALLINT. *)
Definition numeric_fits (max : float64) (o : option float64) : bool :=
  match o with Some x => f_le (f_neg max) x && f_le x max | None => true end.
Definition smallint_fits (o : option Z) : bool :=
  match o with Some n => (-32768 <=? n)%Z && (n <=? 32767)%Z | None => true end.

Definition columns_accepted (rec : ListingRecord) : bool :=
  numeric_fits maxNumeric14_2 (ListPrice rec) && numeric_fits maxNumeric14_2 (PreviousListPrice rec) &&
  numeric_fits maxNumeric14_2 (EstimatedTotalMonthlyFees rec) &&
  numeric_fits maxBathroomsDecimal (BathroomsTotalDecimal rec) &&
  numeric_fits maxNumeric12_2 (LivingArea rec) && numeric_fits maxNumeric12_4 (LotSizeAcres rec) &&
  smallint_fits (BedroomsTotal rec) && smallint_fits (YearBuilt rec) && smallint_fits (StoriesTotal rec).

Definition rec_key (rec : ListingRecord) : string * string := (DatasetSlug rec, ListingKey rec).

(** COALESCE(EXCLUDED.column, listings.column) for the four payload columns, NULL when not
    present ([nullableJSONB]). *)
Definition coalesce_payloads (new old : ExpandedPayload) : ExpandedPayload :=
  let pick (has : bool) (n o : RawMessage) := if has then n else o in
  mkPayload (pick (p_HasMedia new) (p_Media new) (p_Media old))
    (pick (p_HasUnit new) (p_Unit new) (p_Unit old))
    (pick (p_HasRoom new) (p_Room new) (p_Room old))
    (pick (p_HasOpenHouse new) (p_OpenHouse new) (p_OpenHouse old))
    (p_HasMedia new || p_HasMedia old) (p_HasUnit new || p_HasUnit old)
    (p_HasRoom new || p_HasRoom old) (p_HasOpenHouse new || p_HasOpenHouse old).

Definition with_payloads (p : ExpandedPayload) (r : ListingRecord) : ListingRecord :=
  mkListing (DatasetSlug r) (ListingKey r) (MlsListingID r) (StandardStatus r) (ListPrice r) (BedroomsTotal r)
    (BathroomsTotalDecimal r) (LivingArea r) (LotSizeAcres r) (YearBuilt r) (StoriesTotal r) (City r)
    (CountyOrParish r) (PostalCode r) (StateOrProvince r) (PropertyType r) (PropertySubType r) (OnMarketDate r)
    (CloseDate r) (ModificationTimestamp r) (PriceChangeTimestamp r) (PreviousListPrice r) (FloodZoneCode r)
    (LowRiskFloodZoneYN r) (EstimatedTotalMonthlyFees r) (Latitude r) (Longitude r) (WaterfrontYN r)
    (PoolPrivateYN r) (DockYN r) (NewConstructionYN r) (GarageYN r) (AssociationYN r) (SpaYN r) (FireplaceYN r)
    (SeniorCommunityYN r) (SubdivisionName r) (ElementarySchool r) (MiddleOrJuniorSchool r) (HighSchool r)
    (SpecialListingConditions r) (RawData r) p (CustomFields r) (StreetNumber r) (StreetName r)
    (ListAgentMlsID r) (ListOfficeMlsID r).

(** The record of the row after an upsert over the old one. *)
Definition upsert_rec (new : ListingRecord) (old : option ListingRecord) : ListingRecord :=
  match old with
  | None => new
  | Some o => with_payloads (coalesce_payloads (Payloads new) (Payloads o)) new
  end.

(** INSERT ... ON CONFLICT (dataset_slug, listing_key) DO UPDATE: the insert sets
    low_risk_flood_zone_yn and NULL coordinates, the update leaves both and the FEMA columns.
    The sequence advances on either path. *)
Definition upsert_row (rec : ListingRecord) : M World unit := λ w,
  let id := w_listing_seq w in
  let w' := set_listing_seq (id + 1)%Z w in
  if columns_accepted rec then
    let row := match w_listings w !! rec_key rec with
               | None => mkListingRow id rec None None None RawNil None (LowRiskFloodZoneYN rec)
                           (w_now w) (w_now w) (w_now w)
               | Some l => mkListingRow (l_id l) (upsert_rec rec (Some (l_rec l))) (l_coordinates l)
                             (l_fema_flood_zone_code l) (l_flood_zone_sfha_tf l) (l_flood_zone_raw l)
                             (l_flood_zone_updated_at l) (l_low_risk_flood_zone_yn l)
                             (w_now w) (l_created_at l) (w_now w)
               end in
    (Ok tt, set_listings (<[rec_key rec := row]> (w_listings w)) w')
  else (Err "listing persist numeric overflow", w').

Definition set_coordinates (c : option (float64 * float64)) (now : Z) (l : listing_row) : listing_row :=
  mkListingRow (l_id l) (l_rec l) c (l_fema_flood_zone_code l) (l_flood_zone_sfha_tf l) (l_flood_zone_raw l)
    (l_flood_zone_updated_at l) (l_low_risk_flood_zone_yn l) (l_mirror_persisted_at l) (l_created_at l) now.

Definition pair_key (p : coordPair) : string * string := (cp_datasetSlug p, cp_listingKey p).

Section Writer.
Context {F : Faults} {Un : Unordered} {Fmt : GoFmt}.

Definition upsertListing (rec : ListingRecord) : M World unit := stmt (upsert_row rec).

(** One UPDATE ... FROM (VALUES ...) of at most 250 pairs. *)
Definition update_coordinates (segment : list coordPair) : M World unit :=
  modify (λ w, set_listings (map_imap (λ k l, Some
    match filter (λ p, pair_key p = k) segment with
    | [] => l
    | p :: r => let p := join_pick p r in set_coordinates (Some (cp_lng p, cp_lat p)) (w_now w) l
    end) (w_listings w)) w).

Definition flushCoordinates (pairs : list coordPair) : M World unit :=
  for_each (λ segment, stmt (update_coordinates segment)) (chunks 250 pairs).

(** A [map[string]map[string]bool] as (slug, segment of at most 250 keys), in the order the
    maps are ranged over. *)
Definition segments (grouped : gmap string (gset string)) : list (string * list string) :=
  map_order (dom grouped) ≫= λ slug,
    (λ seg, (slug, seg)) <$> chunks 250 (map_order (default ∅ (grouped !! slug))).

Definition null_coordinates (seg : string * list string) : M World unit :=
  modify (λ w, set_listings (map_imap (λ k l, Some
    (if bool_decide (k.1 = seg.1 ∧ k.2 ∈ seg.2) then set_coordinates None (w_now w) l else l))
    (w_listings w)) w).

Definition flushNullCoordinates (grouped : gmap string (gset string)) : M World unit :=
  for_each (λ seg, stmt (null_coordinates seg)) (segments grouped).

Definition delete_rows (seg : string * list string) : M World unit :=
  modify (λ w, set_listings
    (filter (λ kv, ¬ (kv.1.1 = seg.1 ∧ kv.1.2 ∈ seg.2)) (w_listings w)) w).

Definition flushDeletes (grouped : gmap string (gset string)) : M World unit :=
  for_each (λ seg, stmt (delete_rows seg)) (segments grouped).

(** ** A batch *)

(** The variables of the loop. *)
Record hydrate := mkHydrate {
  h_stats : HydrateStats;
  h_pending : list ListingRecord;
  h_coords : list coordPair;
  h_nullCoordKeys : gmap string (gset string);
  h_deletes : gmap string (gset string);
}.

Definition add_key (slug key : string) (g : gmap string (gset string)) : gmap string (gset string) :=
  <[slug := {[key]} ∪ default ∅ (g !! slug)]> g.

Definition flush (h : hydrate) : M World hydrate :=
  if bool_decide (h_pending h = []) && bool_decide (h_coords h = []) && bool_decide (h_nullCoordKeys h = ∅)
  then ret h
  else
    tx (for_each upsertListing (h_pending h) ;;;
        flushCoordinates (h_coords h) ;;;
        flushNullCoordinates (h_nullCoordKeys h) ;;;
        ret (Some tt)) ;;;
    ret (mkHydrate (h_stats h) [] [] ∅ (h_deletes h)).

(** [json.Unmarshal(raw, &row)]: null is the nil map. *)
Definition row_of (raw : text) : option row :=
  match raw with
  | Some (JObj m) => Some m
  | Some JNull => Some ∅
  | _ => None
  end.

Context (wr : ListingMirrorWriter) (replicationDataset : string) (provider : MirrorProvider).

Definition record_of (raw : text) : option (ListingRecord * RowAction) :=
  r ← row_of raw;
  Some (BuildListingRecord replicationDataset provider r (RawText raw) (expandKeys wr provider)).

Definition count_skipped (s : HydrateStats) := mkStats (RowsReceived s) (Upserted s) (Deleted s) (Skipped s + 1).
Definition count_deleted (s : HydrateStats) := mkStats (RowsReceived s) (Upserted s) (Deleted s + 1) (Skipped s).
Definition count_upserted (s : HydrateStats) := mkStats (RowsReceived s) (Upserted s + 1) (Deleted s) (Skipped s).

(** The body of the loop up to the flush check. *)
Definition take_row (raw : text) (h : hydrate) : hydrate :=
  match record_of raw with
  | None | Some (_, RowActionSkip) =>
      mkHydrate (count_skipped (h_stats h)) (h_pending h) (h_coords h) (h_nullCoordKeys h) (h_deletes h)
  | Some (rec, RowActionDelete) =>
      mkHydrate (count_deleted (h_stats h)) (h_pending h) (h_coords h) (h_nullCoordKeys h)
        (add_key (DatasetSlug rec) (ListingKey rec) (h_deletes h))
  | Some (rec, RowActionUpsert) =>
      let pending := (h_pending h ++ [rec])%list in
      match Latitude rec, Longitude rec with
      | Some lat, Some lng =>
          mkHydrate (count_upserted (h_stats h)) pending
            (h_coords h ++ [mkPair (DatasetSlug rec) (ListingKey rec) lng lat])%list
            (h_nullCoordKeys h) (h_deletes h)
      | _, _ =>
          mkHydrate (count_upserted (h_stats h)) pending (h_coords h)
            (add_key (DatasetSlug rec) (ListingKey rec) (h_nullCoordKeys h)) (h_deletes h)
      end
  end.

(** The flush check is reached by upserted rows only. *)
Definition is_upsert (raw : text) : bool :=
  match record_of raw with Some (_, RowActionUpsert) => true | _ => false end.

Fixpoint hydrate_rows (rows : list text) (h : hydrate) : M World hydrate :=
  match rows with
  | [] => ret h
  | raw :: r =>
      let h := take_row raw h in
      let* h := (if is_upsert raw && (upsertChunk wr <=? Z.of_nat (length (h_pending h)))%Z
                 then flush h else ret h) in
      hydrate_rows r h
  end.

Definition HydrateReplicaBatch (rows : list text) : M World HydrateStats :=
  let* h := hydrate_rows rows (mkHydrate (mkStats (Z.of_nat (length rows)) 0 0 0) [] [] ∅ ∅) in
  let* h := flush h in
  flushDeletes (h_deletes h) ;;;
  ret (h_stats h).
End Writer.

(** ** Promises to the queue *)

Section MirrorPromises.
Context {F : Faults} {Un : Unordered} {Fmt : GoFmt}.

Lemma adds_only_upsertListing rec : adds_only (upsertListing rec).
Proof. apply adds_only_stmt, adds_only_keeps. intros w. unfold upsert_row. by destruct (columns_accepted rec). Qed.
#[local] Hint Resolve adds_only_upsertListing : go.

Lemma adds_only_flushCoordinates pairs : adds_only (flushCoordinates pairs).
Proof. unfold flushCoordinates, update_coordinates. adds_tac. Qed.
Lemma adds_only_flushNullCoordinates g : adds_only (flushNullCoordinates g).
Proof. unfold flushNullCoordinates, null_coordinates. adds_tac. Qed.
Lemma adds_only_flushDeletes g : adds_only (flushDeletes g).
Proof. unfold flushDeletes, delete_rows. adds_tac. Qed.
#[local] Hint Resolve adds_only_flushCoordinates adds_only_flushNullCoordinates adds_only_flushDeletes : go.

Lemma seq_mono_keeps {A} (m : M World A) : keeps w_job_seq m → seq_mono m.
Proof. intros H w. rewrite H. lia. Qed.

Lemma adds_only_flush h : adds_only (flush h).
Proof.
  unfold flush. destruct (_ && _ && _)%bool; [apply adds_only_ret|].
  apply adds_only_bind; [|intros ?; apply adds_only_ret]. apply adds_only_tx; [|adds_tac].
  assert (Hs : ∀ {A} (m : M World A), seq_mono m → seq_mono (stmt m)) by (intros; by apply seq_mono_stmt).
  apply seq_mono_bind; [apply seq_mono_for_each; intros rec; apply Hs; intros w; unfold upsert_row;
    by destruct (columns_accepted rec)|]. intros _.
  apply seq_mono_bind; [apply seq_mono_for_each; intros seg; apply Hs; intros w; simpl; lia|]. intros _.
  apply seq_mono_bind; [apply seq_mono_for_each; intros seg; apply Hs; intros w; simpl; lia|]. intros _.
  intros w. simpl. lia.
Qed.
#[local] Hint Resolve adds_only_flush : go.

Lemma adds_only_hydrate_rows wr ds p rows h : adds_only (hydrate_rows wr ds p rows h).
Proof.
  revert h. induction rows as [|raw rows IH]; intros h; [apply adds_only_ret|]. cbn [hydrate_rows].
  apply adds_only_bind; [|intros; apply IH]. case_match; auto with go.
Qed.
#[local] Hint Resolve adds_only_hydrate_rows : go.

Lemma adds_only_HydrateReplicaBatch wr ds p rows : adds_only (HydrateReplicaBatch wr ds p rows).
Proof. unfold HydrateReplicaBatch. adds_tac. Qed.
End MirrorPromises.
#[export] Hint Resolve adds_only_HydrateReplicaBatch : go.

(** ** The mirror as records by key *)

Definition mirror (w : World) : gmap (string * string) ListingRecord := l_rec <$> w_listings w.

#[export] Instance view_mirror : TableView mirror.
Proof. split; [done | by left]. Qed.




(** *** Repeating upserts changes nothing *)











(** ** What the statements do to the mirror *)

Section Effects.
Context {F : Faults} {Un : Unordered} {Fmt : GoFmt}.







End Effects.

(** ** Grouped keys *)

Definition in_group (k : string * string) (g : gmap string (gset string)) : Prop := k.2 ∈ default ∅ (g !! k.1).

Lemma in_group_add k slug key g : in_group k (add_key slug key g) ↔ k = (slug, key) ∨ in_group k g.
Proof.
  unfold in_group, add_key. rewrite lookup_insert. destruct k as [s x]. simpl. case_decide as E; simpl.
  - subst. rewrite elem_of_union, elem_of_singleton. split; intros [H|H]; auto; left; congruence.
  - split; [auto|]. intros [[= -> ->]|H]; done.
Qed.

Lemma segments_cover `{Un : Unordered} k g :
  in_group k g ↔ ∃ seg, seg ∈ segments g ∧ k.1 = seg.1 ∧ k.2 ∈ seg.2.
Proof.
  unfold in_group, segments. split.
  - intros Hk. destruct (g !! k.1) as [keys|] eqn:E; [|by apply not_elem_of_empty in Hk]. simpl in Hk.
    assert (Hin : k.2 ∈ concat (chunks 250 (map_order keys))).
    { rewrite chunks_concat by lia. rewrite map_order_perm. by apply elem_of_elements. }
    apply list_elem_of_In, in_concat in Hin as (seg & H1 & H2). exists (k.1, seg).
    split; [|split; [done|by apply list_elem_of_In]]. apply list_elem_of_bind. exists k.1. rewrite E. simpl.
    split; [apply list_elem_of_fmap_2; by apply list_elem_of_In|].
    rewrite map_order_perm, elem_of_elements, elem_of_dom. eauto.
  - intros (seg & (slug & Hseg & _)%list_elem_of_bind & Hk1 & Hk2).
    apply list_elem_of_fmap in Hseg as (keys & -> & Hkeys). simpl in *. rewrite Hk1.
    rewrite <- elem_of_elements, <- map_order_perm, <- (chunks_concat 250) by lia.
    apply list_elem_of_In, in_concat. exists keys. by split; apply list_elem_of_In.
Qed.

(** ** Batches *)

Section Batches.
Context {F : Faults} {Un : Unordered} {Fmt : GoFmt}.
Context (wr : ListingMirrorWriter) (replicationDataset : string) (provider : MirrorProvider).

#[local] Notation rec_of := (record_of wr replicationDataset provider).

(** The records a batch upserts, in order, and the keys it deletes. *)
Definition upserts (rows : list text) : list ListingRecord :=
  omap (λ raw, match rec_of raw with Some (rec, RowActionUpsert) => Some rec | _ => None end) rows.
Definition deleted (rows : list text) (k : string * string) : bool :=
  existsb (λ raw, match rec_of raw with
                  | Some (rec, RowActionDelete) => bool_decide (rec_key rec = k)
                  | _ => false
                  end) rows.

Lemma take_row_pending raw h :
  h_pending (take_row wr replicationDataset provider raw h) = (h_pending h ++ upserts [raw])%list ∧
  (∀ k, in_group k (h_deletes (take_row wr replicationDataset provider raw h)) ↔
        in_group k (h_deletes h) ∨ deleted [raw] k = true).
Proof.
  unfold take_row, upserts, deleted. simpl. destruct (rec_of raw) as [[rec []]|]; simpl.
  - split; [destruct (Latitude rec), (Longitude rec); done|].
    intros k. destruct (Latitude rec), (Longitude rec); simpl; intuition discriminate.
  - split; [by rewrite app_nil_r|]. intros k. rewrite in_group_add, orb_false_r, bool_decide_eq_true.
    unfold rec_key. intuition congruence.
  - split; [by rewrite app_nil_r|]. intuition discriminate.
  - split; [by rewrite app_nil_r|]. intuition discriminate.
Qed.

#[local] Arguments deleted : simpl never.
#[local] Arguments upserts : simpl never.

Lemma upserts_app l1 l2 : upserts (l1 ++ l2) = (upserts l1 ++ upserts l2)%list.
Proof. apply omap_app. Qed.




(** ** Success *)








Context {NF : NoFaults}.





End Batches.


(** ** Coordinates *)

#[local] Arguments upserts : simpl never.

Section Coordinates.
Context {F : Faults} {Un : Unordered} {Fmt : GoFmt}.

Definition coord_pair_of (rec : ListingRecord) : option coordPair :=
  match Latitude rec, Longitude rec with
  | Some lat, Some lng => Some (mkPair (DatasetSlug rec) (ListingKey rec) lng lat)
  | _, _ => None
  end.

Definition point_of (rec : ListingRecord) : option (float64 * float64) :=
  (λ p, (cp_lng p, cp_lat p)) <$> coord_pair_of rec.

(** The PostGIS point of every row is that of its latitude and longitude columns. *)
Definition coords_agree (w : World) : Prop :=
  map_Forall (λ _ l, l_coordinates l = point_of (l_rec l)) (w_listings w).

(** Rows by key after a statement list: what the row's record and point become. *)
Definition at_row (w : World) (k : string * string) : option (ListingRecord * option (float64 * float64)) :=
  (λ l, (l_rec l, l_coordinates l)) <$> w_listings w !! k.

Lemma coords_agree_at w : coords_agree w ↔ ∀ k r c, at_row w k = Some (r, c) → c = point_of r.
Proof.
  unfold coords_agree, at_row, map_Forall. split.
  - intros H k r c. destruct (w_listings w !! k) as [l|] eqn:E; [|done]. intros [= <- <-]. by eapply H.
  - intros H k l E. eapply (H k). by rewrite E.
Qed.

Lemma point_of_upsert rec o : point_of (upsert_rec rec o) = point_of rec.
Proof. by destruct o. Qed.

Lemma upserts_at_row recs w w' k :
  for_each upsertListing recs w = (Ok tt, w') →
  NoDup (rec_key <$> recs) →
  (k ∉ rec_key <$> recs → at_row w' k = at_row w k) ∧
  (∀ rec, rec ∈ recs → rec_key rec = k → ∃ r c, at_row w' k = Some (r, c) ∧ point_of r = point_of rec).
Proof.
  revert w. induction recs as [|rec l IH]; intros w; simpl.
  { intros [= <-]. split; [done|]. by intros rec ?%elem_of_nil. }
  intros ([] & w1 & H1 & H2)%bind_inv_ok [Hnin Hnd]%NoDup_cons.
  destruct (IH w1 H2 Hnd) as [I1 I2]. clear IH.
  unfold upsertListing, stmt, upsert_row in H1. destruct (fault _); [done|]. simpl in H1.
  destruct (columns_accepted rec); [|done]. injection H1 as <-. split.
  - intros Hk. rewrite not_elem_of_cons in Hk. destruct Hk as [Hk1 Hk2]. rewrite I1 by done.
    unfold at_row. simpl. by rewrite lookup_insert_ne by done.
  - intros rec' [->|Hin]%elem_of_cons Hk; [|by apply I2]. subst k. rewrite I1 by done.
    unfold at_row. simpl. rewrite lookup_insert_eq. simpl. eexists _, _. split; [done|].
    destruct (w_listings w !! rec_key rec) as [l0|]; simpl; [|done]. apply (point_of_upsert rec (Some (l_rec l0))).
Qed.

Lemma coordinates_at_row segs w w' k :
  for_each (λ segment, stmt (update_coordinates segment)) segs w = (Ok tt, w') →
  ((∀ p, p ∈ concat segs → pair_key p ≠ k) → at_row w' k = at_row w k) ∧
  (∀ c r o, at_row w k = Some (r, o) → (∃ p, p ∈ concat segs ∧ pair_key p = k) →
     (∀ p, p ∈ concat segs → pair_key p = k → (cp_lng p, cp_lat p) = c) → at_row w' k = Some (r, Some c)).
Proof.
  revert w. induction segs as [|seg segs IH]; intros w; simpl.
  { intros [= <-]. split; [done|]. intros c r o _ (p & ?%elem_of_nil & _). done. }
  intros ([] & w1 & H1 & H2)%bind_inv_ok. destruct (IH w1 H2) as [I1 I2]. clear IH.
  unfold stmt, update_coordinates, modify in H1. destruct (fault _); [done|]. simpl in H1. injection H1 as <-.
  assert (Hat : ∀ w0, at_row (set_listings (map_imap (λ k l, Some
      match filter (λ p, pair_key p = k) seg with
      | [] => l
      | p :: r => set_coordinates (Some (cp_lng (join_pick p r), cp_lat (join_pick p r))) (w_now w) l
      end) (w_listings w)) w0) k =
      match filter (λ p, pair_key p = k) seg with
      | [] => at_row w k
      | p :: r => (λ '(r0, _), (r0, Some (cp_lng (join_pick p r), cp_lat (join_pick p r)))) <$> at_row w k
      end).
  { intros w0. unfold at_row. simpl. rewrite map_lookup_imap.
    destruct (w_listings w !! k) as [l|]; simpl; by destruct (filter _ seg). }
  simpl in Hat. rewrite Hat in I1, I2. setoid_rewrite elem_of_app. split.
  - intros Hno. destruct (filter (λ p, pair_key p = k) seg) as [|p0 r0] eqn:Ef.
    + apply I1. intros p Hp. apply Hno. by right.
    + assert (Hp0 : p0 ∈ filter (λ p, pair_key p = k) seg) by (rewrite Ef; by left).
      apply list_elem_of_filter in Hp0 as [Hk Hin]. by destruct (Hno p0 (or_introl Hin)).
  - intros c r o Ho Hex Hall. destruct (filter (λ p, pair_key p = k) seg) as [|p0 r0] eqn:Ef.
    + eapply I2; [exact Ho| |eauto]. destruct Hex as (p & [Hin|Hin] & Hk); [|eauto].
      assert (Hp : p ∈ filter (λ p, pair_key p = k) seg) by (by apply list_elem_of_filter).
      rewrite Ef in Hp. by apply elem_of_nil in Hp.
    + assert (Hj : (cp_lng (join_pick p0 r0), cp_lat (join_pick p0 r0)) = c).
      { pose proof (join_pick_in p0 r0) as Hj. rewrite <- Ef in Hj. apply list_elem_of_filter in Hj as [Hk Hin]. eauto. }
      rewrite Ho in I1, I2. simpl in I1, I2. rewrite Hj in I1, I2.
      destruct (decide (Exists (λ p, pair_key p = k) (concat segs))) as [Hex'|Hno]; rewrite Exists_exists in *.
      * eapply I2; eauto.
      * apply I1. intros p Hp Hk. apply Hno. eauto.
Qed.

Lemma nulls_at_row segs w w' k :
  for_each (λ seg, stmt (null_coordinates seg)) segs w = (Ok tt, w') →
  ((¬ ∃ seg, seg ∈ segs ∧ k.1 = seg.1 ∧ k.2 ∈ seg.2) → at_row w' k = at_row w k) ∧
  (∀ r o, at_row w k = Some (r, o) → (∃ seg, seg ∈ segs ∧ k.1 = seg.1 ∧ k.2 ∈ seg.2) →
     at_row w' k = Some (r, None)).
Proof.
  revert w. induction segs as [|seg segs IH]; intros w; simpl.
  { intros [= <-]. split; [done|]. by intros r o _ (? & ?%elem_of_nil & _). }
  intros ([] & w1 & H1 & H2)%bind_inv_ok. destruct (IH w1 H2) as [I1 I2]. clear IH.
  unfold stmt, null_coordinates, modify in H1. destruct (fault _); [done|]. simpl in H1. injection H1 as <-.
  assert (Hat : ∀ w0, at_row (set_listings (map_imap (λ k l, Some
      (if bool_decide (k.1 = seg.1 ∧ k.2 ∈ seg.2) then set_coordinates None (w_now w) l else l)) (w_listings w)) w0) k
      = if bool_decide (k.1 = seg.1 ∧ k.2 ∈ seg.2) then (λ '(r0, _), (r0, None)) <$> at_row w k else at_row w k).
  { intros w0. unfold at_row. simpl. rewrite map_lookup_imap.
    destruct (w_listings w !! k) as [l|]; simpl; by case_bool_decide. }
  rewrite Hat in I1, I2. setoid_rewrite elem_of_cons.
  assert (Hdec : (∃ s, s ∈ segs ∧ k.1 = s.1 ∧ k.2 ∈ s.2) ∨ ¬ (∃ s, s ∈ segs ∧ k.1 = s.1 ∧ k.2 ∈ s.2)).
  { destruct (decide (Exists (λ s, k.1 = s.1 ∧ k.2 ∈ s.2) segs)) as [H|H]; rewrite Exists_exists in H; auto. }
  case_bool_decide as Hs.
  - split; [intros []; exists seg; auto|]. intros r o Ho _. rewrite Ho in I1, I2. simpl in I1, I2.
    destruct Hdec as [H|H]; [by eapply I2|by apply I1].
  - split.
    + intros Hno. apply I1. intros (s & Hin & Hk). apply Hno. eauto.
    + intros r o Ho (s & [->|Hin] & Hk); [by destruct Hs|]. eapply I2; eauto.
Qed.

(** What the pending lists of the loop say about each other. *)
Definition pending_ok (h : hydrate) : Prop :=
  h_coords h = omap coord_pair_of (h_pending h) ∧
  (∀ k, in_group k (h_nullCoordKeys h) ↔
        ∃ rec, rec ∈ h_pending h ∧ rec_key rec = k ∧ coord_pair_of rec = None).

Lemma coord_pair_key rec p : coord_pair_of rec = Some p → pair_key p = rec_key rec.
Proof. unfold coord_pair_of. destruct (Latitude rec), (Longitude rec); by intros [= <-]. Qed.

Lemma NoDup_key (recs : list ListingRecord) r1 r2 :
  NoDup (rec_key <$> recs) → r1 ∈ recs → r2 ∈ recs → rec_key r1 = rec_key r2 → r1 = r2.
Proof.
  induction recs as [|r l IH]; [by intros _ ?%elem_of_nil|]. intros [Hn Hd]%NoDup_cons.
  rewrite !elem_of_cons. intros [->|H1] [->|H2] Hk; auto.
  - destruct Hn. rewrite Hk. by apply list_elem_of_fmap_2.
  - destruct Hn. rewrite <- Hk. by apply list_elem_of_fmap_2.
Qed.

Lemma flush_body_agree h w o w' :
  (for_each upsertListing (h_pending h) ;;;
   flushCoordinates (h_coords h) ;;;
   flushNullCoordinates (h_nullCoordKeys h) ;;;
   ret (Some tt)) w = (Ok o, w') →
  pending_ok h → NoDup (rec_key <$> h_pending h) → coords_agree w → coords_agree w'.
Proof.
  intros ([] & w1 & H1 & Hc)%bind_inv_ok [Hcoords Hnull] Hnd Hw. apply bind_inv_ok in Hc as ([] & w2 & H2 & Hc).
  apply bind_inv_ok in Hc as ([] & w3 & H3 & Hc). injection Hc as <- <-.
  rewrite coords_agree_at in *. intros k r c Hk.
  destruct (upserts_at_row _ _ _ k H1 Hnd) as [U1 U2]. clear H1.
  unfold flushCoordinates in H2. apply (coordinates_at_row _ _ _ k) in H2 as [C1 C2].
  rewrite chunks_concat in C1, C2 by lia. unfold flushNullCoordinates in H3.
  apply (nulls_at_row _ _ _ k) in H3 as [N1 N2].
  assert (Hseg := iff_trans (iff_sym (segments_cover k (h_nullCoordKeys h))) (Hnull k)).
  assert (Hcp : ∀ p, p ∈ h_coords h → pair_key p = k → ∃ rec, rec ∈ h_pending h ∧ rec_key rec = k ∧ coord_pair_of rec = Some p).
  { intros p Hp Hpk. rewrite Hcoords in Hp. apply list_elem_of_omap in Hp as (rec & Hin & Hrec).
    exists rec. split_and!; [done| |done]. by rewrite <- Hpk, (coord_pair_key _ _ Hrec). }
  destruct (decide (k ∈ rec_key <$> h_pending h)) as [(rec & -> & Hin)%list_elem_of_fmap|Hno].
  - destruct (U2 rec Hin eq_refl) as (r1 & c1 & Hr1 & Hp1).
    assert (Huniq : ∀ rec', rec' ∈ h_pending h → rec_key rec' = rec_key rec → rec' = rec)
      by (intros rec' Hin' Hk'; by eapply NoDup_key).
    destruct (coord_pair_of rec) as [p|] eqn:Ep.
    + assert (Hr2 : at_row w2 (rec_key rec) = Some (r1, Some (cp_lng p, cp_lat p))).
      { eapply C2; [exact Hr1| |].
        - exists p. split; [|by apply coord_pair_key]. rewrite Hcoords. apply list_elem_of_omap. eauto.
        - intros p' Hp' Hk'. destruct (Hcp p' Hp' Hk') as (rec' & Hin' & Hkey & Hpair).
          rewrite (Huniq rec' Hin' Hkey) in Hpair. congruence. }
      rewrite N1 in Hk; [|rewrite Hseg].
      * rewrite Hr2 in Hk. injection Hk as <- <-. rewrite Hp1. unfold point_of. by rewrite Ep.
      * intros (rec' & Hin' & Hkey & Hpair). rewrite (Huniq rec' Hin' Hkey) in Hpair. congruence.
    + assert (Hr2 : at_row w2 (rec_key rec) = Some (r1, c1)).
      { rewrite C1; [done|]. intros p Hp Hpk. destruct (Hcp p Hp Hpk) as (rec' & Hin' & Hkey & Hpair).
        rewrite (Huniq rec' Hin' Hkey) in Hpair. congruence. }
      rewrite (N2 r1 c1 Hr2) in Hk by (apply Hseg; eauto). injection Hk as <- <-. rewrite Hp1. unfold point_of. by rewrite Ep.
  - apply (Hw k). rewrite <- U1 by done. rewrite <- C1.
    + rewrite <- N1; [exact Hk|]. rewrite Hseg. intros (rec & Hin & <- & _). apply Hno. by apply list_elem_of_fmap_2.
    + intros p Hp Hpk. destruct (Hcp p Hp Hpk) as (rec & Hin & <- & _). apply Hno. by apply list_elem_of_fmap_2.
Qed.

Lemma coords_agree_listings w w' : w_listings w' = w_listings w → coords_agree w → coords_agree w'.
Proof. unfold coords_agree. by intros ->. Qed.

Lemma flush_agree h w r w' :
  flush h w = (r, w') → pending_ok h → NoDup (rec_key <$> h_pending h) → coords_agree w →
  coords_agree w' ∧ (∀ h', r = Ok h' → pending_ok h' ∧ h_pending h' = []).
Proof.
  unfold flush. destruct (_ && _ && _)%bool eqn:E.
  { rewrite !andb_true_iff, !bool_decide_eq_true in E. destruct E as [[E1 _] _].
    intros [= <- <-] Hp _ Hw. split; [done|]. by intros h' [= <-]. }
  clear E. intros H Hp Hnd Hw. unfold bind at 1 in H.
  destruct (tx _ w) as [[o|e] w1] eqn:Et; injection H as <- <-; (split; [|try done]).
  2: { intros h' [= <-]. split; [|done]. split; [done|]. intros k. unfold in_group. simpl. rewrite lookup_empty. simpl.
       rewrite elem_of_empty. split; [done|]. intros (rec & ?%elem_of_nil & _). done. }
  all: unfold tx, stmt at 1 in Et; destruct (fault _); simpl in Et;
    [by injection Et as _ <-|].
  all: destruct (bind _ _ _) as [[[a|]|e'] w2] eqn:Eb; [|by injection Et as _ <-..].
  all: unfold stmt in Et; destruct (fault _); simpl in Et; [by injection Et as _ <-|].
  all: injection Et as _ <-; by eapply flush_body_agree in Eb.
Qed.

Context (wr : ListingMirrorWriter) (replicationDataset : string) (provider : MirrorProvider).

Lemma take_row_pending_ok raw h : pending_ok h → pending_ok (take_row wr replicationDataset provider raw h).
Proof.
  intros [H1 H2]. unfold take_row. destruct (record_of _ _ _ raw) as [[rec []]|]; try by split.
  assert (Hadd : ∀ k, (∃ r, r ∈ (h_pending h ++ [rec])%list ∧ rec_key r = k ∧ coord_pair_of r = None) ↔
    (∃ r, r ∈ h_pending h ∧ rec_key r = k ∧ coord_pair_of r = None) ∨ (rec_key rec = k ∧ coord_pair_of rec = None)).
  { intros k. setoid_rewrite elem_of_app. setoid_rewrite list_elem_of_singleton. naive_solver. }
  destruct (Latitude rec) as [lat|] eqn:E1, (Longitude rec) as [lng|] eqn:E2; split; simpl;
    try (rewrite omap_app, H1; simpl; unfold coord_pair_of; rewrite E1, ?E2; simpl; by rewrite ?app_nil_r);
    intros k; rewrite Hadd; unfold coord_pair_of at 2; rewrite E1, ?E2;
    rewrite ?in_group_add, H2; unfold rec_key; naive_solver.
Qed.

Lemma hydrate_rows_agree rows h w r w' :
  hydrate_rows wr replicationDataset provider rows h w = (r, w') →
  pending_ok h → NoDup (rec_key <$> (h_pending h ++ upserts wr replicationDataset provider rows)%list) → coords_agree w →
  coords_agree w' ∧ (∀ h', r = Ok h' → pending_ok h' ∧ NoDup (rec_key <$> h_pending h')).
Proof.
  revert h w. induction rows as [|raw rows IH]; intros h w; simpl.
  { intros [= <- <-] Hp Hnd Hw. split; [done|]. intros h' [= <-]. split; [done|].
    unfold upserts in Hnd. simpl in Hnd. by rewrite app_nil_r in Hnd. }
  destruct (take_row_pending wr replicationDataset provider raw h) as [Hpe _].
  intros H Hp Hnd Hw. apply (take_row_pending_ok raw) in Hp. set (h1 := take_row _ _ _ raw h) in *.
  change (raw :: rows) with ([raw] ++ rows)%list in Hnd. rewrite upserts_app, app_assoc, <- Hpe in Hnd.
  destruct (_ && _)%bool.
  - unfold bind at 1 in H. destruct (flush h1 w) as [r1 w1] eqn:Ef.
    assert (Hnd1 : NoDup (rec_key <$> h_pending h1) ∧ NoDup (rec_key <$> upserts wr replicationDataset provider rows)).
    { rewrite fmap_app in Hnd. by apply NoDup_app in Hnd as (? & _ & ?). }
    destruct (flush_agree _ _ _ _ Ef Hp (proj1 Hnd1) Hw) as [Hw1 Hh].
    destruct r1 as [h2|e]; [|injection H as <- <-; by split].
    destruct (Hh h2 eq_refl) as [Hp2 He]. eapply IH; [exact H|done| |done]. rewrite He. exact (proj2 Hnd1).
  - unfold bind at 1, ret in H. eapply IH; [exact H|done..].
Qed.

(** The map point of a listing follows its columns: when the upsert rows of a batch name
    each key once, every listing whose PostGIS point was that of its latitude and longitude
    columns, NULL when one is missing, still has it after the batch, whatever statement fails. *)
Theorem hydrate_coordinates rows w r w' :
  HydrateReplicaBatch wr replicationDataset provider rows w = (r, w') →
  NoDup (rec_key <$> upserts wr replicationDataset provider rows) → coords_agree w → coords_agree w'.
Proof.
  unfold HydrateReplicaBatch. unfold bind at 1. intros H Hnd Hw.
  destruct (hydrate_rows _ _ _ rows _ w) as [r1 w1] eqn:E1.
  apply hydrate_rows_agree in E1 as [Hw1 Hh]; [|split; [done|]|done|done].
  2: { intros k. unfold in_group. simpl. rewrite lookup_empty. simpl. rewrite elem_of_empty.
       split; [done|]. intros (rec & ?%elem_of_nil & _). done. }
  destruct r1 as [h1|e]; [|by injection H as <- <-]. destruct (Hh h1 eq_refl) as [Hp1 Hnd1].
  unfold bind at 1 in H. destruct (flush h1 w1) as [r2 w2] eqn:E2.
  destruct (flush_agree _ _ _ _ E2 Hp1 Hnd1 Hw1) as [Hw2 _]. destruct r2 as [h2|e]; [|by injection H as <- <-].
  assert (Hd : ∀ l w3 w4 r3, for_each (λ seg, stmt (delete_rows seg)) l w3 = (r3, w4) → coords_agree w3 → coords_agree w4).
  { induction l as [|seg l IH]; intros w3 w4 r3; simpl; [by intros [= _ <-]|].
    unfold bind, stmt. destruct (fault _); simpl; [by intros [= _ <-]|]. intros Hl Hw3. eapply IH; [exact Hl|].
    intros k x. simpl. rewrite map_lookup_filter_Some. intros [Hx _]. by eapply Hw3. }
  unfold bind at 1 in H. destruct (flushDeletes (h_deletes h2) w2) as [r3 w3] eqn:E3.
  apply Hd in E3; [|done]. destruct r3; by injection H as <- <-.
Qed.
End Coordinates.

(** ** Concrete runs *)

#[local] Instance sprint_empty : GoFmt := λ _, EmptyString.

Definition sortedMaps : Unordered.
Proof.
  refine {| map_order := elements; join_pick := λ x _, x |}.
  - done.
  - intros x l. by left.
Defined.

(** A live listing, then a closed one. *)
Definition liveRow : row :=
  {["ListingKey" := JStr "stellar:1"; "StandardStatus" := JStr " Active "; "ListPrice" := JNum (NFlt (f_of_Z 450000))]}.
Definition closedRow : row :=
  {["ListingKey" := JStr "stellar:2"; "StandardStatus" := JStr "Closed"]}.
Definition sampleRows : list text := [Some (JObj liveRow); Some (JObj closedRow); None].
Definition sampleWriter : ListingMirrorWriter := NewListingMirrorWriter 0 "Media" "Media".


Definition hydrated : World :=
  (@HydrateReplicaBatch never_fails sortedMaps _ sampleWriter "stellar" MirrorProviderBridge sampleRows (empty_world 0)).2.



Theorem hydrate_coordinates_witness :
  coords_agree hydrated.
Proof.
  eapply (@hydrate_coordinates never_fails sortedMaps _ sampleWriter "stellar" MirrorProviderBridge sampleRows
    (empty_world 0) _ hydrated (surjective_pairing _)).
  - apply (bool_decide_unpack _). vm_compute. exact I.
  - intros k l H. discriminate H.
Defined.
