(* ===== verification/Nfhl.v ===== *)
(** * The FEMA flood hazard client (package [fema], [client.go], [resolve.go])

    One point query: the circuit breaker, the retries, and the decoding of an ArcGIS reply.
    The clock is an argument; waiting for the rate limiter and the back-off pass time. *)

From Stdlib Require Import Ascii String.
From stdpp Require Import gmap strings list.
From S2P Require Import Prelude GoStrings GoTime GoFloat GoNum GoJson MlsFields Payload.

Open Scope Z_scope.
Open Scope string_scope.

(** ** The circuit breaker *)

Record circuitBreaker := mkBreaker {
  threshold : Z;
  failures : Z;
  breaker_open : bool;
  openUntil : Z;
}.

(** [NewClient] makes a threshold that is not positive 5. *)
Definition newCircuitBreaker (t : Z) : circuitBreaker :=
  mkBreaker (if (t <=? 0)%Z then 5 else t) 0 false 0.

(** Whether a call may go on, and the breaker after asking. *)
Definition allow (now : Z) (b : circuitBreaker) : bool * circuitBreaker :=
  if negb (breaker_open b) then (true, b)
  else if (openUntil b <? now)%Z then (true, mkBreaker (threshold b) 0 false (openUntil b))
  else (false, b).

Definition recordSuccess (b : circuitBreaker) : circuitBreaker :=
  mkBreaker (threshold b) 0 (if breaker_open b then false else breaker_open b) (openUntil b).

Definition recordFailure (now : Z) (b : circuitBreaker) : circuitBreaker :=
  let n := (failures b + 1)%Z in
  if (threshold b <=? n)%Z then mkBreaker (threshold b) n true (now + 30 * second)
  else mkBreaker (threshold b) n (breaker_open b) (openUntil b).

(** ** One request *)

(** What the HTTP client returns: a transport error, a body that cannot be read, or a
    status and a body. *)
Inductive nfhl_reply :=
| ReplyTransport (e : string)
| ReplyUnread (e : string)
| ReplyBody (status : Z) (body : text).

Record PointAttributes := mkAttributes {
  FLDZone : option string;
  SFHA_TF : option string;
  DFIRM_ID : option string;
  StaticBFE : option float64;
  Depth : option float64;
  Raw : RawMessage;
}.

Inductive query_error := Retryable (e : string) | Permanent (e : string).

Section Query.
Context {Fmt : GoFmt} {FT : GoFloatText}.

Definition stringifyAttr (v : json) : string :=
  match v with
  | JStr s => TrimSpace s
  | JNum n => FormatFloat (num_float n)
  | _ => TrimSpace (Sprint v)
  end.

Definition toFloat64 (v : json) : option float64 :=
  match v with
  | JNum n => Some (num_float n)
  | JStr s => ParseFloat (TrimSpace s)
  | _ => None
  end.

Record arcgisError := mkArcgisError { ae_Code : Z; ae_Message : string }.

(** The attributes of each feature, [None] for nil, and the error object. *)
Definition decodeFeature (j : json) : option (option row) :=
  with_object j (λ m,
    match m !! "attributes" with
    | None | Some JNull => Some None
    | Some (JObj a) => Some (Some a)
    | Some _ => None
    end).

Definition arcgisQueryResponse (body : text) : option (list (option row) * option arcgisError) :=
  j ← body;
  with_object j (λ m,
    fs ← (match m !! "features" with
          | None | Some JNull => Some []
          | Some (JArr l) => mapM decodeFeature l
          | Some _ => None
          end);
    e ← (match m !! "error" with
         | None | Some JNull => Some None
         | Some v => Some <$> with_object v (λ em,
             c ← dec_int (em !! "code"); s ← dec_string (em !! "message");
             Some (mkArcgisError c s))
         end);
    Some (fs, e)).

Definition nonEmptyAttr (attrs : row) (k : string) : option string :=
  match attrs !! k with
  | Some v => let s := stringifyAttr v in if bool_decide (s = EmptyString) then None else Some s
  | None => None
  end.

Definition pointAttributes (attrs : row) : PointAttributes :=
  {| FLDZone := nonEmptyAttr attrs "FLD_ZONE";
     SFHA_TF := nonEmptyAttr attrs "SFHA_TF";
     DFIRM_ID := nonEmptyAttr attrs "DFIRM_ID";
     StaticBFE := attrs !! "STATIC_BFE" ≫= toFloat64;
     Depth := attrs !! "DEPTH" ≫= toFloat64;
     Raw := raw_of (JObj attrs) |}.

(** [Ok None] is a point in no flood zone ("miss"). *)
Definition doQuery (r : nfhl_reply) : option PointAttributes + query_error :=
  match r with
  | ReplyTransport e => inr (Retryable e)
  | ReplyUnread e => inr (Permanent e)
  | ReplyBody status body =>
      if (status =? 429)%Z || (500 <=? status)%Z then inr (Retryable "fema nfhl http")
      else if negb (status =? 200)%Z then inr (Permanent "fema nfhl http")
      else match arcgisQueryResponse body with
           | None => inr (Permanent "fema nfhl json")
           | Some (_, Some e) =>
               if (ae_Code e =? 429)%Z || (500 <=? ae_Code e)%Z
               then inr (Retryable "fema nfhl arcgis error") else inr (Permanent "fema nfhl arcgis error")
           | Some ([], None) => inl None
           | Some (None :: _, None) => inl None
           | Some (Some attrs :: _, None) => inl (Some (pointAttributes attrs))
           end
  end.

(** The attempts: [retries] more after the current one. The replies are a parameter. *)
Fixpoint attempts (reply : nat → nfhl_reply) (retries attempt : nat) : option PointAttributes + query_error :=
  match doQuery (reply attempt) with
  | inl attrs => inl attrs
  | inr (Permanent e) => inr (Permanent e)
  | inr (Retryable e) => match retries with
                         | O => inr (Retryable e)
                         | S retries => attempts reply retries (S attempt)
                         end
  end.

Definition maxRetries : nat := 4.

Definition circuit_open_error : string := "fema nfhl circuit breaker open".

(** [QueryPoint] at instant [now], ending at [later] (back-offs and the request take time). *)
Definition QueryPoint (now later : Z) (reply : nat → nfhl_reply) (b : circuitBreaker)
    : res (option PointAttributes) * circuitBreaker :=
  match allow now b with
  | (false, b) => (Err circuit_open_error, b)
  | (true, b) =>
      match attempts reply (Nat.pred maxRetries) 0 with
      | inl attrs => (Ok attrs, recordSuccess b)
      | inr (Retryable e) | inr (Permanent e) => (Err e, recordFailure later b)
      end
  end.
End Query.

(** resolve.go *)
Definition EffectiveFloodZoneCode (mls fema : option string) (femaAt : option Z) : option string :=
  match femaAt, fema with
  | Some _, Some s => if negb (bool_decide (s = EmptyString)) then fema else mls
  | _, _ => mls
  end.

(** ** Laws *)

Section BreakerLaws.
Context {Fmt : GoFmt} {FT : GoFloatText}.

(** One query: when it runs, and its replies. *)
Record call := mkCall { call_at : Z; call_done : Z; call_reply : nat → nfhl_reply }.

Fixpoint calls (l : list call) (b : circuitBreaker) : list (res (option PointAttributes)) * circuitBreaker :=
  match l with
  | [] => ([], b)
  | c :: r => let '(a, b1) := QueryPoint (call_at c) (call_done c) (call_reply c) b in
              let '(as_, b2) := calls r b1 in (a :: as_, b2)
  end.

Definition fails (c : call) : Prop := ∃ e, attempts (call_reply c) (Nat.pred maxRetries) 0 = inr e.

Lemma QueryPoint_fails c b :
  fails c → breaker_open b = false →
  (QueryPoint (call_at c) (call_done c) (call_reply c) b).2 = recordFailure (call_done c) b.
Proof.
  intros [e He] Hb. unfold QueryPoint, allow. rewrite Hb. simpl negb. cbv beta iota. rewrite He.
  by destruct e.
Qed.

Lemma calls_count l b :
  Forall fails l → breaker_open b = false → (failures b + Z.of_nat (length l) < threshold b)%Z →
  (calls l b).2 = mkBreaker (threshold b) (failures b + Z.of_nat (length l)) false (openUntil b).
Proof.
  revert b. induction l as [|c l IH]; intros b Hf Hb Hn; simpl in *.
  - rewrite Z.add_0_r. by destruct b; simpl in *; subst.
  - apply Forall_cons in Hf as [Hc Hl]. pose proof (QueryPoint_fails c b Hc Hb) as Hq.
    destruct (QueryPoint _ _ _ b) as [a b1]. simpl in Hq. subst b1.
    unfold recordFailure in *. destruct (Z.leb_spec (threshold b) (failures b + 1)); [lia|].
    specialize (IH (mkBreaker (threshold b) (failures b + 1) (breaker_open b) (openUntil b)) Hl Hb).
    destruct (calls l _) as [as_ b2]. simpl in *. rewrite IH by lia. f_equal. lia.
Qed.

(** The circuit breaker sheds load: after [threshold] failed queries in a row it is open,
    for the 30 seconds after the last failure no query sends a request or changes the
    breaker, and the first query after that is let through with a cleared count. *)
Theorem breaker_opens_for_30s l c b now later reply :
  breaker_open b = false → failures b = 0 →
  Forall fails l → fails c → (Z.of_nat (length l) + 1 = threshold b)%Z →
  let b' := (calls (l ++ [c]) b).2 in
  breaker_open b' = true ∧
  ((now <= call_done c + 30 * second)%Z → QueryPoint now later reply b' = (Err circuit_open_error, b')) ∧
  ((call_done c + 30 * second < now)%Z → allow now b' = (true, mkBreaker (threshold b) 0 false (openUntil b'))).
Proof.
  intros Hb H0 Hl Hc Hn. cbv zeta.
  assert (Happ : ∀ l1 b0, (calls (l1 ++ [c]) b0).2
    = (QueryPoint (call_at c) (call_done c) (call_reply c) (calls l1 b0).2).2).
  { induction l1 as [|c1 l1 IH]; intros b0; simpl; [by destruct (QueryPoint _ _ _ b0)|].
    destruct (QueryPoint _ _ _ b0) as [a b1]. specialize (IH b1).
    destruct (calls (l1 ++ [c]) b1), (calls l1 b1). exact IH. }
  rewrite Happ, calls_count by (done || lia). rewrite QueryPoint_fails by done.
  unfold recordFailure. simpl. rewrite H0. destruct (Z.leb_spec (threshold b) (0 + Z.of_nat (length l) + 1)); [|lia].
  unfold QueryPoint, allow. simpl. split; [done|]. split; intros Ht.
  - destruct (Z.ltb_spec (call_done c + 30 * second) now); [lia|done].
  - destruct (Z.ltb_spec (call_done c + 30 * second) now); [done|lia].
Qed.

(** A null flood zone is stored as text: when the NFHL feature's FLD_ZONE is null, the
    query's zone is the text of nil, not an absent zone. [fmt.Sprint(nil)] is "<nil>". *)
Theorem null_zone_becomes_text attrs body m :
  Sprint JNull = "<nil>" →
  body = Some (JObj m) → m !! "features" = Some (JArr [JObj {["attributes" := JObj attrs]}]) →
  m !! "error" = None → attrs !! "FLD_ZONE" = Some JNull →
  ∃ a, doQuery (ReplyBody 200 body) = inl (Some a) ∧ FLDZone a = Some "<nil>".
Proof.
  intros Hs -> Hf He Hz. exists (pointAttributes attrs). simpl. unfold arcgisQueryResponse. simpl.
  rewrite Hf, He. simpl. unfold decodeFeature. simpl. rewrite lookup_singleton_eq. simpl. split; [done|].
  unfold pointAttributes, nonEmptyAttr. simpl. rewrite Hz. simpl. rewrite Hs. done.
Qed.
End BreakerLaws.

(** ** Concrete runs *)

#[local] Instance sampleFmt : GoFmt := λ v, match v with JNull => "<nil>" | _ => EmptyString end.
#[local] Instance sampleFloats : GoFloatText := λ _, EmptyString.

Definition downCall (t : Z) : call := mkCall (t * second) (t * second) (λ _, ReplyBody 503 None).

Theorem breaker_opens_for_30s_witness :
  let b := (calls ([downCall 1; downCall 2] ++ [downCall 3]) (newCircuitBreaker 3)).2 in
  breaker_open b = true ∧ QueryPoint (33 * second) (33 * second) (λ _, ReplyBody 200 None) b = (Err circuit_open_error, b).
Proof.
  destruct (breaker_opens_for_30s [downCall 1; downCall 2] (downCall 3) (newCircuitBreaker 3)
    (33 * second) (33 * second) (λ _, ReplyBody 200 None)) as (H1 & H2 & _).
  - reflexivity.
  - reflexivity.
  - repeat constructor; eexists; vm_compute; reflexivity.
  - eexists; vm_compute; reflexivity.
  - reflexivity.
  - split; [exact H1|]. apply H2. vm_compute. discriminate.
Defined.

Theorem null_zone_becomes_text_witness :
  ∃ a, doQuery (ReplyBody 200 (Some (JObj {["features" := JArr [JObj {["attributes" :=
    JObj {["FLD_ZONE" := JNull]}]}]]}))) = inl (Some a) ∧ FLDZone a = Some "<nil>".
Proof.
  eapply (null_zone_becomes_text {["FLD_ZONE" := JNull]}); reflexivity.
Defined.
