(* ===== verification/Fema.v ===== *)
(** * Flood zone enrichment (packages [fema]: [enrich.go] and the repository's [listings.go])

    The stale-listing selection, the batch update, the kickoff that is enqueued once, and
    the batch handler that chains to the next batch. What the point queries of a batch
    answer (client and goroutine interleaving included) is a parameter; the client is in Nfhl. *)

From Stdlib Require Import Ascii String.
From stdpp Require Import gmap strings list sorting.
From S2P Require Import Prelude GoStrings GoTime GoFloat GoJson MlsFields Payload Listing Config Database Queue Worker Replication Nfhl.

Open Scope Z_scope.
Open Scope string_scope.

(** ** Job arguments *)

Record FloodEnrichKickoffArgs := mkKickoffArgs { ka_DatasetSlug : string }.

#[export] Instance FloodEnrichKickoffArgs_codec : JsonCodec FloodEnrichKickoffArgs := {
  marshal a := mk_obj [("dataset_slug", omit_string (ka_DatasetSlug a))];
  unmarshal j := with_object j (λ m, d ← dec_string (m !! "dataset_slug"); Some (mkKickoffArgs d));
}.
#[export] Instance FloodEnrichKickoffArgs_roundtrip : JsonRoundTrip FloodEnrichKickoffArgs.
Proof. intros []. unfold unmarshal, marshal; simpl. unfold mk_obj. simpl. rewrite lookup_obj_fields. simpl. by rewrite dec_omit_string. Qed.

Record FloodEnrichBatchArgs := mkBatchArgs { ba_CursorID : Z; ba_Limit : Z; ba_DatasetSlug : string }.

#[export] Instance FloodEnrichBatchArgs_codec : JsonCodec FloodEnrichBatchArgs := {
  marshal a := mk_obj [("cursor_id", enc_int (ba_CursorID a)); ("limit", enc_int (ba_Limit a));
    ("dataset_slug", omit_string (ba_DatasetSlug a))];
  unmarshal j := with_object j (λ m,
    c ← dec_int (m !! "cursor_id"); l ← dec_int (m !! "limit"); d ← dec_string (m !! "dataset_slug");
    Some (mkBatchArgs c l d));
}.
#[export] Instance FloodEnrichBatchArgs_roundtrip : JsonRoundTrip FloodEnrichBatchArgs.
Proof. intros []. unfold unmarshal, marshal; simpl. unfold enc_string. codec_tac. done. Qed.

(** [UnmarshalBatchArgs], [UnmarshalKickoffArgs]: no arguments are the zero value. *)
Definition unmarshal_args {A} `{JsonCodec A} (zero : A) (raw : RawMessage) : option A :=
  match raw with
  | RawNil => Some zero
  | RawText (Some j) => unmarshal j
  | RawText None => None
  end.
Definition UnmarshalBatchArgs : RawMessage → option FloodEnrichBatchArgs :=
  unmarshal_args (mkBatchArgs 0 0 EmptyString).
Definition UnmarshalKickoffArgs : RawMessage → option FloodEnrichKickoffArgs :=
  unmarshal_args (mkKickoffArgs EmptyString).

(** ** The listings repository *)

Record ListingCoord := mkCoord { lc_ID : Z; lc_Latitude : float64; lc_Longitude : float64 }.

Record FEMAUpdate := mkFEMAUpdate {
  fu_ID : Z;
  FEMAFloodZoneCode : option string;
  FloodZoneSFHA_TF : option string;
  FloodZoneRaw : RawMessage;
  FloodZoneUpdatedAt : Z;
  fu_LowRiskFloodZoneYN : bool;
}.

(** [NewRepository]'s interval: FEMA_FLOOD_STALE_DAYS, 30 when not positive. *)
Definition staleInterval (staleDays : Z) : Z :=
  (if (staleDays <=? 0)%Z then 30 else staleDays) * 24 * hour.

Definition in_range (lo hi x : float64) : bool := f_le lo x && f_le x hi.

(** The WHERE clause the selection and the count share; an empty slug selects every dataset.
    The mirror stores no NaN, which PostgreSQL would place above every number. *)
Definition is_stale (interval now : Z) (slug : string) (l : listing_row) : bool :=
  match Latitude (l_rec l), Longitude (l_rec l) with
  | Some lat, Some lng => in_range (f_of_Z (-90)) (f_of_Z 90) lat && in_range (f_of_Z (-180)) (f_of_Z 180) lng
  | _, _ => false
  end &&
  match l_flood_zone_updated_at l with
  | None => true
  | Some t => (t <? now - interval)%Z
  end &&
  (bool_decide (slug = EmptyString) || bool_decide (DatasetSlug (l_rec l) = slug)).

(** ORDER BY id *)
Definition id_le (a b : listing_row) : Prop := l_id a <= l_id b.
#[export] Instance id_le_dec : RelDecision id_le.
Proof. intros a b. unfold id_le. apply _. Defined.
#[export] Instance id_le_total : Total id_le.
Proof. intros a b. unfold id_le. lia. Qed.
#[export] Instance id_le_trans : Transitive id_le.
Proof. intros a b c. unfold id_le. lia. Qed.

Definition coord_of (l : listing_row) : ListingCoord :=
  mkCoord (l_id l) (default f_zero (Latitude (l_rec l))) (default f_zero (Longitude (l_rec l))).

Definition stale_rows (interval : Z) (cursorID : Z) (slug : string) (w : World) : list listing_row :=
  merge_sort id_le (filter (λ l, (cursorID <? l_id l)%Z && is_stale interval (w_now w) slug l = true)
    (map_to_list (w_listings w)).*2).

Definition set_fema (u : FEMAUpdate) (now : Z) (l : listing_row) : listing_row :=
  mkListingRow (l_id l) (l_rec l) (l_coordinates l) (FEMAFloodZoneCode u) (FloodZoneSFHA_TF u)
    (if raw_present (FloodZoneRaw u) then FloodZoneRaw u else RawNil) (Some (FloodZoneUpdatedAt u))
    (fu_LowRiskFloodZoneYN u) (l_mirror_persisted_at l) (l_created_at l) now.

(** UPDATE listings ... WHERE id = $1 *)
Definition update_fema (u : FEMAUpdate) : M World unit :=
  modify (λ w, set_listings
    ((λ l, if (l_id l =? fu_ID u)%Z then set_fema u (w_now w) l else l) <$> w_listings w) w).

Section Repository.
Context {F : Faults}.

Definition SelectStaleForEnrichment (interval cursorID limit : Z) (slug : string) : M World (list ListingCoord) :=
  let limit := if (limit <=? 0)%Z then 2000 else limit in
  stmt (get (λ w, coord_of <$> take (Z.to_nat limit) (stale_rows interval cursorID slug w))).

Definition CountStale (interval : Z) (slug : string) : M World Z :=
  stmt (get (λ w, Z.of_nat (length
    (filter (λ l, is_stale interval (w_now w) slug l = true) (map_to_list (w_listings w)).*2)))).

Definition BatchUpdateFEMA (updates : list FEMAUpdate) : M World unit :=
  match updates with
  | [] => ret tt
  | _ => tx (for_each (λ u, stmt (update_fema u)) updates ;;; ret (Some tt)) ;;; ret tt
  end.

(** A queued FEMA job that is pending or reserved within two hours. A payload that is not
    JSON makes the cast, and so the query, fail. *)
Definition is_flood_job (now : Z) (j : job_row) : bool :=
  match j_payload j with
  | Some (JObj m) =>
      match m !! "type" with
      | Some (JStr t) => bool_decide (t ∈ ["fema.flood_enrich_kickoff"; "fema.flood_enrich_batch"])
      | _ => false
      end
  | _ => false
  end &&
  match j_reserved_at j with
  | None => true
  | Some t => (unix now - 7200 <? t)%Z
  end.

Definition flood_job_active (w : World) : bool :=
  existsb (λ kv, is_flood_job (w_now w) kv.2) (map_to_list (w_jobs w)).

Definition HasActiveFloodEnrichJob : M World bool :=
  stmt (λ w, if existsb (λ kv, bool_decide (j_payload kv.2 = None)) (map_to_list (w_jobs w))
             then (Err "invalid input syntax for type json", w)
             else (Ok (flood_job_active w), w)).
End Repository.

(** ** The enrichment service *)

(** What the client answers for a listing of a batch run at a given state. *)
Class FloodSource := flood_answer : World → ListingCoord → res (option PointAttributes).

Definition buildListingFEMAUpdate (id now : Z) (attrs : option PointAttributes) : FEMAUpdate :=
  match attrs with
  | None => mkFEMAUpdate id None None RawNil now false
  | Some a => mkFEMAUpdate id (FLDZone a) (SFHA_TF a) (if raw_present (Raw a) then Raw a else RawNil) now
                (ComputeLowRiskFloodZoneYN (FLDZone a))
  end.

Section Enrichment.
Context {F : Faults} {FS : FloodSource} (cfg : Config).

Definition interval : Z := staleInterval (fema_FloodStaleDays (cfg_FEMA cfg)).

Definition EnqueueKickoffIfAbsent (datasetSlug : string) : M World unit :=
  let* active := HasActiveFloodEnrichJob in
  if active then ret tt
  else Enqueue (fema_EnrichQueue (cfg_FEMA cfg)) TypeFEMAFloodEnrichKickoff
         (Some (marshal (mkKickoffArgs datasetSlug))) 0 ;;; ret tt.

Definition enqueueBatch (cursor limit : Z) (slug : string) : M World unit :=
  Enqueue (fema_EnrichQueue (cfg_FEMA cfg)) TypeFEMAFloodEnrichBatch
    (Some (marshal (mkBatchArgs cursor limit slug))) 0 ;;; ret tt.

Definition Kickoff (args : FloodEnrichKickoffArgs) : M World unit :=
  let* stale := CountStale interval (ka_DatasetSlug args) in
  if (stale =? 0)%Z then ret tt
  else
    let limit := fema_EnrichBatchSize (cfg_FEMA cfg) in
    enqueueBatch 0 (if (limit <=? 0)%Z then 2000 else limit) (ka_DatasetSlug args).

(** The page size of a batch: the job's, the configuration's, or 2000. *)
Definition batchLimit (args : FloodEnrichBatchArgs) : Z :=
  let limit := ba_Limit args in
  let limit := if (limit <=? 0)%Z then fema_EnrichBatchSize (cfg_FEMA cfg) else limit in
  if (limit <=? 0)%Z then 2000 else limit.

Definition updates_of (w : World) (now : Z) (rows : list ListingCoord) : list FEMAUpdate :=
  omap (λ r, match flood_answer w r with
             | Ok attrs => Some (buildListingFEMAUpdate (lc_ID r) now attrs)
             | Err _ => None
             end) rows.

Definition RunBatch (args : FloodEnrichBatchArgs) : M World unit :=
  let limit := batchLimit args in
  let* rows := SelectStaleForEnrichment interval (ba_CursorID args) limit (ba_DatasetSlug args) in
  match last rows with
  | None => ret tt
  | Some lastRow =>
      let* now := get w_now in
      let* updates := get (λ w, updates_of w now rows) in
      BatchUpdateFEMA updates ;;;
      if (Z.of_nat (length rows) =? limit)%Z
      then enqueueBatch (lc_ID lastRow) limit (ba_DatasetSlug args)
      else ret tt
  end.

Definition AdminKickoff (datasetSlug : string) : M World (Z * bool) :=
  let* stale := CountStale interval datasetSlug in
  EnqueueKickoffIfAbsent datasetSlug ;;;
  ret (stale, true).
End Enrichment.

(** ** Promises to the queue *)

Section FemaPromises.
Context {F : Faults} {FS : FloodSource} (cfg : Config).

Lemma adds_only_HasActiveFloodEnrichJob : adds_only HasActiveFloodEnrichJob.
Proof.
  unfold HasActiveFloodEnrichJob. apply adds_only_stmt, adds_only_keeps. intros w.
  by destruct (existsb _ _).
Qed.
#[local] Hint Resolve adds_only_HasActiveFloodEnrichJob : go.

Lemma adds_only_EnqueueKickoffIfAbsent slug : adds_only (EnqueueKickoffIfAbsent cfg slug).
Proof. unfold EnqueueKickoffIfAbsent. adds_tac. Qed.

Lemma adds_only_Kickoff args : adds_only (Kickoff cfg args).
Proof. unfold Kickoff, CountStale, enqueueBatch. adds_tac. Qed.

Lemma adds_only_BatchUpdateFEMA updates : adds_only (BatchUpdateFEMA updates).
Proof.
  unfold BatchUpdateFEMA. destruct updates as [|u r]; [apply adds_only_ret|].
  apply adds_only_bind; [|intros ?; apply adds_only_ret]. apply adds_only_tx; [|unfold update_fema; adds_tac].
  apply seq_mono_bind; [|by intros _ w]. apply seq_mono_for_each. intros x.
  apply seq_mono_stmt. intros w. simpl. lia.
Qed.
#[local] Hint Resolve adds_only_BatchUpdateFEMA : go.

Lemma adds_only_RunBatch args : adds_only (RunBatch cfg args).
Proof. unfold RunBatch, SelectStaleForEnrichment, enqueueBatch. adds_tac. Qed.
End FemaPromises.
#[export] Hint Resolve adds_only_EnqueueKickoffIfAbsent adds_only_Kickoff adds_only_RunBatch : go.

(** ** The stale rows in id order *)

Definition ids_unique (w : World) : Prop :=
  ∀ k1 k2 l1 l2, w_listings w !! k1 = Some l1 → w_listings w !! k2 = Some l2 → l_id l1 = l_id l2 → k1 = k2.

Definition id_lt (a b : listing_row) : Prop := l_id a < l_id b.

Lemma elem_of_stale_rows i c s w l :
  l ∈ stale_rows i c s w ↔
  (∃ k, w_listings w !! k = Some l) ∧ c < l_id l ∧ is_stale i (w_now w) s l = true.
Proof.
  unfold stale_rows. rewrite merge_sort_Permutation, list_elem_of_filter, andb_true_iff, Z.ltb_lt.
  rewrite list_elem_of_fmap. split.
  - intros [[H1 H2] ([k l'] & -> & Hin)]. apply elem_of_map_to_list in Hin. eauto.
  - intros [[k Hk] [H1 H2]]. split; [done|]. exists (k, l). split; [done|]. by apply elem_of_map_to_list.
Qed.

Lemma ids_NoDup w : ids_unique w → NoDup (l_id <$> (map_to_list (w_listings w)).*2).
Proof.
  intros Hu. rewrite <- list_fmap_compose. apply NoDup_fmap_2_strong; [|apply NoDup_map_to_list].
  intros [k1 l1] [k2 l2] H1%elem_of_map_to_list H2%elem_of_map_to_list Heq. simpl in Heq.
  assert (k1 = k2) by (by eapply Hu). subst. congruence.
Qed.

Lemma sublist_fmap_id (l1 l2 : list listing_row) : l1 `sublist_of` l2 → (l_id <$> l1) `sublist_of` (l_id <$> l2).
Proof. induction 1; simpl; by constructor. Qed.

Lemma stale_rows_strict i c s w : ids_unique w → StronglySorted id_lt (stale_rows i c s w).
Proof.
  intros Hu. pose proof (ids_NoDup w Hu) as Hnd.
  assert (Hn : NoDup (l_id <$> stale_rows i c s w)).
  { unfold stale_rows. rewrite merge_sort_Permutation.
    eapply sublist_NoDup; [exact Hnd|]. apply sublist_fmap_id, sublist_filter. }
  assert (Hs : StronglySorted id_le (stale_rows i c s w)).
  { apply Sorted_StronglySorted; [apply _|]. apply Sorted_merge_sort. apply _. }
  revert Hs Hn. generalize (stale_rows i c s w). intros l Hs Hn. induction Hs as [|x l Hl IH Hx]; [constructor|].
  apply NoDup_cons in Hn as [Hx' Hn]. constructor; [by apply IH|].
  rewrite Forall_forall in *. intros y Hy. specialize (Hx y Hy). unfold id_le, id_lt in *.
  assert (l_id x ≠ l_id y); [|lia]. intros Heq. apply Hx'. rewrite Heq. by apply list_elem_of_fmap_2.
Qed.

Lemma strict_NoDup l : StronglySorted id_lt l → NoDup l.
Proof.
  induction 1 as [|x l Hl IH Hx]; constructor; [|done].
  intros Hin. rewrite Forall_forall in Hx. specialize (Hx x Hin). unfold id_lt in Hx. lia.
Qed.

Lemma strict_ext l1 l2 :
  StronglySorted id_lt l1 → StronglySorted id_lt l2 → (∀ x, x ∈ l1 ↔ x ∈ l2) → l1 = l2.
Proof.
  intros H1 H2 He. eapply StronglySorted_unique_strong; [|exact H1|exact H2|].
  - intros x y _ _ Hxy Hyx. unfold id_lt in *. lia.
  - apply NoDup_Permutation; [by apply strict_NoDup..|done].
Qed.

(** Past its n-th row, a strictly sorted list is its rows above that row's id. *)
Lemma strict_drop l n x :
  StronglySorted id_lt l → last (take n l) = Some x → ∀ y, y ∈ drop n l ↔ y ∈ l ∧ l_id x < l_id y.
Proof.
  revert n. induction l as [|a l IH]; intros n Hs; [by destruct n|].
  apply StronglySorted_inv in Hs as [Hs Ha]. rewrite Forall_forall in Ha.
  destruct n as [|n]; [done|]. simpl take. simpl drop. rewrite last_cons.
  destruct (last (take n l)) as [x'|] eqn:El.
  - intros [= <-] y. rewrite (IH n Hs El y), elem_of_cons.
    assert (Hx : x' ∈ l) by (apply last_Some_elem_of in El; by eapply elem_of_take in El as (? & ? & ?); eapply list_elem_of_lookup_2).
    specialize (Ha x' Hx). unfold id_lt in Ha. split; [tauto|]. intros [[->|Hy] Hlt]; [lia|done].
  - intros [= <-] y. apply last_None in El. rewrite elem_of_cons.
    assert (Hd : drop n l = l) by (rewrite <- (take_drop n l) at 2; by rewrite El). rewrite Hd. split.
    + intros Hy. split; [by right|]. by apply Ha.
    + intros [[->|Hy] Hlt]; [lia|done].
Qed.

(** ** The batch chain *)

(** What a batch update does: the rows of the given ids are enriched now, nothing else. *)
Record enriched (ids : list Z) (w w' : World) : Prop := {
  en_now : w_now w' = w_now w;
  en_jobs : w_jobs w' = w_jobs w;
  en_seq : w_job_seq w' = w_job_seq w;
  en_rows : ∀ k,
    match w_listings w !! k, w_listings w' !! k with
    | None, None => True
    | Some l, Some l' => l_id l' = l_id l ∧
        ((l_id l ∉ ids ∧ l' = l) ∨ (l_id l ∈ ids ∧ l_flood_zone_updated_at l' = Some (w_now w)))
    | _, _ => False
    end;
}.

Lemma enriched_nil w w' :
  w_now w' = w_now w → w_jobs w' = w_jobs w → w_job_seq w' = w_job_seq w →
  w_listings w' = w_listings w → enriched [] w w'.
Proof.
  intros. split; [done..|]. intros k. replace (w_listings w') with (w_listings w).
  destruct (w_listings w !! k); [|done]. split; [done|]. left. split; [|done]. apply not_elem_of_nil.
Qed.

Lemma enriched_unique ids w w' : enriched ids w w' → ids_unique w → ids_unique w'.
Proof.
  intros He Hu k1 k2 l1 l2 H1 H2 Heq.
  pose proof (en_rows _ _ _ He k1) as R1. pose proof (en_rows _ _ _ He k2) as R2. rewrite H1 in R1. rewrite H2 in R2.
  destruct (w_listings w !! k1) as [l1'|] eqn:E1; [|done]. destruct (w_listings w !! k2) as [l2'|] eqn:E2; [|done].
  destruct R1 as [R1 _], R2 as [R2 _]. eapply Hu; [done..|congruence].
Qed.

Lemma enriched_cons u ids w w1 w' :
  FloodZoneUpdatedAt u = w_now w → enriched [fu_ID u] w w1 → enriched ids w1 w' →
  enriched (fu_ID u :: ids) w w'.
Proof.
  intros Hu H1 H2. split.
  - rewrite (en_now _ _ _ H2). apply H1.
  - rewrite (en_jobs _ _ _ H2). apply H1.
  - rewrite (en_seq _ _ _ H2). apply H1.
  - intros k. pose proof (en_rows _ _ _ H1 k) as R1. pose proof (en_rows _ _ _ H2 k) as R2.
    rewrite (en_now _ _ _ H1) in R2.
    destruct (w_listings w !! k) as [l|], (w_listings w1 !! k) as [l1|], (w_listings w' !! k) as [l'|]; try done.
    destruct R1 as [I1 R1], R2 as [I2 R2]. split; [congruence|]. rewrite I1 in R2.
    rewrite elem_of_cons. rewrite list_elem_of_singleton in R1.
    destruct R1 as [[N1 ->]|[Y1 U1]], R2 as [[N2 ->]|[Y2 U2]].
    + left. split; [tauto|done].
    + right. tauto.
    + right. tauto.
    + right. tauto.
Qed.

Section Chain.
Context {F : Faults} {NF : NoFaults} {FS : FloodSource} (cfg : Config).

Lemma update_fema_enriched u w n :
  FloodZoneUpdatedAt u = w_now w → enriched [fu_ID u] w (update_fema u (set_ops n w)).2.
Proof.
  intros Hu. split; [done..|]. intros k. simpl. rewrite lookup_fmap.
  destruct (w_listings w !! k) as [l|]; simpl; [|done]. rewrite list_elem_of_singleton.
  destruct (Z.eqb_spec (l_id l) (fu_ID u)); simpl.
  - split; [done|]. right. by rewrite Hu.
  - split; [done|]. by left.
Qed.

Lemma updates_enriched updates w :
  Forall (λ u, FloodZoneUpdatedAt u = w_now w) updates →
  ∃ w', for_each (λ u, stmt (update_fema u)) updates w = (Ok tt, w') ∧ enriched (fu_ID <$> updates) w w'.
Proof.
  revert w. induction updates as [|u r IH]; intros w Hf; simpl.
  { exists w. split; [done|]. by apply enriched_nil. }
  apply Forall_cons in Hf as [Hu Hf]. unfold bind. rewrite stmt_run.
  pose proof (update_fema_enriched u w (S (w_ops w)) Hu) as He.
  destruct (update_fema u _) as [[[]|e] w1] eqn:E; [|done]. simpl in He.
  destruct (IH w1) as (w' & -> & Hr).
  { rewrite (en_now _ _ _ He). done. }
  exists w'. split; [done|]. by eapply enriched_cons.
Qed.

Lemma enriched_ops ids w w' n m : enriched ids (set_ops n w) w' → enriched ids w (set_ops m w').
Proof. intros [H1 H2 H3 H4]. by split. Qed.

Lemma BatchUpdateFEMA_enriched updates w :
  Forall (λ u, FloodZoneUpdatedAt u = w_now w) updates →
  ∃ w', BatchUpdateFEMA updates w = (Ok tt, w') ∧ enriched (fu_ID <$> updates) w w'.
Proof.
  intros Hf. destruct updates as [|u r].
  { exists w. split; [done|]. by apply enriched_nil. }
  unfold BatchUpdateFEMA. set (us := u :: r) in *.
  destruct (updates_enriched us (set_ops (S (w_ops w)) w) Hf) as (w1 & H1 & He).
  eexists. split; [|by eapply enriched_ops].
  erewrite bind_ok; [reflexivity|]. apply tx_commit. erewrite bind_ok; [reflexivity|exact H1].
Qed.

Definition batch_rows (args : FloodEnrichBatchArgs) (w : World) : list listing_row :=
  take (Z.to_nat (batchLimit cfg args)) (stale_rows (interval cfg) (ba_CursorID args) (ba_DatasetSlug args) w).

Lemma batchLimit_pos args : 0 < batchLimit cfg args.
Proof.
  unfold batchLimit. destruct (Z.leb_spec (ba_Limit args) 0).
  - destruct (Z.leb_spec (fema_EnrichBatchSize (cfg_FEMA cfg)) 0); lia.
  - destruct (Z.leb_spec (ba_Limit args) 0); lia.
Qed.

(** One batch, whatever the queries answer: its rows that were answered are enriched, and
    the next batch is enqueued after the last row exactly when the batch was full. *)
Lemma RunBatch_run args w :
  ∃ w', RunBatch cfg args w = (Ok tt, w') ∧
    ∃ w1, enriched (fu_ID <$> updates_of (set_ops (S (w_ops w)) w) (w_now w) (coord_of <$> batch_rows args w)) w w1 ∧
      w_now w' = w_now w1 ∧ w_listings w' = w_listings w1 ∧
      match last (batch_rows args w) with
      | Some r =>
          if (Z.of_nat (length (batch_rows args w)) =? batchLimit cfg args)%Z
          then w_jobs w' = <[w_job_seq w := mkJob (fema_EnrichQueue (cfg_FEMA cfg))
                 (Some (MarshalPayload TypeFEMAFloodEnrichBatch
                    (Some (marshal (mkBatchArgs (l_id r) (batchLimit cfg args) (ba_DatasetSlug args))))))
                 0 None (now_unix w) (now_unix w)]> (w_jobs w) ∧
               w_job_seq w' = w_job_seq w + 1
          else w_jobs w' = w_jobs w ∧ w_job_seq w' = w_job_seq w
      | None => w_jobs w' = w_jobs w ∧ w_job_seq w' = w_job_seq w
      end.
Proof.
  unfold RunBatch, SelectStaleForEnrichment. pose proof (batchLimit_pos args) as Hpos.
  destruct (Z.leb_spec (batchLimit cfg args) 0); [lia|].
  unfold bind at 1. rewrite stmt_run. unfold get at 1. fold (batch_rows args (set_ops (S (w_ops w)) w)).
  change (batch_rows args (set_ops (S (w_ops w)) w)) with (batch_rows args w).
  set (w0 := set_ops _ w). rewrite fmap_last.
  destruct (last (batch_rows args w)) as [r|] eqn:El; simpl fmap at 1; cbv beta iota.
  2: { apply last_None in El. exists w0. split; [done|]. exists w0. rewrite El.
       split_and!; try done. by apply enriched_nil. }
  unfold bind at 1, get at 1. cbv beta iota. unfold bind at 1, get at 1. cbv beta iota.
  set (us := updates_of w0 (w_now w0) (coord_of <$> batch_rows args w)).
  destruct (BatchUpdateFEMA_enriched us w0) as (w1 & H1 & He).
  { apply Forall_forall. intros u (c & _ & Hc)%list_elem_of_omap. destruct (flood_answer w0 c); [|done].
    injection Hc as <-. unfold buildListingFEMAUpdate. by destruct a. }
  change (coord_of <$> Some r) with (Some (coord_of r)). cbv beta iota. fold us.
  rewrite (bind_ok _ _ _ _ _ H1). rewrite length_fmap.
  assert (He' : enriched (fu_ID <$> us) w w1) by (destruct He; by split).
  destruct (Z.eqb_spec (Z.of_nat (length (batch_rows args w))) (batchLimit cfg args)).
  - unfold enqueueBatch. destruct (Enqueue_run (fema_EnrichQueue (cfg_FEMA cfg)) TypeFEMAFloodEnrichBatch
      (Some (marshal (mkBatchArgs (l_id r) (batchLimit cfg args) (ba_DatasetSlug args)))) w1) as [n Hn].
    eexists. split; [by rewrite (bind_ok _ _ _ _ _ Hn)|]. exists w1. split; [done|].
    split; [done|]. split; [done|]. simpl. unfold now_unix.
    rewrite (en_jobs _ _ _ He'), (en_seq _ _ _ He'), (en_now _ _ _ He'). done.
  - exists w1. split; [done|]. exists w1. split_and!; [done..|apply He'|apply He'].
Qed.
(** The arguments of the batch job a run enqueued, as its handler decodes them. *)
Definition next_args (w w' : World) : option FloodEnrichBatchArgs :=
  match w_jobs w' !! w_job_seq w with
  | Some j => match UnmarshalPayload (j_payload j) with
              | Ok p => UnmarshalBatchArgs (p_Args p)
              | Err _ => None
              end
  | None => None
  end.

(** A chain of batch runs, each with the arguments the one before enqueued: the ids whose
    points are queried, in order, and the last state. *)
Fixpoint flood_chain (fuel : nat) (args : FloodEnrichBatchArgs) (w : World) : list Z * World :=
  match fuel with
  | O => ([], w)
  | S fuel =>
      let w' := (RunBatch cfg args w).2 in
      let ids := l_id <$> batch_rows args w in
      match next_args w w' with
      | Some args' => let '(ids', w'') := flood_chain fuel args' w' in ((ids ++ ids')%list, w'')
      | None => (ids, w')
      end
  end.

Lemma stale_same c s i w w' ids r :
  ids_unique w → enriched ids w w' → (∀ id, id ∈ ids → id <= r) → c <= r →
  ∀ l, l ∈ stale_rows i r s w' ↔ l ∈ stale_rows i c s w ∧ r < l_id l.
Proof.
  intros Hu He Hids Hc l. rewrite !elem_of_stale_rows, (en_now _ _ _ He). split.
  - intros ([k Hk] & Hr & Hs). pose proof (en_rows _ _ _ He k) as R. rewrite Hk in R.
    destruct (w_listings w !! k) as [l0|] eqn:E; [|done]. destruct R as [Hid [[_ ->]|[Hin _]]].
    + split_and!; [eauto|lia|done|lia].
    + specialize (Hids _ Hin). lia.
  - intros (([k Hk] & _ & Hs) & Hr). split_and!; [|lia|done]. exists k.
    pose proof (en_rows _ _ _ He k) as R. rewrite Hk in R.
    destruct (w_listings w' !! k) as [l'|] eqn:E; [|done]. destruct R as [Hid [[_ ->]|[Hin _]]]; [done|].
    specialize (Hids _ Hin). lia.
Qed.

Lemma updates_ids w0 now rows id :
  id ∈ fu_ID <$> updates_of w0 now (coord_of <$> rows) → id ∈ l_id <$> rows.
Proof.
  intros (u & -> & (c & Hc & Hu)%list_elem_of_omap)%list_elem_of_fmap.
  apply list_elem_of_fmap in Hc as (l & -> & Hl). destruct (flood_answer w0 (coord_of l)); [|done].
  injection Hu as <-. apply list_elem_of_fmap. exists l. split; [|done]. by destruct a.
Qed.

Lemma next_args_fresh w w' : ids_below w → w_jobs w' = w_jobs w → next_args w w' = None.
Proof.
  intros Hb Hj. unfold next_args. rewrite Hj. destruct (w_jobs w !! w_job_seq w) as [j|] eqn:E; [|done].
  specialize (Hb _ _ E). lia.
Qed.

(** The stale rows a batch leaves to the next one: those past its last row. *)
Lemma RunBatch_rest args w w' r :
  ids_unique w → RunBatch cfg args w = (Ok tt, w') → last (batch_rows args w) = Some r →
  ids_unique w' ∧ stale_rows (interval cfg) (l_id r) (ba_DatasetSlug args) w'
    = drop (Z.to_nat (batchLimit cfg args)) (stale_rows (interval cfg) (ba_CursorID args) (ba_DatasetSlug args) w).
Proof.
  intros Hu Hw' Hl. destruct (RunBatch_run args w) as (w1' & Hr & w1 & He & Hn & Hls & _).
  rewrite Hw' in Hr. injection Hr as <-.
  pose proof (stale_rows_strict (interval cfg) (ba_CursorID args) (ba_DatasetSlug args) w Hu) as Hst.
  assert (He' : enriched (fu_ID <$> updates_of (set_ops (S (w_ops w)) w) (w_now w) (coord_of <$> batch_rows args w))
    w (set_jobs (w_jobs w) (set_job_seq (w_job_seq w) (set_now (w_now w1) (set_listings (w_listings w1) w))))).
  { destruct He as [H1 H2 H3 H4]. by split. }
  pose proof (enriched_unique _ _ _ He' Hu) as Hu'.
  assert (Huw : ids_unique w') by (intros k1 k2; rewrite Hls; apply Hu'). split; [done|].
  pose proof (strict_drop _ _ _ Hst Hl) as Hd.
  assert (Hr : r ∈ batch_rows args w) by (by apply last_Some_elem_of in Hl).
  assert (Hmax : ∀ id, id ∈ l_id <$> batch_rows args w → id <= l_id r).
  { intros id (l & -> & Hlin)%list_elem_of_fmap. destruct (decide (l_id r < l_id l)); [|lia].
    assert (Hin : l ∈ drop (Z.to_nat (batchLimit cfg args))
      (stale_rows (interval cfg) (ba_CursorID args) (ba_DatasetSlug args) w)).
    { apply Hd. split; [|done]. unfold batch_rows in Hlin. by eapply subseteq_take. }
    exfalso. pose proof (strict_NoDup _ Hst) as Hnd.
    rewrite <- (take_drop (Z.to_nat (batchLimit cfg args))) in Hnd. apply NoDup_app in Hnd as (_ & Hdis & _).
    by apply (Hdis l). }
  assert (Hc : ba_CursorID args <= l_id r).
  { assert (Hrs : r ∈ stale_rows (interval cfg) (ba_CursorID args) (ba_DatasetSlug args) w)
      by (unfold batch_rows in Hr; by eapply subseteq_take).
    apply elem_of_stale_rows in Hrs as (_ & ? & _). lia. }
  apply strict_ext.
  - by apply stale_rows_strict.
  - rewrite <- (take_drop (Z.to_nat (batchLimit cfg args))) in Hst. by apply StronglySorted_app in Hst as (_ & _ & ?).
  - intros l. rewrite Hd.
    rewrite <- (stale_same (ba_CursorID args) (ba_DatasetSlug args) (interval cfg) w _ _ (l_id r) Hu He'
      (λ id Hid, Hmax id (updates_ids _ _ _ _ Hid)) Hc l).
    rewrite !elem_of_stale_rows, Hls. simpl. by rewrite Hn.
Qed.
(** The two ways a batch run ends, as the next run sees them. *)
Lemma RunBatch_cases args w :
  ids_unique w → ids_below w →
  ∃ w', RunBatch cfg args w = (Ok tt, w') ∧
  ((next_args w w' = None ∧
    batch_rows args w = stale_rows (interval cfg) (ba_CursorID args) (ba_DatasetSlug args) w) ∨
   (∃ r, last (batch_rows args w) = Some r ∧
     next_args w w' = Some (mkBatchArgs (l_id r) (batchLimit cfg args) (ba_DatasetSlug args)) ∧
     ids_unique w' ∧ ids_below w' ∧
     stale_rows (interval cfg) (l_id r) (ba_DatasetSlug args) w'
       = drop (Z.to_nat (batchLimit cfg args)) (stale_rows (interval cfg) (ba_CursorID args) (ba_DatasetSlug args) w))).
Proof.
  intros Hu Hb. destruct (RunBatch_run args w) as (w' & Hw' & w1 & _ & _ & _ & Hj). exists w'. split; [done|].
  pose proof (batchLimit_pos args) as Hpos.
  destruct (last (batch_rows args w)) as [r|] eqn:El.
  - destruct (Z.eqb_spec (Z.of_nat (length (batch_rows args w))) (batchLimit cfg args)) as [Hf|Hf].
    + right. exists r. destruct (RunBatch_rest args w w' r Hu Hw' El) as [Hu' Hr]. destruct Hj as [Hj Hs].
      split_and!; [done| |done| |done].
      * unfold next_args. rewrite Hj, lookup_insert_eq. cbn [j_payload]. rewrite unmarshal_marshal_payload.
        cbn [p_Args]. unfold UnmarshalBatchArgs, unmarshal_args, raw_of. apply unmarshal_marshal.
      * intros id j. rewrite Hj, Hs, lookup_insert. case_decide; [lia|]. intros Hid%Hb. lia.
    + left. destruct Hj as [Hj _]. split; [by apply next_args_fresh|].
      unfold batch_rows. apply take_ge. unfold batch_rows in Hf. rewrite length_take in Hf. lia.
  - left. destruct Hj as [Hj _]. split; [by apply next_args_fresh|]. apply last_None in El.
    apply (f_equal length) in El. unfold batch_rows in *. apply take_ge. rewrite length_take in El. simpl in El. lia.
Qed.

Lemma batchLimit_next c args slug :
  batchLimit cfg (mkBatchArgs c (batchLimit cfg args) slug) = batchLimit cfg args.
Proof.
  unfold batchLimit at 1. simpl. pose proof (batchLimit_pos args).
  destruct (Z.leb_spec (batchLimit cfg args) 0); [lia|]. destruct (Z.leb_spec (batchLimit cfg args) 0); [lia|done].
Qed.

Lemma stale_after_batch args w w' c0 :
  ids_unique w → RunBatch cfg args w = (Ok tt, w') → (∀ w c, is_ok (flood_answer w c) = true) →
  0 <= interval cfg →
  (∀ l, l ∈ stale_rows (interval cfg) c0 (ba_DatasetSlug args) w → ba_CursorID args < l_id l) →
  ∀ l, l ∈ stale_rows (interval cfg) c0 (ba_DatasetSlug args) w' →
    l ∈ stale_rows (interval cfg) (ba_CursorID args) (ba_DatasetSlug args) w ∧ l ∉ batch_rows args w.
Proof.
  intros Hu Hw' Hans Hi Hc l. destruct (RunBatch_run args w) as (w1' & Hr & w1 & He & Hn & Hls & _).
  rewrite Hw' in Hr. injection Hr as <-. rewrite elem_of_stale_rows, Hls, Hn.
  intros ([k Hk] & Hid & Hs). pose proof (en_rows _ _ _ He k) as R. rewrite Hk in R.
  rewrite (en_now _ _ _ He) in Hs.
  destruct (w_listings w !! k) as [l0|] eqn:E; [|done]. destruct R as [_ [[Hni ->]|[_ Hup]]].
  - assert (Hl0 : l0 ∈ stale_rows (interval cfg) c0 (ba_DatasetSlug args) w) by (apply elem_of_stale_rows; eauto).
    specialize (Hc _ Hl0). split; [apply elem_of_stale_rows; eauto|].
    intros Hin. apply Hni. specialize (Hans (set_ops (S (w_ops w)) w) (coord_of l0)).
    destruct (flood_answer (set_ops (S (w_ops w)) w) (coord_of l0)) as [a|] eqn:Ea; [|done].
    apply list_elem_of_fmap. exists (buildListingFEMAUpdate (l_id l0) (w_now w) a). split; [by destruct a|].
    apply list_elem_of_omap. exists (coord_of l0). split; [by apply list_elem_of_fmap_2|]. by rewrite Ea.
  - exfalso. unfold is_stale in Hs. rewrite Hup in Hs. rewrite !andb_true_iff in Hs.
    destruct Hs as [[_ Hs] _]. apply Z.ltb_lt in Hs. lia.
Qed.

Lemma interval_pos : 0 <= interval cfg.
Proof.
  unfold interval, staleInterval, hour, minute, second.
  destruct (Z.leb_spec (fema_FloodStaleDays (cfg_FEMA cfg)) 0); lia.
Qed.

Lemma flood_chain_spec fuel args w c0 :
  ids_unique w → ids_below w →
  (length (stale_rows (interval cfg) (ba_CursorID args) (ba_DatasetSlug args) w) < fuel)%nat →
  (flood_chain fuel args w).1 = l_id <$> stale_rows (interval cfg) (ba_CursorID args) (ba_DatasetSlug args) w ∧
  ((∀ w c, is_ok (flood_answer w c) = true) →
   (∀ l, l ∈ stale_rows (interval cfg) c0 (ba_DatasetSlug args) w → ba_CursorID args < l_id l) →
   stale_rows (interval cfg) c0 (ba_DatasetSlug args) (flood_chain fuel args w).2 = []).
Proof.
  revert args w. induction fuel as [|fuel IH]; intros args w Hu Hb Hf; [lia|]. cbn [flood_chain].
  destruct (RunBatch_cases args w Hu Hb) as (w' & Hw' & Hc). rewrite Hw'. cbn [snd].
  destruct Hc as [[Hnone Hall]|(r & Hl & Hnext & Hu' & Hb' & Hrest)].
  - rewrite Hnone. cbn [fst snd]. split; [by rewrite Hall|]. intros Hans Hc0.
    apply elem_of_nil_inv. intros l Hl.
    destruct (stale_after_batch args w w' c0 Hu Hw' Hans interval_pos Hc0 l Hl) as [H1 H2].
    rewrite Hall in H2. done.
  - rewrite Hnext. specialize (IH (mkBatchArgs (l_id r) (batchLimit cfg args) (ba_DatasetSlug args)) w' Hu' Hb').
    cbn [ba_CursorID ba_DatasetSlug] in IH. rewrite Hrest in IH.
    assert (Hne : (0 < length (batch_rows args w))%nat).
    { destruct (batch_rows args w); [done|].
      simpl. lia. }
    pose proof (batchLimit_pos args) as Hpos. unfold batch_rows in Hne. rewrite length_take in Hne.
    rewrite length_drop in IH. destruct IH as [IH1 IH2]; [lia|].
    destruct (flood_chain fuel _ w') as [ids' w''] eqn:Ec. cbn [fst snd] in *. split.
    + rewrite IH1, <- fmap_app. unfold batch_rows. by rewrite take_drop.
    + intros Hans Hc0. apply IH2; [done|]. intros l Hin.
      destruct (stale_after_batch args w w' c0 Hu Hw' Hans interval_pos Hc0 l Hin) as [H1 H2].
      pose proof (stale_rows_strict (interval cfg) (ba_CursorID args) (ba_DatasetSlug args) w Hu) as Hst.
      apply (strict_drop _ _ _ Hst Hl). rewrite <- (take_drop (Z.to_nat (batchLimit cfg args))) in H1.
      apply elem_of_app in H1 as [H1|H1]; [done|done].
Qed.

(** C24 The flood enrichment covers every stale listing exactly once: a chain of batch runs,
    each with the arguments the run before enqueued, ends; the points it queries are those of
    the stale listings past its cursor, in id order, once each; and when every query is
    answered no listing of the data set past the cursor is stale any more. *)
Theorem flood_chain_visits_once args w fuel :
  ids_unique w → ids_below w →
  (length (stale_rows (interval cfg) (ba_CursorID args) (ba_DatasetSlug args) w) < fuel)%nat →
  (flood_chain fuel args w).1 = l_id <$> stale_rows (interval cfg) (ba_CursorID args) (ba_DatasetSlug args) w ∧
  ((∀ w c, is_ok (flood_answer w c) = true) →
   stale_rows (interval cfg) (ba_CursorID args) (ba_DatasetSlug args) (flood_chain fuel args w).2 = []).
Proof.
  intros Hu Hb Hf. destruct (flood_chain_spec fuel args w (ba_CursorID args) Hu Hb Hf) as [H1 H2].
  split; [done|]. intros Hans. apply H2; [done|]. intros l (_ & Hl & _)%elem_of_stale_rows. done.
Qed.
End Chain.

(** A FEMA kickoff is queued once: while a FEMA job is pending, or reserved for less than
    two hours, any number of requests for one adds no job, whatever statements fail. *)
Theorem flood_kickoff_once `{F : Faults} cfg slugs w :
  flood_job_active w = true →
  w_jobs (for_each (λ s, ignore (EnqueueKickoffIfAbsent cfg s)) slugs w).2 = w_jobs w.
Proof.
  revert w. induction slugs as [|s r IH]; intros w H; [done|]. simpl. unfold bind, ignore.
  assert (Hs : ∃ n, (EnqueueKickoffIfAbsent cfg s w).2 = set_ops n w).
  { unfold EnqueueKickoffIfAbsent, HasActiveFloodEnrichJob, bind, stmt. destruct (fault _); simpl; [eauto|].
    destruct (existsb _ _); simpl; [eauto|]. unfold flood_job_active in *. simpl. rewrite H. simpl. eauto. }
  destruct Hs as [n ->]. exact (IH (set_ops n w) H).
Qed.

(** ** Concrete runs *)

Definition coordRow (id : Z) (key : string) : listing_row :=
  mkListingRow id (mkListing "stellar" key None None None None None None None None None None None None None None None
    None None None None None None false None (Some (f_of_Z 27)) (Some (f_of_Z (-80))) None None None None None None
    None None None None None None None RawNil RawNil emptyPayload RawNil None None None None)
    None None None RawNil None false 0 0 0.

Definition coordWorld : World :=
  set_listings {[("stellar", "a") := coordRow 7 "a"; ("stellar", "b") := coordRow 3 "b"; ("stellar", "c") := coordRow 5 "c"]}
    (empty_world (10000 * second)).

Definition calmSource : FloodSource := λ _ _, Ok None.

Lemma coordWorld_unique : ids_unique coordWorld.
Proof.
  intros k1 k2 l1 l2. unfold coordWorld. simpl. rewrite !lookup_insert_Some, !lookup_singleton_Some.
  intros [[<- <-]|(_ & [[<- <-]|(_ & <- & <-)])] [[<- <-]|(_ & [[<- <-]|(_ & <- & <-)])]; simpl; done.
Qed.

Theorem flood_chain_visits_once_witness :
  let args := mkBatchArgs 0 2 EmptyString in
  (@flood_chain never_fails calmSource defaultConfig 4 args coordWorld).1 = [3; 5; 7] ∧
  stale_rows (interval defaultConfig) 0 EmptyString
    (@flood_chain never_fails calmSource defaultConfig 4 args coordWorld).2 = [].
Proof.
  destruct (@flood_chain_visits_once never_fails never_fails_ok calmSource defaultConfig
    (mkBatchArgs 0 2 EmptyString) coordWorld 4 coordWorld_unique) as [H1 H2].
  - intros id j Hj. done.
  - vm_compute. lia.
  - split; [rewrite H1; vm_compute; reflexivity|]. apply H2. done.
Defined.

Definition floodJobWorld : World :=
  set_jobs {[1 := mkJob "default" (Some (MarshalPayload TypeFEMAFloodEnrichKickoff None)) 0 None 0 0]}
    (empty_world (10000 * second)).

Theorem flood_kickoff_once_witness :
  w_jobs (for_each (λ s, ignore (@EnqueueKickoffIfAbsent never_fails defaultConfig s)) ["stellar"; EmptyString]
    floodJobWorld).2 = w_jobs floodJobWorld.
Proof. apply (@flood_kickoff_once never_fails). vm_compute. reflexivity. Defined.
