(* ===== verification/SyncWorker.v ===== *)
(** * The stages of a sync chain both providers share (package [sync])

    fetch page -> persist chunks -> finalize -> next fetch. [bridge_worker.go] and
    [spark_worker.go] spell these stages out twice with their own queue names and job types;
    here a [Provider] names them and BridgeWorker and SparkWorker instantiate it. *)

From Stdlib Require Import Ascii String.
From stdpp Require Import gmap strings list.
From S2P Require Import Prelude GoStrings GoTime GoFloat GoJson MlsFields Payload Listing Config Database Queue Worker Replication Upstream Fetch Mirror Nfhl Fema.

Open Scope Z_scope.
Open Scope string_scope.

Record Provider := mkProvider {
  pv_name : string;                 (* the provider column of a staged page *)
  pv_mirror : MirrorProvider;
  pv_fetchType : string;
  pv_chunkType : string;
  pv_finalizeType : string;
  pv_batchName : string;
  pv_fetchQueue : Config → string;
  pv_persistQueue : Config → string;
  pv_persistChunk : Config → Z;
  pv_upsertChunk : Config → Z;
}.

(** The wrapper of a batch's child job: batch_id and job. *)
Definition decode_chunk (raw : RawMessage) : option persistChunkArgs :=
  match raw with
  | RawText (Some j) => with_object j (λ m,
      _ ← dec_string (m !! "batch_id");
      match m !! "job" with
      | None => Some (mkChunkArgs 0 0 0 EmptyString)
      | Some v => unmarshal v
      end)
  | _ => None
  end.

Section Stages.
Context {F : Faults} {Un : Unordered} {Fmt : GoFmt} (uuid : nat → string).
Context (cfg : Config) (femaEnrich : bool) (pv : Provider).

Definition buildFinalizeArgs (dataset : string) (pageID : option Z) (patch : CursorPatch)
    (dispatchIncremental : bool) (nextFetch : option fetchPageArgs) : persistFinalizeArgs :=
  let applied := cp_ApplyReplicationState patch in
  {| pf_ReplicaPageID := pageID;
     pf_Dataset := dataset;
     pf_ApplyReplicationState := applied;
     pf_ReplicationNextURL := if applied then cp_ReplicationNextURL patch else None;
     pf_ReplicationInProgress := if applied then cp_ReplicationInProgress patch else None;
     pf_MaxModificationTs := format_rfc3339 <$> cp_MaxModificationTs patch;
     pf_IncrementalWindowEnd := format_rfc3339 <$> cp_IncrementalWindowEnd patch;
     pf_MarkSyncFinished := cp_MarkSyncFinished patch;
     pf_DispatchIncrementalAfter := dispatchIncremental;
     pf_NextFetchMode := fa_Mode <$> nextFetch;
     pf_NextIncrementalSkip := match nextFetch with Some a => fa_IncrementalSkip a | None => 0 end;
     pf_NextChainDepth := match nextFetch with Some a => fa_ChainDepth a | None => 0 end |}.

Definition replicaPageMetaFromResult (result : PageResult) : ReplicaPageMeta :=
  mkMeta (ResultFetchURL result) (ResultUpstreamURL result) (ResultODataQuery result).

Definition enqueueFinalize (args : persistFinalizeArgs) : M World unit :=
  Enqueue (pv_persistQueue pv cfg) (pv_finalizeType pv) (Some (marshal args)) 0 ;;; ret tt.

Definition chunkJobs (dataset : string) (pageID chunkTotal : Z) : list BatchJob :=
  (λ i, mkBatchJob (pv_chunkType pv)
     (Some (marshal (mkChunkArgs pageID (Z.of_nat i) chunkTotal dataset)))) <$> seq 1 (Z.to_nat chunkTotal).

Definition dispatchPersistBatch (dataset mode : string) (result : PageResult) (patch : CursorPatch)
    (dispatchIncremental : bool) (nextFetch : option fetchPageArgs) : M World unit :=
  match Rows result with
  | [] => enqueueFinalize (buildFinalizeArgs dataset None patch dispatchIncremental nextFetch)
  | _ =>
      let* (pageID, chunkTotal) := StorePage (pv_name pv) dataset mode (Rows result) (pv_persistChunk pv cfg)
        (replicaPageMetaFromResult result) in
      let finalizeArgs := buildFinalizeArgs dataset (Some pageID) patch dispatchIncremental nextFetch in
      if (chunkTotal =? 0)%Z then enqueueFinalize finalizeArgs
      else
        let* batchID := EnqueueBatch uuid {|
          bs_Name := pv_batchName pv +:+ dataset;
          bs_Queue := pv_persistQueue pv cfg;
          bs_Jobs := chunkJobs dataset pageID chunkTotal;
          bs_OnComplete := mkBatchJob (pv_finalizeType pv) (Some (marshal finalizeArgs)) |} in
        MarkProcessing pageID batchID
  end.

(** The FEMA kickoff after a finished sync: its error is logged and dropped. *)
Definition kickoffEnrichment : M World unit :=
  if femaEnrich then ignore (EnqueueKickoffIfAbsent cfg EmptyString) else ret tt.

Definition mirrorWriter : ListingMirrorWriter :=
  NewListingMirrorWriter (pv_upsertChunk pv cfg) (mls_SyncExpand (cfg_MLS cfg)) (br_SyncExpand (cfg_Bridge cfg)).

Definition PersistChunk (job : ReservedJob) : M World unit :=
  match decode_chunk (p_Args (rj_Payload job)) with
  | None => throw "json"
  | Some args =>
      if (ca_ReplicaPageID args =? 0)%Z then ret tt
      else
        let* rows := RowsForChunk (ca_ReplicaPageID args) (ca_ChunkIndex args) (ca_ChunkTotal args) in
        HydrateReplicaBatch mirrorWriter (ca_Dataset args) (pv_mirror pv) rows ;;;
        ret tt
  end.

(** The patch [PersistFinalize] applies: a timestamp that does not parse is dropped. *)
Definition finalizePatch (args : persistFinalizeArgs) : CursorPatch :=
  {| cp_ApplyReplicationState := pf_ApplyReplicationState args;
     cp_ReplicationNextURL := pf_ReplicationNextURL args;
     cp_ReplicationInProgress := pf_ReplicationInProgress args;
     cp_MaxModificationTs := pf_MaxModificationTs args ≫= parse_rfc3339;
     cp_IncrementalWindowEnd := pf_IncrementalWindowEnd args ≫= parse_rfc3339;
     cp_MarkSyncFinished := pf_MarkSyncFinished args |}.

Definition has_patch (args : persistFinalizeArgs) : bool :=
  pf_ApplyReplicationState args || bool_decide (is_Some (pf_MaxModificationTs args)) ||
  bool_decide (is_Some (pf_IncrementalWindowEnd args)) || pf_MarkSyncFinished args ||
  bool_decide (is_Some (pf_ReplicationInProgress args)).

Definition enqueueFetchPage (args : fetchPageArgs) : M World unit :=
  Enqueue (pv_fetchQueue pv cfg) (pv_fetchType pv) (Some (marshal args)) 0 ;;; ret tt.

Definition finalizeWith (args : persistFinalizeArgs) : M World unit :=
  (if has_patch args then ApplyPatch (pf_Dataset args) (finalizePatch args) else ret tt) ;;;
  (match pf_ReplicaPageID args with
   | Some id => ignore (MarkCompleted id) ;;; ignore (DeletePage id)
   | None => ret tt
   end) ;;;
  if pf_DispatchIncrementalAfter args then
    enqueueFetchPage (mkFetchArgs (pf_Dataset args) "incremental" 0 0)
  else match pf_NextFetchMode args with
       | Some mode => enqueueFetchPage (mkFetchArgs (pf_Dataset args) mode (pf_NextIncrementalSkip args)
                                          (pf_NextChainDepth args))
       | None => if pf_MarkSyncFinished args then kickoffEnrichment else ret tt
       end.

Definition PersistFinalize (job : ReservedJob) : M World unit :=
  match decode_args (p_Args (rj_Payload job)) with
  | None => throw "json"
  | Some args => finalizeWith args
  end.

(** [FetchPage] past the decoding of its arguments; the upstream request and the plan for
    the next page are the providers'. *)
Section FetchStage.
Context (maxChain : Z) (finishModes : list string).
Context (fetchPage : fetchPageArgs → SyncCursor → World → res PageResult).
Context (continuationPlan : fetchPageArgs → PageResult → CursorPatch * bool * option fetchPageArgs).
Context (finishedPatch : PageResult → CursorPatch).

Definition forbiddenPatch : CursorPatch := mkPatch true None (Some false) None None false.
Definition inProgressPatch : CursorPatch := mkPatch false None (Some true) None None false.

(** What is done with a page, once fetched. *)
Definition handleResult (args : fetchPageArgs) (result : PageResult) : M World unit :=
  let ds := fa_Dataset args in
  if Forbidden result then ApplyPatch ds forbiddenPatch
  else if HTTPError result then throw "fetch http"
  else if bool_decide (Rows result = []) && bool_decide (fa_Mode args ∈ finishModes) &&
          negb (IncrementalHasMore result)
  then ApplyPatch ds (finishedPatch result) ;;; kickoffEnrichment
  else
    let '(patch, dispatchIncremental, nextFetch) := continuationPlan args result in
    (if bool_decide (fa_Mode args = "replication") && negb (bool_decide (Rows result = []))
     then ApplyPatch ds inProgressPatch else ret tt) ;;;
    dispatchPersistBatch ds (fa_Mode args) result patch dispatchIncremental nextFetch.

Definition fetchWith (args : fetchPageArgs) : M World unit :=
  let ds := fa_Dataset args in
  if bool_decide (ds = EmptyString) then throw "missing dataset"
  else if (0 <? maxChain)%Z && (maxChain <=? fa_ChainDepth args)%Z then ret tt
  else
    let* cursor := ForDataset ds in
    if bool_decide (fa_Mode args = "incremental") && ReplicationInProgress cursor then ret tt
    else
      let* skip := skipReplicationFetchWhenPageActive (pv_name pv) ds (fa_Mode args) in
      if skip then ret tt
      else
        let* result := (λ w, (fetchPage args cursor w, w)) in
        handleResult args result.

Definition FetchPage (job : ReservedJob) : M World unit :=
  match decode_args (p_Args (rj_Payload job)) with
  | None => throw "json"
  | Some args => fetchWith args
  end.
End FetchStage.
End Stages.

(** ** Promises to the queue *)

Section StagePromises.
Context {F : Faults} {Un : Unordered} {Fmt : GoFmt} (uuid : nat → string).
Context (cfg : Config) (femaEnrich : bool) (pv : Provider).

Lemma adds_only_enqueueFinalize args : adds_only (enqueueFinalize cfg pv args).
Proof. unfold enqueueFinalize. adds_tac. Qed.
#[local] Hint Resolve adds_only_enqueueFinalize : go.

Lemma adds_only_dispatchPersistBatch ds md result patch di nf :
  adds_only (dispatchPersistBatch uuid cfg pv ds md result patch di nf).
Proof. unfold dispatchPersistBatch. adds_tac. Qed.

Lemma adds_only_kickoffEnrichment : adds_only (kickoffEnrichment cfg femaEnrich).
Proof. unfold kickoffEnrichment. adds_tac. Qed.
#[local] Hint Resolve adds_only_dispatchPersistBatch adds_only_kickoffEnrichment : go.

Lemma adds_only_PersistChunk job : adds_only (PersistChunk cfg pv job).
Proof. unfold PersistChunk. adds_tac. Qed.

Lemma adds_only_finalizeWith args : adds_only (finalizeWith cfg femaEnrich pv args).
Proof. unfold finalizeWith, enqueueFetchPage. adds_tac. Qed.
#[local] Hint Resolve adds_only_finalizeWith : go.

Lemma adds_only_PersistFinalize job : adds_only (PersistFinalize cfg femaEnrich pv job).
Proof. unfold PersistFinalize. adds_tac. Qed.

Lemma adds_only_handleResult finishModes plan finished args result :
  adds_only (handleResult uuid cfg femaEnrich pv finishModes plan finished args result).
Proof. unfold handleResult. adds_tac. Qed.
#[local] Hint Resolve adds_only_handleResult : go.

Lemma adds_only_FetchPage maxChain finishModes fetchPage plan finished job :
  adds_only (FetchPage uuid cfg femaEnrich pv maxChain finishModes fetchPage plan finished job).
Proof. unfold FetchPage, fetchWith. adds_tac. Qed.
End StagePromises.
#[export] Hint Resolve adds_only_PersistChunk adds_only_PersistFinalize adds_only_FetchPage : go.

(** ** Arguments through the queue *)

Lemma decode_chunk_batch bid a : decode_chunk (raw_of (batch_args bid (Some (marshal a)))) = Some a.
Proof.
  unfold decode_chunk, raw_of, batch_args, mk_obj, with_object. rewrite !lookup_obj_fields.
  repeat first [rewrite decide_True by reflexivity | rewrite decide_False by discriminate].
  rewrite dec_enc_string. cbn [mbind option_bind default from_option id]. apply unmarshal_marshal.
Qed.

(** ** The plan a fetch hands to its finalize job *)

(** A patch that sets the replication state only as a whole. *)
Definition patch_wf (p : CursorPatch) : Prop :=
  cp_ApplyReplicationState p = false → cp_ReplicationNextURL p = None ∧ cp_ReplicationInProgress p = None.

Definition whole_seconds (t : Z) : Z := t / second * second.

(** The patch at the second granularity of RFC 3339. *)
Definition to_seconds (p : CursorPatch) : CursorPatch :=
  mkPatch (cp_ApplyReplicationState p) (cp_ReplicationNextURL p) (cp_ReplicationInProgress p)
    (whole_seconds <$> cp_MaxModificationTs p) (whole_seconds <$> cp_IncrementalWindowEnd p)
    (cp_MarkSyncFinished p).

Definition printable (o : option Z) : Prop := ∀ t, o = Some t → 0 <= year_of t <= 9999.

Lemma parse_printed o : printable o → (format_rfc3339 <$> o) ≫= parse_rfc3339 = whole_seconds <$> o.
Proof. intros H. destruct o as [t|]; simpl; [|done]. by rewrite parse_format_rfc3339 by (by apply H). Qed.

Lemma finalizePatch_build ds page p di nf :
  patch_wf p → printable (cp_MaxModificationTs p) → printable (cp_IncrementalWindowEnd p) →
  finalizePatch (buildFinalizeArgs ds page p di nf) = to_seconds p.
Proof.
  intros Hwf H1 H2. unfold finalizePatch, buildFinalizeArgs, to_seconds. simpl.
  rewrite (parse_printed _ H1), (parse_printed _ H2).
  destruct p as [[] nu ip mt we mf]; [done|]. destruct (Hwf eq_refl) as [H3 H4]. simpl in H3, H4. by subst.
Qed.

Lemma whole_seconds_bounds t : whole_seconds t <= t < whole_seconds t + second.
Proof. unfold whole_seconds, second. zlia. Qed.

(** ** Persisting what was fetched *)

(** What a provider promises the stages: its finalize jobs are typed. *)
Class ProviderOk (pv : Provider) : Prop := pv_finalize_typed : pv_finalizeType pv ≠ EmptyString.

Section Persisting.
Context {F : Faults} {NF : NoFaults} {Un : Unordered} {Fmt : GoFmt} (uuid : nat → string).
Context (cfg : Config) (femaEnrich : bool) (pv : Provider) {Hpv : ProviderOk pv}.

(** The page row a dispatch stages, once its batch is enqueued. *)
Definition staged_page (ds mode : string) (result : PageResult) (bid : string) (now : Z) : page_row :=
  set_status PageProcessing (nonempty bid) None
    (staged (pv_name pv) ds mode (Rows result) (pv_persistChunk pv cfg) (replicaPageMetaFromResult result) now).

Definition parts_of (result : PageResult) : list (list text) :=
  chunks (chunkOf (pv_persistChunk pv cfg)) (Rows result).

Lemma length_chunkJobs ds id n : length (chunkJobs pv ds id (Z.of_nat n)) = n.
Proof. unfold chunkJobs. by rewrite length_fmap, length_seq, Nat2Z.id. Qed.

Lemma dispatch_run ds mode result patch di nf w :
  Rows result ≠ [] → Forall (λ r, r ≠ None) (Rows result) →
  let id := w_page_seq w in
  let bid := uuid (w_uuid_seq w) in
  let n := Z.of_nat (length (parts_of result)) in
  let spec := {| bs_Name := pv_batchName pv +:+ ds; bs_Queue := pv_persistQueue pv cfg;
                 bs_Jobs := chunkJobs pv ds id n;
                 bs_OnComplete := mkBatchJob (pv_finalizeType pv)
                   (Some (marshal (buildFinalizeArgs ds (Some id) patch di nf))) |} in
  ∃ w', dispatchPersistBatch uuid cfg pv ds mode result patch di nf w = (Ok tt, w') ∧
    w_pages w' = <[id := staged_page ds mode result bid (w_now w)]> (w_pages w) ∧
    w_jobs w' = insert_children (w_job_seq w) (child_job spec bid (now_unix w) <$> bs_Jobs spec) (w_jobs w) ∧
    w_batches w' = <[bid := mkBatch (bs_Name spec) n n
      (Some (enc_options (mkOnComplete (pv_persistQueue pv cfg) (pv_finalizeType pv) (bj_Args (bs_OnComplete spec)))))
      (now_unix w) None]> (w_batches w).
Proof.
  intros Hne Hok. cbv zeta. set (id := w_page_seq w). set (n := Z.of_nat (length (parts_of result))).
  unfold dispatchPersistBatch. destruct (Rows result) as [|r0 rl] eqn:Er; [done|]. rewrite <- Er in *.
  assert (Hn : n ≠ 0).
  { unfold n, parts_of. rewrite Er. unfold chunks. simpl. lia. }
  erewrite bind_ok; [|by apply StorePage_run]. cbv beta iota. fold id.
  change (Z.of_nat (length (chunks (chunkOf (pv_persistChunk pv cfg)) (Rows result)))) with n.
  destruct (Z.eqb_spec n 0); [done|].
  set (spec := {| bs_Name := _; bs_Queue := _; bs_Jobs := _; bs_OnComplete := _ |}).
  set (w1 := set_page_seq _ _).
  destruct (EnqueueBatch_run uuid spec w1) as [k Hk].
  { intros Hj. apply (f_equal length) in Hj. unfold spec in Hj. simpl in Hj. unfold n in *.
    rewrite length_chunkJobs in Hj. simpl in Hj. lia. }
  { apply pv_finalize_typed. }
  rewrite (bind_ok _ _ _ _ _ Hk). unfold MarkProcessing, modify. rewrite stmt_run.
  eexists. split; [reflexivity|].
  assert (Hlen : Z.of_nat (length (bs_Jobs spec)) = n)
    by (unfold spec; simpl; unfold n; by rewrite length_chunkJobs).
  rewrite Hlen. split; [|split; [done|done]].
  change (alter (λ p, set_status PageProcessing (nonempty (uuid (w_uuid_seq w))) (pg_processed_at p) p) id
    (<[id := staged (pv_name pv) ds mode (Rows result) (pv_persistChunk pv cfg) (replicaPageMetaFromResult result)
       (w_now w)]> (w_pages w))
    = <[id := staged_page ds mode result (uuid (w_uuid_seq w)) (w_now w)]> (w_pages w)).
  rewrite alter_insert_eq. reflexivity.
Qed.
(** The patch [PersistChunk] hands to the mirror writer, for the child job of part i. *)
Lemma PersistChunk_child ds id bid i total (w : World) p part job :
  rj_Payload job = mkJobPayload (pv_chunkType pv)
    (raw_of (batch_args bid (Some (marshal (mkChunkArgs id (Z.of_nat i + 1) total ds))))) →
  id ≠ 0 → w_pages w !! id = Some p → pg_parts p !! i = Some part →
  PersistChunk cfg pv job w
  = (HydrateReplicaBatch (mirrorWriter cfg pv) ds (pv_mirror pv) part ;;; ret tt) (set_ops (S (w_ops w)) w).
Proof.
  intros Hj Hid Hp Hi. unfold PersistChunk. rewrite Hj. cbn [p_Args]. rewrite decode_chunk_batch.
  cbn [ca_ReplicaPageID ca_ChunkIndex ca_ChunkTotal ca_Dataset]. destruct (Z.eqb_spec id 0); [done|].
  erewrite bind_ok; [reflexivity|]. by eapply RowsForChunk_run.
Qed.

(** C25 Every fetched row reaches the mirror writer exactly once: a page with rows is staged
    as processing, and its batch has one queued chunk job per part, in order; whenever a
    worker runs the i-th of them while the page is staged, it hydrates the i-th part, and the
    parts together are the rows that were fetched. The batch counts exactly these jobs as
    pending and carries the finalize job with the planned patch. *)
Theorem fetched_rows_all_persisted ds mode result patch di nf w :
  Rows result ≠ [] → Forall (λ r, r ≠ None) (Rows result) → 0 < w_page_seq w →
  let id := w_page_seq w in
  let bid := uuid (w_uuid_seq w) in
  ∃ w', dispatchPersistBatch uuid cfg pv ds mode result patch di nf w = (Ok tt, w') ∧
    concat (parts_of result) = Rows result ∧
    w_pages w' !! id = Some (staged_page ds mode result bid (w_now w)) ∧
    (∀ i part, parts_of result !! i = Some part → ∃ j p,
       w_jobs w' !! (w_job_seq w + Z.of_nat i) = Some j ∧ j_queue j = pv_persistQueue pv cfg ∧
       UnmarshalPayload (j_payload j) = Ok p ∧ p_Type p = pv_chunkType pv ∧
       ∀ job w'', rj_Payload job = p → w_pages w'' !! id = w_pages w' !! id →
         PersistChunk cfg pv job w''
         = (HydrateReplicaBatch (mirrorWriter cfg pv) ds (pv_mirror pv) part ;;; ret tt)
             (set_ops (S (w_ops w'')) w'')) ∧
    (∃ b, w_batches w' !! bid = Some b ∧ b_pending_jobs b = Z.of_nat (length (parts_of result)) ∧
       b_options b = Some (enc_options (mkOnComplete (pv_persistQueue pv cfg) (pv_finalizeType pv)
         (Some (marshal (buildFinalizeArgs ds (Some id) patch di nf)))))).
Proof.
  intros Hne Hok Hid id bid. destruct (dispatch_run ds mode result patch di nf w Hne Hok) as (w' & Hw' & Hp & Hj & Hb).
  exists w'. split; [done|]. split; [apply chunks_concat, chunkOf_pos|].
  assert (Hpage : w_pages w' !! id = Some (staged_page ds mode result bid (w_now w))) by (rewrite Hp; apply lookup_insert_eq).
  split; [done|]. split; [|rewrite Hb; eexists; by rewrite lookup_insert_eq].
  intros i part Hi. pose proof (lookup_lt_Some _ _ _ Hi) as Hlt.
  set (n := Z.of_nat (length (parts_of result))) in *.
  assert (Hc : chunkJobs pv ds id n !! i = Some (mkBatchJob (pv_chunkType pv)
    (Some (marshal (mkChunkArgs id (Z.of_nat i + 1) n ds))))).
  { unfold chunkJobs, n. rewrite Nat2Z.id, list_lookup_fmap, lookup_seq_lt by done.
    cbn [fmap option_fmap option_map]. by replace (Z.of_nat (1 + i)) with (Z.of_nat i + 1) by lia. }
  eexists _, _. split; [rewrite Hj, lookup_insert_children, length_fmap|].
  { cbn [bs_Jobs]. fold id n. replace (length (chunkJobs pv ds id n)) with (length (parts_of result))
      by (unfold n; by rewrite length_chunkJobs).
    destruct (Z.leb_spec (w_job_seq w) (w_job_seq w + Z.of_nat i)); [|lia].
    destruct (Z.ltb_spec (w_job_seq w + Z.of_nat i) (w_job_seq w + Z.of_nat (length (parts_of result)))); [|lia].
    cbn [andb]. replace (Z.to_nat (w_job_seq w + Z.of_nat i - w_job_seq w)) with i by lia.
    by rewrite list_lookup_fmap, Hc. }
  split; [done|]. split; [apply unmarshal_marshal_payload|]. split; [done|].
  intros job w'' Hjob Hw''. rewrite Hpage in Hw''. eapply PersistChunk_child; [exact Hjob|lia|exact Hw''|exact Hi].
Qed.
End Persisting.

(** ** Finalizing *)

Section Finalizing.
Context {F : Faults} (cfg : Config) (femaEnrich : bool) (pv : Provider).

(** A finalize job carries out the plan of its fetch: the arguments the job decodes are
    those that were enqueued; they apply the planned cursor patch, timestamps cut to the
    second and so never ahead of the plan, and continue with the planned fetch. *)
Theorem finalize_carries_plan ds page p di nf job :
  patch_wf p → printable (cp_MaxModificationTs p) → printable (cp_IncrementalWindowEnd p) →
  p_Args (rj_Payload job) = raw_of (marshal (buildFinalizeArgs ds page p di nf)) →
  ∃ args, PersistFinalize cfg femaEnrich pv job = finalizeWith cfg femaEnrich pv args ∧
    pf_Dataset args = ds ∧ pf_ReplicaPageID args = page ∧ pf_DispatchIncrementalAfter args = di ∧
    finalizePatch args = to_seconds p ∧
    (∀ t, cp_MaxModificationTs p = Some t →
       ∃ t', cp_MaxModificationTs (finalizePatch args) = Some t' ∧ t' <= t < t' + second) ∧
    match nf with
    | Some a => pf_NextFetchMode args = Some (fa_Mode a) ∧
                pf_NextIncrementalSkip args = fa_IncrementalSkip a ∧ pf_NextChainDepth args = fa_ChainDepth a
    | None => pf_NextFetchMode args = None
    end.
Proof.
  intros Hwf H1 H2 Hjob. exists (buildFinalizeArgs ds page p di nf). unfold PersistFinalize.
  rewrite Hjob, decode_args_marshal. split_and!; try done.
  - by apply finalizePatch_build.
  - intros t Ht. rewrite finalizePatch_build by done. simpl. rewrite Ht. simpl. eexists. split; [done|].
    apply whole_seconds_bounds.
  - by destruct nf.
Qed.
End Finalizing.
