(* ===== verification/BridgeWorker.v ===== *)
(** * The Bridge sync worker (package [sync], [bridge_worker.go]) *)

From Stdlib Require Import Ascii String.
From stdpp Require Import gmap strings list.
From S2P Require Import Prelude GoStrings GoTime GoFloat GoJson MlsFields Payload Listing Config Database Queue Worker Replication Upstream Fetch BridgeSync Mirror Nfhl Fema SyncWorker.

Open Scope Z_scope.
Open Scope string_scope.

Definition bridge : Provider := {|
  pv_name := "bridge";
  pv_mirror := MirrorProviderBridge;
  pv_fetchType := TypeBridgeFetchPage;
  pv_chunkType := TypeBridgePersistChunk;
  pv_finalizeType := TypeBridgePersistFinalize;
  pv_batchName := "bridge-replica-persist:";
  pv_fetchQueue := λ c, br_SyncFetchQueue (cfg_Bridge c);
  pv_persistQueue := λ c, br_SyncPersistQueue (cfg_Bridge c);
  pv_persistChunk := λ c, br_SyncPersistChunk (cfg_Bridge c);
  pv_upsertChunk := λ c, br_SyncUpsertChunk (cfg_Bridge c) |}.

Section BridgeWorker.
Context {F : Faults} {Un : Unordered} {Fmt : GoFmt} {U : Upstream} (uuid : nat → string).
Context (cfg : Config) (femaEnrich : bool).

(** The cursor patch a page plans, whether incremental polling starts after it, and the
    fetch job that continues the chain. *)
Definition continuationPlan (args : fetchPageArgs) (result : PageResult)
    : CursorPatch * bool * option fetchPageArgs :=
  let ds := fa_Dataset args in
  let depth := (fa_ChainDepth args + 1)%Z in
  let ts := MaxModificationTs result in
  let skip := (fa_IncrementalSkip args + incrementalTop cfg)%Z in
  if bool_decide (fa_Mode args = "replication") then
    let complete := ReplicationComplete result in
    let patch := mkPatch true (NextReplicationURL result) (Some (negb complete)) ts None false in
    let hasNext := match NextReplicationURL result with
                   | Some u => negb (bool_decide (u = EmptyString))
                   | None => false
                   end in
    if negb complete && hasNext then (patch, false, Some (mkFetchArgs ds "replication" 0 depth))
    else if complete && br_SyncNavHydrateAfterReplication (cfg_Bridge cfg)
    then (patch, false, Some (mkFetchArgs ds "nav_hydrate" 0 depth))
    else (patch, complete && bool_decide (is_Some ts), None)
  else if bool_decide (fa_Mode args = "nav_hydrate") then
    let patch := mkPatch false None None ts None false in
    if IncrementalHasMore result then
      if (10000 <=? skip)%Z then (patch, bool_decide (is_Some ts), None)
      else (patch, false, Some (mkFetchArgs ds "nav_hydrate" skip depth))
    else (patch, bool_decide (is_Some ts), None)
  else
    let patch := mkPatch false None None ts None (negb (IncrementalHasMore result)) in
    if IncrementalHasMore result then
      if (10000 <=? skip)%Z then (patch, false, None)
      else (patch, false, Some (mkFetchArgs ds "incremental" skip depth))
    else (patch, false, None).

(** The request of the job's mode. *)
Definition fetchMode (args : fetchPageArgs) (cursor : SyncCursor) (w : World) : res PageResult :=
  if bool_decide (fa_Mode args = "replication")
  then FetchReplicationPage cfg w (fa_Dataset args) cursor
  else if bool_decide (fa_Mode args = "nav_hydrate")
  then FetchNavHydratePage cfg w (fa_Dataset args) (fa_IncrementalSkip args)
  else FetchIncrementalPage cfg w (fa_Dataset args) cursor (fa_IncrementalSkip args).

(** A page without rows ends the sync. *)
Definition finishedPatch (_ : PageResult) : CursorPatch := mkPatch false None None None None true.

Definition FetchPage : ReservedJob → M World unit :=
  SyncWorker.FetchPage uuid cfg femaEnrich bridge (br_SyncMaxChainedFetch (cfg_Bridge cfg))
    ["incremental"; "nav_hydrate"] fetchMode continuationPlan finishedPatch.

Definition PersistChunk : ReservedJob → M World unit := SyncWorker.PersistChunk cfg bridge.
Definition PersistFinalize : ReservedJob → M World unit := SyncWorker.PersistFinalize cfg femaEnrich bridge.
End BridgeWorker.
