(* ===== verification/SparkWorker.v ===== *)
(** * The Spark sync worker (package [sync], [spark_worker.go]) *)

From Stdlib Require Import Ascii String.
From stdpp Require Import gmap strings list.
From S2P Require Import Prelude GoStrings GoTime GoFloat GoJson MlsFields Payload Listing Config Database Queue Worker Replication Upstream Fetch SparkSync Mirror Nfhl Fema SyncWorker.

Open Scope Z_scope.
Open Scope string_scope.

Definition spark : Provider := {|
  pv_name := "spark";
  pv_mirror := MirrorProviderSpark;
  pv_fetchType := TypeSparkFetchPage;
  pv_chunkType := TypeSparkPersistChunk;
  pv_finalizeType := TypeSparkPersistFinalize;
  pv_batchName := "spark-replica-persist:";
  pv_fetchQueue := λ c, sp_SyncFetchQueue (cfg_Spark c);
  pv_persistQueue := λ c, sp_SyncPersistQueue (cfg_Spark c);
  pv_persistChunk := λ c, if (0 <? mls_BeachesPersistChunk (cfg_MLS c))%Z
                          then mls_BeachesPersistChunk (cfg_MLS c)
                          else sp_SyncPersistChunk (cfg_Spark c);
  pv_upsertChunk := λ c, let n := sp_SyncUpsertChunk (cfg_Spark c) in if (n <=? 0)%Z then 250 else n |}.

Section SparkWorker.
Context {F : Faults} {Un : Unordered} {Fmt : GoFmt} {U : Upstream} (uuid : nat → string).
Context (cfg : Config) (femaEnrich : bool).

Definition continuationPlan (args : fetchPageArgs) (result : PageResult)
    : CursorPatch * bool * option fetchPageArgs :=
  let ds := fa_Dataset args in
  let depth := (fa_ChainDepth args + 1)%Z in
  let ts := MaxModificationTs result in
  let windowEnd := ResultWindowEnd result in
  if bool_decide (fa_Mode args = "replication") then
    let complete := ReplicationComplete result in
    let patch := mkPatch true (NextReplicationURL result) (Some (negb complete)) ts windowEnd false in
    let hasNext := match NextReplicationURL result with
                   | Some u => negb (bool_decide (u = EmptyString))
                   | None => false
                   end in
    if negb complete && hasNext then (patch, false, Some (mkFetchArgs ds "replication" 0 depth))
    else (patch, complete && bool_decide (is_Some ts), None)
  else
    let patch := mkPatch false None None ts windowEnd (negb (IncrementalHasMore result)) in
    if IncrementalHasMore result then
      let skip := (fa_IncrementalSkip args + incrementalTop cfg)%Z in
      if (10000 <=? skip)%Z then (patch, false, None)
      else (patch, false, Some (mkFetchArgs ds "incremental" skip depth))
    else (patch, false, None).

Definition fetchMode (args : fetchPageArgs) (cursor : SyncCursor) (w : World) : res PageResult :=
  if bool_decide (fa_Mode args = "replication") then FetchReplicationPage cfg w cursor
  else FetchIncrementalPage cfg w cursor (fa_IncrementalSkip args).

Definition finishedPatch (result : PageResult) : CursorPatch :=
  mkPatch false None None None (ResultWindowEnd result) true.

(** The stages of SyncWorker under Spark's names. *)
Definition buildFinalizeArgs := SyncWorker.buildFinalizeArgs.
Definition dispatchPersistBatch := SyncWorker.dispatchPersistBatch uuid cfg spark.

Definition FetchPage : ReservedJob → M World unit :=
  SyncWorker.FetchPage uuid cfg femaEnrich spark (sp_SyncMaxChainedFetch (cfg_Spark cfg))
    ["incremental"] fetchMode continuationPlan finishedPatch.

Definition PersistChunk : ReservedJob → M World unit := SyncWorker.PersistChunk cfg spark.
Definition PersistFinalize : ReservedJob → M World unit := SyncWorker.PersistFinalize cfg femaEnrich spark.
End SparkWorker.
