(* ===== verification/Jobs.v ===== *)
(** * The job registry (package [job]) and the types of queued jobs

    [RegisterAll] binds every job type to a handler. A queued job is typed when its type has a
    handler and its arguments decode to what that handler expects; the database is typed when
    every job in the queue is, and every completion a batch has stored. No handler, and no
    step of the worker, leaves it untyped. *)

From Stdlib Require Import Ascii String.
From stdpp Require Import gmap strings list.
From S2P Require Import Prelude GoStrings GoTime GoFloat GoNum GoJson MlsFields Payload Listing Config GisData CacheData Database Queue Worker Replication Upstream GisRepo GisFetch Caches ParcelSync BoundarySync Fetch BridgeSync SparkSync Mirror Nfhl Fema SyncWorker BridgeWorker SparkWorker.

Open Scope Z_scope.
Open Scope string_scope.

(** ** The handlers ([registry.go], [handlers.go], [deps.go]) *)

Section Registry.
Context {F : Faults} {Un : Unordered} {Fmt : GoFmt} {U : Upstream} {PG : PostGIS} {AG : ArcGIS}.
Context {FT : GoFloatText} {JT : GoJsonText} {FS : FloodSource} {RO : RowOrder} {CG : CoinGecko}.
Context (uuid : nat → string) (sha256_hex : string → string) (cfg : Config) (fuel : nat).

Definition handleNoop : HandlerFunc := λ _, ret tt.
Definition handleReplicationKickoff : HandlerFunc := λ _, KickoffRun cfg.
Definition handleProxyCachePurge : HandlerFunc := RefreshJobRun cfg.
(** [InitServices] attaches the flood enrichment to both sync workers. *)
Definition handleBridgeFetchPage : HandlerFunc := BridgeWorker.FetchPage uuid cfg true.
Definition handleBridgePersistChunk : HandlerFunc := BridgeWorker.PersistChunk cfg.
Definition handleBridgePersistFinalize : HandlerFunc := BridgeWorker.PersistFinalize cfg true.
Definition handleSparkFetchPage : HandlerFunc := SparkWorker.FetchPage uuid cfg true.
Definition handleSparkPersistChunk : HandlerFunc := SparkWorker.PersistChunk cfg.
Definition handleSparkPersistFinalize : HandlerFunc := SparkWorker.PersistFinalize cfg true.
Definition handlePurgeClosed : HandlerFunc := λ _, PurgeClosedRun cfg.
Definition handlePurgeReplicaPages : HandlerFunc := λ _, PurgeEligible cfg.
(** The endpoints are a Go map, probed in any order. *)
Definition handleGISProbe : HandlerFunc := λ _, ProbeAll sha256_hex (row_order _ (map_to_list (probeEndpoints cfg))).
Definition handleGISMonthlyParcelRefresh : HandlerFunc := λ _, RunMonthlyRefresh cfg.
Definition handleGISAnnualBoundariesRefresh : HandlerFunc := λ _, RunAnnualRefresh cfg fuel.
Definition handleGISInitialSync : HandlerFunc := λ _, InitialSyncRun cfg fuel.
Definition handleGISZipSync : HandlerFunc := λ _, RunZipSync cfg fuel.
Definition handleCryptoRefresh : HandlerFunc := λ _, CryptoRefresh cfg.

Definition handleFEMAFloodEnrichKickoff : HandlerFunc := λ job,
  match UnmarshalKickoffArgs (p_Args (rj_Payload job)) with
  | None => throw "json"
  | Some args => Kickoff cfg args
  end.
Definition handleFEMAFloodEnrichBatch : HandlerFunc := λ job,
  match UnmarshalBatchArgs (p_Args (rj_Payload job)) with
  | None => throw "json"
  | Some args => RunBatch cfg args
  end.

Definition registrations : list (string * HandlerFunc) :=
  [(TypeNoop, handleNoop);
   (TypeMLSReplicationKickoff, handleReplicationKickoff);
   (TypeMLSProxyCachePurge, handleProxyCachePurge);
   (TypeBridgeFetchPage, handleBridgeFetchPage);
   (TypeBridgePersistChunk, handleBridgePersistChunk);
   (TypeBridgePersistFinalize, handleBridgePersistFinalize);
   (TypeSparkFetchPage, handleSparkFetchPage);
   (TypeSparkPersistChunk, handleSparkPersistChunk);
   (TypeSparkPersistFinalize, handleSparkPersistFinalize);
   (TypeMLSPurgeClosed, handlePurgeClosed);
   (TypeMLSPurgeReplicaPages, handlePurgeReplicaPages);
   (TypeGISProbeSources, handleGISProbe);
   (TypeGISMonthlyParcelRefresh, handleGISMonthlyParcelRefresh);
   (TypeGISAnnualBoundariesRefresh, handleGISAnnualBoundariesRefresh);
   (TypeGISInitialSync, handleGISInitialSync);
   (TypeGISZipSync, handleGISZipSync);
   (TypeGISParcelSyncPage, handleGISParcelSyncPage cfg);
   (TypeCryptoRefreshPricing, handleCryptoRefresh);
   (TypeFEMAFloodEnrichKickoff, handleFEMAFloodEnrichKickoff);
   (TypeFEMAFloodEnrichBatch, handleFEMAFloodEnrichBatch)].

Definition RegisterAll (wk : Worker) : Worker :=
  foldl (λ wk r, Register r.1 r.2 wk) wk registrations.
End Registry.

(** ** The types of jobs *)

(** What the handler of a type decodes its arguments to. *)
Inductive arg_kind := NoArgs | FetchArgs | ChunkArgs | FinalizeArgs | ParcelArgs | KickoffArgs | BatchArgs.

Definition job_kinds : list (string * arg_kind) :=
  [(TypeNoop, NoArgs); (TypeMLSReplicationKickoff, NoArgs); (TypeMLSProxyCachePurge, NoArgs);
   (TypeBridgeFetchPage, FetchArgs); (TypeBridgePersistChunk, ChunkArgs); (TypeBridgePersistFinalize, FinalizeArgs);
   (TypeSparkFetchPage, FetchArgs); (TypeSparkPersistChunk, ChunkArgs); (TypeSparkPersistFinalize, FinalizeArgs);
   (TypeMLSPurgeClosed, NoArgs); (TypeMLSPurgeReplicaPages, NoArgs); (TypeGISProbeSources, NoArgs);
   (TypeGISMonthlyParcelRefresh, NoArgs); (TypeGISAnnualBoundariesRefresh, NoArgs); (TypeGISInitialSync, NoArgs);
   (TypeGISZipSync, NoArgs); (TypeGISParcelSyncPage, ParcelArgs); (TypeCryptoRefreshPricing, NoArgs);
   (TypeFEMAFloodEnrichKickoff, KickoffArgs); (TypeFEMAFloodEnrichBatch, BatchArgs)].
Definition job_kind (typ : string) : option arg_kind := (list_to_map job_kinds : gmap string arg_kind) !! typ.

Definition is_some {A} (o : option A) : bool := match o with Some _ => true | None => false end.

Definition decodes (k : arg_kind) (raw : RawMessage) : bool :=
  match k with
  | NoArgs => true
  | FetchArgs => is_some (decode_args raw : option fetchPageArgs)
  | ChunkArgs => is_some (decode_chunk raw)
  | FinalizeArgs => is_some (decode_args raw : option persistFinalizeArgs)
  | ParcelArgs => is_some (UnmarshalParcelSyncPageArgs raw)
  | KickoffArgs => is_some (UnmarshalKickoffArgs raw)
  | BatchArgs => is_some (UnmarshalBatchArgs raw)
  end.

Definition well_typed (typ : string) (raw : RawMessage) : bool :=
  match job_kind typ with Some k => decodes k raw | None => false end.

(** The arguments of an enqueued job, as its handler finds them. *)
Definition args_raw (args : option json) : RawMessage := match args with Some a => raw_of a | None => RawNil end.

Definition job_typed (j : job_row) : bool :=
  match UnmarshalPayload (j_payload j) with
  | Ok p => well_typed (p_Type p) (p_Args p)
  | Err _ => false
  end.

(** The completion a batch has stored, if any. *)
Definition batch_typed (b : batch_row) : bool :=
  match b_options b ≫= dec_options with
  | Some (Some oc) => bool_decide (oc_Type oc = EmptyString) || well_typed (oc_Type oc) (args_raw (oc_Args oc))
  | _ => true
  end.

Definition typed (w : World) : Prop :=
  (∀ id j, w_jobs w !! id = Some j → job_typed j = true) ∧
  (∀ id b, w_batches w !! id = Some b → batch_typed b = true).

(** ** What keeps the database typed *)

Definition queue_view (w : World) := (w_jobs w, w_batches w).
#[export] Instance view_queue : TableView queue_view.
Proof. split; [done | by left]. Qed.

Section TypedOps.
Context {F : Faults} (uuid : nat → string).

Lemma typed_view {A} (m : M World A) : keeps queue_view m → preserves typed m.
Proof. intros H w Hw. unfold typed. by injection (H w) as -> ->. Qed.

Lemma typed_stmt {A} (m : M World A) : preserves typed m → preserves typed (stmt m).
Proof. intros H w Hw. unfold stmt. destruct (fault _); [done|]. by apply H. Qed.

Lemma typed_tx {A} (m : M World (option A)) : preserves typed m → preserves typed (tx m).
Proof.
  intros H w Hw. unfold tx, stmt at 1. destruct (fault (w_ops w)); simpl; [done|].
  assert (H1 : typed (m (set_ops (S (w_ops w)) w)).2) by by apply H.
  destruct (m _) as [[[a|]|e] w2]; simpl in *; [|done..].
  unfold stmt. by destruct (fault (w_ops w2)).
Qed.

Lemma job_typed_payload q typ args a r av c :
  job_typed (mkJob q (Some (MarshalPayload typ args)) a r av c) = well_typed typ (args_raw args).
Proof. unfold job_typed. cbn [j_payload]. rewrite unmarshal_marshal_payload. by destruct args. Qed.

Lemma typed_insert_job q typ args av now :
  well_typed typ (args_raw args) = true → preserves typed (insert_job q (MarshalPayload typ args) av now).
Proof.
  intros H w [Hj Hb]. split; [|done]. intros id j. simpl. rewrite lookup_insert_Some.
  intros [[<- <-]|[_ Hl]]; [by rewrite job_typed_payload|by eapply Hj].
Qed.

Lemma typed_notify : preserves typed notify.
Proof. apply preserves_ignore, typed_stmt, preserves_ret. Qed.

Lemma typed_Enqueue q typ args d : well_typed typ (args_raw args) = true → preserves typed (Enqueue q typ args d).
Proof.
  intros H. apply preserves_bind; [apply preserves_get|intros now].
  apply preserves_bind; [by apply typed_stmt, typed_insert_job|intros id].
  apply preserves_bind; [apply typed_notify|intros _; apply preserves_ret].
Qed.

Lemma typed_insert_batch id spec options now :
  batch_typed (mkBatch EmptyString 0 0 options 0 None) = true → preserves typed (insert_batch id spec options now).
Proof.
  intros H w [Hj Hb]. split; [done|]. intros k b. simpl. rewrite lookup_insert_Some.
  intros [[<- <-]|[_ Hl]]; [done|by eapply Hb].
Qed.

Lemma typed_EnqueueBatch spec :
  (∀ job bid, job ∈ bs_Jobs spec → well_typed (bj_Type job) (raw_of (batch_args bid (bj_Args job))) = true) →
  well_typed (bj_Type (bs_OnComplete spec)) (args_raw (norm_args (bj_Args (bs_OnComplete spec)))) = true →
  preserves typed (EnqueueBatch uuid spec).
Proof.
  intros Hjobs Hoc. unfold EnqueueBatch. destruct (bs_Jobs spec) as [|j0 jobs] eqn:E; [apply preserves_throw|].
  rewrite <- E in *.
  apply preserves_bind; [by apply typed_view|intros bid].
  apply preserves_bind; [apply preserves_get|intros now].
  apply preserves_bind; [|intros _; apply preserves_bind; [apply typed_notify|intros _; apply preserves_ret]].
  apply typed_tx. apply preserves_bind; [|intros _; apply preserves_bind; [|intros _; apply preserves_ret]].
  - apply typed_stmt, typed_insert_batch. unfold batch_typed. cbn [b_options].
    case_bool_decide; [done|]. cbn [mbind option_bind]. rewrite dec_enc_options. cbn [oc_Type oc_Args].
    by rewrite Hoc, orb_true_r.
  - clear E. revert Hjobs. induction (bs_Jobs spec) as [|job l IH]; intros Hj; cbn [for_each]; [apply preserves_ret|].
    apply preserves_bind; [|intros _; apply IH; intros; apply Hj; set_solver].
    apply preserves_bind; [|intros; apply preserves_ret].
    apply typed_stmt, typed_insert_job. cbn [args_raw]. apply Hj. set_solver.
Qed.

(** A step that changes no payload and no stored completion. *)
Lemma typed_same_payloads (w w' : World) :
  (∀ id j, w_jobs w' !! id = Some j → ∃ j0, w_jobs w !! id = Some j0 ∧ j_payload j = j_payload j0) →
  (∀ id b, w_batches w' !! id = Some b → ∃ b0, w_batches w !! id = Some b0 ∧ b_options b = b_options b0) →
  typed w → typed w'.
Proof.
  intros Hj Hb [Tj Tb]. split.
  - intros id j (j0 & H0 & He)%Hj. specialize (Tj id j0 H0). unfold job_typed in *. by rewrite He.
  - intros id b (b0 & H0 & He)%Hb. specialize (Tb id b0 H0). unfold batch_typed in *. by rewrite He.
Qed.

Lemma typed_release_stale now before : preserves typed (modify (λ w, set_jobs (release_stale now before (w_jobs w)) w)).
Proof.
  intros w. apply typed_same_payloads; [|by eauto]. intros id j. simpl. rewrite lookup_release_stale.
  intros (j0 & Hj0 & H)%fmap_Some. exists j0. split; [done|]. subst j. repeat case_match; reflexivity.
Qed.

Lemma typed_alter_job f id :
  (∀ j, j_payload (f j) = j_payload j) → preserves typed (modify (λ w, set_jobs (alter f id (w_jobs w)) w)).
Proof.
  intros Hf w. apply typed_same_payloads; [|by eauto]. intros k j. simpl. rewrite lookup_alter_Some.
  intros [(<- & j0 & Hj & ->)|[_ Hj]]; eauto.
Qed.

Lemma typed_delete_job id : preserves typed (modify (λ w, set_jobs (delete id (w_jobs w)) w)).
Proof.
  intros w. apply typed_same_payloads; [|by eauto]. intros k j. simpl. rewrite lookup_delete_Some.
  intros [_ Hj]; eauto.
Qed.

Lemma typed_reserve_tx qs now before : preserves typed (reserve_tx qs now before).
Proof.
  apply typed_tx. apply preserves_bind; [apply typed_stmt, typed_release_stale|intros _].
  apply preserves_bind; [apply typed_stmt, preserves_get|intros [[id j]|]]; [|apply preserves_ret].
  apply preserves_bind; [by apply typed_stmt, typed_alter_job|intros _; apply preserves_ret].
Qed.

Lemma typed_reserve c qs : preserves typed (reserveFromQueues c qs).
Proof.
  unfold reserveFromQueues. destruct qs as [|q qs]; [apply preserves_ret|].
  apply preserves_bind; [apply preserves_get|intros now].
  apply preserves_bind; [apply typed_reserve_tx|intros [[id j]|]]; [|apply preserves_ret].
  destruct (UnmarshalPayload _); [apply preserves_ret|apply preserves_throw].
Qed.

Lemma typed_reserveFairFrom c fuel qs start i : preserves typed (reserveFairFrom c fuel qs start i).
Proof.
  revert i. induction fuel as [|n IH]; intros i; cbn [reserveFairFrom]; [apply preserves_ret|].
  apply preserves_bind; [apply typed_reserve|intros [j|]; [apply preserves_ret|apply IH]].
Qed.

Lemma typed_ReserveFair c qs start : preserves typed (ReserveFair c qs start).
Proof. unfold ReserveFair. destruct qs; [apply preserves_ret|apply typed_reserveFairFrom]. Qed.

Lemma typed_reserveNext c wk : preserves typed (reserveNext c wk).
Proof.
  unfold reserveNext. destruct (_ <=? 1)%nat.
  { apply preserves_bind; [apply typed_reserve|intros; apply preserves_ret]. }
  destruct (partitionWorkerQueues _) as [[fq pq] oq].
  assert (Hfair : preserves typed (let* (job, next) := ReserveFair c (wk_queues wk) (wk_fairQueueCursor wk) in
                                   ret (job, set_queueCursor next wk)))
    by (apply preserves_bind; [apply typed_ReserveFair|intros []; apply preserves_ret]).
  destruct fq as [|a fq]; [exact Hfair|]. destruct pq as [|b pq]; [exact Hfair|].
  unfold reserveWeighted. cbv zeta.
  generalize ((a :: fq) :: (b :: pq) :: match oq with [] => [] | _ => [oq] end) at 2. intros pools.
  generalize (length ((a :: fq) :: (b :: pq) :: match oq with [] => [] | _ => [oq] end)). intros n. clear Hfair.
  generalize 0%nat. revert wk. induction n as [|n IH]; intros wk i; cbn [weightedFrom]; [apply preserves_ret|].
  destruct (nth _ pools []) as [|q qs]; [apply IH|].
  apply preserves_bind; [apply typed_ReserveFair|intros [[j|] next]; [apply preserves_ret|apply IH]].
Qed.

Lemma typed_Delete id : preserves typed (Delete id).
Proof. apply typed_stmt, typed_delete_job. Qed.

Lemma typed_Release c job n e : preserves typed (Release uuid c job n e).
Proof.
  unfold Release. destruct (_ <=? _)%Z.
  - unfold Fail. apply preserves_bind; [by apply typed_view|intros uid].
    apply preserves_bind; [apply preserves_get|intros now].
    apply preserves_bind; [by apply typed_view, keeps_stmt; [apply _|]|intros _; apply typed_Delete].
  - apply preserves_bind; [apply preserves_get|intros t]. by apply typed_stmt, typed_alter_job.
Qed.

Lemma typed_CompleteBatchJob bid q : preserves typed (CompleteBatchJob bid q EmptyString None).
Proof.
  intros w Hw. unfold CompleteBatchJob, bind at 1, stmt at 1. destruct (fault _); [done|].
  set (w1 := set_ops (S (w_ops w)) w). assert (Hw1 : typed w1) by done. clearbody w1. clear w Hw.
  unfold decrement_pending. destruct (w_batches w1 !! bid) as [b|] eqn:Eb; [|done].
  destruct (0 <? _)%Z; [|done]. set (w2 := set_batches _ w1). assert (Hw2 : typed w2).
  { revert Hw1. apply typed_same_payloads; [by eauto|]. intros k b'. simpl. rewrite lookup_insert_Some.
    intros [[<- <-]|[_ H]]; eauto. }
  destruct Hw1 as [_ Hb]. specialize (Hb bid b Eb). clearbody w2. clear w1 Eb.
  destruct (_ =? 0)%Z; [|done]. revert w2 Hw2. change (preserves typed (
    let* now := get now_unix in ignore (stmt (set_finished bid now)) ;;;
    let '(queue, typ, args) := completion (b_options b) q EmptyString None in
    if bool_decide (typ = EmptyString) || bool_decide (queue = EmptyString) then ret tt
    else Enqueue queue typ args 0 ;;; ret tt)).
  apply preserves_bind; [apply preserves_get|intros now]. apply preserves_bind.
  { apply preserves_ignore, typed_stmt. intros w. apply typed_same_payloads; [by eauto|]. intros k b'. simpl.
    rewrite lookup_alter_Some. intros [(<- & b0 & H & ->)|[_ H]]; eauto. }
  intros _. unfold completion. unfold batch_typed in Hb. destruct (b_options b ≫= dec_options) as [[oc|]|]; try apply preserves_ret.
  destruct (bool_decide (oc_Type oc = EmptyString)) eqn:Ht; [apply preserves_ret|].
  rewrite Ht. cbn [orb] in Hb |- *. case_match; [apply preserves_ret|].
  apply preserves_bind; [by apply typed_Enqueue|]. intros _. apply preserves_ret.
Qed.

Lemma typed_settle c wk job r : preserves typed (settle uuid c wk job r).
Proof.
  destruct r as [[]|e]; [|apply preserves_ignore, typed_Release].
  apply preserves_bind; [apply preserves_ignore, typed_Delete|intros _].
  unfold handleBatchComplete. destruct (batch_id_of _); [|apply preserves_ret].
  apply preserves_ignore, typed_CompleteBatchJob.
Qed.
End TypedOps.

(** ** Arguments that decode *)

Lemma well_typed_kind typ k raw : job_kind typ = Some k → decodes k raw = true → well_typed typ raw = true.
Proof. unfold well_typed. by intros ->. Qed.

Lemma typed_fetch_args typ (a : fetchPageArgs) :
  job_kind typ = Some FetchArgs → well_typed typ (args_raw (Some (marshal a))) = true.
Proof. intros H. apply (well_typed_kind _ _ _ H). cbn [decodes args_raw]. by rewrite decode_args_marshal. Qed.

Lemma typed_finalize_args typ (a : persistFinalizeArgs) :
  job_kind typ = Some FinalizeArgs → well_typed typ (args_raw (Some (marshal a))) = true.
Proof. intros H. apply (well_typed_kind _ _ _ H). cbn [decodes args_raw]. by rewrite decode_args_marshal. Qed.

Lemma typed_chunk_args typ bid (a : persistChunkArgs) :
  job_kind typ = Some ChunkArgs → well_typed typ (raw_of (batch_args bid (Some (marshal a)))) = true.
Proof. intros H. apply (well_typed_kind _ _ _ H). cbn [decodes]. by rewrite decode_chunk_batch. Qed.

Lemma typed_parcel_args (a : ParcelSyncPageArgs) : well_typed TypeGISParcelSyncPage (args_raw (Some (marshal a))) = true.
Proof.
  apply (well_typed_kind _ ParcelArgs); [reflexivity|]. cbn [decodes args_raw]. unfold UnmarshalParcelSyncPageArgs.
  by rewrite decode_args_marshal.
Qed.

Lemma typed_kickoff_args (a : FloodEnrichKickoffArgs) : well_typed TypeFEMAFloodEnrichKickoff (args_raw (Some (marshal a))) = true.
Proof.
  apply (well_typed_kind _ KickoffArgs); [reflexivity|]. cbn [decodes args_raw raw_of]. unfold UnmarshalKickoffArgs, unmarshal_args, raw_of.
  by rewrite unmarshal_marshal.
Qed.

Lemma typed_batch_args (a : FloodEnrichBatchArgs) : well_typed TypeFEMAFloodEnrichBatch (args_raw (Some (marshal a))) = true.
Proof.
  apply (well_typed_kind _ BatchArgs); [reflexivity|]. cbn [decodes args_raw raw_of]. unfold UnmarshalBatchArgs, unmarshal_args, raw_of.
  by rewrite unmarshal_marshal.
Qed.

(** What the sync stages need of a provider: its job types take the arguments they enqueue. *)
Class TypedProvider (pv : Provider) := {
  tp_fetch : job_kind (pv_fetchType pv) = Some FetchArgs;
  tp_chunk : job_kind (pv_chunkType pv) = Some ChunkArgs;
  tp_finalize : job_kind (pv_finalizeType pv) = Some FinalizeArgs;
}.
#[export] Instance bridge_typed : TypedProvider bridge.
Proof. by split. Qed.
#[export] Instance spark_typed : TypedProvider spark.
Proof. by split. Qed.

Create HintDb typed discriminated.
#[export] Hint Resolve typed_fetch_args typed_finalize_args typed_chunk_args typed_parcel_args typed_kickoff_args
  typed_batch_args tp_fetch tp_chunk tp_finalize : typed.
#[export] Hint Extern 1 (job_kind _ = Some _) => reflexivity : typed.

(** [typed_tac]: follow the binds and case splits of a computation; a statement that touches
    neither the jobs nor the batches keeps the database typed. *)
Ltac typed_step :=
  lazymatch goal with
  | |- preserves typed (bind _ _) => apply preserves_bind; [|intros ?]
  | |- preserves typed (ignore _) => apply preserves_ignore
  | |- preserves typed (for_each _ _) => apply preserves_for_each; intros ?
  | |- preserves typed (tx _) => apply typed_tx
  | |- preserves typed (stmt _) => apply typed_stmt
  | |- preserves typed (Enqueue _ _ _ _) => apply typed_Enqueue; solve [eauto with typed]
  | |- preserves typed (ret _) => apply preserves_ret
  | |- preserves typed (throw _) => apply preserves_throw
  | |- preserves typed (get _) => apply preserves_get
  | |- preserves typed (modify _) => apply typed_view; intros ?; reflexivity
  | |- preserves typed (λ _, _) => apply typed_view; intros ?; repeat case_match; reflexivity
  | |- _ => case_match
  end.
Ltac typed_tac := repeat first [ solve [eauto with typed nocore] | typed_step ].

Section TypedHandlers.
Context {F : Faults} {Un : Unordered} {Fmt : GoFmt} {U : Upstream} {PG : PostGIS} {AG : ArcGIS}.
Context {FT : GoFloatText} {JT : GoJsonText} {FS : FloodSource} {RO : RowOrder} {CG : CoinGecko}.
Context (uuid : nat → string) (sha256_hex : string → string) (cfg : Config) (fuel : nat).

(** *** Replication *)

Lemma typed_ForDataset ds : preserves typed (ForDataset ds).
Proof. unfold ForDataset. typed_tac. Qed.
Lemma typed_HasActivePage p ds : preserves typed (HasActivePage p ds).
Proof. unfold HasActivePage. typed_tac. Qed.
Lemma typed_MirrorSeeded ds : preserves typed (MirrorSeeded ds).
Proof. unfold MirrorSeeded. typed_tac. Qed.
#[local] Hint Resolve typed_ForDataset typed_HasActivePage typed_MirrorSeeded : typed.

Lemma typed_ApplyPatch ds patch : preserves typed (ApplyPatch ds patch).
Proof. unfold ApplyPatch, update_cursor. typed_tac. Qed.
#[local] Hint Resolve typed_ApplyPatch : typed.

Lemma typed_IsCurrent ds p : preserves typed (IsCurrent cfg ds p).
Proof. unfold IsCurrent. typed_tac. Qed.
#[local] Hint Resolve typed_IsCurrent : typed.

Lemma typed_dispatchDataset p ds q jt :
  job_kind jt = Some FetchArgs → preserves typed (dispatchDataset cfg p ds q jt).
Proof. intros Hjt. unfold dispatchDataset, ShouldKickoffReplication, tryIncrementalKickoff, Mode, enqueueFetch. typed_tac. Qed.

Lemma typed_KickoffRun : preserves typed (KickoffRun cfg).
Proof.
  unfold KickoffRun, dispatchBridge, dispatchSpark. typed_tac; by apply typed_dispatchDataset.
Qed.

Lemma typed_Purges : preserves typed (PurgeClosedRun cfg) ∧ preserves typed (PurgeEligible cfg).
Proof. unfold PurgeClosedRun, PurgeEligible, delete_pages. split; typed_tac. Qed.

(** *** The mirror and the sync stages *)

Lemma typed_HydrateReplicaBatch wr ds p rows : preserves typed (HydrateReplicaBatch wr ds p rows).
Proof.
  assert (Hflush : ∀ h, preserves typed (flush h)).
  { intros h. unfold flush, upsertListing, upsert_row, flushCoordinates, update_coordinates, flushNullCoordinates,
      null_coordinates. typed_tac. }
  assert (Hrows : ∀ h, preserves typed (hydrate_rows wr ds p rows h)).
  { induction rows as [|raw rows' IH]; intros h; cbn [hydrate_rows]; [apply preserves_ret|].
    apply preserves_bind; [|intros; apply IH]. case_match; [apply Hflush|apply preserves_ret]. }
  unfold HydrateReplicaBatch, flushDeletes, delete_rows. typed_tac; auto.
Qed.
#[local] Hint Resolve typed_HydrateReplicaBatch : typed.

Lemma typed_EnqueueKickoffIfAbsent slug : preserves typed (EnqueueKickoffIfAbsent cfg slug).
Proof. unfold EnqueueKickoffIfAbsent, HasActiveFloodEnrichJob. typed_tac. Qed.
#[local] Hint Resolve typed_EnqueueKickoffIfAbsent : typed.

Section Stages.
Context (pv : Provider) {TP : TypedProvider pv}.

Lemma typed_PersistChunk job : preserves typed (SyncWorker.PersistChunk cfg pv job).
Proof. unfold SyncWorker.PersistChunk, RowsForChunk. typed_tac. Qed.

Lemma typed_PersistFinalize job : preserves typed (SyncWorker.PersistFinalize cfg true pv job).
Proof.
  unfold SyncWorker.PersistFinalize, finalizeWith, enqueueFetchPage, kickoffEnrichment, MarkCompleted, DeletePage.
  typed_tac.
Qed.

Lemma typed_dispatchPersistBatch ds md result patch di nf :
  preserves typed (SyncWorker.dispatchPersistBatch uuid cfg pv ds md result patch di nf).
Proof.
  unfold SyncWorker.dispatchPersistBatch, StorePage, enqueueFinalize, MarkProcessing.
  destruct (Rows result) as [|r rows]; [typed_tac|].
  apply preserves_bind; [unfold insert_page; typed_tac|intros [pageID total]].
  destruct (_ =? 0)%Z; [typed_tac|]. apply preserves_bind; [|intros; typed_tac].
  apply typed_EnqueueBatch; cbn [bs_Jobs bs_OnComplete bj_Type bj_Args].
  - intros job bid Hjob. unfold chunkJobs in Hjob. apply list_elem_of_fmap in Hjob as (i & -> & _).
    cbn [bj_Type bj_Args]. eauto with typed.
  - cbn [norm_args marshal persistFinalizeArgs_codec mk_obj]. apply typed_finalize_args, tp_finalize.
Qed.
#[local] Hint Resolve typed_dispatchPersistBatch : typed.

Lemma typed_FetchPage maxChain finishModes fetchPage plan finished job :
  preserves typed (SyncWorker.FetchPage uuid cfg true pv maxChain finishModes fetchPage plan finished job).
Proof.
  unfold SyncWorker.FetchPage, fetchWith, skipReplicationFetchWhenPageActive, handleResult, kickoffEnrichment. typed_tac.
Qed.
End Stages.

(** *** Flood enrichment, caches and prices *)

Lemma typed_fema_handlers job :
  preserves typed (handleFEMAFloodEnrichKickoff cfg job) ∧ preserves typed (handleFEMAFloodEnrichBatch cfg job).
Proof.
  unfold handleFEMAFloodEnrichKickoff, handleFEMAFloodEnrichBatch, Kickoff, CountStale, RunBatch,
    SelectStaleForEnrichment, BatchUpdateFEMA, update_fema, enqueueBatch. split; typed_tac.
Qed.

Lemma typed_cache_handlers job : preserves typed (RefreshJobRun cfg job) ∧ preserves typed (CryptoRefresh cfg).
Proof.
  unfold RefreshJobRun, SearchPurgeExpired, ClosedPurgeExpired, CryptoRefresh, put_price. split; [typed_tac|].
  typed_tac.
Qed.

(** *** Parcels and boundaries *)

Lemma typed_on_gis f : preserves typed (on_gis f).
Proof. by apply typed_view. Qed.
#[local] Hint Resolve typed_on_gis : typed.

Lemma typed_kickoff c : preserves typed (kickoff cfg c).
Proof.
  assert (Ht : ∀ seen l, preserves typed (kickoffTargets cfg seen l)).
  { intros seen l. revert seen. induction l as [|s l IH]; intros seen; cbn [kickoffTargets]; [apply preserves_ret|].
    unfold HasActiveParcelSyncJob, EnsureSourceState, BumpSourceGeneration, enqueuePage. typed_tac; auto. }
  unfold kickoff, EnsureParcelSourceCatalog, upsertParcelSource. typed_tac; auto.
Qed.
#[local] Hint Resolve typed_kickoff : typed.

Lemma typed_ParcelRunInitialSync : preserves typed (ParcelRunInitialSync cfg).
Proof. unfold ParcelRunInitialSync, IsPersistentEmpty, CountBoundaries, CountParcels. typed_tac. Qed.

Lemma typed_SyncPage args : preserves typed (SyncPage cfg args).
Proof.
  assert (Hu : ∀ feats batch, preserves typed (upsertFeatures cfg args batch feats)).
  { induction feats as [|f l IH]; intros batch; cbn [upsertFeatures]; [apply preserves_ret|].
    unfold BulkUpsertParcels, upsertParcelBatch. typed_tac; auto. }
  unfold SyncPage, handlePage, BulkUpsertParcels, upsertParcelBatch, enqueuePage, finishParcels, DeleteStaleParcels,
    TouchParcelSourceSynced. typed_tac; auto.
Qed.

Lemma typed_syncRows {A} extract (bulk : list A → M World unit) feats :
  (∀ rows, preserves typed (bulk rows)) → preserves typed (syncRows cfg extract bulk feats).
Proof.
  intros Hb. assert (Hu : ∀ batch, preserves typed (upsertRows cfg extract bulk batch feats)).
  { induction feats as [|f l IH]; intros batch; cbn [upsertRows]; typed_tac; auto. }
  unfold syncRows. typed_tac; auto.
Qed.

Lemma typed_syncLayers :
  (∀ feats gen fp, preserves typed (syncCounties cfg feats gen fp)) ∧
  (∀ feats gen fp, preserves typed (syncCities cfg feats gen fp)) ∧
  (∀ feats gen fp, preserves typed (syncZips cfg feats gen fp)).
Proof.
  split_and!; intros; apply typed_syncRows; intros;
    unfold BulkUpsertCounties, BulkUpsertCities, BulkUpsertZips, in_batches, upsertCountyBatch, upsertCityBatch,
      upsertZipBatch; typed_tac.
Qed.

Lemma typed_syncLayer endpoint gen fp upsert size :
  (∀ feats g f, preserves typed (upsert feats g f)) → preserves typed (syncLayer cfg fuel endpoint gen fp upsert size).
Proof.
  intros Hu. unfold syncLayer. generalize (layerPageSize cfg size). intros n. generalize 0.
  induction fuel as [|f IH]; intros offset; cbn [syncPages]; typed_tac; auto.
Qed.

Lemma typed_boundaries :
  preserves typed (RunAnnualRefresh cfg fuel) ∧ preserves typed (RunZipSync cfg fuel) ∧
  preserves typed (RunBootstrapBoundaries cfg fuel).
Proof.
  destruct typed_syncLayers as (Hco & Hci & Hz).
  assert (H1 : ∀ e g f n, preserves typed (syncLayer cfg fuel e g f (syncCounties cfg) n)) by (intros; by apply typed_syncLayer).
  assert (H2 : ∀ e g f n, preserves typed (syncLayer cfg fuel e g f (syncCities cfg) n)) by (intros; by apply typed_syncLayer).
  assert (H3 : ∀ e g f n, preserves typed (syncLayer cfg fuel e g f (syncZips cfg) n)) by (intros; by apply typed_syncLayer).
  assert (Hb : ∀ j, preserves typed (backfill j)) by (intros; unfold backfill; typed_tac).
  assert (Hfull : ∀ fp, preserves typed (runFullBoundarySync cfg fuel fp)).
  { intros. unfold runFullBoundarySync, BumpSourceGeneration, BackfillCityCounties, DeleteStaleCities,
      DeleteStaleCounties, DeleteStaleZips. typed_tac; auto. }
  split_and!; [apply Hfull|unfold RunZipSync, BumpSourceGeneration, DeleteStaleZips; typed_tac; auto|].
  unfold RunBootstrapBoundaries, RunGapFill, CountBoundaries, BumpSourceGeneration, DeleteStaleCounties,
    DeleteStaleCities, DeleteStaleZips, BackfillCityCounties, ensureCityCountiesBackfilled, CountCitiesMissingCounty,
    BackfillMissingCityCounties. typed_tac; auto.
Qed.

Lemma typed_InitialSyncRun : preserves typed (InitialSyncRun cfg fuel).
Proof.
  pose proof typed_ParcelRunInitialSync. destruct typed_boundaries as (_ & _ & ?).
  unfold InitialSyncRun, LoadLayerCounts, CountBoundaries, CountParcels. typed_tac; auto.
Qed.

Lemma typed_ProbeAll order : preserves typed (ProbeAll sha256_hex order).
Proof. unfold ProbeAll, probeOne, EnsureSourceState. typed_tac. Qed.

(** *** All of them *)

Lemma typed_handlers typ fn job :
  (typ, fn) ∈ registrations uuid sha256_hex cfg fuel → preserves typed (fn job).
Proof.
  destruct typed_boundaries as (Ha & Hz & _). destruct (typed_fema_handlers job) as [Hk Hb].
  destruct (typed_cache_handlers job) as [Hp Hc]. destruct typed_Purges as [Hcl Hpg].
  unfold registrations. rewrite !elem_of_cons, elem_of_nil.
  intros H. repeat destruct H as [[= -> ->]|H]; try done;
    try first [ apply preserves_ret | apply typed_KickoffRun | apply typed_PersistChunk | apply typed_PersistFinalize, _
              | apply typed_FetchPage, _ | apply typed_kickoff | apply typed_InitialSyncRun | apply typed_ProbeAll ].
  unfold handleGISParcelSyncPage. case_match; [apply typed_SyncPage|apply preserves_throw].
Qed.
End TypedHandlers.

(** ** The worker on a typed database *)

Section TypedWorker.
Context {F : Faults} {Un : Unordered} {Fmt : GoFmt} {U : Upstream} {PG : PostGIS} {AG : ArcGIS}.
Context {FT : GoFloatText} {JT : GoJsonText} {FS : FloodSource} {RO : RowOrder} {CG : CoinGecko}.
Context (uuid : nat → string) (sha256_hex : string → string) (cfg : Config) (fuel : nat) (c : Client).

Definition registry : gmap string HandlerFunc :=
  wk_handlers (RegisterAll uuid sha256_hex cfg fuel (NewWorker [])).

Lemma registry_registrations typ fn : registry !! typ = Some fn → (typ, fn) ∈ registrations uuid sha256_hex cfg fuel.
Proof.
  unfold registry, RegisterAll. generalize (registrations uuid sha256_hex cfg fuel). intros l.
  enough (H : ∀ wk, wk_handlers (foldl (λ wk r, Register r.1 r.2 wk) wk l) !! typ = Some fn →
    (typ, fn) ∈ l ∨ wk_handlers wk !! typ = Some fn).
  { intros [|Hn]%H; [done|]. cbn in Hn. by rewrite lookup_empty in Hn. }
  induction l as [|[t f] l IH]; intros wk; cbn [foldl]; [by right|].
  intros [Hl|Hl]%IH; [left; by right|]. cbn in Hl. apply lookup_insert_Some in Hl as [[-> ->]|[_ Hl]]; [|by right].
  left. by left.
Qed.

Lemma RegisterAll_registry queues : wk_handlers (RegisterAll uuid sha256_hex cfg fuel (NewWorker queues)) = registry.
Proof.
  unfold registry, RegisterAll. generalize (registrations uuid sha256_hex cfg fuel). intros l.
  enough (H : ∀ wk wk', wk_handlers wk = wk_handlers wk' →
    wk_handlers (foldl (λ wk r, Register r.1 r.2 wk) wk l) = wk_handlers (foldl (λ wk r, Register r.1 r.2 wk) wk' l))
    by by apply H.
  induction l as [|[t f] l IH]; intros wk wk' He; cbn [foldl]; [done|]. apply IH. cbn. by rewrite He.
Qed.

Lemma registered_is_some l wk typ :
  typ ∈ l.*1 ∨ is_Some (wk_handlers wk !! typ) →
  is_Some (wk_handlers (foldl (λ wk (r : string * HandlerFunc), Register r.1 r.2 wk) wk l) !! typ).
Proof.
  revert wk. induction l as [|[t f] l IH]; intros wk; cbn [foldl]; [intros [[]%elem_of_nil|]; done|].
  intros H. apply IH. cbn. destruct (decide (t = typ)) as [->|Hne]; [right; by rewrite lookup_insert_eq|].
  rewrite lookup_insert_ne by done. destruct H as [H|H]; [left|by right].
  cbn [fmap list_fmap fst] in H. apply elem_of_cons in H as [->|H]; done.
Qed.

(** Every job type has a handler. *)
Lemma job_kind_registered typ k :
  job_kind typ = Some k → ∃ fn, registry !! typ = Some fn ∧ (typ, fn) ∈ registrations uuid sha256_hex cfg fuel.
Proof.
  unfold job_kind. intros H%(elem_of_list_to_map_2 (M:=gmap string)).
  assert (Hin : typ ∈ (registrations uuid sha256_hex cfg fuel).*1).
  { change ((registrations uuid sha256_hex cfg fuel).*1) with (job_kinds.*1). apply list_elem_of_fmap. by exists (typ, k). }
  destruct (registered_is_some _ (NewWorker []) typ (or_introl Hin)) as [fn Hfn].
  exists fn. split; [done|]. by apply registry_registrations.
Qed.

(** A handler of the registry keeps the database typed. *)
Lemma typed_process wk job : wk_handlers wk = registry → preserves typed (process wk job).
Proof.
  intros Hwk. unfold process. rewrite Hwk. destruct (_ && _); [apply preserves_ret|].
  destruct (registry !! _) as [fn|] eqn:E; [|apply preserves_throw]. eapply typed_handlers, registry_registrations, E.
Qed.

Lemma typed_run_once wk w :
  wk_handlers wk = registry → typed w →
  wk_handlers (run_once uuid c wk w).1 = registry ∧ typed (run_once uuid c wk w).2.
Proof.
  intros Hwk Hw. unfold run_once. pose proof (typed_reserveNext c wk w Hw) as H1.
  destruct (reserveNext c wk w) as [[[[job|] wk']|e] w1] eqn:E; simpl in H1; [| |done];
    apply reserveNext_worker in E as [E _]; rewrite Hwk in E; [|done].
  pose proof (typed_process wk' job E w1 H1) as H2. destruct (process wk' job w1) as [r w2].
  split; [done|]. by apply typed_settle.
Qed.

Lemma typed_claim w r w' job :
  typed w → reserve_effect c w r w' → r = Ok (Some job) → well_typed (p_Type (rj_Payload job)) (p_Args (rj_Payload job)) = true.
Proof.
  intros [Hj _] He Hr. inversion He as [|id j n p Hv _ _ Hp|e n|id j n e Hv _ Hp]; subst; simplify_eq. cbn [rj_Payload].
  unfold visible_jobs in Hv. rewrite lookup_release_stale in Hv. apply fmap_Some in Hv as (j0 & H0 & ->).
  specialize (Hj id j0 H0). unfold job_typed in Hj.
  assert (j_payload j0 = j_payload (match j_reserved_at j0 with
    | Some r => if (r <? now_unix w - seconds (c_reservationTimeout c))%Z
                then mkJob (j_queue j0) (j_payload j0) (j_attempts j0) None (now_unix w) (j_created_at j0) else j0
    | None => j0 end)) as Heq by (by repeat case_match).
  rewrite Heq, Hp in Hj. done.
Qed.

(** C8 On a typed database a worker with the full registry never meets a job it cannot run: a
    job it reserves has a type with a handler, its arguments decode to what that handler
    expects, and running it is running that handler; and a reservation that fails has claimed
    no job. *)
Theorem typed_jobs_run wk w :
  wk_handlers wk = registry → typed w →
  match reserveNext c wk w with
  | (Ok (Some job, wk'), w1) =>
      let p := rj_Payload job in
      ∃ k fn, job_kind (p_Type p) = Some k ∧ decodes k (p_Args p) = true ∧
        (p_Type p, fn) ∈ registrations uuid sha256_hex cfg fuel ∧ process wk' job w1 = fn job w1
  | (Ok (None, _), w1) | (Err _, w1) => w_jobs w1 = w_jobs w
  end.
Proof.
  intros Hwk Hw. destruct (reserveNext c wk w) as [r w1] eqn:E.
  pose proof (reserveNext_effect c wk w r w1 E) as He.
  destruct r as [[[job|] wk']|e]; simpl in He.
  - pose proof (typed_claim _ _ _ job Hw He eq_refl) as Ht. unfold well_typed in Ht.
    destruct (job_kind (p_Type (rj_Payload job))) as [k|] eqn:Ek; [|done].
    destruct (job_kind_registered _ _ Ek) as (fn & Hfn & Hin).
    exists k, fn. split_and!; [done|done|done|].
    apply reserveNext_worker in E as [E _]. unfold process. rewrite E, Hwk. unfold HandlerFunc in *. rewrite Hfn.
    destruct (bool_decide _) eqn:Hb; [|done]. apply bool_decide_eq_true in Hb. by rewrite Hb in Ek.
  - by inversion He.
  - inversion He as [| |e0 n|id j n e' Hv _ Hp]; [done|]. exfalso.
    unfold visible_jobs in Hv. rewrite lookup_release_stale in Hv. apply fmap_Some in Hv as (j0 & Hj0 & ->).
    destruct Hw as [Hj _]. specialize (Hj id j0 Hj0). unfold job_typed in Hj.
    assert (UnmarshalPayload (j_payload j0) = Err e) as Hp' by (rewrite <- Hp; by repeat case_match).
    by rewrite Hp' in Hj.
Qed.
End TypedWorker.

(** ** Concrete runs *)

#[local] Existing Instance never_fails.
#[local] Existing Instance samplePostGIS.
#[local] Existing Instance sortedMaps.
#[local] Existing Instance calmSource.
#[local] Instance sprint_empty : GoFmt := λ _, EmptyString.
#[local] Instance sampleFloats : GoFloatText := λ _, EmptyString.
#[local] Instance sampleJson : GoJsonText := λ _, EmptyString.
#[local] Instance deadUpstream : Upstream := λ _ _ _, HttpFail "connection refused".
#[local] Instance deadArcGIS : ArcGIS := λ _ _, AgFail "connection refused".
#[local] Instance deadGecko : CoinGecko := λ _ _, Err "connection refused".
#[local] Instance listRows : RowOrder.
Proof. by refine {| row_order := λ A l, l |}. Defined.

(** A page fetch waits in the queue. *)
Definition fetchWorld : World := (Enqueue "bridge-sync-fetch" TypeBridgeFetchPage
  (Some (marshal (mkFetchArgs "stellar" "replication" 0 0))) 0 (empty_world 0)).2.
Definition fetchWorker : Worker := RegisterAll (λ _, "u") (λ s, s) defaultConfig 5 (NewWorker ["bridge-sync-fetch"]).

Lemma empty_world_typed t : typed (empty_world t).
Proof. split; intros id x H; unfold empty_world in H; cbn in H; by rewrite lookup_empty in H. Qed.

Lemma fetchWorld_typed : typed fetchWorld.
Proof. apply typed_Enqueue; [by apply typed_fetch_args|apply empty_world_typed]. Qed.

Lemma typed_jobs_run_witness :
  ∃ job wk' w1, reserveNext sampleClient fetchWorker fetchWorld = (Ok (Some job, wk'), w1) ∧
    ∃ k (fn : HandlerFunc), job_kind (p_Type (rj_Payload job)) = Some k ∧ process wk' job w1 = fn job w1.
Proof.
  assert (match (reserveNext sampleClient fetchWorker fetchWorld).1 with Ok (Some _, _) => true | _ => false end = true)
    as Hr by (vm_compute; reflexivity).
  destruct (reserveNext sampleClient fetchWorker fetchWorld) as [[[[job|] wk']|e] w1] eqn:E; [|discriminate Hr..].
  exists job, wk', w1. split; [reflexivity|].
  pose proof (typed_jobs_run (λ _, "u") (λ s, s) defaultConfig 5 sampleClient fetchWorker fetchWorld
    (RegisterAll_registry _ _ _ _ _) fetchWorld_typed) as H.
  rewrite E in H. destruct H as (k & fn & Hk & _ & _ & Hp). exists k, fn. exact (conj Hk Hp).
Defined.
