(* ===== verification/Scheduler.v ===== *)
(** * The scheduler (package [scheduler]), and the system it drives

    The cron table and the startup jobs of [scheduler.go], the leader lock of [leader.go], and
    the two other places jobs enter the queue from: the [gis-enqueue] command and the flood
    handler of the admin API. The processes of a deployment (schedulers that compete for the
    lock, workers with the registry of Jobs.v) are a step relation over one database. *)

From Stdlib Require Import Ascii String.
From stdpp Require Import gmap strings list relations.
From S2P Require Import Prelude GoStrings GoTime GoFloat GoNum GoJson MlsFields Payload Listing Config GisData CacheData Database Queue Worker Replication Upstream GisRepo GisFetch Caches ParcelSync BoundarySync Fetch BridgeSync SparkSync Mirror Nfhl Fema SyncWorker BridgeWorker SparkWorker Jobs.

Open Scope Z_scope.
Open Scope string_scope.

Definition DefaultLeaderLockKey : Z := 913374211.

(** The advisory lock key [Run] takes. *)
Definition lockKey (cfg : Config) : Z :=
  let key := sch_LeaderLockKey (cfg_Scheduler cfg) in
  if (key =? 0)%Z then DefaultLeaderLockKey else key.

(** ** What the leader enqueues ([scheduler.go]) *)

Section Schedule.
Context {F : Faults} (cfg : Config).

(** [enqueue]: a failure is logged. *)
Definition enqueue (queueName jobType : string) : M World unit := ignore (Enqueue queueName jobType None 0).

Definition enqueueGISSyncBootstrap : M World unit :=
  ignore (
    let* counts := LoadLayerCounts in
    if negb (NeedsBootstrap counts) then ret tt
    else for_each (λ action, enqueue (syncQueue cfg) (ba_JobType action)) (PlanBootstrapActions counts)).

(** A cron entry: its name, its specification (second, minute, hour, day, month, weekday) and
    what it runs. *)
Record task := mkTask { t_name : string; t_spec : string; t_run : M World unit }.

Definition addJob (name spec queueName jobType : string) : task := mkTask name spec (enqueue queueName jobType).

Definition tasks : list task :=
  [addJob "coingecko" "0 */10 * * * *" (cg_Queue (cfg_Coingecko cfg)) TypeCryptoRefreshPricing;
   addJob "mls-proxy-cache-purge" "0 */15 * * * *" "default" TypeMLSProxyCachePurge;
   addJob "mls-kickoff" "0 * * * * *" (mls_SyncKickoffQueue (cfg_MLS cfg)) TypeMLSReplicationKickoff;
   addJob "purge-replica" "0 15 4 * * *" "default" TypeMLSPurgeReplicaPages;
   addJob "purge-closed" "0 5 3 * * *" "default" TypeMLSPurgeClosed;
   addJob "fema-flood-enrich" "0 30 4 * * *" (fema_EnrichQueue (cfg_FEMA cfg)) TypeFEMAFloodEnrichKickoff;
   addJob "gis-probe" "0 30 6 * * 1" (gis_Queue (cfg_GIS cfg)) TypeGISProbeSources;
   addJob "gis-monthly-parcel-refresh" "0 0 2 1 * *" (gis_SyncQueue (cfg_GIS cfg)) TypeGISMonthlyParcelRefresh;
   addJob "gis-annual-boundaries-refresh" "0 0 3 1 1 *" (gis_SyncQueue (cfg_GIS cfg)) TypeGISAnnualBoundariesRefresh;
   mkTask "gis-bootstrap-recheck" "0 15 */6 * * *" enqueueGISSyncBootstrap].

(** What a new leader enqueues before it starts the cron. *)
Definition startup : M World unit :=
  enqueue (mls_SyncKickoffQueue (cfg_MLS cfg)) TypeMLSReplicationKickoff ;;; enqueueGISSyncBootstrap.
End Schedule.

(** ** The other producers *)

Section Producers.
Context {F : Faults} {PG : PostGIS} (cfg : Config).

(** [cmd/gis-enqueue]: what [main] does with its flags; exit status 1 is an error. *)
Definition gisEnqueue (job county : string) : M World unit :=
  if negb (bool_decide (job ∈ ["parcels"; "zips"; "boundaries"])) then throw "usage"
  else if bool_decide (job = "parcels") && negb (bool_decide (county = EmptyString)) then KickoffCounty cfg county
  else
    let jobType := if bool_decide (job = "parcels") then TypeGISMonthlyParcelRefresh
                   else if bool_decide (job = "zips") then TypeGISZipSync
                   else TypeGISAnnualBoundariesRefresh in
    Enqueue (syncQueue cfg) jobType None 0 ;;; ret tt.

(** [handler/admin/flood.go]. *)
Record floodEnrichRequest := mkFloodReq { fr_Limit : Z; fr_DatasetSlug : string }.
Record floodEnrichResponse := mkFloodResp { fr_Enqueued : bool; fr_StaleEstimate : Z }.

(** The status and, when it is 200, the response. [body] is the body as fiber parses it:
    [None] for none. *)
Definition Enrich (body : option (res floodEnrichRequest)) : M World (Z * option floodEnrichResponse) := λ w,
  match default (Ok (mkFloodReq 0 EmptyString)) body with
  | Err _ => (Ok (400, None), w)
  | Ok req =>
      match CountStale (interval cfg) (fr_DatasetSlug req) w with
      | (Err _, w) => (Ok (500, None), w)
      | (Ok stale, w) =>
          if (0 <? fr_Limit req)%Z then
            let size := fema_EnrichBatchSize (cfg_FEMA cfg) in
            let limit := if ((size <? fr_Limit req) && (0 <? size))%Z then size else fr_Limit req in
            match Enqueue (fema_EnrichQueue (cfg_FEMA cfg)) TypeFEMAFloodEnrichBatch
                    (Some (marshal (mkBatchArgs 0 limit (fr_DatasetSlug req)))) 0 w with
            | (Err _, w) => (Ok (500, None), w)
            | (Ok _, w) => (Ok (200, Some (mkFloodResp true stale)), w)
            end
          else
            match AdminKickoff cfg (fr_DatasetSlug req) w with
            | (Err _, w) => (Ok (500, None), w)
            | (Ok (_, enqueued), w) => (Ok (200, Some (mkFloodResp enqueued stale)), w)
            end
      end
  end.
End Producers.

(** The admin endpoint answers [enqueued: true] also when a flood job is active and it
    enqueues nothing. *)
Lemma admin_reports_enqueued {F : Faults} {NF : NoFaults} (cfg : Config) slug w :
  flood_job_active w = true → (∀ id j, w_jobs w !! id = Some j → j_payload j ≠ None) →
  ∃ stale w', Enrich cfg (Some (Ok (mkFloodReq 0 slug))) w = (Ok (200, Some (mkFloodResp true stale)), w') ∧
    w_jobs w' = w_jobs w.
Proof.
  intros Ha Hp. unfold flood_job_active in Ha.
  assert (He : existsb (λ kv : Z * job_row, bool_decide (j_payload kv.2 = None)) (map_to_list (w_jobs w)) = false).
  { apply not_true_is_false. rewrite existsb_exists. intros ([id j] & Hin & Hn).
    apply list_elem_of_In, elem_of_map_to_list in Hin. apply bool_decide_eq_true in Hn. exact (Hp id j Hin Hn). }
  unfold Enrich, AdminKickoff, EnqueueKickoffIfAbsent, HasActiveFloodEnrichJob, CountStale, flood_job_active, stmt, bind, get.
  cbn. repeat (rewrite no_fault; cbn). rewrite He, Ha. cbn. eauto.
Qed.

(** ** Processes *)

(** A scheduler process waits for the lock, leads with the session that acquired it, or has
    returned from [Run]. [sp_locks] are the names [withoutOverlap] holds, [sp_runs] the
    goroutines of the cron with the task each runs. *)
Inductive mode := Standby | Leading (session : nat) | Stopped.
Record proc := mkProc { sp_mode : mode; sp_locks : gset string; sp_runs : gmap nat string }.

Definition newScheduler : proc := mkProc Standby ∅ ∅.
Definition set_mode (m : mode) (p : proc) : proc := mkProc m (sp_locks p) (sp_runs p).

(** [withoutOverlap], in goroutine [i]: a run that finds its name locked is skipped. *)
Definition beginRun (i : nat) (name : string) (p : proc) : proc :=
  if bool_decide (name ∈ sp_locks p) then p
  else mkProc (sp_mode p) ({[name]} ∪ sp_locks p) (<[i := name]> (sp_runs p)).
Definition endRun (i : nat) (name : string) (p : proc) : proc :=
  mkProc (sp_mode p) (sp_locks p ∖ {[name]}) (delete i (sp_runs p)).

(** A deployment: the database, the workers, the schedulers, the session that holds the
    advisory lock and the next session number. *)
Record Sys := mkSys {
  s_world : World;
  s_workers : list Worker;
  s_scheds : gmap nat proc;
  s_lock : option nat;
  s_next : nat;
}.

Definition on_world (w : World) (s : Sys) : Sys := mkSys w (s_workers s) (s_scheds s) (s_lock s) (s_next s).
Definition on_sched (k : nat) (p : proc) (s : Sys) : Sys :=
  mkSys (s_world s) (s_workers s) (<[k := p]> (s_scheds s)) (s_lock s) (s_next s).
Definition on_lock (l : option nat) (s : Sys) : Sys := mkSys (s_world s) (s_workers s) (s_scheds s) l (s_next s).

Section System.
Context {F : Faults} {Un : Unordered} {Fmt : GoFmt} {U : Upstream} {PG : PostGIS} {AG : ArcGIS}.
Context {FT : GoFloatText} {JT : GoJsonText} {FS : FloodSource} {RO : RowOrder} {CG : CoinGecko}.
Context (uuid : nat → string) (sha256_hex : string → string) (cfg : Config) (fuel : nat) (c : Client).

(** The flag says whether the step is the loss of a leader's connection: the server ends the
    session and frees its lock, and the leader is not told. *)
Inductive step : bool → Sys → Sys → Prop :=
| st_turn i wk s :
    s_workers s !! i = Some wk →
    step false s (mkSys (run_once uuid c wk (s_world s)).2 (<[i := (run_once uuid c wk (s_world s)).1]> (s_workers s))
                   (s_scheds s) (s_lock s) (s_next s))
| st_time d s : (0 <= d)%Z → step false s (on_world (set_now (w_now (s_world s) + d)%Z (s_world s)) s)
| st_gis_enqueue job county s : step false s (on_world (gisEnqueue cfg job county (s_world s)).2 s)
| st_enrich body s : step false s (on_world (Enrich cfg body (s_world s)).2 s)
| st_elect k p s :
    s_scheds s !! k = Some p → sp_mode p = Standby → s_lock s = None →
    step false s (mkSys (startup cfg (s_world s)).2 (s_workers s)
                   (<[k := set_mode (Leading (s_next s)) p]> (s_scheds s)) (Some (s_next s)) (S (s_next s)))
| st_fire k p i t s session :
    s_scheds s !! k = Some p → sp_mode p = Leading session → t ∈ tasks cfg → sp_runs p !! i = None →
    step false s (on_sched k (beginRun i (t_name t) p) s)
| st_run k p i t s :
    s_scheds s !! k = Some p → t ∈ tasks cfg → sp_runs p !! i = Some (t_name t) →
    step false s (on_world (t_run t (s_world s)).2 (on_sched k (endRun i (t_name t) p) s))
| st_stop k p s :
    s_scheds s !! k = Some p → step false s (on_sched k (set_mode Stopped p) s)
| st_unlock k p session s :
    s_scheds s !! k = Some p → sp_mode p = Leading session → s_lock s = Some session →
    step false s (on_lock None (on_sched k (set_mode Stopped p) s))
| st_close session s :
    s_lock s = Some session → (∀ k p, s_scheds s !! k = Some p → sp_mode p ≠ Leading session) →
    step false s (on_lock None s)
| st_lose s : step true s (on_lock None s).

(** A deployment that starts: [n] schedulers, and workers with the full registry. *)
Definition started (t : Z) (queues : list (list string)) (n : nat) : Sys :=
  mkSys (empty_world t)
    ((λ qs, RegisterAll uuid sha256_hex cfg fuel (NewWorker qs)) <$> queues)
    (list_to_map ((λ k, (k, newScheduler)) <$> seq 0 n)) None 0.

(** ** Types *)

Lemma typed_enqueue q typ : job_kind typ = Some NoArgs → preserves typed (enqueue q typ).
Proof. intros H. apply preserves_ignore, typed_Enqueue, (well_typed_kind _ _ _ H). reflexivity. Qed.

(** A kickoff or a batch without arguments runs with the zero ones. *)
Lemma typed_enqueue_kickoff q : preserves typed (enqueue q TypeFEMAFloodEnrichKickoff).
Proof. apply preserves_ignore, typed_Enqueue. reflexivity. Qed.

Lemma typed_bootstrap : preserves typed (enqueueGISSyncBootstrap cfg).
Proof.
  unfold enqueueGISSyncBootstrap. apply preserves_ignore.
  assert (Hl : preserves typed LoadLayerCounts) by (unfold LoadLayerCounts, CountBoundaries, CountParcels; typed_tac).
  apply preserves_bind; [done|intros counts]. destruct (negb _); [apply preserves_ret|].
  unfold PlanBootstrapActions. repeat case_match; cbn [app for_each];
    repeat (first [apply preserves_ret | apply preserves_bind; [by apply typed_enqueue|intros _]]).
Qed.

Lemma typed_task t : t ∈ tasks cfg → preserves typed (t_run t).
Proof.
  unfold tasks. rewrite !elem_of_cons, elem_of_nil.
  intros H. repeat destruct H as [->|H]; try done;
    first [by apply typed_enqueue | apply typed_enqueue_kickoff | apply typed_bootstrap].
Qed.

Lemma typed_startup : preserves typed (startup cfg).
Proof. apply preserves_bind; [by apply typed_enqueue|intros _; apply typed_bootstrap]. Qed.

Lemma typed_gisEnqueue job county : preserves typed (gisEnqueue cfg job county).
Proof.
  unfold gisEnqueue, KickoffCounty. pose proof (typed_kickoff cfg county). case_match; [apply preserves_throw|].
  case_match; [repeat case_match; try apply preserves_throw; done|].
  apply preserves_bind; [|intros; apply preserves_ret]. apply typed_Enqueue. repeat case_match; reflexivity.
Qed.

Lemma typed_Enrich body w : typed w → typed (Enrich cfg body w).2.
Proof.
  intros Hw. unfold Enrich. destruct (default _ body) as [req|e]; [|done].
  assert (Hc : preserves typed (CountStale (interval cfg) (fr_DatasetSlug req))) by (unfold CountStale; typed_tac).
  specialize (Hc w Hw). destruct (CountStale _ _ w) as [[stale|e] w1]; [|done]. simpl in Hc.
  destruct (0 <? _)%Z.
  - match goal with |- context [Enqueue ?q ?t ?a ?d w1] =>
      assert (H : typed (Enqueue q t a d w1).2) by (apply typed_Enqueue; [eauto with typed|done]);
      destruct (Enqueue q t a d w1) as [[]] end; done.
  - assert (H : preserves typed (AdminKickoff cfg (fr_DatasetSlug req))).
    { pose proof (typed_EnqueueKickoffIfAbsent cfg (fr_DatasetSlug req)). unfold AdminKickoff, CountStale. typed_tac. }
    specialize (H w1 Hc). destruct (AdminKickoff _ _ w1) as [[[]|] ]; done.
Qed.

Definition sys_typed (s : Sys) : Prop :=
  typed (s_world s) ∧ Forall (λ wk, wk_handlers wk = registry uuid sha256_hex cfg fuel) (s_workers s).

Lemma sys_typed_step loss s s' : step loss s s' → sys_typed s → sys_typed s'.
Proof.
  intros Hs [Hw Hwk]. destruct Hs; try destruct (typed_run_once uuid sha256_hex cfg fuel c wk _ (Forall_lookup_1 _ _ _ _ Hwk H) Hw)
    as [Ht1 Ht2]; split; cbn [s_world s_workers on_world on_sched on_lock]; try done.
  - by apply Forall_insert.
  - by apply typed_gisEnqueue.
  - by apply typed_Enrich.
  - by apply typed_startup.
  - by apply typed_task.
Qed.

Lemma started_typed t queues n : sys_typed (started t queues n).
Proof.
  split; [apply empty_world_typed|]. apply Forall_fmap, Forall_true. intros qs. exact (RegisterAll_registry uuid sha256_hex cfg fuel qs).
Qed.

(** C7 The deployment is well typed: whatever the workers, the schedulers, the command and the
    admin endpoint have done since the database was empty, under any database failures and
    losses of the leader's connection, every job in the queue and every stored completion has
    a registered type and arguments its handler decodes. *)
Theorem system_typed t queues n s :
  rtc (λ s s', ∃ loss, step loss s s') (started t queues n) s → typed (s_world s).
Proof.
  intros H. enough (sys_typed s) as [? _] by done. generalize (started_typed t queues n). revert H.
  generalize (started t queues n). intros s0 H.
  induction H as [|s0 s1 s2 [loss Hs] _ IH]; [done|]. intros H0. by eapply IH, sys_typed_step.
Qed.

(** ** One leader *)

Definition runs_ok (p : proc) : Prop :=
  (∀ i name, sp_runs p !! i = Some name → name ∈ sp_locks p) ∧
  (∀ i i' name, sp_runs p !! i = Some name → sp_runs p !! i' = Some name → i = i').

Lemma beginRun_ok i name p : sp_runs p !! i = None → runs_ok p → runs_ok (beginRun i name p).
Proof.
  intros Hi [H1 H2]. unfold beginRun. case_bool_decide as Hl; [done|]. split; cbn [sp_runs sp_locks].
  - intros j n. rewrite lookup_insert_Some. intros [[_ ->]|[_ Hj%H1]]; set_solver.
  - intros j j' n. rewrite !lookup_insert_Some. intros [[<- <-]|[? Hj]] [[<- ?]|[? Hj']]; subst; [done|..].
    + by apply H1 in Hj'.
    + by apply H1 in Hj.
    + by eapply H2.
Qed.

Lemma endRun_ok i name p : sp_runs p !! i = Some name → runs_ok p → runs_ok (endRun i name p).
Proof.
  intros Hi [H1 H2]. split; cbn [endRun sp_runs sp_locks].
  - intros j n. rewrite lookup_delete_Some. intros [Hne Hj]. apply elem_of_difference. split; [by eapply H1|].
    rewrite elem_of_singleton. intros ->. by apply Hne, (H2 _ _ name).
  - intros j j' n. rewrite !lookup_delete_Some. intros [_ Hj] [_ Hj']. by eapply H2.
Qed.

Definition one_leader (s : Sys) : Prop :=
  ∀ k k' p p' session session', s_scheds s !! k = Some p → s_scheds s !! k' = Some p' →
    sp_mode p = Leading session → sp_mode p' = Leading session' → k = k'.

Definition leader_inv (s : Sys) : Prop :=
  one_leader s ∧
  (∀ k p, s_scheds s !! k = Some p → runs_ok p ∧ ∀ session, sp_mode p = Leading session → s_lock s = Some session).

(** Replacing a process by one that leads only if it did. *)
Lemma leader_inv_update k p p' w s :
  s_scheds s !! k = Some p → (runs_ok p → runs_ok p') →
  (∀ session, sp_mode p' = Leading session → sp_mode p = Leading session) →
  leader_inv s → leader_inv (on_world w (on_sched k p' s)).
Proof.
  intros Hk Hr Hm [H1 H2]. split.
  - intros k1 k2 p1 p2 n1 n2. cbn [s_scheds on_world on_sched]. rewrite !lookup_insert_Some.
    intros [[<- <-]|[_ Hk1]] [[<- <-]|[_ Hk2]] Hm1 Hm2; [done|..].
    + apply Hm in Hm1. exact (H1 _ _ _ _ _ _ Hk Hk2 Hm1 Hm2).
    + apply Hm in Hm2. exact (H1 _ _ _ _ _ _ Hk1 Hk Hm1 Hm2).
    + exact (H1 _ _ _ _ _ _ Hk1 Hk2 Hm1 Hm2).
  - intros k1 p1. cbn [s_scheds s_lock on_world on_sched]. rewrite lookup_insert_Some.
    intros [[_ <-]|[_ Hk1]]; [|by apply (H2 k1)]. destruct (H2 k p Hk) as [Ho Hl]. split; [auto|]. intros n Hn. by apply Hl, Hm.
Qed.

Lemma leader_inv_step s s' : step false s s' → leader_inv s → leader_inv s'.
Proof.
  remember false as b. intros Hs [H1 H2]. pose proof (conj H1 H2 : leader_inv s) as Hi. destruct Hs; try done.
  - split.
    + intros k1 k2 p1 p2 n1 n2. cbn [s_scheds]. rewrite !lookup_insert_Some.
      intros [[<- _]|[_ Hk1]] [[<- _]|[_ Hk2]] Hm1 Hm2; [done|..].
      * destruct (H2 _ _ Hk2) as [_ Hl]. apply Hl in Hm2. congruence.
      * destruct (H2 _ _ Hk1) as [_ Hl]. apply Hl in Hm1. congruence.
      * exact (H1 _ _ _ _ _ _ Hk1 Hk2 Hm1 Hm2).
    + intros k1 p1. cbn [s_scheds s_lock]. rewrite lookup_insert_Some.
      intros [[_ <-]|[_ Hk1]]; [split; [by apply (H2 k p)|]; by intros n [= <-]|].
      destruct (H2 _ _ Hk1) as [Ho Hl]. split; [done|]. intros n Hn. apply Hl in Hn. congruence.
  - apply (leader_inv_update _ p _ (s_world s) s); [done|by apply beginRun_ok| |done].
    intros n. unfold beginRun. by case_bool_decide.
  - by apply (leader_inv_update _ p _ _ s); [|apply endRun_ok|..].
  - by apply (leader_inv_update _ p _ (s_world s) s).
  - destruct (leader_inv_update k p (set_mode Stopped p) (s_world s) s) as [Ha Hb]; [done..|]. split; [exact Ha|].
    intros k1 p1 Hk1. destruct (Hb k1 p1 Hk1) as [Ho _]. split; [done|]. intros n Hn. exfalso.
    cbn [s_scheds on_lock on_sched] in Hk1. apply lookup_insert_Some in Hk1 as [[_ <-]|[Hne Hk1]]; [done|].
    apply Hne. exact (H1 _ _ _ _ _ _ H Hk1 H0 Hn).
  - split; [exact H1|]. intros k p Hk. destruct (H2 k p Hk) as [Ho Hl]. split; [done|]. intros n Hn. exfalso.
    apply (H0 k p Hk). apply Hl in Hn as Hn'. congruence.
Qed.

Lemma started_leader t queues n : leader_inv (started t queues n).
Proof.
  assert (H : ∀ k p, s_scheds (started t queues n) !! k = Some p → p = newScheduler).
  { intros k p Hp%(elem_of_list_to_map_2 (M:=gmap nat)). apply list_elem_of_fmap in Hp as (x & [= _ ->] & _). done. }
  split.
  - intros k k' p p' s1 s2 Hk%H _. by subst p.
  - intros k p ->%H. split; [|done]. split; intros i *; unfold newScheduler; cbn [sp_runs]; by rewrite lookup_empty.
Qed.

(** C9 As long as no leader loses its database connection, at most one scheduler of a
    deployment leads, it holds the advisory lock, and in no scheduler do two runs of one task
    overlap. *)
Theorem scheduler_exclusive t queues n s k p :
  rtc (step false) (started t queues n) s → s_scheds s !! k = Some p →
  (∀ session, sp_mode p = Leading session →
     s_lock s = Some session ∧
     ∀ k' p' session', k' ≠ k → s_scheds s !! k' = Some p' → sp_mode p' ≠ Leading session') ∧
  (∀ i i' name, i ≠ i' → sp_runs p !! i = Some name → sp_runs p !! i' ≠ Some name).
Proof.
  intros H Hk. assert (Hi : leader_inv s).
  { generalize (started_leader t queues n). revert H. generalize (started t queues n). intros s0 H.
    induction H as [|s0 s1 s2 Hs _ IH]; [done|]. intros H0. by eapply IH, leader_inv_step. }
  destruct Hi as [H1 H2]. destruct (H2 k p Hk) as [[_ Hr] Hl]. split.
  - intros session Hm. split; [by apply Hl|]. intros k' p' s' Hne Hk' Hm'. exact (Hne (H1 _ _ _ _ _ _ Hk' Hk Hm' Hm)).
  - intros i i' name Hne Hi Hi'. exact (Hne (Hr _ _ _ Hi Hi')).
Qed.

(** A leader that loses its connection keeps leading, and another process can be elected
    meanwhile: two leaders fire the cron until the first process ends. *)
Lemma two_leaders_after_loss t queues :
  ∃ s, rtc (λ s s', ∃ loss, step loss s s') (started t queues 2) s ∧ ¬ one_leader s.
Proof.
  eexists. split.
  - eapply rtc_l; [exists false; by apply (st_elect 0 newScheduler)|].
    eapply rtc_l; [exists true; apply st_lose|].
    eapply rtc_l; [exists false; by apply (st_elect 1 newScheduler)|]. apply rtc_refl.
  - intros H. by specialize (H 0%nat 1%nat _ _ _ _ eq_refl eq_refl eq_refl eq_refl).
Qed.
End System.

(** ** Concrete runs *)

Section Samples.
#[local] Existing Instance never_fails.
#[local] Existing Instance samplePostGIS.
#[local] Existing Instance sortedMaps.
#[local] Existing Instance calmSource.
#[local] Existing Instance listRows.
#[local] Instance sprint_empty : GoFmt := λ _, EmptyString.
#[local] Instance sampleFloats : GoFloatText := λ _, EmptyString.
#[local] Instance sampleJson : GoJsonText := λ _, EmptyString.
#[local] Instance deadUpstream : Upstream := λ _ _ _, HttpFail "connection refused".
#[local] Instance deadArcGIS : ArcGIS := λ _ _, AgFail "connection refused".
#[local] Instance deadGecko : CoinGecko := λ _ _, Err "connection refused".

#[local] Notation run := (step (λ _, "u") defaultConfig sampleClient).
Definition freshSys : Sys := started (λ _, "u") (λ s, s) defaultConfig 5 0 [["default"]] 2.
Definition electedSys : Sys :=
  mkSys (startup defaultConfig (s_world freshSys)).2 (s_workers freshSys)
    (<[0%nat := set_mode (Leading 0) newScheduler]> (s_scheds freshSys)) (Some 0%nat) 1.
Definition firedSys : Sys := on_sched 0 (beginRun 7 "mls-kickoff" (set_mode (Leading 0) newScheduler)) electedSys.

Lemma elected : run false freshSys electedSys.
Proof. by apply (st_elect (λ _, "u") defaultConfig sampleClient 0 newScheduler freshSys). Qed.

Lemma fired : run false electedSys firedSys.
Proof.
  refine (st_fire _ defaultConfig _ 0 (set_mode (Leading 0) newScheduler) 7
    (addJob "mls-kickoff" "0 * * * * *" (mls_SyncKickoffQueue (cfg_MLS defaultConfig)) TypeMLSReplicationKickoff) _ 0 _ _ _ _);
    [reflexivity|reflexivity| |reflexivity]. unfold tasks. do 2 right. left.
Qed.

Lemma system_typed_witness : typed (s_world electedSys) ∧ size (w_jobs (s_world electedSys)) = 2%nat.
Proof.
  split; [|vm_compute; reflexivity].
  apply (system_typed (λ _, "u") (λ s, s) defaultConfig 5 sampleClient 0 [["default"]] 2).
  apply rtc_once. exists false. exact elected.
Defined.

Lemma scheduler_exclusive_witness :
  s_lock firedSys = Some 0%nat ∧ sp_runs (default newScheduler (s_scheds firedSys !! 0%nat)) !! 8%nat ≠ Some "mls-kickoff".
Proof.
  destruct (scheduler_exclusive (λ _, "u") (λ s, s) defaultConfig 5 sampleClient 0 [["default"]] 2 firedSys 0
    (beginRun 7 "mls-kickoff" (set_mode (Leading 0) newScheduler))) as [H1 H2].
  - eapply rtc_l; [exact elected|]. apply rtc_once. exact fired.
  - reflexivity.
  - split; [by destruct (H1 0%nat eq_refl)|]. by apply (H2 7%nat 8%nat "mls-kickoff").
Defined.
End Samples.
