(* ===== verification/SyncLaws.v ===== *)
(** * The sync chains as a whole

    What a chain of fetch, persist and finalize jobs promises over several of its steps:
    the laws that hold for both providers, and the paging of incremental polls. *)

From Stdlib Require Import Ascii String.
From stdpp Require Import gmap strings list sorting.
From S2P Require Import Prelude GoStrings GoTime GoFloat GoJson MlsFields Payload Listing Config Database Queue Worker Replication Upstream Fetch BridgeSync Mirror Nfhl Fema SyncWorker BridgeWorker SparkWorker.

Open Scope Z_scope.
Open Scope string_scope.

#[export] Instance bridge_ok : ProviderOk bridge.
Proof. done. Qed.
#[export] Instance spark_ok : ProviderOk spark.
Proof. done. Qed.

(** ** Staged pages and later fetches *)

Section Stranding.
Context {F : Faults} {Un : Unordered} {Fmt : GoFmt} (uuid : nat → string).
Context (cfg : Config) (femaEnrich : bool) (pv : Provider).

Lemma keeps_pages_Enqueue q jt a d : keeps w_pages (Enqueue q jt a d).
Proof. unfold Enqueue, notify, insert_job. keeps_tac; try (apply keeps_stmt; [apply _|]; intros ?; done). Qed.

Lemma keeps_pages_EnqueueBatch spec : keeps w_pages (EnqueueBatch uuid spec).
Proof.
  unfold EnqueueBatch. destruct (bs_Jobs spec); [auto with go|].
  apply keeps_bind; [intros ?; done|intros bid]. unfold notify; keeps_tac; try (intros ?; done).
  3: by apply keeps_stmt; [apply _|auto with go].
  all: apply keeps_tx; [apply _|]; keeps_tac; apply keeps_stmt; try apply _; intros ?; done.
Qed.

Lemma StorePage_cases provider ds mode rows size meta w r w' :
  StorePage provider ds mode rows size meta w = (r, w') →
  match r with
  | Err _ => w_pages w' = w_pages w
  | Ok _ => is_active_at provider ds w'
  end.
Proof.
  unfold StorePage. destruct (existsb _ rows); [by intros [= <- <-]|].
  unfold bind, get, stmt. destruct (fault _); intros [= <- <-]; [done|].
  eexists _, _. split; [apply lookup_insert_eq|]. unfold is_active. simpl.
  by rewrite !bool_decide_eq_true_2 by done.
Qed.

Lemma MarkProcessing_active id bid provider ds w :
  is_active_at provider ds w → is_active_at provider ds (MarkProcessing id bid w).2.
Proof.
  intros (k & p & Hp & Ha). unfold MarkProcessing, stmt. destruct (fault _); [by exists k, p|].
  unfold is_active_at. simpl. destruct (decide (id = k)) as [->|Hne].
  - eexists k, _. rewrite lookup_alter_eq, Hp. split; [done|].
    apply andb_true_iff in Ha as [Ha _]. apply andb_true_iff. done.
  - exists k, p. by rewrite lookup_alter_ne.
Qed.

Lemma keeps_active {A} (c : M World A) provider ds w :
  keeps w_pages c → is_active_at provider ds w → is_active_at provider ds (c w).2.
Proof. intros Hc H. unfold is_active_at. by rewrite Hc. Qed.

(** A dispatch that touched the pages leaves one active. *)
Lemma dispatch_active ds mode result patch di nf w r w' :
  SyncWorker.dispatchPersistBatch uuid cfg pv ds mode result patch di nf w = (r, w') →
  w_pages w' ≠ w_pages w → is_active_at (pv_name pv) ds w'.
Proof.
  assert (Hf : ∀ args, keeps w_pages (enqueueFinalize cfg pv args)).
  { intros. unfold enqueueFinalize. apply keeps_bind; [apply keeps_pages_Enqueue|auto with go]. }
  intros H. replace w' with (SyncWorker.dispatchPersistBatch uuid cfg pv ds mode result patch di nf w).2 by (by rewrite H).
  clear H. unfold SyncWorker.dispatchPersistBatch. destruct (Rows result) as [|r0 rl] eqn:Er; [by rewrite Hf|].
  unfold bind at 1 3.
  destruct (StorePage _ _ _ _ _ _ w) as [[[id n]|e] w1] eqn:E1; apply StorePage_cases in E1; [intros _|done].
  case_match; [by apply keeps_active|]. unfold bind at 1.
  pose proof (keeps_active (EnqueueBatch uuid {|
          bs_Name := pv_batchName pv +:+ ds;
          bs_Queue := pv_persistQueue pv cfg;
          bs_Jobs := chunkJobs pv ds id n;
          bs_OnComplete := mkBatchJob (pv_finalizeType pv) (Some (marshal (SyncWorker.buildFinalizeArgs ds (Some id) patch di nf))) |})
     _ _ w1 (keeps_pages_EnqueueBatch _) E1) as H2.
  destruct (EnqueueBatch _ _ w1) as [[bid|e] w2]; [by apply MarkProcessing_active|done].
Qed.

(** A replication fetch of a dataset with an active page does nothing but count its
    statements and create the cursor row. *)
Lemma active_stops_fetch maxChain fm fetchPage plan finished args w :
  fa_Mode args = "replication" → is_active_at (pv_name pv) (fa_Dataset args) w →
  let w' := (fetchWith uuid cfg femaEnrich pv maxChain fm fetchPage plan finished args w).2 in
  w_jobs w' = w_jobs w ∧ w_pages w' = w_pages w.
Proof.
  intros Hm Ha. cbv zeta. destruct (fetchWith _ _ _ _ _ _ _ _ _ args w) as [r w'] eqn:E.
  unfold fetchWith in E. revert E. case_bool_decide; [by intros [= <- <-]|].
  destruct (_ && _)%bool; [by intros [= <- <-]|].
  unfold bind at 1. destruct (ForDataset _ w) as [[c|e] w1] eqn:E1; apply ForDataset_spec in E1 as (_ & Hj & Hp & _);
    [|by intros [= <- <-]].
  rewrite Hm, bool_decide_eq_false_2 by discriminate. cbn [andb].
  unfold skipReplicationFetchWhenPageActive. rewrite bool_decide_eq_true_2 by done. cbn [negb].
  unfold bind at 1. destruct (HasActivePage _ _ w1) as [[b|e] w2] eqn:E2;
    apply HasActivePage_spec in E2 as [[n ->] Hb]; [|by intros [= <- <-]].
  rewrite (Hb b eq_refl). replace (active_page (pv_name pv) (fa_Dataset args) w1) with true; [by intros [= <- <-]|].
  symmetry. apply active_page_iff. unfold is_active_at. by rewrite Hp.
Qed.

(** A dispatch that fails after it staged its page strands the dataset: the page is left
    active with no job to work on it, the retry of the fetch job does nothing and is counted
    as a success, and no later purge, kickoff or fetch of the chain takes the page up. *)
Theorem failed_dispatch_strands ds result patch di nf w e w' :
  SyncWorker.dispatchPersistBatch uuid cfg pv ds "replication" result patch di nf w = (Err e, w') →
  w_pages w' ≠ w_pages w → w_jobs w' = w_jobs w →
  active_page (pv_name pv) ds w' = true ∧
  (∀ maxChain fm fetchPage plan finished args,
     fa_Mode args = "replication" → fa_Dataset args = ds →
     let w'' := (fetchWith uuid cfg femaEnrich pv maxChain fm fetchPage plan finished args w').2 in
     w_jobs w'' = w_jobs w ∧ w_pages w'' = w_pages w') ∧
  ∀ l, active_page (pv_name pv) ds (maintenance_run cfg l w') = true.
Proof.
  intros H Hne Hj. apply dispatch_active in H; [|done]. split_and!.
  - by apply active_page_iff.
  - intros maxChain fm fp plan fin args Hm Hds w''. rewrite <- Hds in H. rewrite <- Hj. by apply active_stops_fetch.
  - intros l. apply active_page_iff. by apply maintenance_active.
Qed.
End Stranding.

(** ** Chains that stop *)

Section Stopping.
Context {F : Faults} {Un : Unordered} {Fmt : GoFmt} (uuid : nat → string).
Context (cfg : Config) (femaEnrich : bool) (pv : Provider).

Definition cursor_at (ds : string) (c : SyncCursor) (w : World) : Prop := w_cursors w !! ds = Some c.

Lemma ForDataset_cursor ds c ds' : preserves (cursor_at ds c) (ForDataset ds').
Proof.
  intros w H. unfold ForDataset, stmt. destruct (fault _); [done|]. unfold cursor_at in *. simpl.
  destruct (w_cursors w !! ds') eqn:E; simpl; [done|].
  rewrite lookup_insert_ne; [done|]. intros ->. congruence.
Qed.

Lemma keeps_cursor_at {A} (m : M World A) ds c : keeps w_cursors m → preserves (cursor_at ds c) m.
Proof. intros Hk w H. unfold cursor_at. by rewrite Hk. Qed.

Lemma KickoffRun_cursor ds c : preserves (cursor_at ds c) (KickoffRun cfg).
Proof.
  assert (H1 : ∀ p d, preserves (cursor_at ds c) (HasActivePage p d))
    by (intros; apply keeps_cursor_at, keeps_stmt; [apply _|auto with go]).
  pose proof (ForDataset_cursor ds c) as H2.
  assert (H3 : ∀ d, preserves (cursor_at ds c) (MirrorSeeded d))
    by (intros; apply keeps_cursor_at, keeps_stmt; [apply _|auto with go]).
  assert (H4 : ∀ q jt a d, preserves (cursor_at ds c) (Enqueue q jt a d)).
  { intros. apply keeps_cursor_at. unfold Enqueue, notify, insert_job.
    keeps_tac; try (apply keeps_stmt; [apply _|]; intros ?; done). }
  assert (H5 : ∀ d q jt md, preserves (cursor_at ds c) (enqueueFetch d q jt md))
    by (intros; unfold enqueueFetch; preserves_tac).
  assert (H6 : ∀ p d q jt, preserves (cursor_at ds c) (dispatchDataset cfg p d q jt)).
  { intros. unfold dispatchDataset, ShouldKickoffReplication, tryIncrementalKickoff, Mode, IsCurrent. preserves_tac. }
  unfold KickoffRun, dispatchBridge, dispatchSpark. preserves_tac.
Qed.

Lemma maintenance_cursor ds c l w : cursor_at ds c w → cursor_at ds c (maintenance_run cfg l w).
Proof.
  intros H. induction l as [|[d| |] l IH]; [done|done|simpl|simpl; by apply KickoffRun_cursor].
  apply keeps_cursor_at; [|done]. unfold PurgeEligible, delete_pages.
  keeps_tac; apply keeps_stmt; try apply _; by intros ?.
Qed.

(** A chain that stops half way is never taken up again. The chain cap
    (BRIDGE_SYNC_MAX_CHAINED_FETCH_PAGES) makes the fetch past it return without an error and
    without a trace; while the cursor says replication is in progress, or stores a next URL,
    no sequence of kickoffs, purges and passing time changes the cursor, and no kickoff
    enqueues a fetch of the dataset. *)
Theorem stopped_chain_never_restarts maxChain fm fetchPage plan finished args c l q jt w :
  0 < maxChain <= fa_ChainDepth args → fa_Dataset args ≠ EmptyString →
  cursor_at (fa_Dataset args) c w → ReplicationChainActive c = true →
  fetchWith uuid cfg femaEnrich pv maxChain fm fetchPage plan finished args w = (Ok tt, w) ∧
  let w' := maintenance_run cfg l w in
  cursor_at (fa_Dataset args) c w' ∧
  w_jobs (dispatchDataset cfg (pv_name pv) (fa_Dataset args) q jt w').2 = w_jobs w'.
Proof.
  intros Hd Hne Hc Ha. split.
  { unfold fetchWith. rewrite bool_decide_eq_false_2 by done.
    destruct (Z.ltb_spec 0 maxChain), (Z.leb_spec maxChain (fa_ChainDepth args)); try lia. done. }
  intros w'. pose proof (maintenance_cursor _ _ l _ Hc) as Hc'. fold w' in Hc'. split; [done|].
  apply dispatchDataset_chain. by rewrite Hc'.
Qed.
End Stopping.

(** ** Paging an incremental poll *)

Section Paging.
Context {Fmt : GoFmt} {U : Upstream} (cfg : Config).
Context (ds : string) (rows : list json).

(** The modification time of a row of the server. *)
Definition row_stamp (r : json) : Z := default 0 (row_timestamp ds (Some r)).

(** The rows a filter "modified after since" selects. *)
Definition newer (since : Z) : list json := filter (λ r, since < row_stamp r) rows.

Definition value_body (l : list json) : text := Some (mk_obj [("value", Some (JArr l))]).

(** The server answers the poll of Bridge for the rows after [since]: its rows in the order
    of $orderby, without the first $skip, at most $top of them. *)
Definition serves (since skip : Z) : Prop := ∀ w a,
  http_get w a (requestURL (propertyCollectionURL cfg ds)
    (incrementalQuery cfg ds (BridgeIncrementalFilter ds since) (ModificationODataField ds) skip))
  = HttpReply 200 EmptyString
      (value_body (take (Z.to_nat (incrementalTop cfg)) (drop (Z.to_nat skip) (newer since)))).

(** Rows ordered by modification time, one second apart at least. *)
Definition later (a b : json) : Prop := row_stamp a < row_stamp b.
Record ordered_rows : Prop := {
  or_sorted : StronglySorted later rows;
  or_stamped : Forall (λ r, ∃ t, row_timestamp ds (Some r) = Some t ∧ whole_seconds t = t) rows;
}.

Lemma decode_value_body l : decodeValue (value_body l) = Some (Some <$> l).
Proof.
  unfold decodeValue, value_body, with_object, mk_obj. cbn [mbind option_bind].
  rewrite lookup_obj_fields. by rewrite decide_True by reflexivity.
Qed.

Lemma no_next_link l : extractNextURL EmptyString (value_body l) = None.
Proof.
  unfold extractNextURL, bodyNextLink, value_body, with_object, mk_obj. rewrite bool_decide_eq_true_2 by done.
  cbn [mbind option_bind]. rewrite lookup_obj_fields, decide_False by discriminate. done.
Qed.

(** The newest timestamp of ordered rows is that of their last. *)
Lemma maxModification_last l x :
  StronglySorted later (l ++ [x])%list → Forall (λ r, is_Some (row_timestamp ds (Some r))) (l ++ [x])%list →
  maxModificationTimestampFromRows ds (Some <$> (l ++ [x]))%list = Some (row_stamp x).
Proof.
  intros Hs Ha. rewrite Forall_forall in Ha.
  assert (Hx : row_timestamp ds (Some x) = Some (row_stamp x)).
  { destruct (Ha x) as [t Ht]; [set_solver|]. unfold row_stamp. by rewrite Ht. }
  destruct (maxModificationTimestampFromRows_max ds (Some <$> (l ++ [x]))%list (Some x) (row_stamp x)) as (m & Hm & Hle);
    [by apply list_elem_of_fmap; exists x; set_solver|done|].
  rewrite Hm. f_equal. apply Z.le_antisymm; [|done].
  destruct (maxModificationTimestampFromRows_in _ _ _ Hm) as (raw & Hin & Ht).
  apply list_elem_of_fmap in Hin as (y & -> & Hy). apply elem_of_app in Hy as [Hy|Hy%list_elem_of_singleton]; [|subst; congruence].
  apply StronglySorted_app in Hs as (Hs & _). specialize (Hs y x Hy ltac:(set_solver)).
  unfold later, row_stamp at 1 in Hs. rewrite Ht in Hs. simpl in Hs. lia.
Qed.

Context (Hkey : br_APIKey (cfg_Bridge cfg) ≠ EmptyString).

Lemma incrementalTop_pos : 0 < incrementalTop cfg.
Proof. unfold incrementalTop. cbv zeta. destruct (Z.leb_spec (br_SyncIncrementalTop (cfg_Bridge cfg)) 0); lia. Qed.

(** One poll: the page of rows, its newest stamp, and more to come when it is full. *)
Lemma poll_page c since skip w (page := take (Z.to_nat (incrementalTop cfg)) (drop (Z.to_nat skip) (newer since))) :
  LastModificationTimestamp c = Some since → serves since skip → page ≠ [] →
  ∃ r, FetchIncrementalPage cfg w ds c skip = Ok r ∧ Rows r = Some <$> page ∧
    MaxModificationTs r = maxModificationTimestampFromRows ds (Some <$> page) ∧
    IncrementalHasMore r = (incrementalTop cfg <=? Z.of_nat (length page))%Z.
Proof.
  intros Hc Hs Hp. unfold FetchIncrementalPage. rewrite Hc. unfold fetchPage.
  rewrite bool_decide_eq_false_2 by done. cbv zeta.
  set (req := requestURL _ _). set (q := requested _ _ _).
  assert (Hsend : send w req (Nat.pred (BridgeSync.maxRetries cfg)) 0 = Ok (200, EmptyString, value_body page)).
  { destruct (Nat.pred _); cbn [send]; unfold req; by rewrite Hs. }
  rewrite Hsend. cbn [res_bind]. unfold pageOfReply. cbn [q requested HTTPStatus].
  rewrite decode_value_body, no_next_link.
  rewrite bool_decide_eq_false_2 by (by destruct page).
  eexists. split; [reflexivity|]. by rewrite length_fmap.
Qed.

Lemma drop_newer l r since :
  rows = (l ++ r)%list → StronglySorted later rows → (∀ x, last l = Some x → row_stamp x = since) → l ≠ [] →
  newer since = r.
Proof.
  intros Hr Hs Hl Hne. rewrite Hr in Hs. unfold newer. rewrite Hr. destruct (exists_last Hne) as (l' & x & ->).
  rewrite last_snoc in Hl. specialize (Hl x eq_refl). subst since.
  apply StronglySorted_app in Hs as (Hc & Hsl & _). apply StronglySorted_app in Hsl as (Hx & _ & _).
  rewrite list.filter_app, filter_drop_all, filter_keep_all; [done| |]; apply Forall_forall; intros y Hy.
  - apply (Hc x y); set_solver.
  - apply elem_of_app in Hy as [Hy| ->%list_elem_of_singleton]; [|lia].
    specialize (Hx y x Hy ltac:(set_solver)). unfold later in Hx. lia.
Qed.

Lemma ordered_last n x : ordered_rows → last (take n rows) = Some x →
  maxModificationTimestampFromRows ds (Some <$> take n rows) = Some (row_stamp x) ∧ whole_seconds (row_stamp x) = row_stamp x.
Proof.
  intros [Hs Ha] Hl. apply last_Some in Hl as [l' Hl].
  assert (Ha' : Forall (λ r, ∃ t, row_timestamp ds (Some r) = Some t ∧ whole_seconds t = t) (take n rows))
    by (by apply Forall_take).
  rewrite <- (take_drop n rows) in Hs. apply StronglySorted_app in Hs as (_ & Hs & _).
  rewrite Hl in *. split.
  - apply maxModification_last; [done|]. eapply Forall_impl; [exact Ha'|]. intros r (t & -> & _). by eexists.
  - apply Forall_app in Ha' as [_ Hx]. apply Forall_singleton in Hx as (t & Ht & Hw).
    unfold row_stamp. by rewrite Ht.
Qed.

Lemma later_drop n y z : ordered_rows → y ∈ take n rows → z ∈ drop n rows → later y z.
Proof.
  intros [Hs _] Hy Hz. rewrite <- (take_drop n rows) in Hs. apply StronglySorted_app in Hs as (H & _ & _). auto.
Qed.

Lemma pages_disjoint top y : ordered_rows → y ∈ take top (drop top rows) →
  Some y ∉ Some <$> take top rows ∧ Some y ∉ Some <$> take top (drop (2 * top) rows).
Proof.
  intros Ho Hy. split; intros (z & [= <-] & Hz)%list_elem_of_fmap.
  - pose proof (later_drop top y y Ho Hz (subseteq_take _ _ _ Hy)) as H. unfold later in H. lia.
  - assert (Hy' : y ∈ take (2 * top) rows).
    { replace (2 * top)%nat with (top + top)%nat by lia. rewrite <- take_take_drop. set_solver. }
    pose proof (later_drop (2 * top) y y Ho Hy' (subseteq_take _ _ _ Hz)) as H. unfold later in H. lia.
Qed.

(** Paging an incremental poll skips rows: the next page is asked for with $skip moved
    past the page and with the filter moved past it as well. When the server serves ordered
    rows, all newer than the mark, the first poll gives the first page of them and plans a
    second poll; once the plan's patch is applied, the second poll gives the third page. The
    rows of the second page are never fetched, as the mark has passed them. *)
Theorem incremental_paging_skips_rows args c m0 now w w' :
  let top := Z.to_nat (incrementalTop cfg) in
  fa_Mode args = "incremental" → fa_Dataset args = ds → fa_IncrementalSkip args = 0 →
  incrementalTop cfg < 10000 →
  ordered_rows → Forall (λ r, m0 < row_stamp r) rows → (3 * top <= length rows)%nat →
  LastModificationTimestamp c = Some m0 →
  serves m0 0 → (∀ x, last (take top rows) = Some x → serves (row_stamp x) (incrementalTop cfg)) →
  ∃ r1 patch next r2,
    FetchIncrementalPage cfg w ds c 0 = Ok r1 ∧ Rows r1 = Some <$> take top rows ∧
    BridgeWorker.continuationPlan cfg args r1 = (patch, false, Some next) ∧ fa_IncrementalSkip next = incrementalTop cfg ∧
    FetchIncrementalPage cfg w' ds (mergeCursorPatch c (to_seconds patch) now) (fa_IncrementalSkip next) = Ok r2 ∧
    Rows r2 = Some <$> take top (drop (2 * top) rows) ∧
    ∀ x, x ∈ take top (drop top rows) → Some x ∉ Rows r1 ∧ Some x ∉ Rows r2.
Proof.
  intros top. assert (Ht : Z.to_nat (incrementalTop cfg) = top) by done. clearbody top.
  intros Hmode Hds Hskip Htop Hord Hnew Hlen Hm S1 S2. pose proof incrementalTop_pos as Hpos.
  assert (Hn0 : newer m0 = rows) by (by apply filter_keep_all).
  destruct (last (take top rows)) as [x|] eqn:Hl; cycle 1.
  { apply last_None in Hl. apply (f_equal length) in Hl. rewrite length_take in Hl. simpl in Hl. lia. }
  destruct (ordered_last top x Hord Hl) as [Hmax Hsec].
  assert (Hn1 : newer (row_stamp x) = drop top rows).
  { apply (drop_newer (take top rows)); [by rewrite take_drop|apply Hord| |].
    - intros y Hy. congruence.
    - intros Hnil. by rewrite Hnil in Hl. }
  destruct (poll_page c m0 0 w Hm S1) as (r1 & E1 & R1 & M1 & H1).
  { rewrite Hn0, drop_0. intros Hnil. rewrite Ht in Hnil. by rewrite Hnil in Hl. }
  rewrite Hn0, drop_0, ?Ht in R1, M1, H1. rewrite Hmax in M1.
  assert (Hmore : IncrementalHasMore r1 = true).
  { rewrite H1, length_take, Nat.min_l by lia. apply Z.leb_le. lia. }
  exists r1. unfold BridgeWorker.continuationPlan. rewrite Hmode, Hmore, Hskip, Hds, M1.
  rewrite !bool_decide_eq_false_2 by discriminate. rewrite Z.add_0_l.
  destruct (Z.leb_spec 10000 (incrementalTop cfg)); [lia|].
  eexists _, _. destruct (poll_page (mergeCursorPatch c (to_seconds (mkPatch false None None (Some (row_stamp x)) None false)) now)
    (row_stamp x) (incrementalTop cfg) w') as (r2 & E2 & R2 & _).
  - unfold mergeCursorPatch, to_seconds. simpl. rewrite Hm, Hsec.
    destruct (Z.ltb_spec m0 (row_stamp x)); [done|]. rewrite Forall_forall in Hnew.
    assert (x ∈ rows) as Hx%Hnew; [|lia]. apply last_Some in Hl as [l' Hl].
    rewrite <- (take_drop top rows), Hl. set_solver.
  - by apply S2.
  - rewrite Hn1, drop_drop, Ht. intros Hnil.
    apply (f_equal length) in Hnil. rewrite length_take, length_drop in Hnil. simpl in Hnil. lia.
  - exists r2. rewrite Hn1, drop_drop, Ht in R2.
    replace (top + top)%nat with (2 * top)%nat in R2 by lia.
    split_and!; [done|done|reflexivity|done|done|done|].
    intros y Hy. rewrite R1, R2. apply (pages_disjoint top y Hord Hy).
Qed.
End Paging.

(** ** Concrete runs *)

#[local] Instance sampleFmt : GoFmt := λ v, match v with JNull => "<nil>" | _ => EmptyString end.

(** Pages of one row each. *)
Definition pagingConfig : Config := Eval vm_compute in Load (λ k,
  if bool_decide (k = "BRIDGE_API_KEY") then "key"
  else if bool_decide (k = "BRIDGE_SYNC_INCREMENTAL_TOP") then "1" else EmptyString).

Definition stampedRow (key : string) (t : Z) : json :=
  JObj {["ListingKey" := JStr key; "BridgeModificationTimestamp" := JStr (format_rfc3339 (t * second))]}.
Definition serverRows : list json := [stampedRow "1" 1000; stampedRow "2" 2000; stampedRow "3" 3000].

Definition pollURL (since skip : Z) : string :=
  requestURL (propertyCollectionURL pagingConfig "stellar")
    (incrementalQuery pagingConfig "stellar" (BridgeIncrementalFilter "stellar" (since * second))
       (ModificationODataField "stellar") skip).

(** A server that answers the polls at 500 and 1000 seconds. *)
Definition twoPolls : Upstream := λ _ _ url,
  let reply since skip := HttpReply 200 EmptyString
    (value_body (take 1 (drop skip (newer "stellar" serverRows (since * second))))) in
  if bool_decide (url = pollURL 500 0) then reply 500 0%nat
  else if bool_decide (url = pollURL 1000 1) then reply 1000 1%nat
  else HttpReply 404 EmptyString None.

Definition pollArgs : fetchPageArgs := mkFetchArgs "stellar" "incremental" 0 0.

Theorem incremental_paging_skips_rows_witness :
  ∃ r1 patch next r2, 
    @FetchIncrementalPage _ twoPolls pagingConfig (empty_world 0) "stellar" (stellarCursor 500 None) 0 = Ok r1 ∧
    @FetchIncrementalPage _ twoPolls pagingConfig (empty_world 0) "stellar"
      (mergeCursorPatch (stellarCursor 500 None) (to_seconds patch) 0) (fa_IncrementalSkip next) = Ok r2 ∧
    Rows r1 = [Some (stampedRow "1" 1000)] ∧ Rows r2 = [Some (stampedRow "3" 3000)].
Proof.
  destruct (@incremental_paging_skips_rows _ twoPolls pagingConfig "stellar" serverRows
    ltac:(discriminate) pollArgs (stellarCursor 500 None) (500 * second) 0 (empty_world 0) (empty_world 0))
    as (r1 & patch & next & r2 & H1 & R1 & _ & _ & H2 & R2 & _).
  1-3: reflexivity.
  - vm_compute. reflexivity.
  - split.
    + repeat first [apply SSorted_nil | apply SSorted_cons | apply Forall_nil_2 | apply Forall_cons_2];
        vm_compute; reflexivity.
    + unfold serverRows. rewrite !Forall_cons. split_and!; [exists (1000 * second)|exists (2000 * second)|
        exists (3000 * second)|apply Forall_nil_2]; (split; vm_compute; reflexivity).
  - unfold serverRows. rewrite !Forall_cons. split_and!; [vm_compute; reflexivity..|apply Forall_nil_2].
  - vm_compute. lia.
  - reflexivity.
  - intros w a. vm_compute. reflexivity.
  - intros x Hx. vm_compute in Hx. injection Hx as <-. intros w a. vm_compute. reflexivity.
  - exists r1, patch, next, r2. split_and!; [exact H1|exact H2|exact R1|exact R2].
Defined.

Definition threeRows : list text := Some <$> serverRows.
Definition fetchedPage : PageResult :=
  set_rows threeRows (Some (3000 * second)) (Some "https://mls/next") (requested "u" "u" ∅ 200).
Definition plannedPatch : CursorPatch :=
  mkPatch true (Some "https://mls/next") (Some true) (Some (3000 * second + 5)) None false.
Definition nextArgs : fetchPageArgs := mkFetchArgs "stellar" "replication" 0 1.

(** Chunks of two rows. *)
Definition chunkConfig : Config := Eval vm_compute in Load (λ k,
  if bool_decide (k = "BRIDGE_SYNC_PERSIST_JOB_CHUNK") then "2" else EmptyString).

Theorem fetched_rows_all_persisted_witness :
  ∃ w', @SyncWorker.dispatchPersistBatch never_fails (λ _, "u") chunkConfig bridge "stellar" "replication" fetchedPage plannedPatch
      false (Some nextArgs) (empty_world 0) = (Ok tt, w') ∧
    concat (parts_of chunkConfig bridge fetchedPage) = threeRows ∧
    length (parts_of chunkConfig bridge fetchedPage) = 2%nat.
Proof.
  destruct (@fetched_rows_all_persisted never_fails never_fails_ok sortedMaps _ (λ _, "u") chunkConfig bridge bridge_ok
    "stellar" "replication" fetchedPage plannedPatch false (Some nextArgs) (empty_world 0)) as (w' & H & Hc & _).
  - discriminate.
  - unfold fetchedPage, threeRows, serverRows. cbn [Rows set_rows fmap list_fmap].
    rewrite !Forall_cons. split_and!; [discriminate..|apply Forall_nil_2].
  - reflexivity.
  - exists w'. split; [exact H|]. split; [exact Hc|vm_compute; reflexivity].
Defined.

Definition finalizeJob : ReservedJob :=
  mkReserved 1 "bridge-sync-persist" (mkJobPayload TypeBridgePersistFinalize
    (raw_of (marshal (SyncWorker.buildFinalizeArgs "stellar" (Some 1) plannedPatch false (Some nextArgs))))) None 1.

Theorem finalize_carries_plan_witness :
  ∃ args, @SyncWorker.PersistFinalize never_fails defaultConfig false bridge finalizeJob
      = @finalizeWith never_fails defaultConfig false bridge args ∧
    finalizePatch args = to_seconds plannedPatch ∧ pf_NextFetchMode args = Some "replication".
Proof.
  destruct (@finalize_carries_plan never_fails defaultConfig false bridge "stellar" (Some 1) plannedPatch false
    (Some nextArgs) finalizeJob) as (args & H & _ & _ & _ & Hp & _ & Hn & _).
  - intros H. discriminate H.
  - intros t Ht. vm_compute in Ht. injection Ht as <-. split; vm_compute; discriminate.
  - intros t Ht. discriminate Ht.
  - reflexivity.
  - exists args. split; [exact H|]. split; [exact Hp|exact Hn].
Defined.

(** The database refuses the statement after the page was staged. *)
Definition enqueueFails : Faults := λ n, Nat.eqb n 1.

Definition strandedRun : res unit * World :=
  @SyncWorker.dispatchPersistBatch enqueueFails (λ _, "u") defaultConfig bridge "stellar" "replication" fetchedPage plannedPatch
    false (Some nextArgs) (empty_world 0).

Theorem failed_dispatch_strands_witness :
  active_page "bridge" "stellar" strandedRun.2 = true ∧
  active_page "bridge" "stellar" (@maintenance_run never_fails defaultConfig [KickoffAll; PurgePages; Pass (365 * 24 * hour)]
    strandedRun.2) = true.
Proof.
  assert (Hne : w_pages strandedRun.2 ≠ w_pages (empty_world 0)).
  { intros H. apply (f_equal (λ m, bool_decide (is_Some (m !! 1)))) in H. vm_compute in H. discriminate H. }
  destruct (@failed_dispatch_strands enqueueFails (λ _, "u") defaultConfig false bridge "stellar"
    fetchedPage plannedPatch false (Some nextArgs) (empty_world 0) db_error strandedRun.2) as (H1 & _ & _).
  - vm_compute. reflexivity.
  - exact Hne.
  - vm_compute. reflexivity.
  - split; [exact H1|vm_compute; reflexivity].
Defined.

Definition runningCursor : SyncCursor := mkCursor "stellar" None None (Some "https://mls/next") true None.

Theorem stopped_chain_never_restarts_witness :
  let w := cursorWorld 1000 "stellar" runningCursor in
  let w' := @maintenance_run never_fails defaultConfig [KickoffAll; PurgePages; Pass (365 * 24 * hour)] w in
  w_jobs (@dispatchDataset never_fails defaultConfig "bridge" "stellar" fetchQueue TypeBridgeFetchPage w').2 = w_jobs w'.
Proof.
  intros w w'.
  destruct (@stopped_chain_never_restarts never_fails (λ _, "u") defaultConfig false bridge 2
    ["incremental"; "nav_hydrate"] (λ _ _ _, Ok emptyResult) (@BridgeWorker.continuationPlan defaultConfig) BridgeWorker.finishedPatch
    (mkFetchArgs "stellar" "replication" 0 2) runningCursor [KickoffAll; PurgePages; Pass (365 * 24 * hour)]
    fetchQueue TypeBridgeFetchPage w) as (_ & _ & H).
  - split; [reflexivity|vm_compute; discriminate].
  - discriminate.
  - reflexivity.
  - reflexivity.
  - exact H.
Defined.
