(* ===== verification/Feeds.v ===== *)
(** * MLS feeds: the catalog, which feed a request gets, and its live endpoint

    [service/mls/feed.go] with [domain/feed.go] and the middleware [mls_access.go] that calls
    it, and the URL side of the proxy clients ([mlspoxy/live_reso.go], [bridge/client.go],
    [spark/client.go]). The Fiber context is the path, the [dataset] query and the domain the
    authentication has stored. *)

From Stdlib Require Import Ascii String.
From stdpp Require Import gmap strings list.
From S2P Require Import Prelude GoStrings GoJson Payload AccessData Config.

Open Scope string_scope.

(** ** Domains ([domain.go]) *)

Definition IsVerified (d : Domain) : bool :=
  bool_decide (d_VerificationStatus d = "verified") || bool_decide (d_VerificationStatus d = "verified_ghl").

Record FeedDefinition := mkFeed { fd_Code : string; fd_Provider : string; fd_Dataset : string }.
#[export] Instance FeedDefinition_eq_dec : EqDecision FeedDefinition.
Proof. solve_decision. Defined.

Definition DatasetSlug (feed : FeedDefinition) (fallback : string) : string :=
  if bool_decide (fd_Dataset feed = EmptyString) then fallback else fd_Dataset feed.

(** [json.Unmarshal] into a []string whose error is dropped: what is not a string is left
    empty, what is not an array gives nothing. *)
Definition strings_of (raw : RawMessage) : list string :=
  match raw with
  | RawText (Some (JArr l)) => (λ v, match v with JStr s => s | _ => EmptyString end) <$> l
  | _ => []
  end.

(** ** The catalog ([feed.go]) *)

Section Feeds.
Context (cfg : Config).

Definition Catalog : list FeedDefinition :=
  (((λ ds, mkFeed ("bridge_" +:+ ds) "bridge" ds) <$> br_Datasets (cfg_Bridge cfg)) ++
   ((λ ds, mkFeed ("spark_" +:+ ds) "spark" ds) <$> sp_Datasets (cfg_Spark cfg)))%list.

Definition codes (defs : list FeedDefinition) : list string := fd_Code <$> defs.

Definition normalizeFeedCode (ds : string) : string :=
  let ds := TrimSpace (ToLower ds) in
  if HasPrefix ds "bridge_" || HasPrefix ds "spark_" then ds else "bridge_" +:+ ds.

Definition enabledForDomain (d : option Domain) : list string :=
  match d with
  | None => codes Catalog
  | Some d =>
      match strings_of (d_AllowedMLSDatasets d) with
      | [] => codes Catalog
      | allowed => filter (λ a, a ∈ codes Catalog) (normalizeFeedCode <$> allowed)
      end
  end.

(** GIS endpoints skip feed resolution. *)
Definition BypassGIS (path : string) : bool :=
  let path := TrimPrefix path "/" in
  bool_decide (path = "api/v1/gis") || (HasPrefix path "api/v1/mls/" && HasSuffix path "/gis").

(** A [fiber.Error]: its status and message. *)
Definition http_error : Type := Z * string.

Definition ResolveFeedCode (path dataset : string) (d : option Domain) : string + http_error :=
  if BypassGIS path then inl EmptyString
  else
    match enabledForDomain d with
    | [] => inr (503, "No MLS feeds enabled for this site.")
    | (first :: _) as allowed =>
        let ds := TrimSpace dataset in
        if negb (bool_decide (ds = EmptyString)) then
          let code := normalizeFeedCode ds in
          if bool_decide (code ∈ allowed) then inl code
          else inr (403, "MLS feed not enabled for this domain.")
        else
          match d ≫= d_MLSDataset with
          | Some v =>
              if negb (bool_decide (v = EmptyString)) && bool_decide (normalizeFeedCode v ∈ allowed)
              then inl (normalizeFeedCode v) else inl first
          | None => inl first
          end
    end.

(** The first dataset of a list a code names. *)
Definition find_dataset (prefix code : string) (datasets : list string) : option string :=
  snd <$> list_find (λ slug, code = prefix +:+ slug ∨ code = slug) (ToLower <$> datasets).

Definition FeedDefinitionFromCode (feedCode : string) : FeedDefinition :=
  let code := ToLower (TrimSpace feedCode) in
  match find_dataset "bridge_" code (br_Datasets (cfg_Bridge cfg)) with
  | Some slug => mkFeed ("bridge_" +:+ slug) "bridge" slug
  | None =>
      match find_dataset "spark_" code (sp_Datasets (cfg_Spark cfg)) with
      | Some slug => mkFeed ("spark_" +:+ slug) "spark" slug
      | None =>
          if HasPrefix code "spark_" then mkFeed code "spark" (TrimPrefix code "spark_")
          else if HasPrefix code "bridge_" then mkFeed code "bridge" (TrimPrefix code "bridge_")
          else let ds := ToLower (br_Dataset (cfg_Bridge cfg)) in mkFeed ("bridge_" +:+ ds) "bridge" ds
      end
  end.

(** The middleware [MLSAccess]: the feed a request continues with, [None] when it bypasses. *)
Definition MLSAccess (path dataset : string) (d : option Domain) : option (string * FeedDefinition) + http_error :=
  if BypassGIS path then inl None
  else match ResolveFeedCode path dataset d with
       | inl code => inl (Some (code, FeedDefinitionFromCode code))
       | inr e => inr e
       end.
End Feeds.

Definition DatasetSlugFromFeedCode (feedCode : string) : string :=
  TrimPrefix (TrimPrefix (ToLower (TrimSpace feedCode)) "bridge_") "spark_".

(** ** Upstream URLs *)

Definition slash : ascii := "/"%char.
Definition TrimLeftByte (s : string) (c : ascii) : string := trim_left (λ x, bool_decide (x = c)) s.
Definition unless_empty (s : string) : list string := if bool_decide (s = EmptyString) then [] else [s].

Definition bridgeWebURL (cfg : BridgeConfig) (path dataset : string) : string :=
  let prefix := TrimByte (br_PathPrefix cfg) slash in
  let base := TrimRightByte (br_Host cfg) slash +:+ (if bool_decide (prefix = EmptyString) then EmptyString else "/" +:+ prefix) in
  base +:+ "/" +:+ dataset +:+ "/" +:+ TrimLeftByte path slash.

Definition bridgeResoURL (cfg : BridgeConfig) (path dataset : string) : string :=
  Join ([TrimRightByte (br_Host cfg) slash] ++ unless_empty (TrimByte (br_PathPrefix cfg) slash) ++
        unless_empty (TrimByte (br_ResoRoot cfg) slash) ++ [dataset] ++
        (if bool_decide (path = EmptyString) then [] else [TrimLeftByte path slash]))%list "/".

Definition sparkLiveResoURL (cfg : SparkConfig) (path : string) : string :=
  TrimRightByte (sp_APIHost cfg) slash +:+ "/" +:+ TrimByte (sp_APIVersion cfg) slash +:+ "/" +:+
  TrimByte (sp_LiveResoRoot cfg) slash +:+ "/" +:+ TrimLeftByte path slash.

Record LiveResoEndpoint := mkEndpoint { le_PropertyURL : string; le_Bearer : string }.

(** The verb [%q] of a printable text. *)
Fixpoint quoted (s : string) : string :=
  match s with
  | EmptyString => EmptyString
  | String c r =>
      if bool_decide (c = ascii_of_nat 34) || bool_decide (c = "\"%char) then String "\" (String c (quoted r))
      else String c (quoted r)
  end.
Definition Quote (s : string) : string :=
  String (ascii_of_nat 34) (quoted s) +:+ String (ascii_of_nat 34) EmptyString.

Definition LiveResoPropertyEndpoint (cfg : Config) (feed : FeedDefinition) : res LiveResoEndpoint :=
  let missing := Err ("live MLS credentials not configured for feed " +:+ Quote (fd_Code feed)) in
  if bool_decide (fd_Provider feed = "spark") then
    let token := sp_AccessToken (cfg_Spark cfg) in
    if bool_decide (TrimSpace token = EmptyString) then missing
    else Ok (mkEndpoint (sparkLiveResoURL (cfg_Spark cfg) "Property") token)
  else
    let key := br_APIKey (cfg_Bridge cfg) in
    if bool_decide (TrimSpace key = EmptyString) then missing
    else Ok (mkEndpoint (bridgeResoURL (cfg_Bridge cfg) "Property" (DatasetSlug feed (br_Dataset (cfg_Bridge cfg)))) key).

(** ** Which feed a request gets *)




(** ** Codes name feeds *)

(** The datasets of a configuration as it means them: lower case without outer space, and no
    Bridge dataset named like the code of a feed. *)
Definition datasets_plain (cfg : Config) : Prop :=
  (∀ ds, ds ∈ (br_Datasets (cfg_Bridge cfg) ++ sp_Datasets (cfg_Spark cfg))%list → ToLower ds = ds) ∧
  (∀ ds f, ds ∈ br_Datasets (cfg_Bridge cfg) → f ∈ Catalog cfg → ds ≠ fd_Code f) ∧
  (∀ ds f, ds ∈ sp_Datasets (cfg_Spark cfg) → f ∈ Catalog cfg → ds ≠ fd_Code f) ∧
  (∀ f, f ∈ Catalog cfg → TrimSpace (fd_Code f) = fd_Code f).

Lemma ToLower_fmap_id (l : list string) : (∀ ds, ds ∈ l → ToLower ds = ds) → ToLower <$> l = l.
Proof. induction l as [|x l IH]; intros H; [done|]. cbn. rewrite (H x) by left. f_equal. apply IH. intros ds Hd. apply H. by right. Qed.

Lemma string_app_inj (p a b : string) : p +:+ a = p +:+ b → a = b.
Proof. induction p as [|c p IH]; [done|]. cbn. intros [= H]. by apply IH. Qed.

Lemma find_dataset_Some prefix code l slug :
  find_dataset prefix code l = Some slug → slug ∈ ToLower <$> l ∧ (code = prefix +:+ slug ∨ code = slug).
Proof.
  unfold find_dataset. intros ([i s] & H & ->)%fmap_Some. cbn [snd]. apply list_find_Some in H as (H1 & H2 & _).
  split; [by eapply list_elem_of_lookup_2|done].
Qed.

Lemma find_dataset_None prefix code l slug :
  find_dataset prefix code l = None → slug ∈ ToLower <$> l → code ≠ prefix +:+ slug ∧ code ≠ slug.
Proof.
  unfold find_dataset. intros H%fmap_None Hin. apply list_find_None in H. rewrite Forall_forall in H.
  specialize (H slug Hin). tauto.
Qed.

(** Every code of the catalog names its own feed: what [MLSAccess] stores for a request
    given a feed of the catalog is that feed, for configurations whose datasets are plain. *)
Theorem catalog_code_roundtrip cfg f :
  datasets_plain cfg → f ∈ Catalog cfg → FeedDefinitionFromCode cfg (fd_Code f) = f.
Proof.
  intros (Hlow & Hb & Hs & Htrim) Hf. unfold FeedDefinitionFromCode. rewrite (Htrim f Hf).
  pose proof (ToLower_fmap_id (br_Datasets (cfg_Bridge cfg)) ltac:(intros; apply Hlow; set_solver)) as Lb.
  pose proof (ToLower_fmap_id (sp_Datasets (cfg_Spark cfg)) ltac:(intros; apply Hlow; set_solver)) as Ls.
  pose proof Hf as Hf'. unfold Catalog in Hf'. apply elem_of_app in Hf' as [Hin|Hin];
    apply list_elem_of_fmap in Hin as (ds & -> & Hds); cbn [fd_Code] in *;
    assert (Hd : ToLower ds = ds) by (apply Hlow; set_solver); rewrite ToLower_app, Hd.
  - change (ToLower "bridge_") with "bridge_".
    destruct (find_dataset "bridge_" _ _) as [slug|] eqn:E.
    + apply find_dataset_Some in E as [Hin [He|He]]; rewrite Lb in Hin.
      * apply string_app_inj in He as ->. done.
      * exfalso. exact (Hb slug _ Hin Hf (eq_sym He)).
    + destruct (find_dataset_None _ _ _ ds E) as [[] _]; [by rewrite Lb|done].
  - change (ToLower "spark_") with "spark_".
    destruct (find_dataset "bridge_" _ _) as [slug|] eqn:E.
    + apply find_dataset_Some in E as [Hin [He|He]]; rewrite Lb in Hin; [discriminate He|].
      exfalso. exact (Hb slug _ Hin Hf (eq_sym He)).
    + destruct (find_dataset "spark_" _ _) as [slug|] eqn:E2.
      * apply find_dataset_Some in E2 as [Hin [He|He]]; rewrite Ls in Hin.
        { apply string_app_inj in He as ->. done. }
        exfalso. exact (Hs slug _ Hin Hf (eq_sym He)).
      * destruct (find_dataset_None _ _ _ ds E2) as [[] _]; [by rewrite Ls|done].
Qed.

(** ** Concrete runs *)



(** The bare name of a Spark dataset is taken for a Bridge feed, and refused. *)
Example bare_spark_dataset_refused :
  ResolveFeedCode defaultConfig "/api/v1/search" "beaches" None = inr (403%Z, "MLS feed not enabled for this domain.") ∧
  FeedDefinitionFromCode defaultConfig "beaches" = mkFeed "spark_beaches" "spark" "beaches".
Proof. split; vm_compute; reflexivity. Qed.

Lemma catalog_code_roundtrip_witness :
  FeedDefinitionFromCode defaultConfig "spark_beaches" = mkFeed "spark_beaches" "spark" "beaches".
Proof.
  assert (Hc : Catalog defaultConfig = [mkFeed "bridge_stellar" "bridge" "stellar"; mkFeed "spark_beaches" "spark" "beaches"])
    by (vm_compute; reflexivity).
  apply (catalog_code_roundtrip defaultConfig (mkFeed "spark_beaches" "spark" "beaches")).
  - unfold datasets_plain. rewrite Hc. change (br_Datasets (cfg_Bridge defaultConfig)) with ["stellar"].
    change (sp_Datasets (cfg_Spark defaultConfig)) with ["beaches"]. cbn [app]. split_and!.
    + intros ds. rewrite !elem_of_cons, !elem_of_nil. intros [->|[->|[]]]; reflexivity.
    + intros ds f. rewrite !elem_of_cons, !elem_of_nil. intros [->|[]] [->|[->|[]]]; cbn; discriminate.
    + intros ds f. rewrite !elem_of_cons, !elem_of_nil. intros [->|[]] [->|[->|[]]]; cbn; discriminate.
    + intros f. rewrite !elem_of_cons, !elem_of_nil. intros [->|[->|[]]]; reflexivity.
  - rewrite Hc. right. left.
Defined.
