(* ===== verification/Password.v ===== *)
(** * Password hashes (package [auth/password])

    The PHC text of an Argon2id hash: printing, parsing and verification. Argon2 and bcrypt
    themselves are parameters; base64 and the scanning of [fmt.Sscanf] are modelled. A byte
    slice is a string; salts are drawn by the caller of the model. *)

From Stdlib Require Import Ascii String.
From stdpp Require Import strings list pretty numbers.
From S2P Require Import Prelude GoStrings GoTime GoNum Upstream.

Open Scope string_scope.

(** [argon2.IDKey] of password, salt, iterations, memory, parallelism and key length, and
    [bcrypt.CompareHashAndPassword] of hash and password. *)
Class PasswordLib := {
  IDKey : string → string → Z → Z → Z → Z → string;
  IDKey_length : ∀ p s i m l n, (0 <= n)%Z → Z.of_nat (String.length (IDKey p s i m l n)) = n;
  bcrypt_matches : string → string → bool;
}.

(** ** Base64 *)

Definition b64_alphabet : string := "ABCDEFGHIJKLMNOPQRSTUVWXYZabcdefghijklmnopqrstuvwxyz0123456789+/".
Definition b64_char (n : Z) : ascii := default "A"%char (String.get (Z.to_nat n) b64_alphabet).

Definition b64_val (c : ascii) : option Z :=
  let n := Z.of_N (byte_val c) in
  if ((65 <=? n) && (n <=? 90))%Z then Some (n - 65)%Z
  else if ((97 <=? n) && (n <=? 122))%Z then Some (n - 71)%Z
  else if ((48 <=? n) && (n <=? 57))%Z then Some (n + 4)%Z
  else if (n =? 43)%Z then Some 62%Z
  else if (n =? 47)%Z then Some 63%Z
  else None.

Definition byte_Z (c : ascii) : Z := Z.of_N (byte_val c).
Definition Z_byte (n : Z) : ascii := ascii_of_N (Z.to_N n).

(** [base64.RawStdEncoding.EncodeToString] *)
Fixpoint EncodeRaw (s : string) : string :=
  match s with
  | EmptyString => EmptyString
  | String a EmptyString =>
      let v := byte_Z a in
      String (b64_char (v / 4)) (String (b64_char (v mod 4 * 16)) EmptyString)
  | String a (String b EmptyString) =>
      let v := (byte_Z a * 256 + byte_Z b)%Z in
      String (b64_char (v / 1024)) (String (b64_char (v / 16 mod 64)) (String (b64_char (v mod 16 * 4)) EmptyString))
  | String a (String b (String c r)) =>
      let v := (byte_Z a * 65536 + byte_Z b * 256 + byte_Z c)%Z in
      String (b64_char (v / 262144)) (String (b64_char (v / 4096 mod 64))
        (String (b64_char (v / 64 mod 64)) (String (b64_char (v mod 64)) (EncodeRaw r))))
  end.

(** A last quantum of two or three characters. *)
Definition decode2 (a b : ascii) : option string :=
  x ← b64_val a; y ← b64_val b; Some (String (Z_byte ((x * 64 + y) / 16)) EmptyString).
Definition decode3 (a b c : ascii) : option string :=
  x ← b64_val a; y ← b64_val b; z ← b64_val c;
  let v := ((x * 4096 + y * 64 + z) / 4)%Z in
  Some (String (Z_byte (v / 256)) (String (Z_byte (v mod 256)) EmptyString)).

Definition is_pad (c : ascii) : bool := bool_decide (c = "="%char).

(** Decoding, without padding or with it. Line breaks are skipped before. *)
Fixpoint decode_quanta (padded : bool) (s : string) : option string :=
  match s with
  | EmptyString => Some EmptyString
  | String a (String b EmptyString) => if padded then None else decode2 a b
  | String a (String b (String c EmptyString)) => if padded then None else decode3 a b c
  | String a (String b (String c (String d r))) =>
      if padded && is_pad d then
        match r with
        | EmptyString => if is_pad c then decode2 a b else decode3 a b c
        | _ => None
        end
      else
        x ← b64_val a; y ← b64_val b; z ← b64_val c; t ← b64_val d;
        let v := (x * 262144 + y * 4096 + z * 64 + t)%Z in
        rest ← decode_quanta padded r;
        Some (String (Z_byte (v / 65536)) (String (Z_byte (v / 256 mod 256)) (String (Z_byte (v mod 256)) rest)))
  | String _ EmptyString => None
  end.

Fixpoint drop_breaks (s : string) : string :=
  match s with
  | EmptyString => EmptyString
  | String c r => if (byte_val c =? 10)%N || (byte_val c =? 13)%N then drop_breaks r else String c (drop_breaks r)
  end.

Definition decodeBase64 (s : string) : option string :=
  match decode_quanta false (drop_breaks s) with
  | Some b => Some b
  | None => decode_quanta true (drop_breaks s)
  end.

(** ** Sscanf *)

(** The space [%d] skips: a line break is an error, which the missing digit stands for. *)
Definition skip_space (s : string) : string := trim_left (λ c, is_space c && negb (byte_val c =? 10)%N) s.

(** The verb [%d] of an unsigned integer. *)
Definition scan_uint (s : string) : option (Z * string) :=
  let '(v, n, r) := take_digits 0 0 (skip_space s) in
  if (n =? 0)%Z then None else if (v <? 2 ^ 64)%Z then Some (v, r) else None.

(** The verb [%d] of an [int]. *)
Definition scan_int (s : string) : option (Z * string) :=
  let '(neg, r) := signed (skip_space s) in
  let '(v, n, r) := take_digits 0 0 r in
  let v := if (neg : bool) then (- v)%Z else v in
  if (n =? 0)%Z then None else if int64_ok v then Some (v, r) else None.

Definition scan_lit (l s : string) : option string :=
  if HasPrefix s l then Some (drop_bytes (String.length l) s) else None.

(** ** [password.go] *)

Record Params := mkParams { Memory : Z; Iterations : Z; Parallelism : Z; SaltLength : Z; KeyLength : Z }.
Definition DefaultParams : Params := mkParams 65536 4 1 16 32.

Definition ErrInvalidHash : string := "invalid password hash".
Definition ErrMismatch : string := "password does not match hash".
Definition argon2_Version : Z := 19.

Definition wrap_uint32 (n : Z) : Z := n mod 2 ^ 32.

Definition decodeArgon2 (encoded : string) : res (Params * string * string) :=
  match Split encoded "$"%char with
  | [_; kind; version; params; salt; hash] =>
      if negb (bool_decide (kind = "argon2id")) then Err ErrInvalidHash
      else
        match scan_lit "v=" version ≫= scan_int with
        | Some (v, _) =>
            if negb (v =? argon2_Version)%Z then Err ErrInvalidHash
            else
              match (s ← scan_lit "m=" params; '(m, s) ← scan_uint s; s ← scan_lit ",t=" s; '(t, s) ← scan_uint s;
                     s ← scan_lit ",p=" s; '(p, _) ← scan_uint s; Some (m, t, p)) with
              | Some (memory, iterations, parallelism) =>
                  if (255 <? parallelism)%Z then Err ErrInvalidHash
                  else
                    match decodeBase64 salt, decodeBase64 hash with
                    | Some salt, Some hash =>
                        Ok (mkParams (wrap_uint32 memory) (wrap_uint32 iterations) parallelism 0 (Z.of_nat (String.length hash)), salt, hash)
                    | _, _ => Err "illegal base64 data"
                    end
              | None => Err ErrInvalidHash
              end
        | None => Err ErrInvalidHash
        end
  | _ => Err ErrInvalidHash
  end.

Section Password.
Context {PL : PasswordLib}.

(** [salt] is what [rand.Read] gives, of the length the parameters ask for. *)
Definition Hash (salt plain : string) (p : Params) : string :=
  let p := if (SaltLength p =? 0)%Z then DefaultParams else p in
  let digest := IDKey plain salt (Iterations p) (Memory p) (Parallelism p) (KeyLength p) in
  "$argon2id$v=" +:+ show_int argon2_Version +:+ "$m=" +:+ show_int (Memory p) +:+ ",t=" +:+ show_int (Iterations p) +:+
  ",p=" +:+ show_int (Parallelism p) +:+ "$" +:+ EncodeRaw salt +:+ "$" +:+ EncodeRaw digest.

Definition verifyArgon2 (plain encoded : string) : res unit :=
  res_bind (decodeArgon2 encoded) (λ '(p, salt, hash),
    let other := IDKey plain salt (Iterations p) (Memory p) (Parallelism p) (KeyLength p) in
    if bool_decide (hash = other) then Ok tt else Err ErrMismatch).

Definition Verify (plain encoded : string) : res unit :=
  let encoded := TrimSpace encoded in
  if HasPrefix encoded "$argon2" then verifyArgon2 plain encoded
  else if HasPrefix encoded "$2a$" || HasPrefix encoded "$2b$" || HasPrefix encoded "$2y$" then
    if bcrypt_matches encoded plain then Ok tt else Err ErrMismatch
  else Err ErrInvalidHash.

Definition NeedsRehash (encoded : string) : bool := negb (HasPrefix (TrimSpace encoded) "$argon2id$").

Definition FormatLabel (encoded : string) : string :=
  let encoded := TrimSpace encoded in
  if HasPrefix encoded "$argon2id$" then "argon2id" else if HasPrefix encoded "$2" then "bcrypt" else "unknown".
End Password.

(** ** Laws *)

Lemma b64_val_char n : (0 <= n < 64)%Z → b64_val (b64_char n) = Some n.
Proof.
  intros H. assert (Forall (λ k, b64_val (b64_char (Z.of_nat k)) = Some (Z.of_nat k)) (seq 0 64)) as Hall by (repeat constructor).
  rewrite Forall_forall in Hall. specialize (Hall (Z.to_nat n)). rewrite Z2Nat.id in Hall by lia. apply Hall, in_seq. lia.
Qed.

Lemma byte_Z_bound c : (0 <= byte_Z c < 256)%Z.
Proof. unfold byte_Z, byte_val. pose proof (N_ascii_bounded c). lia. Qed.

Lemma Z_byte_Z c n : n = byte_Z c → Z_byte n = c.
Proof. intros ->. unfold Z_byte, byte_Z, byte_val. by rewrite N2Z.id, ascii_N_embedding. Qed.

Lemma decode_EncodeRaw s : decode_quanta false (EncodeRaw s) = Some s.
Proof.
  induction s as [s IH] using (induction_ltof1 _ String.length). destruct s as [|a [|b [|c r]]]; [done|..].
  - simpl. unfold decode2. pose proof (byte_Z_bound a). rewrite !b64_val_char by zlia. cbn [mbind option_bind].
    do 2 f_equal. apply Z_byte_Z. zlia.
  - simpl. unfold decode3. pose proof (byte_Z_bound a). pose proof (byte_Z_bound b). rewrite !b64_val_char by zlia.
    cbn [mbind option_bind]. f_equal. f_equal; [|f_equal]; apply Z_byte_Z; zlia.
  - change (EncodeRaw (String a (String b (String c r)))) with
      (let v := (byte_Z a * 65536 + byte_Z b * 256 + byte_Z c)%Z in
       String (b64_char (v / 262144)) (String (b64_char (v / 4096 mod 64))
         (String (b64_char (v / 64 mod 64)) (String (b64_char (v mod 64)) (EncodeRaw r))))). cbv zeta.
    pose proof (byte_Z_bound a). pose proof (byte_Z_bound b). pose proof (byte_Z_bound c).
    cbn [decode_quanta andb]. rewrite !b64_val_char by zlia. cbn [mbind option_bind].
    rewrite (IH r) by (unfold ltof; simpl; lia). cbn [mbind option_bind].
    f_equal. f_equal; [|f_equal; [|f_equal]]; try apply Z_byte_Z; try done; zlia.
Qed.

(** The characters of a text all satisfy [P]. *)
Fixpoint chars (P : ascii → bool) (s : string) : bool :=
  match s with EmptyString => true | String c r => P c && chars P r end.

Lemma chars_app P a b : chars P (a +:+ b) = chars P a && chars P b.
Proof.
  induction a as [|c a IH]; [done|]. change (chars P (String c a +:+ b)) with (P c && chars P (a +:+ b)).
  rewrite IH. cbn [chars]. by rewrite andb_assoc.
Qed.

Lemma chars_mono (P Q : ascii → bool) s : (∀ c, P c = true → Q c = true) → chars P s = true → chars Q s = true.
Proof. intros H. induction s as [|c s IH]; [done|]. cbn. intros [H1 H2]%andb_prop. by rewrite H, IH. Qed.

Definition b64_ok (c : ascii) : bool := match b64_val c with Some _ => true | None => false end.

Lemma chars_EncodeRaw s : chars b64_ok (EncodeRaw s) = true.
Proof.
  assert (Hc : ∀ n, b64_ok (b64_char n) = true).
  { intros n. destruct (decide (0 <= n < 64)%Z) as [H|H]; [unfold b64_ok; by rewrite b64_val_char|].
    unfold b64_char. destruct (String.get (Z.to_nat n) b64_alphabet) as [c|] eqn:E; [|done].
    destruct (decide (n < 0)%Z); [by destruct n; simplify_eq/=|]. exfalso.
    assert (String.get (Z.to_nat n) b64_alphabet = None) as H0; [|congruence].
    replace (Z.to_nat n) with (64 + (Z.to_nat n - 64))%nat by lia. done. }
  induction s as [s IH] using (induction_ltof1 _ String.length). destruct s as [|a [|b [|c r]]]; [done|..].
  - simpl. by rewrite !Hc.
  - simpl. by rewrite !Hc.
  - change (EncodeRaw (String a (String b (String c r)))) with
      (let v := (byte_Z a * 65536 + byte_Z b * 256 + byte_Z c)%Z in
       String (b64_char (v / 262144)) (String (b64_char (v / 4096 mod 64))
         (String (b64_char (v / 64 mod 64)) (String (b64_char (v mod 64)) (EncodeRaw r))))). cbv zeta. cbn [chars].
    rewrite !Hc. apply IH. unfold ltof; simpl; lia.
Qed.

Lemma drop_breaks_chars s : chars b64_ok s = true → drop_breaks s = s.
Proof.
  induction s as [|c s IH]; [done|]. cbn. intros [H1 H2]%andb_prop. rewrite IH by done.
  destruct (_ || _) eqn:E; [|done]. exfalso. apply orb_true_iff in E as [E%N.eqb_eq|E%N.eqb_eq];
    unfold b64_ok, b64_val in H1; by rewrite E in H1.
Qed.

Lemma decodeBase64_EncodeRaw s : decodeBase64 (EncodeRaw s) = Some s.
Proof. unfold decodeBase64. by rewrite drop_breaks_chars, decode_EncodeRaw by apply chars_EncodeRaw. Qed.

Lemma Split_cons a sep b : chars (λ c, negb (bool_decide (c = sep))) a = true → Split (a +:+ String sep b) sep = a :: Split b sep.
Proof.
  induction a as [|c a IH]; intros H.
  - change (Split (String sep b) sep = EmptyString :: Split b sep). simpl. by rewrite bool_decide_eq_true_2.
  - cbn in H. apply andb_prop in H as [H1 H2]. change (String c a +:+ String sep b) with (String c (a +:+ String sep b)).
    cbn [Split]. rewrite (IH H2). destruct (bool_decide (c = sep)); [done|]. done.
Qed.

Lemma Split_last a sep : chars (λ c, negb (bool_decide (c = sep))) a = true → Split a sep = [a].
Proof.
  induction a as [|c a IH]; intros H; [done|]. cbn in H. apply andb_prop in H as [H1 H2].
  cbn [Split]. rewrite (IH H2). by destruct (bool_decide (c = sep)).
Qed.

Lemma trim_right_chars p s : chars (λ c, negb (p c)) s = true → trim_right p s = s.
Proof.
  induction s as [|c s IH]; [done|]. cbn. intros [H1 H2]%andb_prop. rewrite (IH H2). destruct (p c); [done|]. by destruct s.
Qed.

Lemma TrimSpace_chars s : chars (λ c, negb (is_space c)) s = true → TrimSpace s = s.
Proof.
  intros H. unfold TrimSpace. assert (trim_left is_space s = s) as ->; [|by apply trim_right_chars].
  destruct s as [|c s]; [done|]. cbn in *. by destruct (is_space c).
Qed.

Definition is_digit (c : ascii) : bool := match digit_val c with Some _ => true | None => false end.

Lemma digit_char (n : N) : (n < 10)%N → digit_val (pretty_N_char n) = Some (Z.of_N n).
Proof. intros H. assert (n ∈ [0;1;2;3;4;5;6;7;8;9])%N as Hn by (rewrite !elem_of_cons; lia). clear H. rewrite !elem_of_cons, elem_of_nil in Hn. by decompose [or] Hn; subst. Qed.

Lemma take_digits_go (n : N) s acc k :
  ∃ j e, (k < j)%Z ∧ (0 < n)%N ∧ take_digits acc k (pretty_N_go n s) = take_digits (acc * 10 ^ e + Z.of_N n) j s ∧ (0 <= e)%Z ∨ n = 0%N.
Proof.
  revert s acc k. induction (N.lt_wf_0 n) as [n _ IH]. intros s acc k. destruct (decide (n = 0)%N) as [->|Hn]; [by exists 0%Z, 0%Z; right|].
  rewrite pretty_N_go_step by lia. destruct (decide (n / 10 = 0)%N) as [H0|H0].
  - exists (k + 1)%Z, 1%Z. left. rewrite H0. rewrite pretty_N_go_0. cbn [take_digits].
    rewrite digit_char by (apply N.mod_lt; lia). apply N.div_small_iff in H0; [|lia]. rewrite N.mod_small by done.
    split_and!; [lia|lia| |lia]. f_equal; lia.
  - destruct (IH (n / 10)%N ltac:(apply N.div_lt; lia) (String (pretty_N_char (n mod 10)) s) acc k) as (j & e & [(H1 & H2 & H3 & H4)|?]); [|done].
    exists (j + 1)%Z, (e + 1)%Z. left. rewrite H3. cbn [take_digits]. rewrite digit_char by (apply N.mod_lt; lia).
    split_and!; [lia|lia| |lia]. f_equal. rewrite Z.pow_add_r by lia. rewrite N2Z.inj_div, N2Z.inj_mod.
    pose proof (Z.div_mod (Z.of_N n) 10 ltac:(lia)). change (Z.of_N 10) with 10%Z. lia.
Qed.

Definition starts_no_digit (r : string) : Prop := match r with String c _ => is_digit c = false | EmptyString => True end.

Lemma take_digits_stop acc k r : starts_no_digit r → take_digits acc k r = (acc, k, r).
Proof. destruct r as [|c r]; [done|]. cbn. unfold is_digit. by destruct (digit_val c). Qed.

Lemma pretty_go_app (n : N) s r : pretty_N_go n s +:+ r = pretty_N_go n (s +:+ r).
Proof.
  revert s. induction (N.lt_wf_0 n) as [n _ IH]. intros s. destruct (decide (n = 0)%N) as [->|Hn]; [done|].
  rewrite !(pretty_N_go_step n) by lia. by rewrite IH by (apply N.div_lt; lia).
Qed.

Lemma show_nonneg n : (0 <= n)%Z → show_int n = if (n =? 0)%Z then "0" else pretty_N_go (Z.to_N n) EmptyString.
Proof. intros H. destruct n as [|p|p]; [done| |lia]. reflexivity. Qed.

Lemma take_digits_show n r : (0 <= n)%Z → starts_no_digit r → ∃ k, take_digits 0 0 (show_int n +:+ r) = (n, k, r) ∧ (0 < k)%Z.
Proof.
  intros H Hr. rewrite show_nonneg by done. destruct (Z.eqb_spec n 0) as [->|Hn].
  - exists 1%Z. change ("0" +:+ r) with (String "0"%char r). cbn [take_digits].
    change (digit_val "0"%char) with (Some 0%Z). cbv iota beta. by rewrite take_digits_stop.
  - rewrite pretty_go_app. change (EmptyString +:+ r) with r.
    destruct (take_digits_go (Z.to_N n) r 0 0) as (k & e & [(H1 & H2 & H3 & _)|?]); [|lia].
    exists k. rewrite H3, take_digits_stop by done. split; [|done]. do 2 f_equal. lia.
Qed.

Lemma show_head n r : (0 <= n)%Z → skip_space (show_int n +:+ r) = show_int n +:+ r ∧ signed (show_int n +:+ r) = (false, show_int n +:+ r).
Proof.
  intros H. assert (∃ c s, show_int n = String c s ∧ is_digit c = true) as (c & s & -> & Hc).
  { rewrite show_nonneg by done. destruct (n =? 0)%Z eqn:E; [by eexists _, _|]. apply Z.eqb_neq in E.
    destruct (take_digits_go (Z.to_N n) EmptyString 0 0) as (k & e & [(H1 & H2 & H3 & _)|?]); [|lia].
    destruct (pretty_N_go (Z.to_N n) EmptyString) as [|c s]; [simpl in H3; injection H3; lia|].
    exists c, s. split; [done|]. cbn [take_digits] in H3. unfold is_digit. destruct (digit_val c); [done|]. injection H3; lia. }
  unfold is_digit, digit_val in Hc. destruct ((48 <=? Z.of_N (byte_val c))%Z && (Z.of_N (byte_val c) <=? 57)%Z) eqn:E; [|done].
  apply andb_prop in E as [E1%Z.leb_le E2%Z.leb_le]. change (String c s +:+ r) with (String c (s +:+ r)). split.
  - unfold skip_space. cbn [trim_left]. assert (is_space c = false) as ->; [|done]. unfold is_space.
    destruct ((9 <=? byte_val c)%N && (byte_val c <=? 13)%N) eqn:E3; [apply andb_prop in E3 as [_ ?%N.leb_le]; lia|].
    apply N.eqb_neq. lia.
  - unfold signed. rewrite !bool_decide_eq_false_2; [done|..]; intros ->; vm_compute in E1; congruence.
Qed.

Lemma scan_uint_show n r : (0 <= n < 2 ^ 64)%Z → starts_no_digit r → scan_uint (show_int n +:+ r) = Some (n, r).
Proof.
  intros H Hr. unfold scan_uint. destruct (show_head n r) as [-> _]; [lia|].
  destruct (take_digits_show n r) as (k & -> & Hk); [lia|done|]. rewrite (proj2 (Z.eqb_neq _ _)) by lia.
  by rewrite (proj2 (Z.ltb_lt _ _)) by lia.
Qed.

Lemma chars_show P n : (0 <= n)%Z → (∀ c, is_digit c = true → P c = true) → chars P (show_int n) = true.
Proof.
  intros H HP. rewrite show_nonneg by done. destruct (n =? 0)%Z; [cbn; by rewrite HP|].
  assert (∀ s, chars P s = true → chars P (pretty_N_go (Z.to_N n) s) = true) as Hgo; [|by apply Hgo].
  clear H. induction (N.lt_wf_0 (Z.to_N n)) as [m _ IH]. intros s Hs. destruct (decide (m = 0)%N) as [->|Hm]; [done|].
  rewrite pretty_N_go_step by lia. apply IH; [apply N.div_lt; lia|]. cbn. rewrite Hs, andb_true_r. apply HP.
  unfold is_digit. by rewrite digit_char by (apply N.mod_lt; lia).
Qed.

Lemma digit_plain c : is_digit c = true → is_space c = false ∧ c ≠ "$"%char.
Proof.
  unfold is_digit, digit_val, is_space. intros H. destruct (_ && _) eqn:E in H; [|done]. apply andb_prop in E as [E1%Z.leb_le E2%Z.leb_le].
  split; [|by intros ->; vm_compute in E1]. destruct (_ && _) eqn:E3; [apply andb_prop in E3 as [_ ?%N.leb_le]; lia|]. apply N.eqb_neq. lia.
Qed.

Lemma b64_plain c : b64_ok c = true → is_space c = false ∧ c ≠ "$"%char.
Proof.
  unfold b64_ok, is_space. intros H. split; [|by intros ->]. unfold b64_val in H.
  destruct (_ && _) eqn:E3 at 1.
  - apply andb_prop in E3 as [?%N.leb_le ?%N.leb_le].
    repeat (destruct (_ && _) eqn:E in H; [apply andb_prop in E as [?%Z.leb_le ?%Z.leb_le]; lia|clear E]).
    repeat (destruct (_ =? _)%Z eqn:E in H; [apply Z.eqb_eq in E; lia|clear E]). done.
  - apply N.eqb_neq. intros E. by rewrite E in H.
Qed.


Section PasswordLaws.
Context {PL : PasswordLib}.

(** Parameters that fit the fields of the text. *)
Definition params_ok (p : Params) : Prop :=
  (0 <= Memory p < 2 ^ 32)%Z ∧ (0 <= Iterations p < 2 ^ 32)%Z ∧ (0 <= Parallelism p <= 255)%Z ∧ (SaltLength p ≠ 0)%Z ∧ (0 <= KeyLength p)%Z.

Definition field_m (p : Params) : string :=
  "m=" +:+ (show_int (Memory p) +:+ (",t=" +:+ (show_int (Iterations p) +:+ (",p=" +:+ show_int (Parallelism p))))).
Definition digest_of (salt plain : string) (p : Params) : string :=
  IDKey plain salt (Iterations p) (Memory p) (Parallelism p) (KeyLength p).

Lemma Hash_parts salt plain p : (SaltLength p ≠ 0)%Z →
  Hash salt plain p = EmptyString +:+ String "$" ("argon2id" +:+ String "$" ("v=19" +:+ String "$" (field_m p +:+ String "$"
    (EncodeRaw salt +:+ String "$" (EncodeRaw (digest_of salt plain p)))))).
Proof.
  intros H. unfold Hash. rewrite (proj2 (Z.eqb_neq _ _) H). unfold field_m, digest_of. rewrite !string_app_assoc. reflexivity.
Qed.

Definition plain_char (c : ascii) : bool := negb (is_space c) && negb (bool_decide (c = "$"%char)).

Lemma plain_of c : is_space c = false ∧ c ≠ "$"%char → plain_char c = true.
Proof. intros [H1 H2]. unfold plain_char. by rewrite H1, bool_decide_eq_false_2. Qed.

Lemma field_m_plain p : params_ok p → chars plain_char (field_m p) = true.
Proof.
  intros (H1 & H2 & H3 & _). unfold field_m. rewrite !chars_app, !andb_true_iff.
  assert (∀ n, (0 <= n)%Z → chars plain_char (show_int n) = true) as Hs
    by (intros n Hn; apply chars_show; [done|]; intros c Hc; by apply plain_of, digit_plain).
  split_and!; done || apply Hs; lia.
Qed.

Lemma enc_plain s : chars plain_char (EncodeRaw s) = true.
Proof. eapply chars_mono, chars_EncodeRaw. intros c Hc. by apply plain_of, b64_plain. Qed.

Lemma plain_no_sep s : chars plain_char s = true → chars (λ c, negb (bool_decide (c = "$"%char))) s = true.
Proof. apply chars_mono. intros c [_ H]%andb_prop. exact H. Qed.
Lemma plain_no_space s : chars plain_char s = true → chars (λ c, negb (is_space c)) s = true.
Proof. apply chars_mono. intros c [H _]%andb_prop. exact H. Qed.

Lemma scan_field_m p : params_ok p →
  (s ← scan_lit "m=" (field_m p); '(m, s) ← scan_uint s; s ← scan_lit ",t=" s; '(t, s) ← scan_uint s;
   s ← scan_lit ",p=" s; '(q, _) ← scan_uint s; Some (m, t, q)) = Some (Memory p, Iterations p, Parallelism p).
Proof.
  intros (H1 & H2 & H3 & _). unfold field_m, scan_lit. rewrite HasPrefix_app, drop_bytes_app. cbn [mbind option_bind].
  rewrite scan_uint_show by (lia || done). cbn [mbind option_bind]. rewrite HasPrefix_app, drop_bytes_app. cbn [mbind option_bind].
  rewrite scan_uint_show by (lia || done). cbn [mbind option_bind]. rewrite HasPrefix_app, drop_bytes_app. cbn [mbind option_bind].
  rewrite <- (string_app_nil_r (show_int (Parallelism p))). by rewrite scan_uint_show by (lia || done).
Qed.

Lemma decode_Hash salt plain p : params_ok p →
  decodeArgon2 (Hash salt plain p) = Ok (mkParams (Memory p) (Iterations p) (Parallelism p) 0 (KeyLength p), salt, digest_of salt plain p).
Proof.
  intros Hp. assert (Hp' := Hp). destruct Hp as (H1 & H2 & H3 & H4 & H5). rewrite Hash_parts by done.
  unfold decodeArgon2. rewrite !Split_cons, Split_last by first [reflexivity|by apply plain_no_sep, enc_plain|by apply plain_no_sep, field_m_plain].
  rewrite scan_field_m by done. rewrite !decodeBase64_EncodeRaw. rewrite bool_decide_eq_true_2 by done. cbn [negb].
  change (scan_lit "v=" "v=19" ≫= scan_int) with (Some (19%Z, EmptyString)). cbn iota beta. change (19 =? argon2_Version)%Z with true.
  cbn [negb]. rewrite (proj2 (Z.ltb_ge _ _)) by lia. unfold wrap_uint32. rewrite !Z.mod_small by lia.
  unfold digest_of at 1. by rewrite IDKey_length.
Qed.

Lemma TrimSpace_Hash salt plain p : params_ok p → TrimSpace (Hash salt plain p) = Hash salt plain p.
Proof.
  intros Hp. apply TrimSpace_chars. rewrite Hash_parts by apply Hp. cbn [chars String.app].
  repeat first [rewrite chars_app | progress cbn [chars]]. rewrite !(plain_no_space (EncodeRaw _)) by apply enc_plain.
  by rewrite (plain_no_space (field_m p)) by by apply field_m_plain.
Qed.

Lemma Verify_Hash salt plain a p : params_ok p →
  Verify a (Hash salt plain p) = if bool_decide (digest_of salt plain p = digest_of salt a p) then Ok tt else Err ErrMismatch.
Proof.
  intros Hp. unfold Verify. rewrite TrimSpace_Hash by done. cbv zeta. assert (HasPrefix (Hash salt plain p) "$argon2" = true) as ->.
  { rewrite Hash_parts by apply Hp. reflexivity. }
  unfold verifyArgon2. by rewrite decode_Hash by done.
Qed.

Lemma NeedsRehash_Hash salt plain p : params_ok p → NeedsRehash (Hash salt plain p) = false.
Proof. intros Hp. unfold NeedsRehash. rewrite TrimSpace_Hash, Hash_parts by apply Hp. reflexivity. Qed.

(** C33 A hash verifies exactly the passwords that give its digest: verifying the password it
    was made of succeeds, with whatever salt and parameters it was made, any other password
    that Argon2 tells apart is a mismatch, and such a hash is not made anew at login. *)
Theorem verify_hash_roundtrip salt plain attempt p :
  params_ok p →
  Verify attempt (Hash salt plain p) =
    (if bool_decide (digest_of salt plain p = digest_of salt attempt p) then Ok tt else Err ErrMismatch) ∧
  Verify plain (Hash salt plain p) = Ok tt ∧ NeedsRehash (Hash salt plain p) = false.
Proof. intros Hp. split_and!; [by apply Verify_Hash|by rewrite Verify_Hash, bool_decide_eq_true_2|by apply NeedsRehash_Hash]. Qed.
End PasswordLaws.

(** ** A concrete run *)

Fixpoint spaces (n : nat) : string := match n with O => EmptyString | S n => String " "%char (spaces n) end.
Lemma length_take_bytes n s : (n <= String.length s)%nat → String.length (take_bytes n s) = n.
Proof. revert s. induction n as [|n IH]; intros s H; [by destruct s|]. destruct s as [|c s]; [simpl in H; lia|]. simpl in *. rewrite IH; lia. Qed.

(** A digest that is the password filled up with spaces. *)
Definition cut (s : string) (n : Z) : string := take_bytes (Z.to_nat n) (s +:+ spaces (Z.to_nat n)).
Lemma length_cut s n : (0 <= n)%Z → Z.of_nat (String.length (cut s n)) = n.
Proof.
  intros H. unfold cut. rewrite length_take_bytes; [lia|]. rewrite app_length_string.
  assert (String.length (spaces (Z.to_nat n)) = Z.to_nat n) as ->; [|lia]. generalize (Z.to_nat n). intros k. by induction k; simpl; f_equal.
Qed.
#[local] Instance echo : PasswordLib :=
  {| IDKey := λ p _ _ _ _ n, cut p n; IDKey_length := λ p _ _ _ _ n H, length_cut p n H; bcrypt_matches := λ _ _, false |}.

Lemma verify_hash_roundtrip_witness :
  Verify "hunter2" (Hash "0123456789abcdef" "hunter2" DefaultParams) = Ok tt ∧
  Verify "hunter3" (Hash "0123456789abcdef" "hunter2" DefaultParams) = Err ErrMismatch.
Proof.
  assert (params_ok DefaultParams) as Hp by (unfold params_ok; vm_compute; repeat split; congruence).
  split.
  - exact (proj1 (proj2 (verify_hash_roundtrip "0123456789abcdef" "hunter2" "hunter2" DefaultParams Hp))).
  - rewrite (proj1 (verify_hash_roundtrip "0123456789abcdef" "hunter2" "hunter3" DefaultParams Hp)). vm_compute. reflexivity.
Defined.
