(* ===== verification/Access.v ===== *)
(** * Accounts, domains, tokens and who gets in

    [repository/token.go], [domain.go], [domain_write.go] and [invitation.go], the services
    that provision domains and invite users, the dashboard and token handlers that call them,
    and the middleware [domain_token.go] in front of every data endpoint. The digest of a
    secret is the parameter [sha256_hex]; what [rand.Read] draws is an argument. A replica
    read sees what was written before. *)

From Stdlib Require Import Ascii String.
From stdpp Require Import gmap strings list.
From S2P Require Import Prelude GoStrings GoTime GoUrl GoNum GoJson Payload AccessData Config CacheData Database Caches Feeds Password Upstream.

Open Scope string_scope.

(** ** Constraints the tables put on a row *)

(** The text of a PostgreSQL error, as pgx gives it. *)
Definition pg_error (msg code : string) : string := "ERROR: " +:+ msg +:+ " (SQLSTATE " +:+ code +:+ ")".
Definition unique_violation : string := pg_error "duplicate key value violates unique constraint" "23505".
Definition fk_violation : string := pg_error "insert or update violates foreign key constraint" "23503".
Definition truncation : string := pg_error "value too long for type character varying" "22001".

(** The code is read from the error inside the wrapping. *)
Definition IsUniqueViolation (e : string) : bool := HasSuffix e "(SQLSTATE 23505)".

Definition on_access (f : AccessTables → AccessTables) : M World unit := modify (λ w, set_access (f (w_access w)) w).

(** The backslashes of the SQL literal stay doubled. *)
Definition tokenable_type : string := "App\\Models\\User".

Section Access.
Context {F : Faults} {RO : RowOrder} {PL : PasswordLib} (sha256_hex : string → string) (cfg : Config).

(** [LIMIT 1]: one of the rows that match. *)
Definition first_row {A} (p : A → bool) (m : gmap Z A) : option A :=
  head (row_order _ (filter (λ a, p a = true) (map_to_list m).*2)).

Definition exists_row {A} (p : A → bool) (m : gmap Z A) : bool := bool_decide (filter (λ kv, p kv.2 = true) m ≠ ∅).

Definition select_row {A} (table : AccessTables → gmap Z A) (p : A → bool) : M World (option A) :=
  stmt (get (λ w, first_row p (table (w_access w)))).

(** ** Domains ([domain.go]) *)

Definition FindActiveBySlug (slug : string) : M World (option Domain) :=
  select_row at_domains (λ d, d_IsActive d && bool_decide (ToLower (d_DomainSlug d) = ToLower slug)).

Definition FindActiveByIDForUser (userID domainID : Z) : M World (option Domain) :=
  select_row at_domains (λ d, d_IsActive d && bool_decide (d_UserID d = Some userID) && bool_decide (d_ID d = domainID)).

Definition FindActiveForUser (userID : Z) (slug : string) : M World (option Domain) :=
  select_row at_domains (λ d, d_IsActive d && bool_decide (d_UserID d = Some userID) &&
                              bool_decide (ToLower (d_DomainSlug d) = ToLower slug)).

Definition ListActive : M World (list Domain) :=
  stmt (get (λ w, row_order _ (filter (λ d, d_IsActive d = true) (map_to_list (at_domains (w_access w))).*2))).

(** A list of strings; anything else in it is an error, null an empty string. *)
Definition AllowedDatasets (d : option Domain) : list string :=
  match d with
  | Some d =>
      match d_AllowedMLSDatasets d with
      | RawText (Some (JArr l)) =>
          match mapM (λ v, match v with JStr s => Some s | JNull => Some EmptyString | _ => None end) l with
          | Some raw => filter (λ s, s ≠ EmptyString) (TrimSpace <$> raw)
          | None => []
          end
      | _ => []
      end
  | None => []
  end.

(** ** Tokens ([token.go]) *)

Definition HashToken (plain : string) : string := sha256_hex plain.

Definition expired (now : Z) (tok : APIToken) : bool := match k_ExpiresAt tok with Some t => (t <? now)%Z | None => false end.

Definition touch_token (now id : Z) (t : AccessTables) : AccessTables :=
  set_tokens (alter (λ k, mkToken (k_ID k) (k_Type k) (k_UserID k) (k_DomainID k) (k_Name k) (k_TokenHash k) (k_Abilities k)
    (Some now) (k_ExpiresAt k)) id (at_tokens t)) t.

Definition FindByPlaintext (plain : string) : M World (option (APIToken * User)) :=
  let hash := HashToken plain in
  let* found := select_row at_tokens (λ k, bool_decide (k_Type k = tokenable_type) && bool_decide (k_TokenHash k = hash)) in
  match found with
  | None => ret None
  | Some tok =>
      let* now := get w_now in
      if expired now tok then ret None
      else
        let* user := stmt (get (λ w, at_users (w_access w) !! k_UserID tok)) in
        match user with
        | None => ret None
        | Some user => ignore (stmt (on_access (touch_token now (k_ID tok)))) ;;; ret (Some (tok, user))
        end
  end.

Definition HasAbility (tok : APIToken) (ability : string) : bool :=
  match k_Abilities tok with Some s => Contains s ability | None => false end.

(** The list as the code prints it. *)
Definition abilities_text (abilities : list string) : string :=
  let q := String (ascii_of_nat 34) EmptyString in
  "[" +:+ q +:+ Join abilities (q +:+ "," +:+ q) +:+ q +:+ "]".

(** An INSERT into personal_access_tokens; the id is taken before the constraints. *)
Definition insert_token (userID : Z) (domainID : option Z) (name hash abilities : string) : M World unit := λ w,
  let t := w_access w in
  let id := at_token_seq t in
  let t := set_token_seq (id + 1)%Z t in
  let w := set_access t w in
  if negb (char_fits 64 hash) then (Err truncation, w)
  else if exists_row (λ k, bool_decide (k_TokenHash k = hash)) (at_tokens t) then (Err unique_violation, w)
  else
    match domainID with
    | Some d =>
        if exists_row (λ k, bool_decide (k_DomainID k = Some d)) (at_tokens t) then (Err unique_violation, w)
        else if negb (bool_decide (is_Some (at_domains t !! d))) then (Err fk_violation, w)
        else on_access (λ t, set_tokens (<[id := mkToken id tokenable_type userID (Some d) name hash (Some abilities) None None]> (at_tokens t)) t) w
    | None => on_access (λ t, set_tokens (<[id := mkToken id tokenable_type userID None name hash (Some abilities) None None]> (at_tokens t)) t) w
    end.

(** [rnd] is the hexadecimal text of the 32 random bytes. *)
Definition createToken (rnd : string) (userID domainID : Z) (name : string) (abilities : list string) : M World string :=
  let plain := "idx_" +:+ rnd in
  stmt (insert_token userID (if (0 <? domainID)%Z then Some domainID else None) name (HashToken plain) (abilities_text abilities)) ;;;
  ret plain.

Definition Create (rnd : string) (userID : Z) (name : string) (abilities : list string) : M World string :=
  createToken rnd userID 0 name abilities.
Definition CreateForDomainWithTx (rnd : string) (userID domainID : Z) (name : string) (abilities : list string) : M World string :=
  createToken rnd userID domainID name abilities.

Definition of_owner (userID domainID : Z) (k : APIToken) : bool :=
  bool_decide (k_Type k = tokenable_type) && bool_decide (k_UserID k = userID) && bool_decide (k_DomainID k = Some domainID).

(** A row's column; no row is an error of its own. *)
Definition owner_of (domainID : Z) : M World (option (option Z)) := stmt (get (λ w, d_UserID <$> at_domains (w_access w) !! domainID)).

(** [tx] of a body that always commits or fails. *)
Definition in_tx {A} (body : M World A) : M World A :=
  let* o := tx (let* a := body in ret (Some a)) in match o with Some a => ret a | None => throw "tx" end.

Definition RegenerateForDomain (rnd : string) (userID domainID : Z) (name : string) (abilities : list string) : M World string :=
  in_tx (
    let* owner := owner_of domainID in
    match owner with
    | None => throw "domain not found"
    | Some None => throw "cannot scan NULL into *int64"
    | Some (Some owner) =>
        if negb (owner =? userID)%Z then throw "domain not found"
        else
          stmt (on_access (λ t, set_tokens (filter (λ kv, of_owner userID domainID kv.2 = false) (at_tokens t)) t)) ;;;
          createToken rnd userID domainID name abilities
    end).

Record TokenMeta := mkTokenMeta { tm_ID : Z; tm_DomainID : Z; tm_Name : string; tm_LastUsed : string; tm_NeverUsed : bool }.

Definition FindByDomain (userID domainID : Z) : M World (option TokenMeta) :=
  let* found := select_row at_tokens (of_owner userID domainID) in
  ret ((λ k, mkTokenMeta (k_ID k) (default 0%Z (k_DomainID k)) (k_Name k)
          (match k_LastUsedAt k with Some t => format_rfc3339 t | None => EmptyString end)
          (bool_decide (k_LastUsedAt k = None))) <$> found).

Definition Revoke (userID tokenID : Z) : M World unit :=
  let* n := stmt (λ w,
    let gone := filter (λ kv, kv.1 = tokenID ∧ k_UserID kv.2 = userID ∧ k_Type kv.2 = tokenable_type) (at_tokens (w_access w)) in
    (Ok (size gone), set_access (set_tokens (at_tokens (w_access w) ∖ gone) (w_access w)) w)) in
  if (n =? 0)%nat then throw "token not found" else ret tt.
(** ** Writing domains ([domain_write.go]) *)

Record DomainCreateParams := mkDomainParams {
  dp_UserID : Z;
  dp_ParentDomainID : option Z;
  dp_IsStaging : bool;
  dp_DomainSlug : string;
  dp_MLSDataset : string;
  dp_AllowedMLSDatasets : RawMessage;
  dp_TXTVerificationName : string;
  dp_TXTVerificationValue : string;
}.

Definition domain_of (id : Z) (p : DomainCreateParams) : Domain :=
  mkDomain id (Some (dp_UserID p)) (dp_ParentDomainID p) (dp_IsStaging p) (dp_DomainSlug p) true (Some (dp_MLSDataset p))
    (dp_AllowedMLSDatasets p) "pending" None (Some (dp_TXTVerificationName p)) (Some (dp_TXTVerificationValue p)) None.

Definition insert_domain (p : DomainCreateParams) : M World Z := λ w,
  let t := w_access w in
  let id := at_domain_seq t in
  let t := set_domain_seq (id + 1)%Z t in
  let w := set_access t w in
  if negb (char_fits 255 (dp_DomainSlug p) && char_fits 255 (dp_MLSDataset p) && char_fits 255 (dp_TXTVerificationName p) &&
           char_fits 255 (dp_TXTVerificationValue p)) then (Err truncation, w)
  else if exists_row (λ d, bool_decide (d_DomainSlug d = dp_DomainSlug p)) (at_domains t) then (Err unique_violation, w)
  else if negb (bool_decide (is_Some (at_users t !! dp_UserID p))) then (Err fk_violation, w)
  else if match dp_ParentDomainID p with Some d => negb (bool_decide (is_Some (at_domains t !! d))) | None => false end then (Err fk_violation, w)
  else (Ok id, set_access (set_domains (<[id := domain_of id p]> (at_domains t)) t) w).

Definition CreateDomain (p : DomainCreateParams) : M World Z := λ w,
  match stmt (insert_domain p) w with
  | (Ok id, w') => (Ok id, w')
  | (Err e, w') => (Err ("insert domain " +:+ dp_DomainSlug p +:+ ": " +:+ e), w')
  end.

Definition refers_to (ids : gset Z) (o : option Z) : bool := match o with Some d => bool_decide (d ∈ ids) | None => false end.

(** ON DELETE CASCADE: the domains below [ids], with as many rounds as there are domains. *)
Definition with_children (ds : gmap Z Domain) (ids : gset Z) : gset Z :=
  ids ∪ dom (filter (λ kv, refers_to ids (d_ParentDomainID kv.2) = true) ds).
Fixpoint descendants (n : nat) (ds : gmap Z Domain) (ids : gset Z) : gset Z :=
  match n with O => ids | S n' => descendants n' ds (with_children ds ids) end.

Definition delete_domain (id : Z) (t : AccessTables) : AccessTables :=
  let gone := descendants (size (at_domains t)) (at_domains t) {[id]} in
  set_tokens (filter (λ kv, refers_to gone (k_DomainID kv.2) = false) (at_tokens t))
    (set_domains (filter (λ kv, kv.1 ∉ gone) (at_domains t)) t).

Definition domain_of_user (userID id : Z) : M World (option Domain) :=
  stmt (get (λ w, d ← at_domains (w_access w) !! id; if bool_decide (d_UserID d = Some userID) then Some d else None)).

Definition DeleteDomainBundle (userID prodDomainID : Z) : M World unit :=
  in_tx (
    let* found := domain_of_user userID prodDomainID in
    match found with
    | None => throw "domain not found"
    | Some d =>
        if d_IsStaging d || bool_decide (is_Some (d_ParentDomainID d)) then throw "delete the production domain, not staging"
        else stmt (on_access (delete_domain prodDomainID))
    end).

(** ** Provisioning ([service/dashboard/provision.go]) *)

Record ProvisionRequest := mkProvision { pr_Hostname : string; pr_Datasets : list string }.
Record CreatedDomain := mkCreated { cr_ID : Z; cr_DomainSlug : string; cr_TXTName : string; cr_TXTValue : string }.
Record ProvisionResult := mkProvisioned {
  pv_ProdDomain : CreatedDomain;
  pv_StagingDomain : CreatedDomain;
  pv_ProductionToken : string;
  pv_StagingToken : string;
  pv_AllowedDatasets : list string;
  pv_DefaultMLSDataset : string;
}.

Definition ErrEmptyHostname : string := "hostname is required".
Definition ErrInvalidHostname : string := "hostname cannot start with staging.".
Definition ErrNoDatasets : string := "select at least one MLS dataset".
Definition ErrDuplicateDomain : string := "domain already registered".

(** What a bundle draws: the two TXT values and the two tokens. *)
Record Draws := mkDraws { dr_ProdTXT : string; dr_StagingTXT : string; dr_ProdToken : string; dr_StagingToken : string }.

Definition created (rename : string → string) (p : DomainCreateParams) : M World Z := λ w,
  match CreateDomain p w with
  | (Err e, w') => (Err (if IsUniqueViolation e then rename ErrDuplicateDomain else e), w')
  | r => r
  end.

Definition verify_name (host : string) : string := "_quantyra-verify." +:+ host.

Definition prod_params (userID : Z) (host default_ds : string) (allowed : RawMessage) (txt : string) : DomainCreateParams :=
  mkDomainParams userID None false host default_ds allowed (verify_name host) txt.
Definition staging_params (userID prodID : Z) (host default_ds : string) (allowed : RawMessage) (txt : string) : DomainCreateParams :=
  mkDomainParams userID (Some prodID) true ("staging." +:+ host) default_ds allowed (verify_name ("staging." +:+ host)) txt.

Definition full_ability : list string := ["idx:full"].

Definition ProvisionBundle (rnd : Draws) (userID : Z) (req : ProvisionRequest) : M World ProvisionResult :=
  let host := ToLower (TrimSpace (pr_Hostname req)) in
  if bool_decide (host = EmptyString) then throw ErrEmptyHostname
  else if HasPrefix host "staging." then throw ErrInvalidHostname
  else
    match pr_Datasets req with
    | [] => throw ErrNoDatasets
    | default_ds :: _ =>
        let allowed := RawText (Some (JArr (JStr <$> pr_Datasets req))) in
        in_tx (
          let* prodID := created id (prod_params userID host default_ds allowed (dr_ProdTXT rnd)) in
          let* stagingID := created (λ e, "staging domain already registered: " +:+ e)
            (staging_params userID prodID host default_ds allowed (dr_StagingTXT rnd)) in
          let* prodPlain := CreateForDomainWithTx (dr_ProdToken rnd) userID prodID "Production" full_ability in
          let* stagingPlain := CreateForDomainWithTx (dr_StagingToken rnd) userID stagingID "Staging" full_ability in
          ret (mkProvisioned (mkCreated prodID host (verify_name host) (dr_ProdTXT rnd))
                (mkCreated stagingID ("staging." +:+ host) (verify_name ("staging." +:+ host)) (dr_StagingTXT rnd))
                prodPlain stagingPlain (pr_Datasets req) default_ds))
    end.

(** ** Invitations ([invitation.go], [service/auth/invitations.go]) *)

Definition insert_invitation (email tokenHash : string) (invitedBy expiresAt : Z) : M World unit := λ w,
  let t := w_access w in
  let id := at_invite_seq t in
  let t := set_invite_seq (id + 1)%Z t in
  let w := set_access t w in
  if negb (char_fits 255 email && char_fits 64 tokenHash) then (Err truncation, w)
  else if exists_row (λ i, bool_decide (iv_TokenHash i = tokenHash)) (at_invites t) then (Err unique_violation, w)
  else if negb (bool_decide (is_Some (at_users t !! invitedBy))) then (Err fk_violation, w)
  else (Ok tt, set_access (set_invites (<[id := mkInvitation (ToLower email) tokenHash (Some invitedBy) expiresAt None]> (at_invites t)) t) w).

Definition open_invitation (tokenHash : string) (now : Z) (i : invitation_row) : bool :=
  bool_decide (iv_TokenHash i = tokenHash) && bool_decide (iv_AcceptedAt i = None) && (now <? iv_ExpiresAt i)%Z.

Definition FindOpenByHash (tokenHash : string) : M World (string * Z) :=
  let* now := get w_now in
  let* found := select_row at_invites (open_invitation tokenHash now) in
  match found with Some i => ret (iv_Email i, iv_ExpiresAt i) | None => throw "no rows in result set" end.

Definition mark_accepted (p : invitation_row → bool) (now : Z) (t : AccessTables) : AccessTables :=
  set_invites ((λ i, if p i then mkInvitation (iv_Email i) (iv_TokenHash i) (iv_InvitedBy i) (iv_ExpiresAt i) (Some now) else i)
    <$> at_invites t) t.

Definition hashInviteToken (plain : string) : string := sha256_hex (TrimSpace plain).

Definition InvitationCreate (rnd : string) (inviterID : Z) (email : string) : M World string :=
  let email := TrimSpace (ToLower email) in
  if bool_decide (email = EmptyString) then throw "email is required"
  else
    let* now := get w_now in
    stmt (insert_invitation email (hashInviteToken rnd) inviterID (now + auth_InvitationTTL (cfg_Auth cfg))%Z) ;;;
    ret rnd.

Definition insert_user (name email passHash : string) : M World unit := λ w,
  let t := w_access w in
  let id := at_user_seq t in
  let t := set_user_seq (id + 1)%Z t in
  let w := set_access t w in
  if negb (char_fits 255 name && char_fits 255 email && char_fits 255 passHash) then (Err truncation, w)
  else if exists_row (λ u, bool_decide (u_Email u = email)) (at_users t) then (Err unique_violation, w)
  else (Ok tt, set_access (set_users (<[id := mkUser id name email passHash false]> (at_users t)) t) w).

Definition rename_error {A} (e' : string) (c : M World A) : M World A := λ w,
  match c w with (Err _, w') => (Err e', w') | r => r end.

Definition InvitationAccept (salt plainToken name plainPassword : string) : M World unit :=
  let hash := hashInviteToken plainToken in
  let* found := rename_error "invitation is invalid or expired" (FindOpenByHash hash) in
  let '(email, _) := found in
  let name := TrimSpace name in
  let name := if bool_decide (name = EmptyString) then email else name in
  let passHash := Hash salt plainPassword DefaultParams in
  in_tx (
    rename_error "account already exists for this email" (stmt (insert_user name email passHash)) ;;;
    let* now := get w_now in
    stmt (on_access (mark_accepted (λ i, bool_decide (iv_TokenHash i = hash)) now))).

Definition InvitationValid (email plainToken : string) : M World bool :=
  let hash := hashInviteToken plainToken in
  let* now := get w_now in
  let* found := attempt (select_row at_invites (λ i, bool_decide (ToLower (iv_Email i) = ToLower email) && open_invitation hash now i)) in
  ret (match found with Ok (Some _) => true | _ => false end).

(** ** Credentials ([handler/auth], the login of [handler/dashboard]) *)

(** The account of an email and a password; [None] for wrong ones and for a failing query.
    An old hash is replaced. *)
Definition sign_in (salt email pass : string) : M World (option Z) :=
  let* found := attempt (select_row at_users (λ u, bool_decide (ToLower (u_Email u) = ToLower email))) in
  match found with
  | Ok (Some u) =>
      match Verify pass (u_Password u) with
      | Err _ => ret None
      | Ok _ =>
          (if NeedsRehash (u_Password u) then
             ignore (stmt (on_access (λ t, set_users (alter (λ u, mkUser (u_ID u) (u_Name u) (u_Email u) (Hash salt pass DefaultParams) (u_IsAdmin u))
               (u_ID u) (at_users t)) t)))
           else ret tt) ;;;
          ret (Some (u_ID u))
      end
  | _ => ret None
  end.

Inductive reply :=
| Redirect (url : string)
| SendText (status : Z) (body : string)
| Failed (e : http_error)
| DomainsPage (error host : string)
| InvitationPage (link : string)
| TokenJSON (token : string) (abilities : list string)
| UserJSON (id : Z) (name email : string).

Definition sending {A} (c : M World A) (ok : A → reply) (err : string → reply) : M World reply := λ w,
  match c w with (Ok a, w') => (Ok (ok a), w') | (Err e, w') => (Ok (err e), w') end.

(** [Handler.Token] *)
Definition TokenLogin (salt rnd email pass : string) : M World reply :=
  let* u := sign_in salt email pass in
  match u with
  | None => ret (Failed (401, "Invalid credentials."))
  | Some id => sending (Create rnd id "API Login" full_ability) (λ plain, TokenJSON plain full_ability) (λ e, Failed (500, e))
  end.

(** [Handler.User] *)
Definition TokenUser (authorization : string) : M World reply :=
  if negb (HasPrefix authorization "Bearer ") then ret (Failed (401, "Unauthenticated."))
  else
    sending (FindByPlaintext (TrimPrefix authorization "Bearer "))
      (λ o, match o with Some (_, u) => UserJSON (u_ID u) (u_Name u) (u_Email u) | None => Failed (401, "Unauthenticated.") end)
      (λ _, Failed (401, "Unauthenticated.")).

(** ** The dashboard ([handler/dashboard/handler.go]): the user of the session is an argument *)

(** What [ParseInt] gives when its error is dropped: 0, or the nearest int64. *)
Definition parseInt64 (s : string) : Z :=
  match signed s with
  | (_, EmptyString) => 0
  | (neg, r) => match digits_value 0 r with
                | None => 0
                | Some n => Z.max (- 2 ^ 63) (Z.min (2 ^ 63 - 1) (if (neg : bool) then - n else n))
                end
  end.

Class Resolver := LookupTXT : World → string → res (list string).
Context {DNS : Resolver}.

(** The reply, and the user the session now holds. *)
Definition Login (salt email pass : string) : M World (reply * option Z) :=
  let* u := sign_in salt email pass in
  match u with
  | None => ret (SendText 401 "Invalid credentials", None)
  | Some id => ret (Redirect "/dashboard/monitoring", Some id)
  end.

Definition requireAdmin (uid : Z) (next : M World reply) : M World reply :=
  let* admin := attempt (stmt (get (λ w, u_IsAdmin <$> at_users (w_access w) !! uid))) in
  match admin with
  | Ok (Some true) => next
  | _ => ret (Failed (403, "admin only"))
  end.

Definition domain_error (e : string) : string :=
  if bool_decide (e = ErrEmptyHostname) then "Hostname is required."
  else if bool_decide (e = ErrInvalidHostname) then "Hostname cannot start with staging."
  else if bool_decide (e = ErrNoDatasets) then "Select at least one MLS dataset."
  else if HasSuffix e ErrDuplicateDomain then "That domain is already registered."
  else e.

Definition StoreDomain (rnd : Draws) (uid : Z) (domain_slug : string) (datasets : list string) : M World reply :=
  let slug := ToLower (TrimSpace domain_slug) in
  match datasets with
  | [] => ret (DomainsPage "Select at least one MLS dataset." slug)
  | _ => sending (ProvisionBundle rnd uid (mkProvision slug datasets))
           (λ _, Redirect "/dashboard/domains#verify") (λ e, DomainsPage (domain_error e) slug)
  end.

(** [dns.VerifyTXT] *)
Definition VerifyTXTRecord (host expected : string) : M World bool :=
  let host := TrimSuffix (TrimSpace host) "." in
  let expected := TrimSpace expected in
  if bool_decide (host = EmptyString) || bool_decide (expected = EmptyString) then ret false
  else let* records := (λ w, (LookupTXT w host, w)) in ret (bool_decide (expected ∈ TrimSpace <$> records)).

Definition set_verified (now : Z) (d : Domain) : Domain :=
  mkDomain (d_ID d) (d_UserID d) (d_ParentDomainID d) (d_IsStaging d) (d_DomainSlug d) (d_IsActive d) (d_MLSDataset d)
    (d_AllowedMLSDatasets d) "verified" (d_VerificationMethod d) (d_TXTVerificationName d) (d_TXTVerificationValue d) (Some now).

Definition verify_error (msg : string) : reply := Redirect ("/dashboard/domains?verify_error=" +:+ QueryEscape msg).

Definition VerifyTXT (uid : Z) (param : string) : M World reply :=
  let missing := ret (Failed (404, "domain not found")) in
  match Atoi param with
  | None => missing
  | Some id =>
      let* found := attempt (domain_of_user uid id) in
      match found with
      | Ok (Some d) =>
          match d_TXTVerificationName d, d_TXTVerificationValue d with
          | Some name, Some val =>
              let* ok := attempt (VerifyTXTRecord name val) in
              match ok with
              | Err _ => ret (verify_error "DNS lookup failed. Try again in a moment.")
              | Ok false =>
                  ignore (stmt (ret tt)) ;;;
                  ret (verify_error ("TXT record not found for " +:+ d_DomainSlug d +:+ ". Publish the record at your DNS host, then try again."))
              | Ok true =>
                  let* now := get w_now in
                  stmt (on_access (λ t, set_domains (alter (λ d, if bool_decide (d_UserID d = Some uid) then set_verified now d else d) id (at_domains t)) t)) ;;;
                  ret (Redirect "/dashboard/domains?verified=1#domains")
              end
          | _, _ => missing
          end
      | _ => missing
      end
  end.

Definition RegenerateDomainToken (rnd : string) (uid : Z) (param : string) : M World reply :=
  let domainID := parseInt64 param in
  let* found := attempt (domain_of_user uid domainID) in
  match found with
  | Ok (Some d) =>
      sending (RegenerateForDomain rnd uid domainID (if d_IsStaging d then "Staging" else "Production") full_ability)
        (λ _, Redirect ("/dashboard/domains#domain-" +:+ show_int domainID))
        (λ _, Redirect ("/dashboard/domains?error=" +:+ QueryEscape "Could not regenerate API key."))
  | _ => ret (Failed (404, "domain not found"))
  end.

Definition DeleteBundle (uid : Z) (param : string) : M World reply :=
  sending (DeleteDomainBundle uid (parseInt64 param))
    (λ _, Redirect "/dashboard/domains?deleted=1#domains")
    (λ e, Redirect ("/dashboard/domains?error=" +:+ QueryEscape
       (if Contains e "not staging" || Contains e "production" then "Delete the production hostname row, not staging." else "Could not delete domain."))).

Definition RevokeToken (uid : Z) (param : string) : M World reply :=
  ignore (Revoke uid (parseInt64 param)) ;;; ret (Redirect "/dashboard/domains").

Definition CreateInvitation (rnd : string) (uid : Z) (email : string) : M World reply :=
  requireAdmin uid (sending (InvitationCreate rnd uid email) (λ plain, InvitationPage ("/invite/" +:+ plain)) (λ e, SendText 400 e)).

Definition AcceptInvitation (salt token name pass : string) : M World reply :=
  sending (InvitationAccept salt token name pass) (λ _, Redirect "/login") (λ e, SendText 400 e).

(** ** The gate ([middleware/domain_token.go]) *)

Record Credentials := mkCredentials {
  cq_Authorization : string;
  cq_XDomainSlug : string;
  cq_Domain : string;       (* the query parameter *)
  cq_Referer : string;
}.

Record Locals := mkLocals {
  lo_Auth : string;
  lo_Domain : Domain;
  lo_TokenName : option string;
  lo_UserID : option Z;
  lo_FullAccess : bool;
}.
Definition lo_DomainSlug (l : Locals) : string := d_DomainSlug (lo_Domain l).

Definition resolveSlugForToken (c : Credentials) : string :=
  let h := TrimSpace (cq_XDomainSlug c) in
  if bool_decide (h = EmptyString) then TrimSpace (cq_Domain c) else h.

Definition resolveSlug (c : Credentials) : string :=
  let s := resolveSlugForToken c in
  if negb (bool_decide (s = EmptyString)) then s
  else if bool_decide (cq_Referer c = EmptyString) then EmptyString
  else match url_Host (cq_Referer c) with Some h => ToLower (Hostname h) | None => EmptyString end.

(** [return fiber.NewError]: the request ends with [inr]. *)
Definition fail_with {A B} (c : M World A) (k : A → M World (B + http_error)) : M World (B + http_error) := λ w,
  match c w with (Ok a, w') => k a w' | (Err e, w') => (Ok (inr (500, e)), w') end.
Definition refuse {B} (status : Z) (msg : string) : M World (B + http_error) := ret (inr (status, msg)).

Definition handleToken (c : Credentials) (plain : string) : M World (Locals + http_error) :=
  fail_with (FindByPlaintext plain) (λ found,
  match found with
  | None => refuse 403 "Invalid API token."
  | Some (tok, user) =>
      if negb (HasAbility tok "idx:access") && negb (HasAbility tok "idx:full") then refuse 403 "Token is missing required IDX abilities."
      else
        let slug := resolveSlugForToken c in
        if bool_decide (slug = EmptyString) then
          refuse 400 "Missing domain identification. Send X-Domain-Slug (or ?domain=) matching a verified domain on your account."
        else
          let admitted (d : Domain) :=
            if negb (IsVerified d) then refuse 403 "Domain must be TXT-verified before API token access is allowed."
            else ret (inl (mkLocals "token" d (Some (k_Name tok)) (Some (u_ID user)) (HasAbility tok "idx:full"))) in
          match k_DomainID tok with
          | Some id =>
              fail_with (FindActiveByIDForUser (u_ID user) id) (λ d,
              match d with
              | Some d => if EqualFold (d_DomainSlug d) slug then admitted d else refuse 403 "API token is not valid for this domain."
              | None => refuse 403 "API token is not valid for this domain."
              end)
          | None =>
              fail_with (FindActiveForUser (u_ID user) slug) (λ d,
              match d with
              | Some d => admitted d
              | None => refuse 403 "Domain is not registered, inactive, or not owned by this token."
              end)
          end
  end).

Definition handleDomain (c : Credentials) : M World (Locals + http_error) :=
  let slug := resolveSlug c in
  if bool_decide (slug = EmptyString) then refuse 401 "Missing domain identification."
  else
    fail_with (FindActiveBySlug slug) (λ d,
    match d with
    | Some d => ret (inl (mkLocals "domain" d None None true))
    | None => refuse 403 "Domain is not registered or inactive."
    end).

Definition DomainToken (c : Credentials) : M World (Locals + http_error) :=
  let auth := cq_Authorization c in
  if HasPrefix auth "Bearer " then handleToken c (TrimSpace (TrimPrefix auth "Bearer ")) else handleDomain c.
End Access.
