(* ===== verification/AuditLog.v ===== *)
(** * Whom a request is served for, and the audit log ([service/audit])

    A request past the middlewares carries its domain, its feed and its account. *)

From Stdlib Require Import Ascii String.
From stdpp Require Import gmap strings.
From S2P Require Import Prelude GoStrings AccessData Database Caches Feeds Access.

Open Scope string_scope.

(** The locals of a request that its handler reads. *)
Record Scope := mkScopeLocals {
  sl_DomainSlug : string;
  sl_FeedCode : string;
  sl_Feed : option FeedDefinition;
  sl_TokenName : option string;
  sl_UserID : option Z;
  sl_FullAccess : bool;
  sl_IP : string;
}.

Definition nullStr (s : string) : option string := if bool_decide (s = EmptyString) then None else Some s.

Definition fits_opt (n : Z) (o : option string) : bool := match o with Some s => char_fits n s | None => true end.

Section Audit.
Context {F : Faults}.

Definition insert_audit (r : audit_row) : M World unit := λ w,
  if negb (fits_opt 255 (au_domain_slug r) && fits_opt 255 (au_token_name r) && char_fits 255 (au_request_type r) &&
           char_fits 45 (au_ip_address r) && fits_opt 8 (au_cache_hit r)) then (Err truncation, w)
  else if match au_user_id r with Some u => negb (bool_decide (is_Some (at_users (w_access w) !! u))) | None => false end then (Err fk_violation, w)
  else on_access (λ t, set_audit (r :: at_audit t) t) w.

(** [Logger.Log]: what the insertion says is dropped. *)
Definition Log (scope : Scope) (requestType : string) (listingCount : option Z) (cacheHit : option string) : M World unit :=
  let* now := get w_now in
  ignore (stmt (insert_audit (mkAudit now (nullStr (sl_DomainSlug scope)) (sl_TokenName scope) requestType listingCount
    (sl_IP scope) (sl_UserID scope) cacheHit))).

(** An entry never changes anything else. *)
Lemma Log_inv scope ty n hit w : ∃ t, Log scope ty n hit w = (Ok tt, set_access t (set_ops (S (w_ops w)) w)) ∧
  (t = w_access w ∨ ∃ r, au_cache_hit r = hit ∧ au_logged_at r = w_now w ∧ t = set_audit (r :: at_audit (w_access w)) (w_access w)).
Proof.
  unfold Log. rewrite (bind_ok (get w_now) _ w (w_now w) w) by done. unfold ignore, stmt.
  assert (Hsame : set_ops (S (w_ops w)) w = set_access (w_access w) (set_ops (S (w_ops w)) w)) by (by destruct w).
  destruct (fault (w_ops w)); [exists (w_access w); rewrite <- Hsame; by split; [|left]|]. unfold insert_audit.
  destruct (negb _); [exists (w_access w); rewrite <- Hsame; by split; [|left]|].
  destruct (match _ with Some _ => _ | None => _ end); [exists (w_access w); rewrite <- Hsame; by split; [|left]|].
  eexists. split; [done|]. right. eexists. split_and!; [..|reflexivity]; reflexivity.
Qed.

Lemma Log_after scope ty n hit w u w' : Log scope ty n hit w = (Ok u, w') → ∃ t, w' = set_access t (set_ops (S (w_ops w)) w).
Proof. destruct (Log_inv scope ty n hit w) as (t & -> & _). intros [= _ <-]. by exists t. Qed.
End Audit.
