(* ===== verification/AccessLaws.v ===== *)
(** * What the account tables keep, and what the gate grants *)

From Stdlib Require Import Ascii String.
From stdpp Require Import gmap strings list.
From S2P Require Import Prelude GoStrings GoTime GoUrl GoNum GoJson Payload AccessData Config CacheData Database Caches Feeds Password Upstream Access.

Open Scope string_scope.

(** ** Consistent tables *)

(** No two rows share the key [f] gives them. *)
Definition unique_on {A K} (f : A → option K) (m : gmap Z A) : Prop :=
  ∀ i j a b k, m !! i = Some a → m !! j = Some b → f a = Some k → f b = Some k → i = j.

Record consistent (t : AccessTables) : Prop := {
  ok_user_ids : ∀ i u, at_users t !! i = Some u → u_ID u = i ∧ (i < at_user_seq t)%Z;
  ok_emails : unique_on (λ u, Some (u_Email u)) (at_users t);
  ok_domain_ids : ∀ i d, at_domains t !! i = Some d → d_ID d = i ∧ (i < at_domain_seq t)%Z;
  ok_slugs : unique_on (λ d, Some (d_DomainSlug d)) (at_domains t);
  ok_parents : ∀ i d p, at_domains t !! i = Some d → d_ParentDomainID d = Some p →
    ∃ q, at_domains t !! p = Some q ∧ d_ParentDomainID q = None;
  ok_token_ids : ∀ i k, at_tokens t !! i = Some k → k_ID k = i ∧ (i < at_token_seq t)%Z;
  ok_hashes : unique_on (λ k, Some (k_TokenHash k)) (at_tokens t);
  ok_bindings : unique_on k_DomainID (at_tokens t);
  ok_bound : ∀ i k d, at_tokens t !! i = Some k → k_DomainID k = Some d → is_Some (at_domains t !! d);
  ok_invite_ids : ∀ i v, at_invites t !! i = Some v → (i < at_invite_seq t)%Z;
  ok_invites : unique_on (λ v, Some (iv_TokenHash v)) (at_invites t);
}.

(** The sequences only go forward. *)
Definition seq_le (t t' : AccessTables) : Prop :=
  (at_user_seq t <= at_user_seq t')%Z ∧ (at_domain_seq t <= at_domain_seq t')%Z ∧
  (at_token_seq t <= at_token_seq t')%Z ∧ (at_invite_seq t <= at_invite_seq t')%Z.

#[export] Instance seq_le_refl : Reflexive seq_le.
Proof. intros t. unfold seq_le. lia. Qed.
#[export] Instance seq_le_trans : Transitive seq_le.
Proof. intros a b c. unfold seq_le. lia. Qed.

Lemma rollback_consistent t0 t : consistent t0 → seq_le t0 t → consistent (rollback_access t0 t).
Proof.
  intros H (H1 & H2 & H3 & H4). destruct H. split; cbn; try done.
  - intros i u Hi. destruct (ok_user_ids0 i u Hi). split; [done|lia].
  - intros i u Hi. destruct (ok_domain_ids0 i u Hi). split; [done|lia].
  - intros i u Hi. destruct (ok_token_ids0 i u Hi). split; [done|lia].
  - intros i u Hi. specialize (ok_invite_ids0 i u Hi). lia.
Qed.

(** A computation under which the tables stay consistent. *)
Definition sound {A} (c : M World A) : Prop :=
  ∀ w, consistent (w_access w) → consistent (w_access (c w).2) ∧ seq_le (w_access w) (w_access (c w).2).

Lemma sound_keeps {A} (c : M World A) : keeps w_access c → sound c.
Proof. intros H w Hw. rewrite H. by split. Qed.

Lemma sound_bind {A B} (c : M World A) (k : A → M World B) : sound c → (∀ a, sound (k a)) → sound (bind c k).
Proof.
  intros Hc Hk w Hw. specialize (Hc w Hw) as [H1 H2]. unfold bind. destruct (c w) as [[a|e] w1]; cbn in *; [|done].
  destruct (Hk a w1 H1) as [H3 H4]. split; [done|by etrans].
Qed.

Lemma sound_of {A B} (c : M World A) (k : res A * World → res B * World) :
  (∀ r, (k r).2 = r.2) → sound c → sound (λ w, k (c w)).
Proof. intros Hk Hc w Hw. cbn. rewrite Hk. by apply Hc. Qed.

Lemma sound_ignore {A} (c : M World A) : sound c → sound (ignore c).
Proof. by apply (sound_of c (λ r, (Ok tt, r.2))). Qed.

(** The same where the tables satisfy [P] at the start. *)
Definition sound_when {A} (P : AccessTables → Prop) (c : M World A) : Prop :=
  ∀ w, P (w_access w) → consistent (w_access w) → consistent (w_access (c w).2) ∧ seq_le (w_access w) (w_access (c w).2).

(** [Q] holds where [c] succeeds. *)
Definition yields {A} (c : M World A) (Q : A → AccessTables → Prop) : Prop := ∀ w a w', c w = (Ok a, w') → Q a (w_access w').

Lemma sound_bind_when {A B} P (c : M World A) (k : A → M World B) Q :
  sound_when P c → yields c Q → (∀ a, sound_when (Q a) (k a)) → sound_when P (bind c k).
Proof.
  intros Hc HQ Hk w HP Hw. specialize (Hc w HP Hw) as [H1 H2]. specialize (HQ w). unfold bind.
  destruct (c w) as [[a|e] w1]; cbn in *; [|done].
  destruct (Hk a w1 (HQ a w1 eq_refl) H1) as [H3 H4]. split; [done|by etrans].
Qed.

Lemma sound_any {A} P (c : M World A) : sound c → sound_when P c.
Proof. intros H w _. apply H. Qed.

Lemma sound_of_when {A} (c : M World A) : sound_when (λ _, True) c → sound c.
Proof. intros H w. by apply H. Qed.

Lemma sound_attempt {A} (c : M World A) : sound c → sound (attempt c).
Proof. by apply (sound_of c (λ r, (Ok r.1, r.2))). Qed.

Section Sound.
Context {F : Faults}.

Lemma sound_stmt {A} (c : M World A) : sound c → sound (stmt c).
Proof. intros Hc w Hw. unfold stmt. destruct (fault _); cbn; [by split|]. exact (Hc (set_ops _ w) Hw). Qed.

Lemma sound_tx {A} (c : M World (option A)) : sound c → sound (tx c).
Proof.
  intros Hc w Hw. unfold tx, stmt. destruct (fault (w_ops w)); [by split|].
  pose proof (Hc (set_ops (S (w_ops w)) w) Hw) as [H1 H2]. cbn [ret]. unfold ret at 1.
  destruct (c _) as [[[a|]|e] w1]; cbn in *.
  - destruct (fault (w_ops w1)); cbn; [|done]. split; [by apply rollback_consistent|done].
  - split; [by apply rollback_consistent|done].
  - split; [by apply rollback_consistent|done].
Qed.

Lemma sound_in_tx {A} (c : M World A) : sound c → sound (in_tx c).
Proof.
  intros Hc. unfold in_tx. apply sound_bind.
  - apply sound_tx, sound_bind; [done|]. intros a. by apply sound_keeps.
  - intros [a|]; by apply sound_keeps.
Qed.

Lemma sound_reads {A} (f : World → A) : sound (stmt (get f)).
Proof. apply sound_stmt. by apply sound_keeps. Qed.
End Sound.

(** ** Changes of a table *)

Lemma unique_on_from {A K} (f : A → option K) m m' :
  unique_on f m → (∀ i b, m' !! i = Some b → ∃ a, m !! i = Some a ∧ f a = f b) → unique_on f m'.
Proof.
  intros H Hm i j a b k Ha Hb Hka Hkb. apply Hm in Ha as (a' & Ha & Ea). apply Hm in Hb as (b' & Hb & Eb).
  eapply H; [exact Ha|exact Hb|by rewrite Ea|by rewrite Eb].
Qed.

Lemma unique_on_insert {A K} (f : A → option K) m i a :
  unique_on f m → (∀ j b k, m !! j = Some b → f b = Some k → f a ≠ Some k) → unique_on f (<[i := a]> m).
Proof.
  intros H Hn i1 i2 b c k Hb Hc Hkb Hkc. rewrite lookup_insert_Some in Hb, Hc.
  destruct Hb as [[<- <-]|[_ Hb]], Hc as [[<- <-]|[_ Hc]]; [done|by destruct (Hn _ _ _ Hc Hkc)|by destruct (Hn _ _ _ Hb Hkb)|].
  by eapply H.
Qed.

Lemma exists_row_false {A} (p : A → bool) (m : gmap Z A) :
  exists_row p m = false → ∀ i a, m !! i = Some a → p a = false.
Proof.
  intros H i a Ha. apply bool_decide_eq_false in H. destruct (p a) eqn:E; [|done]. exfalso. apply H.
  intros Hm. assert (filter (λ kv, p kv.2 = true) m !! i = Some a) as Hi by (by apply map_lookup_filter_Some).
  by rewrite Hm in Hi.
Qed.

Lemma exists_row_true {A} (p : A → bool) (m : gmap Z A) : exists_row p m = true → ∃ i a, m !! i = Some a ∧ p a = true.
Proof.
  intros H. apply bool_decide_eq_true in H. apply map_choose in H as (i & a & H).
  apply map_lookup_filter_Some in H as [H1 H2]. eauto.
Qed.

Lemma first_row_Some {RO : RowOrder} {A} (p : A → bool) (m : gmap Z A) a :
  first_row p m = Some a → ∃ i, m !! i = Some a ∧ p a = true.
Proof.
  unfold first_row. intros H%head_Some_elem_of. rewrite row_order_perm, list_elem_of_filter in H.
  destruct H as [Hp ([i b] & -> & Hi%elem_of_map_to_list)%list_elem_of_fmap]. eauto.
Qed.

Lemma first_row_None {RO : RowOrder} {A} (p : A → bool) (m : gmap Z A) :
  first_row p m = None → ∀ i a, m !! i = Some a → p a = false.
Proof.
  unfold first_row. intros H%head_None i a Ha. destruct (p a) eqn:E; [|done]. exfalso.
  assert (a ∈ row_order _ (filter (λ a, p a = true) (map_to_list m).*2)) as Hin.
  { rewrite row_order_perm, list_elem_of_filter. split; [done|]. apply list_elem_of_fmap.
    exists (i, a). split; [done|by apply elem_of_map_to_list]. }
  rewrite H in Hin. by apply elem_of_nil in Hin.
Qed.

(** Tokens of the old rows, possibly fewer and possibly touched. *)
Lemma tokens_consistent t m :
  consistent t → (∀ i b, m !! i = Some b → ∃ a, at_tokens t !! i = Some a ∧ k_ID a = k_ID b ∧ k_TokenHash a = k_TokenHash b ∧ k_DomainID a = k_DomainID b) →
  consistent (set_tokens m t).
Proof.
  intros H Hm. destruct H. split; cbn; try done.
  - intros i k Hi. apply Hm in Hi as (a & Hi & <- & _). by apply ok_token_ids0.
  - eapply unique_on_from; [done|]. intros i b Hi. apply Hm in Hi as (a & Hi & _ & E & _). exists a. by rewrite E.
  - eapply unique_on_from; [done|]. intros i b Hi. apply Hm in Hi as (a & Hi & _ & _ & E). by exists a.
  - intros i k d Hi Hk. apply Hm in Hi as (a & Hi & _ & _ & E). eapply ok_bound0; [done|by rewrite E].
Qed.

Lemma sound_on_access {F : Faults} (f : AccessTables → AccessTables) :
  (∀ t, consistent t → consistent (f t) ∧ seq_le t (f t)) → sound (stmt (on_access f)).
Proof. intros H. apply sound_stmt. intros w Hw. cbn. by apply H. Qed.

Section Ops.
Context {F : Faults} {RO : RowOrder} {PL : PasswordLib} (sha256_hex : string → string) (cfg : Config).

Lemma sound_insert_token userID d name hash ab : sound (insert_token userID d name hash ab).
Proof.
  intros w Hw. unfold insert_token. set (t := set_token_seq _ _). cbv zeta.
  assert (Ht : consistent t ∧ seq_le (w_access w) t).
  { unfold t. split; [|unfold seq_le; cbn; lia]. destruct Hw. split; cbn; try done. intros i k Hi. destruct (ok_token_ids0 i k Hi). split; [done|lia]. }
  assert (Hfresh : ∀ i k, at_tokens t !! i = Some k → (i < at_token_seq (w_access w))%Z) by (intros i k Hi; by destruct (ok_token_ids _ Hw i k Hi)).
  destruct Ht as [Ht1 Ht2].
  destruct (negb _); [done|]. destruct (exists_row _ _) eqn:Eh; [done|]. pose proof (exists_row_false _ _ Eh) as Hh. clear Eh.
  assert (Hins : ∀ k, k_ID k = at_token_seq (w_access w) → k_TokenHash k = hash →
    (∀ x, k_DomainID k = Some x → is_Some (at_domains t !! x) ∧ ∀ j b, at_tokens t !! j = Some b → k_DomainID b ≠ Some x) →
    consistent (set_tokens (<[at_token_seq (w_access w) := k]> (at_tokens t)) t)).
  { intros k Hid Hkh Hkd. destruct Ht1. split; cbn; try done.
    - intros i b. rewrite lookup_insert_Some. intros [[<- <-]|[_ Hi]]; [split; [done|lia]|by apply ok_token_ids0].
    - apply unique_on_insert; [done|]. intros j b x Hb [= <-] [= E]. specialize (Hh j b Hb). apply bool_decide_eq_false in Hh. congruence.
    - apply unique_on_insert; [done|]. intros j b x Hb Hbx Hx. by apply (proj2 (Hkd x Hx) j b).
    - intros i b x. rewrite lookup_insert_Some. intros [[<- <-]|[_ Hi]] Hx; [by apply Hkd|by eapply ok_bound0]. }
  destruct d as [d|].
  - destruct (exists_row _ _) eqn:Ed; [done|]. pose proof (exists_row_false _ _ Ed) as Hd.
    destruct (negb _) eqn:Ef; [done|]. apply negb_false_iff, bool_decide_eq_true in Ef. cbn. split; [|done].
    apply Hins; [done|done|]. cbn. intros x [= <-]. split; [done|]. intros j b Hb E. specialize (Hd j b Hb). by apply bool_decide_eq_false in Hd.
  - cbn. split; [|done]. by apply Hins.
Qed.

Lemma sound_createToken rnd u d n ab : sound (createToken sha256_hex rnd u d n ab).
Proof. unfold createToken. apply sound_bind; [apply sound_stmt, sound_insert_token|]. intros ?. by apply sound_keeps. Qed.

Lemma sound_touch now id : sound (stmt (on_access (touch_token now id))).
Proof.
  apply sound_on_access. intros t Ht. split; [|unfold seq_le; cbn; lia]. apply tokens_consistent; [done|].
  intros i b. rewrite lookup_alter_Some. intros [(-> & a & Ha & ->)|[_ Ha]]; [by exists a|by exists b].
Qed.

Lemma sound_FindByPlaintext plain : sound (FindByPlaintext sha256_hex plain).
Proof.
  unfold FindByPlaintext. apply sound_bind; [apply sound_reads|]. intros [tok|]; [|by apply sound_keeps].
  apply sound_bind; [by apply sound_keeps|]. intros now. destruct (expired _ _); [by apply sound_keeps|].
  apply sound_bind; [apply sound_reads|]. intros [u|]; [|by apply sound_keeps].
  apply sound_bind; [|intros ?; by apply sound_keeps]. apply sound_ignore, sound_touch.
Qed.

Lemma sound_Revoke u id : sound (Revoke u id).
Proof.
  unfold Revoke. apply sound_bind; [|intros n; case_match; by apply sound_keeps]. apply sound_stmt. intros w Hw. cbn.
  split; [|unfold seq_le; cbn; lia]. apply tokens_consistent; [done|]. intros i b [Hb _]%lookup_difference_Some. by exists b.
Qed.

Lemma sound_Regenerate rnd u d n ab : sound (RegenerateForDomain sha256_hex rnd u d n ab).
Proof.
  unfold RegenerateForDomain. apply sound_in_tx, sound_bind; [apply sound_reads|]. intros [[o|]|]; [|by apply sound_keeps..].
  destruct (negb _); [by apply sound_keeps|]. apply sound_bind; [|intros _; apply sound_createToken].
  apply sound_on_access. intros t Ht. split; [|unfold seq_le; cbn; lia]. apply tokens_consistent; [done|].
  intros i b [Hb _]%map_lookup_filter_Some. by exists b.
Qed.

(** *** Domains *)

Definition is_root (id : option Z) (t : AccessTables) : Prop :=
  match id with Some p => ∀ d, at_domains t !! p = Some d → d_ParentDomainID d = None | None => True end.

Lemma sound_insert_domain p : sound_when (is_root (dp_ParentDomainID p)) (insert_domain p).
Proof.
  intros w HP Hw. unfold insert_domain. set (t := set_domain_seq _ _). cbv zeta.
  assert (Ht : consistent t ∧ seq_le (w_access w) t).
  { unfold t. split; [|unfold seq_le; cbn; lia]. destruct Hw. split; cbn; try done. intros i d Hi. destruct (ok_domain_ids0 i d Hi). split; [done|lia]. }
  assert (Hfresh : at_domains t !! at_domain_seq (w_access w) = None).
  { destruct (at_domains t !! _) as [d|] eqn:E; [|done]. apply (ok_domain_ids _ Hw) in E as [_ E]. lia. }
  destruct Ht as [Ht1 Ht2].
  destruct (negb _); [done|]. destruct (exists_row _ _) eqn:Eh; [done|]. pose proof (exists_row_false _ _ Eh) as Hh. clear Eh.
  destruct (negb _); [done|].
  assert (Hpar : ∀ x, dp_ParentDomainID p = Some x → (if match dp_ParentDomainID p with Some d => negb (bool_decide (is_Some (at_domains t !! d))) | None => false end then true else false) = false →
    ∃ q, at_domains t !! x = Some q ∧ d_ParentDomainID q = None).
  { intros x Hx. rewrite Hx. destruct (negb _) eqn:E; [done|]. apply negb_false_iff, bool_decide_eq_true in E as [q Hq]. intros _.
    rewrite Hx in HP. exists q. split; [done|]. by apply HP. }
  destruct (match dp_ParentDomainID p with Some d => negb _ | None => false end); [done|]. cbn. split; [|done].
  destruct Ht1. split; cbn; try done.
  - intros i d. rewrite lookup_insert_Some. intros [[<- <-]|[_ Hi]]; [split; [done|cbn; lia]|by apply ok_domain_ids0].
  - apply unique_on_insert; [done|]. intros j b x Hb [= <-] [= E]. specialize (Hh j b Hb). apply bool_decide_eq_false in Hh. congruence.
  - intros i d x Hi Hx. assert (∃ q, at_domains t !! x = Some q ∧ d_ParentDomainID q = None) as (q & Hq & Hn).
    { rewrite lookup_insert_Some in Hi. destruct Hi as [[<- <-]|[_ Hi]]; [by apply Hpar|by eapply ok_parents0]. }
    exists q. split; [|done]. rewrite lookup_insert_ne; [done|]. intros <-. congruence.
  - intros i k d Hi Hd. rewrite lookup_insert_is_Some. destruct (decide (at_domain_seq (w_access w) = d)); [by left|right]. split; [done|by eapply ok_bound0].
Qed.

Lemma sound_created rename p : sound_when (is_root (dp_ParentDomainID p)) (created rename p).
Proof.
  intros w HP Hw. unfold created, CreateDomain, stmt. destruct (fault _); [by split|].
  pose proof (sound_insert_domain p (set_ops (S (w_ops w)) w) HP Hw) as H.
  by destruct (insert_domain p (set_ops (S (w_ops w)) w)) as [[id|e] w1].
Qed.

Lemma created_inv rename p w id w' : created rename p w = (Ok id, w') →
  insert_domain p (set_ops (S (w_ops w)) w) = (Ok id, w') ∧ fault (w_ops w) = false.
Proof.
  unfold created, CreateDomain, stmt. destruct (fault _); [done|].
  by destruct (insert_domain p (set_ops (S (w_ops w)) w)) as [[i|e] w1]; [intros [= <- <-]|].
Qed.

(** What a successful insertion writes. *)
Lemma insert_domain_inv p w id w' : insert_domain p w = (Ok id, w') →
  id = at_domain_seq (w_access w) ∧
  w' = set_access (set_domains (<[id := domain_of id p]> (at_domains (w_access w))) (set_domain_seq (id + 1)%Z (w_access w))) w ∧
  is_Some (at_users (w_access w) !! dp_UserID p) ∧
  (∀ i d, at_domains (w_access w) !! i = Some d → d_DomainSlug d ≠ dp_DomainSlug p).
Proof.
  unfold insert_domain. destruct (negb _); [done|]. destruct (exists_row _ _) eqn:Eh; [done|].
  destruct (negb _) eqn:Eu; [done|]. destruct (match _ with Some _ => _ | None => _ end); [done|]. intros [= <- <-].
  split; [done|]. split; [done|]. apply negb_false_iff, bool_decide_eq_true in Eu. split; [done|].
  intros i d Hd. by apply (exists_row_false _ _ Eh), bool_decide_eq_false in Hd.
Qed.

Lemma created_yields rename p : yields (created rename p) (λ id t, ∃ i, at_domains t !! id = Some (domain_of i p)).
Proof.
  intros w id w' [(Hid & -> & _)%insert_domain_inv _]%created_inv. cbn. exists id. by rewrite lookup_insert_eq.
Qed.

Lemma sound_ProvisionBundle rnd u req : sound (ProvisionBundle sha256_hex rnd u req).
Proof.
  unfold ProvisionBundle. cbv zeta. destruct (bool_decide _); [by apply sound_keeps|]. destruct (HasPrefix _ _); [by apply sound_keeps|].
  destruct (pr_Datasets req) as [|ds l]; [by apply sound_keeps|]. apply sound_in_tx. apply sound_of_when.
  eapply sound_bind_when; [intros w _; by apply sound_created|apply created_yields|]. intros prod. apply sound_bind_when with (Q := λ _ _, True).
  - intros w (i & Hi). apply sound_created. intros d. cbn. rewrite Hi. by intros [= <-].
  - done.
  - intros stag. apply sound_any. apply sound_bind; [apply sound_createToken|]. intros ?.
    apply sound_bind; [apply sound_createToken|]. intros ?. by apply sound_keeps.
Qed.

(** *** Deleting domains *)

Lemma elem_of_with_children ds ids i :
  i ∈ with_children ds ids ↔ i ∈ ids ∨ ∃ d p, ds !! i = Some d ∧ d_ParentDomainID d = Some p ∧ p ∈ ids.
Proof.
  unfold with_children. rewrite elem_of_union, elem_of_dom. split; (intros [H|H]; [by left|right]).
  - destruct H as [d [H1 H2]%map_lookup_filter_Some]. unfold refers_to in H2. cbn in H2. destruct (d_ParentDomainID d) as [p|] eqn:E; [|done].
    apply bool_decide_eq_true in H2. eauto.
  - destruct H as (d & p & Hd & Hp & Hin). exists d. apply map_lookup_filter_Some. split; [done|]. cbn. rewrite Hp. by apply bool_decide_eq_true.
Qed.

Lemma descendants_closed n ds ids : with_children ds ids = ids → descendants n ds ids = ids.
Proof. intros H. induction n as [|n IH]; [done|]. cbn. by rewrite H. Qed.

(** Below a domain of two-level tables there are its staging domains and nothing else. *)
Lemma descendants_two_level t id i : consistent t → is_Some (at_domains t !! id) →
  i ∈ descendants (size (at_domains t)) (at_domains t) {[id]} ↔
  i = id ∨ ∃ d, at_domains t !! i = Some d ∧ d_ParentDomainID d = Some id.
Proof.
  intros H [d0 Hid]. assert (∃ n, size (at_domains t) = S n) as [n ->].
  { destruct (size (at_domains t)) as [|n] eqn:E; [|by exists n]. apply map_size_empty_inv in E. by rewrite E in Hid. }
  cbn. rewrite descendants_closed.
  - rewrite elem_of_with_children, elem_of_singleton. split; (intros [H1|H1]; [by left|right]).
    + destruct H1 as (d & p & Hd & Hp & ->%elem_of_singleton). by exists d.
    + destruct H1 as (d & Hd & Hp). exists d, id. by rewrite elem_of_singleton.
  - apply set_eq. intros j. rewrite elem_of_with_children. split; [intros [Hj|(d & p & Hd & Hp & Hin)]; [done|]|by left].
    apply elem_of_with_children. right. exists d, p. split; [done|]. split; [done|]. apply elem_of_singleton.
    apply elem_of_with_children in Hin as [Hin%elem_of_singleton|(d' & p' & Hd' & Hp' & _)]; [done|].
    destruct (ok_parents t H j d p Hd Hp) as (q & Hq & Hn). congruence.
Qed.

Lemma consistent_delete_domain t id : consistent t → is_Some (at_domains t !! id) → consistent (delete_domain id t).
Proof.
  intros H Hid. pose proof (λ i, descendants_two_level t id i H Hid) as Hg. unfold delete_domain. cbv zeta.
  set (gone := descendants _ _ _) in *. clearbody gone.
  assert (Hd : ∀ i d, filter (λ kv, kv.1 ∉ gone) (at_domains t) !! i = Some d ↔ at_domains t !! i = Some d ∧ i ∉ gone).
  { intros i d. by rewrite map_lookup_filter_Some. }
  assert (Ht : ∀ i k, filter (λ kv, refers_to gone (k_DomainID kv.2) = false) (at_tokens t) !! i = Some k → at_tokens t !! i = Some k).
  { by intros i k [? _]%map_lookup_filter_Some. }
  destruct H. split; cbn; try done.
  - intros i d [Hi _]%Hd. by apply ok_domain_ids0.
  - eapply unique_on_from; [done|]. intros i d [Hi _]%Hd. by exists d.
  - intros i d p [Hi Hni]%Hd Hp. destruct (ok_parents0 i d p Hi Hp) as (q & Hq & Hn). exists q. split; [|done]. apply Hd. split; [done|].
    rewrite Hg. intros [->|(d' & Hd' & Hp')]; [|congruence]. apply Hni, Hg. right. by exists d.
  - intros i k Hi%Ht. by apply ok_token_ids0.
  - eapply unique_on_from; [done|]. intros i k Hi%Ht. by exists k.
  - eapply unique_on_from; [done|]. intros i k Hi%Ht. by exists k.
  - intros i k d [Hi Hk]%map_lookup_filter_Some Hd'. destruct (ok_bound0 i k d Hi Hd') as [x Hx]. exists x. apply Hd. split; [done|].
    cbn in Hk. rewrite Hd' in Hk. by apply bool_decide_eq_false in Hk.
Qed.

Lemma sound_DeleteDomainBundle u id : sound (DeleteDomainBundle u id).
Proof.
  unfold DeleteDomainBundle. apply sound_in_tx, sound_of_when. apply sound_bind_when with (Q := λ o t, if o is Some d then is_Some (at_domains t !! id) else True).
  - apply sound_any, sound_reads.
  - intros w o w'. unfold domain_of_user, stmt. destruct (fault _); [done|]. intros [= <- <-]. cbn.
    destruct (at_domains _ !! id) as [d|]; cbn; [|done]. by case_bool_decide.
  - intros [d|]; [|by apply sound_any, sound_keeps]. destruct (_ || _); [by apply sound_any, sound_keeps|].
    intros w Hd Hw. unfold stmt. destruct (fault _); [by split|]. cbn. split; [by apply consistent_delete_domain|].
    unfold seq_le, delete_domain; cbn; lia.
Qed.

(** *** Accounts and invitations *)

(** Rows of the old ones, with the same keys. *)
Lemma invites_consistent t m :
  consistent t → (∀ i b, m !! i = Some b → ∃ a, at_invites t !! i = Some a ∧ iv_TokenHash a = iv_TokenHash b) → consistent (set_invites m t).
Proof.
  intros H Hm. destruct H. split; cbn; try done.
  - intros i v Hi. apply Hm in Hi as (a & Hi & _). by eapply ok_invite_ids0.
  - eapply unique_on_from; [done|]. intros i v Hi. apply Hm in Hi as (a & Hi & E). exists a. by rewrite E.
Qed.

Lemma users_consistent t m :
  consistent t → (∀ i b, m !! i = Some b → ∃ a, at_users t !! i = Some a ∧ u_ID a = u_ID b ∧ u_Email a = u_Email b) → consistent (set_users m t).
Proof.
  intros H Hm. destruct H. split; cbn; try done.
  - intros i u Hi. apply Hm in Hi as (a & Hi & <- & _). by apply ok_user_ids0.
  - eapply unique_on_from; [done|]. intros i u Hi. apply Hm in Hi as (a & Hi & _ & E). exists a. by rewrite E.
Qed.

Lemma domains_consistent t m :
  consistent t → (∀ i, is_Some (m !! i) ↔ is_Some (at_domains t !! i)) →
  (∀ i b, m !! i = Some b → ∃ a, at_domains t !! i = Some a ∧ d_ID a = d_ID b ∧ d_DomainSlug a = d_DomainSlug b ∧ d_ParentDomainID a = d_ParentDomainID b) →
  consistent (set_domains m t).
Proof.
  intros H Hdom Hm. destruct H. split; cbn; try done.
  - intros i d Hi. apply Hm in Hi as (a & Hi & <- & _). by apply ok_domain_ids0.
  - eapply unique_on_from; [done|]. intros i d Hi. apply Hm in Hi as (a & Hi & _ & E & _). exists a. by rewrite E.
  - intros i d p Hi Hp. apply Hm in Hi as (a & Hi & _ & _ & E). rewrite Hp in E.
    destruct (ok_parents0 i a p Hi E) as (q & Hq & Hn). assert (is_Some (m !! p)) as [q' Hq'] by (by apply Hdom; exists q).
    exists q'. split; [done|]. apply Hm in Hq' as (q2 & Hq2 & _ & _ & E2). congruence.
  - intros i k d Hk Hd. apply Hdom. by eapply ok_bound0.
Qed.

Lemma sound_insert_invitation email hash u x : sound (insert_invitation email hash u x).
Proof.
  intros w Hw. unfold insert_invitation. set (t := set_invite_seq _ _). cbv zeta.
  assert (Ht1 : consistent t).
  { unfold t. destruct Hw. split; cbn; try done. intros i v Hi. specialize (ok_invite_ids0 i v Hi). lia. }
  assert (Ht2 : seq_le (w_access w) t) by (unfold t, seq_le; cbn; lia).
  destruct (negb _); [done|]. destruct (exists_row _ _) eqn:Eh; [done|]. pose proof (exists_row_false _ _ Eh) as Hh. clear Eh.
  destruct (negb _); [done|]. cbn. split; [|done]. destruct Ht1. split; cbn; try done.
  - intros i v. rewrite lookup_insert_Some. intros [[<- _]|[_ Hi]]; [lia|by eapply ok_invite_ids0].
  - apply unique_on_insert; [done|]. intros j b y Hb [= <-] [= E]. specialize (Hh j b Hb). apply bool_decide_eq_false in Hh. congruence.
Qed.

Lemma sound_InvitationCreate rnd u email : sound (InvitationCreate sha256_hex cfg rnd u email).
Proof.
  unfold InvitationCreate. cbv zeta. destruct (bool_decide _); [by apply sound_keeps|].
  apply sound_bind; [by apply sound_keeps|]. intros now.
  apply sound_bind; [apply sound_stmt, sound_insert_invitation|]. intros ?. by apply sound_keeps.
Qed.

Lemma sound_insert_user name email h : sound (insert_user name email h).
Proof.
  intros w Hw. unfold insert_user. set (t := set_user_seq _ _). cbv zeta.
  assert (Ht1 : consistent t).
  { unfold t. destruct Hw. split; cbn; try done. intros i v Hi. destruct (ok_user_ids0 i v Hi). split; [done|lia]. }
  assert (Ht2 : seq_le (w_access w) t) by (unfold t, seq_le; cbn; lia).
  destruct (negb _); [done|]. destruct (exists_row _ _) eqn:Eh; [done|]. pose proof (exists_row_false _ _ Eh) as Hh. clear Eh.
  cbn. split; [|done]. destruct Ht1. split; cbn; try done.
  - intros i v. rewrite lookup_insert_Some. intros [[<- <-]|[_ Hi]]; [split; [done|cbn; lia]|by apply ok_user_ids0].
  - apply unique_on_insert; [done|]. intros j b y Hb [= <-] [= E]. specialize (Hh j b Hb). apply bool_decide_eq_false in Hh. congruence.
Qed.

Lemma sound_mark_accepted p now : sound (stmt (on_access (mark_accepted p now))).
Proof.
  apply sound_on_access. intros t Ht. split; [|unfold seq_le; cbn; lia]. apply invites_consistent; [done|].
  intros i b. rewrite lookup_fmap_Some. intros (a & <- & Ha). exists a. split; [done|]. by destruct (p a).
Qed.

Lemma sound_rename_error {A} e (c : M World A) : sound c → sound (rename_error e c).
Proof. intros Hc w Hw. specialize (Hc w Hw). unfold rename_error. by destruct (c w) as [[a|e'] w1]. Qed.

Lemma sound_InvitationAccept salt tok name pass : sound (InvitationAccept sha256_hex salt tok name pass).
Proof.
  unfold InvitationAccept. cbv zeta. apply sound_bind.
  - apply sound_rename_error. unfold FindOpenByHash. apply sound_bind; [by apply sound_keeps|]. intros now.
    apply sound_bind; [apply sound_reads|]. intros [i|]; by apply sound_keeps.
  - intros [email x]. apply sound_in_tx, sound_bind; [by apply sound_rename_error, sound_stmt, sound_insert_user|]. intros _.
    apply sound_bind; [by apply sound_keeps|]. intros now. apply sound_mark_accepted.
Qed.

Lemma sound_sign_in salt email pass : sound (sign_in salt email pass).
Proof.
  unfold sign_in. apply sound_bind; [apply sound_attempt, sound_reads|]. intros [[u|]|]; [|by apply sound_keeps..].
  destruct (Verify _ _) as [r|]; [|by apply sound_keeps]. apply sound_bind; [|intros ?; by apply sound_keeps].
  destruct (NeedsRehash _); [|by apply sound_keeps]. apply sound_ignore, sound_on_access. intros t Ht.
  split; [|unfold seq_le; cbn; lia]. apply users_consistent; [done|].
  intros i b. rewrite lookup_alter_Some. intros [(<- & a & Ha & ->)|[_ Ha]]; [by exists a|by exists b].
Qed.

Lemma sound_sending {A} (c : M World A) ok err : sound c → sound (sending c ok err).
Proof. intros Hc w Hw. specialize (Hc w Hw). unfold sending. by destruct (c w) as [[a|e'] w1]. Qed.

Context {DNS : Resolver}.

Lemma sound_VerifyTXT uid param : sound (VerifyTXT uid param).
Proof.
  unfold VerifyTXT. cbv zeta. destruct (Atoi param) as [id|]; [|by apply sound_keeps].
  apply sound_bind; [apply sound_attempt, sound_reads|]. intros [[d|]|]; [|by apply sound_keeps..].
  destruct (d_TXTVerificationName d) as [name|]; [|by apply sound_keeps]. destruct (d_TXTVerificationValue d) as [val|]; [|by apply sound_keeps].
  apply sound_bind.
  { apply sound_attempt, sound_keeps. unfold VerifyTXTRecord. cbv zeta. destruct (_ || _); [by apply keeps_ret|].
    apply keeps_bind; [by intros w|]. intros ?. apply keeps_ret. }
  intros [[]|e].
  - apply sound_bind; [by apply sound_keeps|]. intros now. apply sound_bind; [|intros ?; by apply sound_keeps].
    apply sound_on_access. intros t Ht. split; [|unfold seq_le; cbn; lia]. apply domains_consistent; [done| |].
    + intros i. rewrite lookup_alter. case_decide as E; [|done]. subst i. apply fmap_is_Some.
    + intros i b. rewrite lookup_alter_Some. intros [(-> & a & Ha & ->)|[_ Ha]]; [exists a|by exists b]. split; [done|]. by case_bool_decide.
  - apply sound_bind; [apply sound_ignore, sound_stmt|intros ?]; by apply sound_keeps.
  - by apply sound_keeps.
Qed.
End Ops.

(** ** Requests, and the tables they lead to *)

Inductive request :=
| ReqLogin (salt email pass : string)
| ReqToken (salt rnd email pass : string)
| ReqUser (authorization : string)
| ReqStoreDomain (rnd : Draws) (uid : Z) (slug : string) (datasets : list string)
| ReqVerifyTXT (uid : Z) (id : string)
| ReqRegenerate (rnd : string) (uid : Z) (id : string)
| ReqDeleteBundle (uid : Z) (id : string)
| ReqRevoke (uid : Z) (id : string)
| ReqInvite (rnd : string) (uid : Z) (email : string)
| ReqAccept (salt token name pass : string)
| ReqData (c : Credentials).

Section Requests.
Context {F : Faults} {RO : RowOrder} {PL : PasswordLib} (sha256_hex : string → string) (cfg : Config) {DNS : Resolver}.

Definition serve (r : request) : M World unit :=
  match r with
  | ReqLogin salt email pass => ignore (Login salt email pass)
  | ReqToken salt rnd email pass => ignore (TokenLogin sha256_hex salt rnd email pass)
  | ReqUser a => ignore (TokenUser sha256_hex a)
  | ReqStoreDomain rnd uid slug datasets => ignore (StoreDomain sha256_hex rnd uid slug datasets)
  | ReqVerifyTXT uid id => ignore (VerifyTXT uid id)
  | ReqRegenerate rnd uid id => ignore (RegenerateDomainToken sha256_hex rnd uid id)
  | ReqDeleteBundle uid id => ignore (DeleteBundle uid id)
  | ReqRevoke uid id => ignore (RevokeToken uid id)
  | ReqInvite rnd uid email => ignore (CreateInvitation sha256_hex cfg rnd uid email)
  | ReqAccept salt token name pass => ignore (AcceptInvitation sha256_hex salt token name pass)
  | ReqData c => ignore (DomainToken sha256_hex c)
  end.

(** A request is served, or something happens that leaves the account tables alone, but for the
    audit log. *)
Inductive access_step : World → World → Prop :=
| step_request r w : access_step w (serve r w).2
| step_elsewhere w w' log : w_access w' = set_audit log (w_access w) → access_step w w'.

Lemma sound_fail_with {A B} (c : M World A) (k : A → M World (B + http_error)) :
  sound c → (∀ a, sound (k a)) → sound (fail_with c k).
Proof.
  intros Hc Hk w Hw. specialize (Hc w Hw) as [H1 H2]. unfold fail_with. destruct (c w) as [[a|e] w1]; cbn in *; [|done].
  destruct (Hk a w1 H1) as [H3 H4]. split; [done|by etrans].
Qed.

Lemma sound_DomainToken c : sound (DomainToken sha256_hex c).
Proof.
  unfold DomainToken. cbv zeta. destruct (HasPrefix _ _).
  - unfold handleToken. apply sound_fail_with; [apply sound_FindByPlaintext|]. intros [[tok u]|]; [|by apply sound_keeps].
    destruct (_ && _); [by apply sound_keeps|]. cbv zeta. destruct (bool_decide _); [by apply sound_keeps|].
    destruct (k_DomainID tok); (apply sound_fail_with; [apply sound_reads|]; intros [d|]; [|by apply sound_keeps]; repeat case_match; by apply sound_keeps).
  - unfold handleDomain. cbv zeta. destruct (bool_decide _); [by apply sound_keeps|].
    apply sound_fail_with; [apply sound_reads|]. intros [d|]; by apply sound_keeps.
Qed.

Lemma sound_serve r : sound (serve r).
Proof.
  destruct r; cbn [serve]; apply sound_ignore.
  - unfold Login. apply sound_bind; [apply sound_sign_in|]. intros [u|]; by apply sound_keeps.
  - unfold TokenLogin. apply sound_bind; [apply sound_sign_in|]. intros [u|]; [|by apply sound_keeps]. apply sound_sending, sound_createToken.
  - unfold TokenUser. destruct (negb _); [by apply sound_keeps|]. apply sound_sending, sound_FindByPlaintext.
  - unfold StoreDomain. cbv zeta. destruct datasets; [by apply sound_keeps|]. apply sound_sending, sound_ProvisionBundle.
  - apply sound_VerifyTXT.
  - unfold RegenerateDomainToken. cbv zeta. apply sound_bind; [apply sound_attempt, sound_reads|].
    intros [[d|]|]; [|by apply sound_keeps..]. apply sound_sending, sound_Regenerate.
  - apply sound_sending, sound_DeleteDomainBundle.
  - unfold RevokeToken. apply sound_bind; [apply sound_ignore, sound_Revoke|]. intros ?. by apply sound_keeps.
  - unfold CreateInvitation, requireAdmin. apply sound_bind; [apply sound_attempt, sound_reads|].
    intros [[[]|]|]; try by apply sound_keeps. apply sound_sending, sound_InvitationCreate.
  - apply sound_sending, sound_InvitationAccept.
  - apply sound_DomainToken.
Qed.

(** C10 Whatever requests the API and the dashboard serve, in whatever order and whichever of
    their statements the database refuses, the account tables stay consistent: ids name their
    rows and are never handed out twice, e-mails, slugs, token hashes, invitation hashes and
    domain bindings of tokens are unique, a staging domain hangs below an existing production
    domain, and a bound token's domain exists. *)
Theorem access_tables_consistent w w' :
  rtc access_step w w' → consistent (w_access w) → consistent (w_access w') ∧ seq_le (w_access w) (w_access w').
Proof.
  induction 1 as [w|w w1 w2 [r w0|w0 w0' log E] _ IH]; intros Hw; [by split| |].
  - destruct (sound_serve r w0 Hw) as [H1 H2]. destruct (IH H1) as [H3 H4]. split; [done|by etrans].
  - rewrite E in IH. apply IH. by destruct Hw.
Qed.
End Requests.

(** A concrete account: an admin, digests that add a mark, the weak key of the tests. *)
Definition admin : User := mkUser 1 "Admin" "admin@example.com" "x" true.
Definition seeded : World := set_access (mkAccess {[1%Z := admin]} 2 ∅ 1 ∅ 1 ∅ 1 []) (empty_world 1000).
Definition mark_digest (s : string) : string := "#" +:+ s.

Lemma seeded_consistent : consistent (w_access seeded).
Proof.
  split; cbn; try (by intros i j a b k Ha); try (by intros i j Ha).
  - intros i u [<- <-]%lookup_singleton_Some. done.
  - intros i j a b k [<- <-]%lookup_singleton_Some [<- <-]%lookup_singleton_Some. done.
Qed.
#[local] Instance runs : Faults := never_fails.
Definition in_order : RowOrder.
Proof. by refine {| row_order := λ A l, l |}. Defined.
Definition no_records : Resolver := λ _ _, Ok [].
Definition sample_draws : Draws := mkDraws "txt1" "txt2" "aa" "bb".

Lemma access_tables_consistent_witness :
  let requests := [ReqStoreDomain sample_draws 1 "example.com" ["stellar"]; ReqData (mkCredentials "Bearer idx_aa" "example.com" EmptyString EmptyString);
                   ReqInvite "cc" 1 "bob@example.com"; ReqAccept "0123456789abcdef" "cc" "Bob" "pw"; ReqDeleteBundle 1 "1"] in
  let serve := @serve _ in_order Password.echo mark_digest defaultConfig no_records in
  let run := foldl (λ w r, (serve r w).2) seeded in
  consistent (w_access (run requests)) ∧ (at_users (w_access (run (take 4 requests))) !! 2%Z) ≠ None ∧
  size (at_tokens (w_access (run (take 1 requests)))) = 2%nat.
Proof.
  cbv zeta. split; [|split; [vm_compute; congruence|vm_compute; reflexivity]]. cbn [foldl].
  refine (proj1 (@access_tables_consistent _ in_order Password.echo mark_digest defaultConfig no_records seeded _ _ seeded_consistent)).
  repeat (eapply rtc_r; [|apply step_request]). apply rtc_refl.
Defined.
