(* ===== verification/AccessRights.v ===== *)
(** * What the gate grants, and what provisioning, key rotation, deletion and invitations do

    The functional laws of [Access]: each operation's effect on the tables, on success and on
    every error, and the conditions under which [DomainToken] lets a request pass. *)

From Stdlib Require Import Ascii String.
From stdpp Require Import gmap strings list.
From S2P Require Import Prelude GoStrings GoTime GoUrl GoNum GoJson Payload AccessData Config CacheData Database Caches Feeds Password Upstream Access AccessLaws.

Open Scope string_scope.

Section Rights.
Context {F : Faults} {RO : RowOrder} {PL : PasswordLib} (sha256_hex : string → string) (cfg : Config).

Lemma select_row_inv {A} (table : AccessTables → gmap Z A) p w o w' :
  select_row table p w = (Ok o, w') → w' = set_ops (S (w_ops w)) w ∧ o = first_row p (table (w_access w)).
Proof. unfold select_row, stmt. destruct (fault _); [done|]. by intros [= <- <-]. Qed.

Lemma fail_with_inv {A B} (c : M World A) (k : A → M World (B + http_error)) w b w' :
  fail_with c k w = (Ok (inl b), w') → ∃ a w1, c w = (Ok a, w1) ∧ k a w1 = (Ok (inl b), w').
Proof. unfold fail_with. destruct (c w) as [[a|e] w1]; [|done]. eauto. Qed.

(** [touched w w']: nothing but a last_used_at may differ. *)
Definition touched (w w' : World) : Prop :=
  w_access w' = w_access w ∨ ∃ id, w_access w' = touch_token (w_now w) id (w_access w).

(** What [FindByPlaintext] found. *)
Definition token_found (t : AccessTables) (now : Z) (plain : string) (tok : APIToken) (u : User) : Prop :=
  (∃ i, at_tokens t !! i = Some tok) ∧ k_TokenHash tok = sha256_hex plain ∧ k_Type tok = tokenable_type ∧
  (∀ x, k_ExpiresAt tok = Some x → (now <= x)%Z) ∧ at_users t !! k_UserID tok = Some u.

Lemma FindByPlaintext_inv plain w tok u w' : FindByPlaintext sha256_hex plain w = (Ok (Some (tok, u)), w') →
  token_found (w_access w) (w_now w) plain tok u ∧ touched w w' ∧ w_now w' = w_now w.
Proof.
  unfold FindByPlaintext. cbv zeta. intros (o & w1 & [-> Ho]%select_row_inv & H)%bind_inv_ok.
  destruct o as [k|]; [|done]. symmetry in Ho. apply first_row_Some in Ho as (i & Hi & [Ht%bool_decide_eq_true Hh%bool_decide_eq_true]%andb_true_iff).
  apply bind_inv_ok in H as (now & w2 & [= <- <-] & H). cbn in H. destruct (expired (w_now w) k) eqn:Ex; [done|].
  apply bind_inv_ok in H as (ou & w3 & Hu & H). unfold stmt in Hu. cbn in Hu. destruct (fault _); [done|]. injection Hu as <- <-. cbn in H.
  destruct (at_users _ !! _) as [u'|] eqn:Eu; [|done].
  apply bind_inv_ok in H as (x & w4 & Hx & [= -> -> <-]). unfold token_found. split; [split_and!; eauto|].
  - intros y Hy. unfold expired in Ex. rewrite Hy in Ex. by apply Z.ltb_ge in Ex.
  - unfold ignore, stmt in Hx. cbn in Hx. destruct (fault _); injection Hx as <- <-; cbn; split; try done; [by left|by right; exists (k_ID tok)].
Qed.

Lemma domain_row t p d : first_row p (at_domains t) = Some d → (∃ i, at_domains t !! i = Some d) ∧ p d = true.
Proof. intros (i & Hi & Hp)%first_row_Some. eauto. Qed.

Lemma touched_domains w w' : touched w w' → at_domains (w_access w') = at_domains (w_access w).
Proof. by intros [->|[id ->]]. Qed.

(** The rights a bearer token gives: the domain is the row of the token's owner. *)
Definition token_grant (t : AccessTables) (now : Z) (c : Credentials) (l : Locals) : Prop :=
  ∃ tok u, token_found t now (TrimSpace (TrimPrefix (cq_Authorization c) "Bearer ")) tok u ∧
    (HasAbility tok "idx:access" || HasAbility tok "idx:full") = true ∧
    d_UserID (lo_Domain l) = Some (u_ID u) ∧ IsVerified (lo_Domain l) = true ∧
    resolveSlugForToken c ≠ EmptyString ∧
    match k_DomainID tok with
    | Some id => d_ID (lo_Domain l) = id ∧ EqualFold (lo_DomainSlug l) (resolveSlugForToken c) = true
    | None => ToLower (lo_DomainSlug l) = ToLower (resolveSlugForToken c)
    end ∧
    lo_UserID l = Some (u_ID u) ∧ lo_FullAccess l = HasAbility tok "idx:full".

(** The rights a slug alone gives. *)
Definition slug_grant (c : Credentials) (l : Locals) : Prop :=
  resolveSlug c ≠ EmptyString ∧ ToLower (lo_DomainSlug l) = ToLower (resolveSlug c) ∧ lo_UserID l = None ∧ lo_FullAccess l = true.

(** C11 Nobody passes the gate without a right to the domain the request is then served for.
    With a bearer token: a stored token with the digest of the secret, not expired, of an
    existing user, with one of the two abilities; the domain is active, TXT-verified, of the
    token's owner, named by the request, and the one the token is bound to if it is bound. Full
    access follows the token's ability. Without one: an active domain with the slug of the
    header, the query or the referer. The request itself writes nothing but a last_used_at. *)
Theorem gate_sound c w l w' : DomainToken sha256_hex c w = (Ok (inl l), w') →
  (∃ i, at_domains (w_access w) !! i = Some (lo_Domain l)) ∧ d_IsActive (lo_Domain l) = true ∧ touched w w' ∧
  if HasPrefix (cq_Authorization c) "Bearer " then token_grant (w_access w) (w_now w) c l else slug_grant c l.
Proof.
  unfold DomainToken. cbv zeta. destruct (HasPrefix _ _); intros H.
  - unfold handleToken in H. cbv zeta in H. apply fail_with_inv in H as (found & w1 & Hf & H). destruct found as [[tok u]|]; [|done].
    apply FindByPlaintext_inv in Hf as (Hf & Ht & _). destruct (negb _ && negb _) eqn:Ea; [done|].
    assert ((HasAbility tok "idx:access" || HasAbility tok "idx:full") = true) as Hab by (revert Ea; by do 2 destruct (HasAbility _ _)).
    destruct (bool_decide _) eqn:Es; [done|]. apply bool_decide_eq_false in Es.
    assert (∃ d, lo_Domain l = d ∧ IsVerified d = true ∧ lo_UserID l = Some (u_ID u) ∧ lo_FullAccess l = HasAbility tok "idx:full" ∧
      (∃ i, at_domains (w_access w) !! i = Some d) ∧ d_IsActive d = true ∧ touched w w' ∧ d_UserID d = Some (u_ID u) ∧
      match k_DomainID tok with Some id => d_ID d = id ∧ EqualFold (d_DomainSlug d) (resolveSlugForToken c) = true | None => ToLower (d_DomainSlug d) = ToLower (resolveSlugForToken c) end) as (d & Hd & Hv & Hu & Hfull & Hi & Hact & Ht' & Huid & Hid).
    { destruct (k_DomainID tok) as [id|]; apply fail_with_inv in H as (od & w2 & [-> Hd]%select_row_inv & H); destruct od as [d|]; try done;
        symmetry in Hd; apply domain_row in Hd as [Hi Hp]; rewrite (touched_domains _ _ Ht) in Hi; repeat setoid_rewrite andb_true_iff in Hp; rewrite !bool_decide_eq_true in Hp.
      - destruct (EqualFold _ _) eqn:Ee; [|done]. destruct (negb (IsVerified d)) eqn:Ev; [done|]. injection H as <- <-. exists d. apply negb_false_iff in Ev. naive_solver.
      - destruct (negb (IsVerified d)) eqn:Ev; [done|]. injection H as <- <-. exists d. apply negb_false_iff in Ev. naive_solver. }
    subst d. split_and!; try done. exists tok, u. by split_and!.
  - unfold handleDomain in H. cbv zeta in H. destruct (bool_decide _) eqn:Es; [done|]. apply bool_decide_eq_false in Es.
    apply fail_with_inv in H as (od & w2 & [-> Hd]%select_row_inv & H). destruct od as [d|]; [|done]. symmetry in Hd. apply domain_row in Hd as [Hi Hp].
    rewrite andb_true_iff, bool_decide_eq_true in Hp. injection H as <- <-. destruct Hp. split_and!; try done; first [by left|by split_and!].
Qed.

(** ** Transactions *)

(** The same rows; the sequences may have moved on. *)
Definition same_rows (t t' : AccessTables) : Prop :=
  at_users t' = at_users t ∧ at_domains t' = at_domains t ∧ at_tokens t' = at_tokens t ∧ at_invites t' = at_invites t.

Lemma in_tx_ok {A} (body : M World A) w a w' : in_tx body w = (Ok a, w') →
  ∃ w1, body (set_ops (S (w_ops w)) w) = (Ok a, w1) ∧ w' = set_ops (S (w_ops w1)) w1.
Proof.
  unfold in_tx, tx, stmt, bind, ret. cbv beta iota zeta. destruct (fault (w_ops w)); [done|].
  destruct (body _) as [[b|e] w1]; [|done]. destruct (fault (w_ops w1)); [done|]. intros [= -> <-]. by exists w1.
Qed.

Lemma in_tx_err {A} (body : M World A) w e w' : in_tx body w = (Err e, w') → same_rows (w_access w) (w_access w').
Proof.
  unfold in_tx, tx, stmt, bind, ret. cbv beta iota zeta. destruct (fault (w_ops w)); [by intros [= _ <-]|].
  destruct (body _) as [[b|e'] w1]; [|by intros [= _ <-]]. destruct (fault (w_ops w1)); [by intros [= _ <-]|done].
Qed.

(** ** Provisioning *)

Definition access_key (id u d : Z) (name plain : string) : APIToken :=
  mkToken id tokenable_type u (Some d) name (HashToken sha256_hex plain) (Some (abilities_text full_ability)) None None.

(** A key inserted for a domain. *)
Lemma createToken_inv rnd u d name w plain w' : (0 < d)%Z →
  createToken sha256_hex rnd u d name full_ability w = (Ok plain, w') →
  plain = "idx_" +:+ rnd ∧
  (∀ i k, at_tokens (w_access w) !! i = Some k → k_TokenHash k ≠ HashToken sha256_hex plain ∧ k_DomainID k ≠ Some d) ∧
  let id := at_token_seq (w_access w) in
  w' = set_access (set_tokens (<[id := access_key id u d name plain]> (at_tokens (w_access w))) (set_token_seq (id + 1)%Z (w_access w)))
         (set_ops (S (w_ops w)) w).
Proof.
  intros Hd. unfold createToken. cbv zeta. rewrite (proj2 (Z.ltb_lt 0 d) Hd). intros (x & w1 & H & [= <- <-])%bind_inv_ok. split; [done|].
  unfold stmt in H. destruct (fault _); [done|]. unfold insert_token in H. destruct (negb _); [done|].
  destruct (exists_row _ _) eqn:E1; [done|]. destruct (exists_row (λ k, bool_decide (k_DomainID k = Some d)) _) eqn:E2; [done|].
  destruct (negb _); [done|]. injection H as _ <-. split; [|done]. intros i k Hk.
  pose proof (exists_row_false _ _ E1 i k Hk) as H1%bool_decide_eq_false. pose proof (exists_row_false _ _ E2 i k Hk) as H2%bool_decide_eq_false. done.
Qed.

(** The two domains and two keys of a bundle, written next to the rows of [t]. *)
Definition with_bundle (rnd : Draws) (u : Z) (host : string) (datasets : list string) (t : AccessTables) : AccessTables :=
  let prod := at_domain_seq t in
  let key := at_token_seq t in
  let default_ds := hd EmptyString datasets in
  let allowed := RawText (Some (JArr (JStr <$> datasets))) in
  mkAccess (at_users t) (at_user_seq t)
    (<[(prod + 1)%Z := domain_of (prod + 1) (staging_params u prod host default_ds allowed (dr_StagingTXT rnd))]>
      (<[prod := domain_of prod (prod_params u host default_ds allowed (dr_ProdTXT rnd))]> (at_domains t))) (prod + 1 + 1)
    (<[(key + 1)%Z := access_key (key + 1) u (prod + 1) "Staging" ("idx_" +:+ dr_StagingToken rnd)]>
      (<[key := access_key key u prod "Production" ("idx_" +:+ dr_ProdToken rnd)]> (at_tokens t))) (key + 1 + 1)
    (at_invites t) (at_invite_seq t) (at_audit t).

Definition bundle_result (rnd : Draws) (host : string) (datasets : list string) (prod : Z) : ProvisionResult :=
  mkProvisioned (mkCreated prod host (verify_name host) (dr_ProdTXT rnd))
    (mkCreated (prod + 1) ("staging." +:+ host) (verify_name ("staging." +:+ host)) (dr_StagingTXT rnd))
    ("idx_" +:+ dr_ProdToken rnd) ("idx_" +:+ dr_StagingToken rnd) datasets (hd EmptyString datasets).

Lemma ProvisionBundle_ok rnd u req w r w' : (0 < at_domain_seq (w_access w))%Z →
  ProvisionBundle sha256_hex rnd u req w = (Ok r, w') →
  let host := ToLower (TrimSpace (pr_Hostname req)) in
  host ≠ EmptyString ∧ HasPrefix host "staging." = false ∧ pr_Datasets req ≠ [] ∧
  w_access w' = with_bundle rnd u host (pr_Datasets req) (w_access w) ∧
  r = bundle_result rnd host (pr_Datasets req) (at_domain_seq (w_access w)) ∧
  is_Some (at_users (w_access w) !! u) ∧ w_now w' = w_now w.
Proof.
  intros Hs. unfold ProvisionBundle. cbv zeta. destruct (bool_decide _) eqn:E1; [done|]. apply bool_decide_eq_false in E1.
  destruct (HasPrefix _ _); [done|]. destruct (pr_Datasets req) as [|ds l]; [done|].
  intros (w1 & H & ->)%in_tx_ok.
  apply bind_inv_ok in H as (prod & w2 & [(Hp & -> & Hu & _)%insert_domain_inv _]%created_inv & H).
  apply bind_inv_ok in H as (stag & w3 & [(Hst & -> & _ & _)%insert_domain_inv _]%created_inv & H).
  apply bind_inv_ok in H as (k1 & w4 & Hk1 & H). apply bind_inv_ok in H as (k2 & w5 & Hk2 & [= <- <-]).
  cbn in Hp, Hst, Hu. subst prod stag. apply createToken_inv in Hk1 as (-> & _ & ->); [|done].
  apply createToken_inv in Hk2 as (-> & _ & ->); [|lia]. by split_and!.
Qed.

(** C12 A bundle is provisioned whole or not at all: on success the tables hold exactly the
    production and the staging domain, both pending verification, and one key for each,
    stored as its digest; on every error the rows are those of before. *)
Theorem provision_all_or_nothing rnd u req w : (0 < at_domain_seq (w_access w))%Z →
  match ProvisionBundle sha256_hex rnd u req w with
  | (Ok r, w') =>
      let host := ToLower (TrimSpace (pr_Hostname req)) in
      w_access w' = with_bundle rnd u host (pr_Datasets req) (w_access w) ∧
      r = bundle_result rnd host (pr_Datasets req) (at_domain_seq (w_access w))
  | (Err e, w') => same_rows (w_access w) (w_access w')
  end.
Proof.
  intros Hs. destruct (ProvisionBundle sha256_hex rnd u req w) as [[r|e] w'] eqn:E.
  - apply ProvisionBundle_ok in E; [|done]. by destruct E as (_ & _ & _ & ? & ? & _).
  - revert E. unfold ProvisionBundle. cbv zeta. destruct (bool_decide _); [by intros [= _ <-]|].
    destruct (HasPrefix _ _); [by intros [= _ <-]|]. destruct (pr_Datasets req); [by intros [= _ <-]|]. apply in_tx_err.
Qed.

(** ** A bound key at the gate *)

Lemma first_row_unique {A} (p : A → bool) (m : gmap Z A) i a :
  m !! i = Some a → p a = true → (∀ j b, m !! j = Some b → p b = true → j = i) → first_row p m = Some a.
Proof.
  intros Hi Hp Hu. destruct (first_row p m) as [b|] eqn:E.
  - apply first_row_Some in E as (j & Hj & Hb). assert (j = i) as -> by eauto. congruence.
  - by rewrite (first_row_None p m E i a Hi) in Hp.
Qed.

Section Decided.
Context {NF : NoFaults}.

Lemma select_row_run {A} (table : AccessTables → gmap Z A) p w :
  select_row table p w = (Ok (first_row p (table (w_access w))), set_ops (S (w_ops w)) w).
Proof. unfold select_row. by rewrite stmt_run. Qed.

Lemma FindByPlaintext_run plain w i tok u :
  consistent (w_access w) → at_tokens (w_access w) !! i = Some tok → k_TokenHash tok = HashToken sha256_hex plain →
  k_Type tok = tokenable_type → expired (w_now w) tok = false → at_users (w_access w) !! k_UserID tok = Some u →
  ∃ w', FindByPlaintext sha256_hex plain w = (Ok (Some (tok, u)), w') ∧ touched w w'.
Proof.
  intros Hw Hi Hh Ht Hx Hu. unfold FindByPlaintext. cbv zeta. rewrite (bind_ok _ _ _ _ _ (select_row_run _ _ _)).
  rewrite (first_row_unique _ _ i tok Hi); [|by rewrite Hh, Ht, !bool_decide_eq_true_2|].
  - unfold bind, ignore, get, ret. cbn. rewrite Hx, !stmt_run. cbn. rewrite Hu. eexists. split; [done|]. right. exists (k_ID tok). by rewrite stmt_run.
  - intros j b Hj [_ Hb%bool_decide_eq_true]%andb_true_iff. eapply (ok_hashes _ Hw); [done|exact Hi|done|]. congruence.
Qed.

(** What the gate decides for a key bound to an active domain of its owner. *)
Lemma bound_key_decided c w i tok u j d : consistent (w_access w) →
  HasPrefix (cq_Authorization c) "Bearer " = true →
  let slug := resolveSlugForToken c in
  at_tokens (w_access w) !! i = Some tok → k_TokenHash tok = HashToken sha256_hex (TrimSpace (TrimPrefix (cq_Authorization c) "Bearer ")) →
  k_Type tok = tokenable_type → expired (w_now w) tok = false → at_users (w_access w) !! k_UserID tok = Some u → u_ID u = k_UserID tok →
  HasAbility tok "idx:full" = true → k_DomainID tok = Some j → slug ≠ EmptyString →
  at_domains (w_access w) !! j = Some d → d_IsActive d = true → d_UserID d = Some (k_UserID tok) → EqualFold (d_DomainSlug d) slug = true →
  (DomainToken sha256_hex c w).1 =
    Ok (if IsVerified d then inl (mkLocals "token" d (Some (k_Name tok)) (Some (u_ID u)) true)
        else inr (403%Z, "Domain must be TXT-verified before API token access is allowed.")).
Proof.
  intros Hw Ha slug Hi Hh Ht Hx Hu Hid Hf Hb Hs Hj Hact Hown He. unfold DomainToken. cbv zeta. rewrite Ha.
  destruct (FindByPlaintext_run _ w i tok u Hw Hi Hh Ht Hx Hu) as (w1 & Hrun & Htch). unfold handleToken, fail_with at 1. rewrite Hrun, Hf, andb_false_r. fold slug.
  cbv zeta. rewrite bool_decide_eq_false_2 by done. rewrite Hb. unfold fail_with, FindActiveByIDForUser. rewrite select_row_run.
  rewrite (touched_domains _ _ Htch), (first_row_unique _ _ j d Hj).
  - rewrite He. by destruct (IsVerified d).
  - rewrite Hact, Hid, Hown, !bool_decide_eq_true_2; [done| |done]. by apply (ok_domain_ids _ Hw).
  - intros k b Hk [_ Hb'%bool_decide_eq_true]%andb_true_iff. apply (ok_domain_ids _ Hw) in Hk as [Hk _]. congruence.
Qed.

(** A slug of an active domain opens the gate by itself. *)
Lemma slug_admitted c w i d : HasPrefix (cq_Authorization c) "Bearer " = false → resolveSlug c ≠ EmptyString →
  at_domains (w_access w) !! i = Some d → d_IsActive d = true → ToLower (d_DomainSlug d) = ToLower (resolveSlug c) →
  ∃ l, (DomainToken sha256_hex c w).1 = Ok (inl l) ∧ lo_FullAccess l = true.
Proof.
  intros Ha Hs Hi Hact He. unfold DomainToken. cbv zeta. rewrite Ha. unfold handleDomain, fail_with, FindActiveBySlug. cbv zeta.
  rewrite bool_decide_eq_false_2 by done. rewrite select_row_run. destruct (first_row _ _) as [d'|] eqn:E; [by eexists|].
  pose proof (first_row_None _ _ E i d Hi) as Hn. cbv beta in Hn. by rewrite Hact, He, bool_decide_eq_true_2 in Hn.
Qed.

(** C13 What a fresh bundle gives access to: its production key is refused until the TXT record
    is verified, although the key is stored and the host is named; but a request without any
    secret that names the host, in a header, the query or the referer, is served at once, with
    full access. *)
Theorem fresh_bundle_access rnd u req w r w' c_key c_slug :
  consistent (w_access w) → (0 < at_domain_seq (w_access w))%Z →
  ProvisionBundle sha256_hex rnd u req w = (Ok r, w') →
  HasPrefix (cq_Authorization c_key) "Bearer " = true →
  TrimSpace (TrimPrefix (cq_Authorization c_key) "Bearer ") = pv_ProductionToken r →
  resolveSlugForToken c_key = cr_DomainSlug (pv_ProdDomain r) →
  HasPrefix (cq_Authorization c_slug) "Bearer " = false → resolveSlug c_slug = cr_DomainSlug (pv_ProdDomain r) →
  (DomainToken sha256_hex c_key w').1 = Ok (inr (403%Z, "Domain must be TXT-verified before API token access is allowed.")) ∧
  ∃ l, (DomainToken sha256_hex c_slug w').1 = Ok (inl l) ∧ lo_FullAccess l = true.
Proof.
  intros Hw Hs HP Hk1 Hk2 Hk3 Hd1 Hd2.
  assert (Hc : consistent (w_access w')) by (by destruct (sound_ProvisionBundle sha256_hex rnd u req w Hw) as [H _]; rewrite HP in H).
  apply ProvisionBundle_ok in HP as (Hh & _ & _ & Ht & -> & [usr Hu] & _); [|done]. cbn [bundle_result pv_ProductionToken pv_ProdDomain cr_DomainSlug] in *.
  set (host := ToLower _) in *. set (t := w_access w) in *. set (ds := pr_Datasets req) in *.
  assert (Hdom : at_domains (w_access w') !! at_domain_seq t =
    Some (domain_of (at_domain_seq t) (prod_params u host (hd EmptyString ds) (RawText (Some (JArr (JStr <$> ds)))) (dr_ProdTXT rnd)))).
  { rewrite Ht. cbn. rewrite lookup_insert_ne by lia. by rewrite lookup_insert_eq. }
  assert (Htok : at_tokens (w_access w') !! at_token_seq t = Some (access_key (at_token_seq t) u (at_domain_seq t) "Production" ("idx_" +:+ dr_ProdToken rnd))).
  { rewrite Ht. cbn. rewrite lookup_insert_ne by lia. by rewrite lookup_insert_eq. }
  split.
  - refine (eq_trans (bound_key_decided c_key w' _ _ usr _ _ Hc Hk1 Htok _ _ _ _ _ _ _ _ Hdom _ _ _) _); try done.
    + cbn. by rewrite Hk2.
    + cbn. by rewrite Ht.
    + cbn. by apply (ok_user_ids _ Hw).
    + by rewrite Hk3.
    + cbn. rewrite Hk3. by apply bool_decide_eq_true_2.
  - eapply slug_admitted; [done|by rewrite Hd2|exact Hdom|done|]. cbn. by rewrite Hd2.
Qed.
End Decided.

(** ** Rotating a key *)

(** C14 Rotating the key of a domain leaves exactly one key bound to it, the new one: the
    owner's old keys of the domain are gone, every other row is untouched, and on any error
    (a domain of someone else, a key another user holds on the domain, a refused statement)
    the rows are those of before. *)
Theorem regenerate_replaces rnd u d name w : (0 < d)%Z →
  match RegenerateForDomain sha256_hex rnd u d name full_ability w with
  | (Ok plain, w') =>
      let id := at_token_seq (w_access w) in
      plain = "idx_" +:+ rnd ∧
      (∃ x, at_domains (w_access w) !! d = Some x ∧ d_UserID x = Some u) ∧
      w_access w' = set_tokens (<[id := access_key id u d name plain]> (filter (λ kv, of_owner u d kv.2 = false) (at_tokens (w_access w))))
        (set_token_seq (id + 1)%Z (w_access w)) ∧
      ∀ i k, at_tokens (w_access w') !! i = Some k → k_DomainID k = Some d → i = id
  | (Err _, w') => same_rows (w_access w) (w_access w')
  end.
Proof.
  intros Hd. destruct (RegenerateForDomain _ _ _ _ _ _ w) as [[plain|e] w'] eqn:E; [|by eapply in_tx_err].
  apply in_tx_ok in E as (w1 & H & ->). apply bind_inv_ok in H as (o & w2 & Ho & H).
  unfold owner_of, stmt in Ho. cbn in Ho. destruct (fault _); [done|]. injection Ho as <- <-.
  destruct (at_domains (w_access w) !! d) as [x|] eqn:Ex; [|done]. cbn in H. destruct (d_UserID x) as [o|] eqn:Eo; [|done].
  destruct (Z.eqb_spec o u) as [->|]; [|done]. cbn [negb] in H. apply bind_inv_ok in H as (? & w3 & H1 & H).
  unfold stmt in H1. destruct (fault _); [done|]. injection H1 as _ <-. apply createToken_inv in H as (-> & Hnew & ->); [|done].
  cbn in Hnew |- *. split; [done|]. split; [by exists x|]. split; [done|]. intros i k. rewrite lookup_insert_Some.
  intros [[<- _]|[_ Hk]] Hkd; [done|]. by destruct (Hnew i k Hk).
Qed.

(** ** Deleting a bundle *)

(** C15 Deleting a bundle removes the production domain, its staging domains and the keys bound
    to them, and nothing else; the domain was the caller's and a production one. A refused
    deletion changes no row. *)
Theorem delete_bundle_exact u id w : consistent (w_access w) →
  match DeleteDomainBundle u id w with
  | (Ok _, w') =>
      (∃ d, at_domains (w_access w) !! id = Some d ∧ d_UserID d = Some u ∧ d_IsStaging d = false ∧ d_ParentDomainID d = None) ∧
      (∀ i d, at_domains (w_access w') !! i = Some d ↔ at_domains (w_access w) !! i = Some d ∧ i ≠ id ∧ d_ParentDomainID d ≠ Some id) ∧
      (∀ i k, at_tokens (w_access w') !! i = Some k ↔
         at_tokens (w_access w) !! i = Some k ∧ ∀ j, k_DomainID k = Some j → is_Some (at_domains (w_access w') !! j)) ∧
      at_users (w_access w') = at_users (w_access w) ∧ at_invites (w_access w') = at_invites (w_access w)
  | (Err _, w') => same_rows (w_access w) (w_access w')
  end.
Proof.
  intros Hw. destruct (DeleteDomainBundle u id w) as [[x|e] w'] eqn:E; [|by eapply in_tx_err].
  apply in_tx_ok in E as (w1 & H & ->). apply bind_inv_ok in H as (o & w2 & Ho & H).
  unfold domain_of_user, stmt in Ho. cbn in Ho. destruct (fault _); [done|]. injection Ho as <- <-.
  destruct (at_domains (w_access w) !! id) as [d|] eqn:Ed; [|done]. cbn in H. case_bool_decide as Hu; [|done].
  destruct (d_IsStaging d || _) eqn:Es; [done|]. apply orb_false_iff in Es as [Es Ep%bool_decide_eq_false].
  apply eq_None_not_Some in Ep. unfold stmt in H. destruct (fault _); [done|]. injection H as _ <-. cbn.
  pose proof (λ i, descendants_two_level (w_access w) id i Hw (ltac:(by exists d))) as Hg. set (gone := descendants _ _ _) in *. clearbody gone.
  assert (Hdoms : ∀ i d', filter (λ kv, kv.1 ∉ gone) (at_domains (w_access w)) !! i = Some d' ↔
    at_domains (w_access w) !! i = Some d' ∧ i ≠ id ∧ d_ParentDomainID d' ≠ Some id).
  { intros i d'. rewrite map_lookup_filter_Some. cbn. rewrite Hg. naive_solver. }
  split; [by exists d|]. split; [exact Hdoms|]. split; [|done]. intros i k. rewrite map_lookup_filter_Some. cbn.
  split; intros [Hk Hb]; (split; [done|]).
  - intros j Hj. rewrite Hj in Hb. apply bool_decide_eq_false in Hb. destruct (ok_bound _ Hw i k j Hk Hj) as [y Hy]. exists y. by apply map_lookup_filter_Some.
  - unfold refers_to. destruct (k_DomainID k) as [j|]; [|done]. apply bool_decide_eq_false_2. destruct (Hb j eq_refl) as [y [_ Hy]%map_lookup_filter_Some]. done.
Qed.

(** ** Accepting an invitation *)

Lemma FindOpenByHash_state hash w : w_access (FindOpenByHash hash w).2 = w_access w.
Proof.
  unfold FindOpenByHash, bind, select_row, get, stmt. cbn. destruct (fault _); [done|]. by destruct (first_row _ _).
Qed.

Lemma spent_invitation salt plain name pass w :
  (∀ i v, at_invites (w_access w) !! i = Some v → iv_TokenHash v = hashInviteToken sha256_hex plain → iv_AcceptedAt v ≠ None) →
  (InvitationAccept sha256_hex salt plain name pass w).1 = Err "invitation is invalid or expired".
Proof.
  intros H. unfold InvitationAccept. cbv zeta. unfold bind at 1, rename_error at 1.
  destruct (FindOpenByHash _ w) as [[r|] w1] eqn:E; [|done]. exfalso.
  unfold FindOpenByHash in E. apply bind_inv_ok in E as (now & w2 & [= <- <-] & E). apply bind_inv_ok in E as (o & w3 & [-> Ho]%select_row_inv & E).
  destruct o as [v|]; [|done]. symmetry in Ho. apply first_row_Some in Ho as (i & Hi & Hv).
  unfold open_invitation in Hv. rewrite !andb_true_iff, !bool_decide_eq_true in Hv. destruct Hv as [[Hv1 Hv2] _]. by destruct (H i v Hi Hv1).
Qed.

(** C16 An invitation makes one account: accepting takes an unexpired, unaccepted invitation
    with the digest of the secret, adds the account of its address with the hash of the
    password and no admin rights, and every later attempt with the same secret fails. A failed
    attempt changes no row. *)
Theorem invitation_once salt plain name pass w :
  match InvitationAccept sha256_hex salt plain name pass w with
  | (Ok _, w') =>
      let hash := hashInviteToken sha256_hex plain in
      let id := at_user_seq (w_access w) in
      (∃ i v, at_invites (w_access w) !! i = Some v ∧ iv_TokenHash v = hash ∧ iv_AcceptedAt v = None ∧ (w_now w < iv_ExpiresAt v)%Z ∧
         (∀ j x, at_users (w_access w) !! j = Some x → u_Email x ≠ iv_Email v) ∧
         at_users (w_access w') = <[id := mkUser id (if bool_decide (TrimSpace name = EmptyString) then iv_Email v else TrimSpace name)
           (iv_Email v) (Hash salt pass DefaultParams) false]> (at_users (w_access w))) ∧
      at_domains (w_access w') = at_domains (w_access w) ∧ at_tokens (w_access w') = at_tokens (w_access w) ∧
      ∀ salt' name' pass', (InvitationAccept sha256_hex salt' plain name' pass' w').1 = Err "invitation is invalid or expired"
  | (Err _, w') => same_rows (w_access w) (w_access w')
  end.
Proof.
  destruct (InvitationAccept _ _ _ _ _ w) as [[x|e] w'] eqn:E.
  - unfold InvitationAccept in E. cbv zeta in E. apply bind_inv_ok in E as ([email y] & w1 & Hf & E).
    unfold rename_error in Hf. destruct (FindOpenByHash _ w) as [[r|] w0] eqn:Ef; [|done]. injection Hf as -> ->.
    unfold FindOpenByHash in Ef. apply bind_inv_ok in Ef as (now & w2 & [= <- <-] & Ef). apply bind_inv_ok in Ef as (o & w3 & [-> Ho]%select_row_inv & Ef).
    destruct o as [v|]; [|done]. injection Ef as <- <- <-. symmetry in Ho. apply first_row_Some in Ho as (i & Hi & Hv).
    unfold open_invitation in Hv. rewrite !andb_true_iff, !bool_decide_eq_true, Z.ltb_lt in Hv. destruct Hv as [[Hv1 Hv2] Hv3].
    apply in_tx_ok in E as (w4 & H & ->). apply bind_inv_ok in H as (z & w5 & Hi' & H).
    unfold rename_error in Hi'. destruct (stmt _ _) as [[z'|] w6] eqn:Es in Hi'; [|done]. injection Hi' as _ ->.
    unfold stmt in Es. destruct (fault _); [done|]. unfold insert_user in Es. destruct (negb _); [done|]. destruct (exists_row _ _) eqn:Ee; [done|].
    injection Es as _ <-. apply bind_inv_ok in H as (now & w7 & [= <- <-] & H). unfold stmt in H. destruct (fault _); [done|]. injection H as _ <-. cbn.
    split; [|split; [done|split; [done|]]].
    + exists i, v. split_and!; try done. intros j u Hj. by apply (exists_row_false _ _ Ee), bool_decide_eq_false in Hj.
    + intros salt' name' pass'. apply spent_invitation. cbn. intros j y. rewrite lookup_fmap_Some. intros (b & <- & Hb).
      case_bool_decide as Eb; [done|]. intros Hh. by destruct Eb.
  - unfold InvitationAccept in E. cbv zeta in E. unfold bind at 1, rename_error at 1 in E.
    pose proof (FindOpenByHash_state (hashInviteToken sha256_hex plain) w) as Hs.
    destruct (FindOpenByHash _ w) as [[[email y]|e'] w1]; [|injection E as _ <-; cbn in Hs; by rewrite Hs]. cbn in Hs. rewrite <- Hs. by eapply in_tx_err.
Qed.
End Rights.

(** ** A concrete run *)

#[local] Instance runs : Faults := never_fails.
#[local] Instance runs_ok : NoFaults := never_fails_ok.
#[local] Existing Instance in_order.
#[local] Existing Instance Password.echo.

Definition published : Resolver := λ _ _, Ok ["txt1"].
Definition site : ProvisionRequest := mkProvision " Example.com" ["stellar"].
Definition provisioned : World := (ProvisionBundle mark_digest sample_draws 1 site seeded).2.
Definition verified : World := (@VerifyTXT _ published 1 "1" provisioned).2.
Definition site_row : Domain := domain_of 1 (prod_params 1 "example.com" "stellar" (RawText (Some (JArr [JStr "stellar"]))) "txt1").
Definition by_key : Credentials := mkCredentials "Bearer idx_aa" "example.com" EmptyString EmptyString.
Definition by_slug : Credentials := mkCredentials EmptyString EmptyString EmptyString "https://Example.com/listings".

Lemma run_result {S A} (x : res A * S) a : x.1 = Ok a → x = (Ok a, x.2).
Proof. destruct x. cbn. by intros ->. Qed.

Lemma provisioned_consistent : consistent (w_access provisioned).
Proof. apply sound_ProvisionBundle, seeded_consistent. Qed.

Lemma gate_sound_witness :
  let l := mkLocals "token" (set_verified 1000 site_row) (Some "Production") (Some 1%Z) true in
  (DomainToken mark_digest by_key verified).1 = Ok (inl l) ∧ token_grant mark_digest (w_access verified) 1000 by_key l.
Proof.
  cbv zeta. assert (H : (DomainToken mark_digest by_key verified).1 =
    Ok (inl (mkLocals "token" (set_verified 1000 site_row) (Some "Production") (Some 1%Z) true))) by (vm_compute; reflexivity).
  split; [exact H|]. exact (proj2 (proj2 (proj2 (gate_sound mark_digest _ _ _ _ (run_result _ _ H))))).
Defined.

Lemma provision_all_or_nothing_witness :
  let r := ProvisionBundle mark_digest sample_draws 1 site seeded in
  is_ok r.1 = true ∧ w_access r.2 = with_bundle mark_digest sample_draws 1 "example.com" ["stellar"] (w_access seeded).
Proof.
  pose proof (provision_all_or_nothing mark_digest sample_draws 1 site seeded ltac:(reflexivity)) as H.
  assert (Hr : is_ok (ProvisionBundle mark_digest sample_draws 1 site seeded).1 = true) by (vm_compute; reflexivity).
  cbv zeta. split; [exact Hr|]. destruct (ProvisionBundle _ _ _ _ seeded) as [[r|e] w']; [exact (proj1 H)|discriminate Hr].
Defined.

Lemma fresh_bundle_access_witness :
  (DomainToken mark_digest by_key provisioned).1 = Ok (inr (403%Z, "Domain must be TXT-verified before API token access is allowed.")) ∧
  ∃ l, (DomainToken mark_digest by_slug provisioned).1 = Ok (inl l) ∧ lo_FullAccess l = true.
Proof.
  refine (fresh_bundle_access mark_digest sample_draws 1 site seeded (bundle_result sample_draws "example.com" ["stellar"] 1) _ by_key by_slug
    seeded_consistent _ (run_result _ _ _) _ _ _ _ _); vm_compute; reflexivity.
Defined.

Lemma regenerate_replaces_witness :
  let w' := (RegenerateForDomain mark_digest "cc" 1 1 "Production" full_ability provisioned).2 in
  at_tokens (w_access w') = <[3%Z := access_key mark_digest 3 1 1 "Production" "idx_cc"]> (filter (λ kv, of_owner 1 1 kv.2 = false) (at_tokens (w_access provisioned))) ∧
  at_tokens (w_access w') !! 1%Z = None.
Proof.
  pose proof (regenerate_replaces mark_digest "cc" 1 1 "Production" provisioned ltac:(lia)) as H.
  assert (Hr : is_ok (RegenerateForDomain mark_digest "cc" 1 1 "Production" full_ability provisioned).1 = true) by (vm_compute; reflexivity).
  cbv zeta. split; [|vm_compute; reflexivity].
  destruct (RegenerateForDomain _ _ _ _ _ _ provisioned) as [[r|e] w']; [|discriminate Hr]. destruct H as (-> & _ & H & _). cbn. rewrite H. vm_compute. reflexivity.
Defined.

Lemma delete_bundle_exact_witness :
  let w' := (DeleteDomainBundle 1 1 provisioned).2 in
  is_ok (DeleteDomainBundle 1 1 provisioned).1 = true ∧ at_domains (w_access w') !! 2%Z = None ∧
  (∀ i k, at_tokens (w_access w') !! i = Some k → ∀ j, k_DomainID k = Some j → is_Some (at_domains (w_access w') !! j)).
Proof.
  pose proof (delete_bundle_exact 1 1 provisioned provisioned_consistent) as H.
  assert (Hr : is_ok (DeleteDomainBundle 1 1 provisioned).1 = true) by (vm_compute; reflexivity).
  cbv zeta. split; [exact Hr|]. split; [vm_compute; reflexivity|].
  destruct (DeleteDomainBundle 1 1 provisioned) as [[r|e] w']; [|discriminate Hr]. destruct H as (_ & _ & H & _). cbn. intros i k Hk. by apply H in Hk as [_ Hk].
Defined.
