(* ===== verification/MlsClient.v ===== *)
(** * The MLS proxy clients and the rewriting of image links

    [mlspoxy/bridge/client.go], [mlspoxy/spark/client.go], the factory that chooses between
    them, and [mlspoxy/images/rewrite.go]. The MLS server is a parameter. An upstream URL is
    built without a query of its own. *)

From Stdlib Require Import Ascii String.
From stdpp Require Import gmap strings list.
From S2P Require Import Prelude GoStrings GoFloat GoNum GoUrl GoJson Payload AccessData Config Database Upstream Caches Feeds.

Open Scope string_scope.

(** ** Requests that go upstream *)

(** What a client of the API sends, as far as a proxy passes it on. *)
Record ClientRequest := mkClientRequest {
  cl_req : CachedRequest;
  cl_Accept : string;
  cl_ContentType : string;
}.

Record UpstreamRequest := mkUpstreamRequest {
  up_Method : string;
  up_URL : string;
  up_Authorization : string;
  up_Accept : string;
  up_ContentType : option string;
  up_Body : option string;
}.

(** Reading the body may fail like the request. *)
Inductive upstream_reply (B : Type) :=
| UpFail (e : string)
| UpReply (status : Z) (etag ctype : option string) (body : B).
Arguments UpFail {B} e.
Arguments UpReply {B} status etag ctype body.

(** The MLS server, by what its bodies are read as. *)
Class MlsServer (B : Type) := mls_send : World → UpstreamRequest → upstream_reply B.

Record Reply (B : Type) := mkReply { rp_Status : Z; rp_ETag : option string; rp_ContentType : option string; rp_Body : B }.
Arguments mkReply {B} rp_Status rp_ETag rp_ContentType rp_Body.
Arguments rp_Status {B} r.
Arguments rp_ETag {B} r.
Arguments rp_ContentType {B} r.
Arguments rp_Body {B} r.

(** [c.Queries()]: the last value of a key. *)
Definition Queries (rq : CachedRequest) : Values := foldl (λ m kv, <[kv.1 := kv.2]> m) ∅ (cq_query rq).

Definition requestBody (rq : CachedRequest) : option string :=
  if bool_decide (cq_method rq = "GET") || bool_decide (cq_method rq = "HEAD") then None
  else if bool_decide (cq_body rq = EmptyString) then None else Some (cq_body rq).

Definition if_sent (s : string) : option string := if bool_decide (s = EmptyString) then None else Some s.

Section Clients.
Context {B : Type} {MS : MlsServer B} (cfg : Config).

(** The URL a proxy asks for. *)
Definition merged_url (rq : CachedRequest) (upstream : string) (mergeQuery : bool) : res string :=
  match url_Host upstream with
  | None => Err ("parse " +:+ Quote upstream)
  | Some _ => Ok (if mergeQuery then requestURL upstream (Queries rq) else upstream)
  end.

Definition proxy_with (bearer accept : string) (rq : ClientRequest) (upstream : string) (mergeQuery : bool) : M World (Reply B) :=
  let* url := of_res (merged_url (cl_req rq) upstream mergeQuery) in
  λ w, match mls_send w (mkUpstreamRequest (cq_method (cl_req rq)) url ("Bearer " +:+ bearer) accept
                 (if_sent (cl_ContentType rq)) (requestBody (cl_req rq))) with
       | UpFail e => (Err e, w)
       | UpReply status etag ctype body => (Ok (mkReply status etag ctype body), w)
       end.

(** [bridge.Client.proxy] *)
Definition bridge_proxy (rq : ClientRequest) (upstream : string) (mergeQuery : bool) : M World (Reply B) :=
  proxy_with (br_APIKey (cfg_Bridge cfg)) (default "application/json" (if_sent (cl_Accept rq))) rq upstream mergeQuery.

(** [spark.Client.proxy] *)
Definition spark_proxy (rq : ClientRequest) (upstream : string) (mergeQuery : bool) : M World (Reply B) :=
  proxy_with (sp_AccessToken (cfg_Spark cfg)) "application/json" rq upstream mergeQuery.

(** The feed of the request; without one it is the zero definition. *)
Definition Feed (local : option FeedDefinition) : FeedDefinition := default (mkFeed EmptyString EmptyString EmptyString) local.

(** [Factory.ForRequest], and then [Proxy] or [ProxyUpstream]. *)
Definition ForRequest (local : option FeedDefinition) : ClientRequest → string → bool → M World (Reply B) :=
  if bool_decide (fd_Provider (Feed local) = "spark") then spark_proxy else bridge_proxy.
Definition Proxy (local : option FeedDefinition) (rq : ClientRequest) (upstream : string) : M World (Reply B) :=
  ForRequest local rq upstream true.
Definition ProxyUpstream (local : option FeedDefinition) (rq : ClientRequest) (upstream : string) : M World (Reply B) :=
  ForRequest local rq upstream false.

(** ** Image links ([images/rewrite.go]) *)

Record Rewriter := mkRewriter { rw_publicBase : string; rw_hosts : list string }.

Definition NewRewriter : Rewriter :=
  mkRewriter (TrimRightByte (idx_ImagesPublic (cfg_Idx cfg)) slash)
    (["api.bridgedataoutput.com"; "bridgedataoutput.com"] ++ ((λ h, ToLower (TrimSpace h)) <$> br_ImageRewriteHosts (cfg_Bridge cfg)))%list.

Definition shouldRewrite (r : Rewriter) (s : string) : bool :=
  let lower := ToLower s in
  HasPrefix lower "http" &&
  (existsb (λ h, Contains lower h) (rw_hosts r) || Contains lower "bridgedataoutput" || Contains lower "sparkplatform").

Definition extractPhotoID (u : string) : string := List.last (Split (TrimRightByte u slash) slash) EmptyString.

Definition publicURL (r : Rewriter) (listingKey photoID : string) : string :=
  rw_publicBase r +:+ "/images/" +:+ listingKey +:+ "/" +:+ photoID.

(** What [walk] makes of a document. Only the values of objects are rewritten. *)
Fixpoint walk (r : Rewriter) (listingKey : string) (v : json) : json :=
  match v with
  | JObj m => JObj ((λ x, match x with
                          | JStr s =>
                              if shouldRewrite r s then
                                let photoID := extractPhotoID s in
                                if negb (bool_decide (photoID = EmptyString)) && negb (bool_decide (listingKey = EmptyString))
                                then JStr (publicURL r listingKey photoID) else x
                              else x
                          | _ => walk r listingKey x
                          end) <$> m)
  | JArr l => JArr (walk r listingKey <$> l)
  | _ => v
  end.

(** Only objects and arrays are decoded; what cannot be encoded again stays as it was. *)
Definition RewriteBytes (r : Rewriter) (body : text) (listingKey : string) : text :=
  match body with
  | Some ((JObj _ | JArr _) as v) => let v' := walk r listingKey (as_any v) in if encodes v' then Some v' else body
  | _ => body
  end.
End Clients.

(** ** Laws *)

(** Induction that reaches the members of arrays and objects. *)
Section JsonInd.
Context (P : json → Prop) (Hnull : P JNull) (Hbool : ∀ b, P (JBool b)) (Hnum : ∀ n, P (JNum n)) (Hstr : ∀ s, P (JStr s))
  (Harr : ∀ l, Forall P l → P (JArr l)) (Hobj : ∀ m, map_Forall (λ _, P) m → P (JObj m)).

Fixpoint json_size (j : json) : nat :=
  match j with
  | JArr l => S (sum_list_with json_size l)
  | JObj m => S (map_fold (λ _ x n, (json_size x + n)%nat) 0%nat m)
  | _ => 1
  end.

Lemma json_nested : ∀ j, P j.
Proof.
  assert (H : ∀ n j, (json_size j ≤ n)%nat → P j); [|by intros j; apply (H (json_size j))].
  induction n as [|n IH]; intros j Hj; [by destruct j; simpl in Hj; lia|].
  destruct j as [| | | |l|m]; try done.
  - apply Harr, Forall_forall. intros x Hx. apply IH. simpl in Hj. apply le_S_n in Hj. etrans; [|exact Hj].
    clear -Hx. induction Hx; simpl; lia.
  - apply Hobj. intros k x Hx. apply IH. simpl in Hj. apply le_S_n in Hj. etrans; [|exact Hj].
    rewrite (map_fold_delete_L _ _ k x m); [lia|intros; lia|done].
Qed.
End JsonInd.

(** Without a listing key nothing is rewritten. *)
Lemma walk_no_key r v : walk r EmptyString v = v.
Proof.
  induction v as [| | | |l IH|m IH] using json_nested; try done; cbn.
  - f_equal. induction IH as [|x l Hx _ IHl]; [done|]. cbn. by rewrite Hx, IHl.
  - f_equal. rewrite <- (map_fmap_id m) at 2. apply map_fmap_ext. intros k x Hx. specialize (IH k x Hx). cbn beta in IH.
    destruct x as [| | |s| |]; try exact IH. change (id (JStr s)) with (JStr s). rewrite (bool_decide_eq_true_2 (EmptyString = EmptyString)) by done.
    rewrite andb_false_r. by destruct (shouldRewrite r s).
Qed.

Lemma RewriteBytes_no_key r body : RewriteBytes r body EmptyString = body ∨ RewriteBytes r body EmptyString = as_any <$> body.
Proof.
  unfold RewriteBytes. destruct body as [[]|]; cbv zeta; try (by left); rewrite walk_no_key; destruct (encodes _); auto.
Qed.
