(* ===== verification/MirrorQuery.v ===== *)
(** * What the queries on the listings mirror share

    The status a query compares, the order of its rows, the range of a SMALLINT argument and
    the distance PostGIS measures. The NUMERIC columns are taken to hold the value that was
    written to them. *)

From Stdlib Require Import Ascii String.
From stdpp Require Import gmap strings list sorting.
From S2P Require Import Prelude GoStrings GoTime GoFloat GoJson Payload Listing Database.

(** [ST_DWithin] of two points (lng, lat) and a distance in meters. *)
Class GeoDistance := st_dwithin : float64 * float64 → float64 * float64 → float64 → bool.

(** [LOWER(TRIM(COALESCE(standard_status, '')))] *)
Definition sqlStatusOf (l : listing_row) : string :=
  ToLower (TrimByte (default EmptyString (StandardStatus (l_rec l))) " "%char).

(** pgx refuses an argument a SMALLINT cannot hold. *)
Definition smallint_arg (n : Z) : bool := (- 2 ^ 15 <=? n)%Z && (n <=? 2 ^ 15 - 1)%Z.
Definition int2_refused : string := "unable to encode into binary format for int2".

(** [modification_timestamp DESC NULLS LAST] *)
Definition newer (a b : listing_row) : Prop :=
  match ModificationTimestamp (l_rec a), ModificationTimestamp (l_rec b) with
  | Some x, Some y => (y <= x)%Z
  | None, Some _ => False
  | _, None => True
  end.
#[export] Instance newer_dec : RelDecision newer.
Proof. intros a b. unfold newer. repeat case_match; apply _. Defined.
#[export] Instance newer_total : Total newer.
Proof. intros a b. unfold newer. destruct (ModificationTimestamp (l_rec a)), (ModificationTimestamp (l_rec b)); lia || tauto. Qed.
#[export] Instance newer_trans : Transitive newer.
Proof.
  intros a b c. unfold newer.
  destruct (ModificationTimestamp (l_rec a)), (ModificationTimestamp (l_rec b)), (ModificationTimestamp (l_rec c)); lia || tauto.
Qed.

Definition all_ok {A} (l : list (res A)) : res (list A) :=
  foldr (λ r acc, res_bind r (λ a, res_bind acc (λ l, Ok (a :: l)))) (Ok []) l.

Lemma all_ok_Forall2 {A} (rs : list (res A)) l : all_ok rs = Ok l → Forall2 (λ r a, r = Ok a) rs l.
Proof.
  revert l. induction rs as [|r rs IH]; simpl; intros l H; [by injection H as <-|].
  destruct r as [a|e]; [|done]. simpl in H. destruct (all_ok rs) as [l'|e]; [|done]. injection H as <-.
  constructor; [done|by apply IH].
Qed.
