(* ===== verification/Search.v ===== *)
(** * Listing search

    [service/search]: a search is answered from the listings mirror, from the live MLS feed,
    or from both. The MLS server, the digest and the text of a JSON document are parameters;
    the panic of a nil map is [None]. *)

From Stdlib Require Import Ascii String.
From stdpp Require Import gmap strings list sorting.
From S2P Require Import Prelude GoStrings GoTime GoFloat GoNum GoUrl GoJson Payload Listing AccessData Config CacheData Database Upstream GisFetch Caches Feeds AuditLog MlsClient MirrorQuery.

Open Scope string_scope.

(** ** Requests and results ([service.go]) *)

Record SearchRequest := mkSearch {
  sr_Statuses : option (list string);
  sr_ActiveOnly : option bool;
  sr_MinPrice : option float64;
  sr_MaxPrice : option float64;
  sr_BedsMin : option Z;
  sr_BathsMin : option float64;
  sr_LivingAreaMin : option Z;
  sr_LivingAreaMax : option Z;
  sr_LotSizeAcresMin : option float64;
  sr_YearBuiltMin : option Z;
  sr_PropertyType : option string;
  sr_PropertySubType : option string;
  sr_City : option string;
  sr_PostalCode : option string;
  sr_PoolPrivate : option bool;
  sr_Waterfront : option bool;
  sr_Lat : option float64;
  sr_Lng : option float64;
  sr_RadiusMiles : option float64;
  sr_PriceReducedWithinDays : option Z;
  sr_LowRiskFloodzone : option bool;
  sr_MinMonthlyFees : option float64;
  sr_MaxMonthlyFees : option float64;
  sr_Skip : Z;
  sr_Limit : Z;
}.
Definition statuses (req : SearchRequest) : list string := default [] (sr_Statuses req).

Definition with_statuses (l : list string) (q : SearchRequest) : SearchRequest :=
  mkSearch (Some l) (sr_ActiveOnly q) (sr_MinPrice q) (sr_MaxPrice q) (sr_BedsMin q) (sr_BathsMin q) (sr_LivingAreaMin q)
    (sr_LivingAreaMax q) (sr_LotSizeAcresMin q) (sr_YearBuiltMin q) (sr_PropertyType q) (sr_PropertySubType q) (sr_City q)
    (sr_PostalCode q) (sr_PoolPrivate q) (sr_Waterfront q) (sr_Lat q) (sr_Lng q) (sr_RadiusMiles q) (sr_PriceReducedWithinDays q)
    (sr_LowRiskFloodzone q) (sr_MinMonthlyFees q) (sr_MaxMonthlyFees q) (sr_Skip q) (sr_Limit q).

Definition with_skip (skip : Z) (q : SearchRequest) : SearchRequest :=
  mkSearch (sr_Statuses q) (sr_ActiveOnly q) (sr_MinPrice q) (sr_MaxPrice q) (sr_BedsMin q) (sr_BathsMin q) (sr_LivingAreaMin q)
    (sr_LivingAreaMax q) (sr_LotSizeAcresMin q) (sr_YearBuiltMin q) (sr_PropertyType q) (sr_PropertySubType q) (sr_City q)
    (sr_PostalCode q) (sr_PoolPrivate q) (sr_Waterfront q) (sr_Lat q) (sr_Lng q) (sr_RadiusMiles q) (sr_PriceReducedWithinDays q)
    (sr_LowRiskFloodzone q) (sr_MinMonthlyFees q) (sr_MaxMonthlyFees q) skip (sr_Limit q).

Record SearchResult := mkResult { re_Results : list RawMessage; re_HasMore : bool; re_NextSkip : Z }.
Definition no_result : SearchResult := mkResult [] false 0.

(** The JSON of a request, as its fingerprint takes it. *)
Definition marshal_request (q : SearchRequest) : json :=
  let nullable {A} (f : A → json) (o : option A) := Some (match o with Some a => f a | None => JNull end) in
  let num (f : float64) := JNum (NFlt f) in
  let int (n : Z) := JNum (NInt n) in
  mk_obj [("statuses", nullable (λ l, JArr (JStr <$> l)) (sr_Statuses q)); ("active_only", nullable JBool (sr_ActiveOnly q));
          ("min_price", nullable num (sr_MinPrice q)); ("max_price", nullable num (sr_MaxPrice q));
          ("beds_min", nullable int (sr_BedsMin q)); ("baths_min", nullable num (sr_BathsMin q));
          ("living_area_min", nullable int (sr_LivingAreaMin q)); ("living_area_max", nullable int (sr_LivingAreaMax q));
          ("lot_size_acres_min", nullable num (sr_LotSizeAcresMin q)); ("year_built_min", nullable int (sr_YearBuiltMin q));
          ("property_type", nullable JStr (sr_PropertyType q)); ("property_sub_type", nullable JStr (sr_PropertySubType q));
          ("city", nullable JStr (sr_City q)); ("postal_code", nullable JStr (sr_PostalCode q));
          ("pool_private", nullable JBool (sr_PoolPrivate q)); ("waterfront", nullable JBool (sr_Waterfront q));
          ("lat", nullable num (sr_Lat q)); ("lng", nullable num (sr_Lng q)); ("radius_miles", nullable num (sr_RadiusMiles q));
          ("price_reduced_within_days", nullable int (sr_PriceReducedWithinDays q));
          ("low_risk_floodzone", nullable JBool (sr_LowRiskFloodzone q)); ("min_monthly_fees", nullable num (sr_MinMonthlyFees q));
          ("max_monthly_fees", nullable num (sr_MaxMonthlyFees q)); ("skip", Some (int (sr_Skip q))); ("limit", Some (int (sr_Limit q)))].

(** ** Routes ([route.go]) *)

Inductive HybridSearchRouteMode := RoutePostgresOnly | RouteUpstreamOnly | RouteSplit.

Definition positive (o : option Z) : bool := match o with Some n => (0 <? n)%Z | None => false end.

Definition DecideRoute (req : SearchRequest) : HybridSearchRouteMode :=
  if positive (sr_PriceReducedWithinDays req) then RouteUpstreamOnly
  else
    let '(hasAP, hasClosed) := foldl (λ '(ap, cl) st,
      if bool_decide (st = "Active") || bool_decide (st = "Pending") then (true, cl)
      else if bool_decide (st = "Closed") then (ap, true) else (ap, cl)) (false, false) (statuses req) in
    if bool_decide (statuses req = []) then
      match sr_ActiveOnly req with Some false => RouteUpstreamOnly | _ => RoutePostgresOnly end
    else if hasAP && hasClosed then RouteSplit
    else if hasClosed && negb hasAP then RouteUpstreamOnly
    else if hasAP && negb hasClosed then RoutePostgresOnly
    else RouteUpstreamOnly.

(** Whether two documents are the same bytes: the model has their values. *)
Class SameBytes := {
  same_bytes : RawMessage → RawMessage → bool;
  same_bytes_eq : ∀ a b, same_bytes a b = true → a = b;
}.

Definition MergeResults {SB : SameBytes} (a b : SearchResult) : SearchResult :=
  mkResult (re_Results a ++ filter (λ r, existsb (λ x, same_bytes x r) (re_Results a) = false) (re_Results b))%list
    (re_HasMore a || re_HasMore b) (re_NextSkip a).

(** ** The verb [%g] *)

Section FormatG.
Context {FT : GoFloatText}.

Fixpoint strip_zeros (s : string) : nat * string :=
  match s with
  | String c r => if bool_decide (c = "0"%char) then let '(n, t) := strip_zeros r in (S n, t) else (O, s)
  | EmptyString => (O, EmptyString)
  end.

Definition exponent_text (x : Z) : string :=
  (if (x <? 0)%Z then "-" else "+") +:+ (if (Z.abs x <? 10)%Z then "0" else EmptyString) +:+ show_int (Z.abs x).

(** The shortest digits, with an exponent below 1e-4 and from 1e6 on. *)
Definition FormatG (f : float64) : string :=
  let t := FormatFloat f in
  let sign := if HasPrefix t "-" then "-" else EmptyString in
  let u := TrimPrefix t "-" in
  let '(ip, fp) := cut_byte "."%char u in
  let fp := default EmptyString fp in
  let '(zeros, digits) := strip_zeros (ip +:+ fp) in
  let exp := (Z.of_nat (String.length ip) - 1 - Z.of_nat zeros)%Z in
  let digits := trim_right (λ c, bool_decide (c = "0"%char)) digits in
  match f with
  | SpecFloat.S754_finite _ _ _ =>
      if ((exp <? -4) || (6 <=? exp))%Z then
        sign +:+ take_bytes 1 digits +:+ (if bool_decide (drop_bytes 1 digits = EmptyString) then EmptyString else "." +:+ drop_bytes 1 digits) +:+
        "e" +:+ exponent_text exp
      else t
  | _ => t
  end.
End FormatG.

(** ** The mirror ([postgis.go]) *)

Section Search.
Context {F : Faults} {RO : RowOrder} {MS : MlsServer text} {FT : GoFloatText} {JT : GoJsonText} {GD : GeoDistance} {SB : SameBytes}
  (sha256_hex : string → string) (cfg : Config).

Definition page_size (req : SearchRequest) : Z := if (sr_Limit req <=? 0)%Z || (200 <? sr_Limit req)%Z then 50 else sr_Limit req.

Definition at_least (o column : option float64) : bool :=
  match o with Some x => match column with Some v => f_le x v | None => false end | None => true end.
Definition at_most (o column : option float64) : bool :=
  match o with Some x => match column with Some v => f_le v x | None => false end | None => true end.
Definition int_at_least (o column : option Z) : bool :=
  match o with Some x => match column with Some v => (x <=? v)%Z | None => false end | None => true end.
(** [LOWER(column) = LOWER($n)] for a text that is not blank. *)
Definition same_text (fold : string → string) (o column : option string) : bool :=
  match o with
  | Some x => if bool_decide (TrimSpace x = EmptyString) then true
              else match column with Some v => bool_decide (fold v = fold (TrimSpace x)) | None => false end
  | None => true
  end.
Definition flagged (o column : option bool) : bool := match o with Some true => bool_decide (column = Some true) | _ => true end.

(** The statuses a search admits. *)
Definition status_admitted (req : SearchRequest) (l : listing_row) : bool :=
  if bool_decide (statuses req = []) then bool_decide (sqlStatusOf l ∈ ["active"; "pending"])
  else bool_decide (sqlStatusOf l ∈ (λ st, ToLower (TrimSpace st)) <$> statuses req).

Definition within_radius (req : SearchRequest) (l : listing_row) : bool :=
  match sr_Lat req, sr_Lng req, sr_RadiusMiles req with
  | Some lat, Some lng, Some radius =>
      match l_coordinates l with Some p => st_dwithin p (lng, lat) (f_mul radius (lit "1609.34")) | None => false end
  | _, _, _ => true
  end.

(** The conditions of the query. *)
Definition search_matches (now : Z) (rollingMonths : Z) (req : SearchRequest) (l : listing_row) : bool :=
  let r := l_rec l in
  status_admitted req l &&
  at_least (sr_MinPrice req) (ListPrice r) && at_most (sr_MaxPrice req) (ListPrice r) &&
  int_at_least (sr_BedsMin req) (BedroomsTotal r) && at_least (sr_BathsMin req) (BathroomsTotalDecimal r) &&
  at_least (f_of_Z <$> sr_LivingAreaMin req) (LivingArea r) && at_most (f_of_Z <$> sr_LivingAreaMax req) (LivingArea r) &&
  at_least (sr_LotSizeAcresMin req) (LotSizeAcres r) && int_at_least (sr_YearBuiltMin req) (YearBuilt r) &&
  same_text ToLower (sr_PropertyType req) (PropertyType r) && same_text ToLower (sr_PropertySubType req) (PropertySubType r) &&
  same_text ToLower (sr_City req) (City r) && same_text id (sr_PostalCode req) (PostalCode r) &&
  flagged (sr_PoolPrivate req) (PoolPrivateYN r) && flagged (sr_Waterfront req) (WaterfrontYN r) &&
  (if positive (sr_PriceReducedWithinDays req)
   then match PriceChangeTimestamp r with Some t => (add_date now 0 0 (- default 0%Z (sr_PriceReducedWithinDays req)) <=? t)%Z | None => false end
   else true) &&
  flagged (sr_LowRiskFloodzone req) (Some (l_low_risk_flood_zone_yn l)) &&
  (if (0 <? rollingMonths)%Z
   then match ModificationTimestamp r with Some t => (add_date now 0 (- rollingMonths) 0 <=? t)%Z | None => false end else true) &&
  at_least (sr_MinMonthlyFees req) (EstimatedTotalMonthlyFees r) && at_most (sr_MaxMonthlyFees req) (EstimatedTotalMonthlyFees r) &&
  within_radius req l.

(** The arguments of the two SMALLINT columns. *)
Definition search_args (req : SearchRequest) : bool :=
  match sr_BedsMin req with Some n => smallint_arg n | None => true end &&
  match sr_YearBuiltMin req with Some n => smallint_arg n | None => true end.

(** The rows of a search, the newest first. *)
Definition search_rows (feedCode : string) (req : SearchRequest) (rollingMonths : Z) (w : World) : list listing_row :=
  merge_sort newer (row_order _ (omap (λ kl,
    if bool_decide (kl.1.1 = DatasetSlugFromFeedCode feedCode) && search_matches (w_now w) rollingMonths req kl.2 then Some kl.2 else None)
    (map_to_list (w_listings w)))).

(** A row as a document; one without any payload is passed over. *)
Definition mirror_document (l : listing_row) : option (res RawMessage) :=
  let p := Payloads (l_rec l) in
  if negb (raw_present (RawData (l_rec l)) || raw_present (p_Media p) || raw_present (p_Unit p) || raw_present (p_Room p) ||
           raw_present (p_OpenHouse p) || raw_present (CustomFields (l_rec l))) then None
  else Some (MergeMirrorListing (RawData (l_rec l))
    (mkPayload (p_Media p) (p_Unit p) (p_Room p) (p_OpenHouse p) (raw_present (p_Media p)) (raw_present (p_Unit p))
      (raw_present (p_Room p)) (raw_present (p_OpenHouse p))) (CustomFields (l_rec l))).

Definition PostgisSearch (feedCode : string) (req : SearchRequest) (rollingMonths : Z) : M World (option SearchResult) :=
  let limit := page_size req in
  let skip := Z.max 0 (sr_Skip req) in
  let* rows := stmt (if negb (search_args req) then throw int2_refused
    else get (λ w, take (Z.to_nat (limit + 1)) (drop (Z.to_nat skip) (search_rows feedCode req rollingMonths w)))) in
  match all_ok (omap mirror_document rows) with
  | Err _ => ret None
  | Ok results =>
      let hasMore := (limit <? Z.of_nat (length results))%Z in
      let results := if hasMore then take (Z.to_nat limit) results else results in
      ret (Some (mkResult results hasMore (skip + Z.of_nat (length results))))
  end.

(** ** The live feed ([live_search.go]) *)

Definition buildODataFilter (req : SearchRequest) : string :=
  let opt {A} (o : option A) (f : A → string) : list string := match o with Some a => [f a] | None => [] end in
  Join ((if bool_decide (statuses req = []) then [] else
           ["StandardStatus in (" +:+ Join ((λ st, "'" +:+ ReplaceAll st "'" "''" +:+ "'") <$> statuses req) "," +:+ ")"]) ++
        opt (sr_MinPrice req) (λ p, "ListPrice ge " +:+ FormatG p) ++
        opt (sr_MaxPrice req) (λ p, "ListPrice le " +:+ FormatG p) ++
        opt (sr_BedsMin req) (λ n, "BedroomsTotal ge " +:+ show_int n) ++
        (if positive (sr_PriceReducedWithinDays req) then opt (sr_PriceReducedWithinDays req) (λ n, "DaysOnMarket le " +:+ show_int n) else []))%list
    " and ".

Definition searchFingerprint (req : SearchRequest) : string := sha256_hex (json_text (marshal_request req)).

Definition parseSearchBody (body : text) : SearchResult :=
  let whole := mkResult [RawText body] false 0 in
  match body with
  | Some (JObj m) =>
      match m !! "value" with
      | None | Some JNull => no_result
      | Some (JArr l) => mkResult (raw_of <$> l) false 0
      | _ => whole
      end
  | Some JNull => no_result
  | _ => whole
  end.

Definition live_values (req : SearchRequest) : Values :=
  let q := <["$orderby" := "ModificationTimestamp desc"]> {["$top" := show_int (page_size req)]} in
  let q := if (0 <? sr_Skip req)%Z then <["$skip" := show_int (sr_Skip req)]> q else q in
  if bool_decide (buildODataFilter req = EmptyString) then q else <["$filter" := buildODataFilter req]> q.

Definition text_of (r : RawMessage) : text := match r with RawText t => t | RawNil => None end.

Definition UpstreamSearch (scope : Scope) (rq : ClientRequest) (req : SearchRequest) : M World SearchResult :=
  let* endpoint := of_res (LiveResoPropertyEndpoint cfg (Feed (sl_Feed scope))) in
  let partition := SearchPartition (sl_DomainSlug scope) (sl_FeedCode scope) in
  let fp := searchFingerprint req in
  let* cached := CacheGet cfg partition fp in
  match cached with
  | Some body => ret (parseSearchBody (text_of body))
  | None =>
      let* _ := of_res (merged_url (cl_req rq) (le_PropertyURL endpoint) false) in
      let* reply := attempt (ProxyUpstream cfg (sl_Feed scope) rq (requestURL (le_PropertyURL endpoint) (live_values req))) in
      match reply with
      | Err e => throw e
      | Ok r =>
          if (400 <=? rp_Status r)%Z then ret no_result
          else ignore (CachePut partition fp (RawText (rp_Body r))) ;;; ret (parseSearchBody (rp_Body r))
      end
  end.

(** ** The handler ([service.go]) *)

Definition rolling : Z := mls_LocalMirrorRollingMonths (cfg_MLS cfg).
Definition from_mirror (scope : Scope) (req : SearchRequest) : M World (option SearchResult) :=
  PostgisSearch (sl_FeedCode scope) req rolling.
Definition from_feed (scope : Scope) (rq : ClientRequest) (req : SearchRequest) : M World (option SearchResult) :=
  let* r := UpstreamSearch scope rq req in ret (Some r).

Definition searchSplit (scope : Scope) (rq : ClientRequest) (req : SearchRequest) : M World (option SearchResult) :=
  let* ap := attempt (from_mirror scope req) in
  match ap with
  | Err _ => from_feed scope rq req
  | Ok None => ret None
  | Ok (Some ap) =>
      let* cl := attempt (UpstreamSearch scope rq (with_statuses ["Closed"] req)) in
      match cl with
      | Err _ => ret (Some ap)
      | Ok cl => ret (Some (MergeResults ap cl))
      end
  end.

Definition routed (scope : Scope) (rq : ClientRequest) (req : SearchRequest) : M World (option SearchResult) :=
  match DecideRoute req with
  | RoutePostgresOnly => from_mirror scope req
  | RouteUpstreamOnly => from_feed scope rq req
  | RouteSplit => searchSplit scope rq req
  end.

Definition rewritten (r : RawMessage) : RawMessage :=
  match r with RawText t => RawText (RewriteBytes (NewRewriter cfg) t EmptyString) | RawNil => RawNil end.

(** [None] for a body that is not a request. *)
Definition Handle (scope : Scope) (rq : ClientRequest) (body : option SearchRequest) : M World (SearchResult + http_error) :=
  match body with
  | None => ret (inr (400%Z, "invalid search body"))
  | Some req =>
      let* r := attempt (routed scope rq req) in
      match r with
      | Err e => ret (inr (502%Z, e))
      | Ok None => ret (inr (500%Z, nil_map_panic))
      | Ok (Some res) =>
          let out := mkResult (rewritten <$> re_Results res) (re_HasMore res) (re_NextSkip res) in
          Log scope "search.listings" (Some (Z.of_nat (length (re_Results res)))) None ;;;
          ret (if existsb (λ r, match r with RawText None => true | _ => false end) (re_Results out)
               then inr (500%Z, "json: error calling MarshalJSON for type json.RawMessage") else inl out)
      end
  end.
End Search.
