(* ===== verification/SearchLaws.v ===== *)
(** * What a search answers

    Which searches the mirror alone answers, that following the pages of the mirror gives
    every matching listing once, and what a search makes of the failures of its two sources. *)

From Stdlib Require Import Ascii String.
From stdpp Require Import gmap strings list sorting.
From S2P Require Import Prelude GoStrings GoTime GoFloat GoNum GoUrl GoJson Payload Listing AccessData Config CacheData Database Upstream GisFetch Caches Feeds AuditLog MlsClient MirrorQuery Search.

Open Scope string_scope.

Section SearchLaws.
Context {F : Faults} {RO : RowOrder} {FT : GoFloatText} {JT : GoJsonText} {GD : GeoDistance} {SB : SameBytes}
  (sha256_hex : string → string) (cfg : Config).

(** ** The rows of a search *)

Lemma search_rows_spec feed req rolling w l : l ∈ search_rows feed req rolling w ↔
  ∃ k, w_listings w !! k = Some l ∧ k.1 = DatasetSlugFromFeedCode feed ∧ search_matches (w_now w) rolling req l = true.
Proof.
  unfold search_rows. rewrite merge_sort_Permutation, row_order_perm, list_elem_of_omap. split.
  - intros ([k r] & Hk%elem_of_map_to_list & Hm). cbn [fst snd] in Hm. destruct (_ && _) eqn:E; [|done].
    injection Hm as <-. apply andb_true_iff in E as [E1%bool_decide_eq_true E2]. by exists k.
  - intros (k & Hk & H1 & H2). exists (k, l). rewrite elem_of_map_to_list. cbn [fst snd]. by rewrite H1, H2, bool_decide_eq_true_2.
Qed.

Lemma search_rows_skip feed req rolling w skip : search_rows feed (with_skip skip req) rolling w = search_rows feed req rolling w.
Proof. done. Qed.

Lemma search_rows_same feed req rolling w w' : w_now w' = w_now w → w_listings w' = w_listings w →
  search_rows feed req rolling w' = search_rows feed req rolling w.
Proof. intros H1 H2. unfold search_rows. by rewrite H1, H2. Qed.

Lemma documents_ok rows docs : Forall2 (λ l d, mirror_document l = Some (Ok d)) rows docs → all_ok (omap mirror_document rows) = Ok docs.
Proof. induction 1 as [|l d rows docs H _ IH]; [done|]. cbn. rewrite H. cbn. fold (omap mirror_document rows). unfold all_ok in IH. by setoid_rewrite IH. Qed.


(** ** Pages *)

Lemma page_size_pos req : (0 < page_size req)%Z.
Proof. unfold page_size. destruct (Z.leb_spec (sr_Limit req) 0), (Z.ltb_spec 200 (sr_Limit req)); cbn; lia. Qed.

Context {NF : NoFaults}.

Lemma page_run feed req rolling w docs skip :
  search_args req = true → (0 <= skip)%Z →
  Forall2 (λ l d, mirror_document l = Some (Ok d)) (search_rows feed req rolling w) docs →
  let rest := drop (Z.to_nat skip) docs in
  let page := take (Z.to_nat (page_size req)) rest in
  PostgisSearch feed (with_skip skip req) rolling w =
    (Ok (Some (mkResult page (page_size req <? Z.of_nat (length rest))%Z (skip + Z.of_nat (length page)))), set_ops (S (w_ops w)) w).
Proof.
  intros Ha Hs Hd. cbv zeta. unfold PostgisSearch. cbv zeta. change (search_args (with_skip skip req)) with (search_args req). rewrite Ha.
  change (page_size (with_skip skip req)) with (page_size req). cbn [negb sr_Skip with_skip]. rewrite (Z.max_r 0 skip Hs).
  unfold bind. rewrite stmt_run. unfold get. rewrite search_rows_skip.
  rewrite (search_rows_same feed req rolling w) by done.
  rewrite (documents_ok _ (take (Z.to_nat (page_size req + 1)) (drop (Z.to_nat skip) docs))) by (by apply Forall2_take, Forall2_drop).
  set (rest := drop (Z.to_nat skip) docs). pose proof (page_size_pos req) as Hp. unfold ret. rewrite length_take.
  destruct (Z.ltb_spec (page_size req) (Z.of_nat (length rest))) as [Hl|Hl].
  - rewrite (proj2 (Z.ltb_lt _ _)) by lia. by rewrite take_take, Nat.min_l by lia.
  - rewrite (proj2 (Z.ltb_ge _ _)) by lia. by rewrite !take_ge by lia.
Qed.

(** Asking for page after page, each from where the last one says the next begins. *)
Fixpoint crawl (n : nat) (feed : string) (req : SearchRequest) (rolling skip : Z) (w : World) : option (list RawMessage) :=
  match n with
  | O => None
  | S n' =>
      match PostgisSearch feed (with_skip skip req) rolling w with
      | (Ok (Some r), w') =>
          if re_HasMore r then app (re_Results r) <$> crawl n' feed req rolling (re_NextSkip r) w' else Some (re_Results r)
      | _ => None
      end
  end.

Lemma crawl_from n feed req rolling skip w docs :
  search_args req = true → (0 <= skip)%Z →
  Forall2 (λ l d, mirror_document l = Some (Ok d)) (search_rows feed req rolling w) docs →
  (length docs - Z.to_nat skip < n)%nat → crawl n feed req rolling skip w = Some (drop (Z.to_nat skip) docs).
Proof.
  intros Ha. revert skip w. induction n as [|n IH]; intros skip w Hs Hd Hn; [lia|]. cbn [crawl].
  rewrite (page_run feed req rolling w docs skip Ha Hs Hd). cbv zeta. cbn [re_HasMore re_Results re_NextSkip].
  set (rest := drop (Z.to_nat skip) docs). pose proof (page_size_pos req) as Hp.
  assert (length rest = (length docs - Z.to_nat skip)%nat) as Hl by (unfold rest; apply length_drop).
  destruct (Z.ltb_spec (page_size req) (Z.of_nat (length rest))) as [Hm|Hm].
  - rewrite length_take, Nat.min_l by lia. rewrite IH; [|lia|by rewrite (search_rows_same feed req rolling w)|lia].
    cbn. f_equal. replace (Z.to_nat (skip + Z.of_nat (Z.to_nat (page_size req)))) with (Z.to_nat skip + Z.to_nat (page_size req))%nat by lia.
    rewrite <- drop_drop. apply take_drop.
  - by rewrite take_ge by lia.
Qed.

(** C34 Following the pages of a mirror search gives every matching listing exactly once, the
    newest first, in finitely many requests: from the first page on, each request starting
    where the page before said, until one says there are no more. Rows of one timestamp keep
    their order from page to page here; SQL leaves that order open. *)
Theorem mirror_pages_complete feed req rolling w docs :
  search_args req = true →
  Forall2 (λ l d, mirror_document l = Some (Ok d)) (search_rows feed req rolling w) docs →
  crawl (S (length docs)) feed req rolling 0 w = Some docs ∧
  StronglySorted newer (search_rows feed req rolling w) ∧
  ∀ l, l ∈ search_rows feed req rolling w ↔
    ∃ k, w_listings w !! k = Some l ∧ k.1 = DatasetSlugFromFeedCode feed ∧ search_matches (w_now w) rolling req l = true.
Proof.
  intros Ha Hd. split_and!.
  - rewrite (crawl_from _ feed req rolling 0 w docs Ha); [done|lia|done|cbn; lia].
  - apply Sorted_StronglySorted; [apply _|]. apply Sorted_merge_sort; apply _.
  - intros l. apply search_rows_spec.
Qed.
End SearchLaws.

Section Sources.
Context {F : Faults} {RO : RowOrder} {FT : GoFloatText} {JT : GoJsonText} {GD : GeoDistance} {SB : SameBytes}
  (sha256_hex : string → string) (cfg : Config).

(** ** Searches of the mirror *)






(** ** Both sources *)

Context {MS : MlsServer text}.




(** What a feed that only takes GET makes of live searches: a search arrives as a POST and
    is passed on as one, so the feed refuses it; the refusal is not an error of the search,
    which answers 200 with no listings. *)
Theorem refused_live_search_is_empty scope rq req endpoint w :
  (∀ w q, up_Method q ≠ "GET" → ∃ status etag ctype body, mls_send w q = UpReply status etag ctype body ∧ (400 <= status)%Z) →
  cq_method (cl_req rq) = "POST" → DecideRoute req = RouteUpstreamOnly →
  LiveResoPropertyEndpoint cfg (Feed (sl_Feed scope)) = Ok endpoint →
  url_Host (le_PropertyURL endpoint) ≠ None → url_Host (requestURL (le_PropertyURL endpoint) (live_values req)) ≠ None →
  (CacheGet cfg (SearchPartition (sl_DomainSlug scope) (sl_FeedCode scope)) (searchFingerprint sha256_hex req) w).1 = Ok None →
  (Handle sha256_hex cfg scope rq (Some req) w).1 = Ok (inl no_result).
Proof.
  intros Hserver Hm Hroute He Hu1 Hu2 Hc. unfold Handle, routed. rewrite Hroute. unfold from_feed, UpstreamSearch. rewrite He.
  set (c := CacheGet _ _ _) in *. cbv zeta. unfold bind, attempt, of_res, ret.
  destruct (c w) as [oc w1]. cbn in Hc. subst oc. unfold merged_url. destruct (url_Host (le_PropertyURL endpoint)) as [h1|]; [|done].
  unfold ProxyUpstream, ForRequest. set (send := if bool_decide _ then _ else _).
  assert (∃ rep w2, send rq (requestURL (le_PropertyURL endpoint) (live_values req)) false w1 = (Ok rep, w2) ∧ (400 <= rp_Status rep)%Z) as (rep & w2 & Hsend & Hst).
  { unfold send. case_bool_decide; unfold spark_proxy, bridge_proxy, proxy_with, merged_url, bind, of_res, ret;
      (destruct (url_Host (requestURL _ _)) as [h2|]; [|done]);
      (match goal with |- context [mls_send w1 ?q] => destruct (Hserver w1 q) as (st & et & ct & b & -> & Hst); [cbn; by rewrite Hm|] end);
      by eexists _, _. }
  rewrite Hsend. cbn. by rewrite (proj2 (Z.leb_le 400 (rp_Status rep)) Hst).
Qed.
End Sources.

(** ** Concrete searches *)

Definition in_order : RowOrder.
Proof. by refine {| row_order := λ A l, l |}. Defined.
Definition never_same : SameBytes.
Proof. by refine {| same_bytes := λ _ _, false |}. Defined.
#[local] Existing Instance in_order.
#[local] Existing Instance never_same.
#[local] Instance runs : Faults := never_fails.
#[local] Instance runs_ok : NoFaults := never_fails_ok.
#[local] Instance plain_floats : GoFloatText := λ _, "250000".
#[local] Instance plain_json : GoJsonText := λ _, "{}".
#[local] Instance near_all : GeoDistance := λ _ _ _, true.

Definition document (key : string) : RawMessage := RawText (Some (JObj {["ListingKey" := JStr key]})).
Definition listed (key status : string) (modified : Z) : listing_row :=
  mkListingRow 1 (mkListing "stellar" key None (Some status) (Some (f_of_Z 300000)) None None None None None None None None
    None None (Some "Residential") None None None (Some modified) None None None false None None None None None None None
    None None None None None None None None None RawNil (document key) emptyPayload RawNil None None None None)
    None None None RawNil None false 0 0 0.

Definition three_listings : World := set_listings
  (<[("stellar", "a") := listed "a" "Active" 10]> (<[("stellar", "b") := listed "b" " PENDING" 20]>
    (<[("stellar", "c") := listed "c" "Active" 30]> {[("stellar", "d") := listed "d" "Closed" 40]}))) (empty_world 50).

Definition search_for (l : option (list string)) (limit : Z) : SearchRequest :=
  mkSearch l None (Some (f_of_Z 250000)) None None None None None None None None None None None None None None None None None None None None 0 limit.

Lemma documents_map rows docs : mirror_document <$> rows = (λ d, Some (Ok d)) <$> docs → Forall2 (λ l d, mirror_document l = Some (Ok d)) rows docs.
Proof.
  revert docs. induction rows as [|l rows IH]; intros [|d docs] H; cbn in H; simplify_eq; constructor; auto.
Qed.

Lemma mirror_pages_complete_witness :
  crawl 4 "bridge_stellar" (search_for (Some ["Active"; "Pending"]) 2) 0 0 three_listings = Some [document "c"; document "b"; document "a"].
Proof.
  refine (proj1 (mirror_pages_complete "bridge_stellar" (search_for (Some ["Active"; "Pending"]) 2) 0 three_listings
    [document "c"; document "b"; document "a"] eq_refl _)).
  apply documents_map. vm_compute. reflexivity.
Defined.

(** A server that refuses whatever is not a GET, and one that has a closed listing. *)
Definition get_only : MlsServer text := λ _ q,
  if bool_decide (up_Method q = "GET") then UpReply 200 None None (Some (JObj {["value" := JArr []]})) else UpReply 405 None None None.

Definition posted : ClientRequest := mkClientRequest (mkCachedRequest "POST" [] "{}") EmptyString "application/json".
Definition on_stellar : Scope := mkScopeLocals "example.com" "bridge_stellar" (Some (mkFeed "bridge_stellar" "bridge" "stellar")) None None true "::1".
Definition keyed : Config := Eval vm_compute in Load (λ k, if bool_decide (k = "BRIDGE_API_KEY") then "k" else EmptyString).

Definition mark (s : string) : string := "#" +:+ s.



Lemma refused_live_search_is_empty_witness :
  (Handle (MS:=get_only) mark keyed on_stellar posted (Some (search_for (Some ["Closed"]) 20)) three_listings).1 = Ok (inl no_result).
Proof.
  refine (refused_live_search_is_empty mark keyed (MS:=get_only) on_stellar posted (search_for (Some ["Closed"]) 20)
    (mkEndpoint "https://api.bridgedataoutput.com/api/v2/reso/odata/stellar/Property" "k") three_listings _ eq_refl _ _ _ _ _);
    try (vm_compute; (reflexivity || discriminate)).
  intros w q Hq. exists 405%Z, None, None, None. unfold mls_send, get_only. rewrite bool_decide_eq_false_2 by exact Hq. split; [reflexivity|lia].
Defined.
