(* ===== verification/Proxy.v ===== *)
(** * The MLS proxy endpoints and the image proxy

    [handler/bridge/handler.go]: every endpoint builds an upstream URL, a cache partition and
    an audit type, and [finishProxy] answers from the cache or from the MLS server.
    [handler/images/proxy.go]: photos, kept on disk for good. The disk is a map from path to
    bytes; the headers a browser caches by are left out, [X-IDX-Cache] and [ETag] are not. *)

From Stdlib Require Import Ascii String.
From stdpp Require Import gmap strings list.
From S2P Require Import Prelude GoStrings GoTime GoFloat GoNum GoUrl GoJson Payload Listing AccessData Config CacheData Database Upstream Caches Feeds AuditLog MlsClient.

Open Scope string_scope.

Record ProxyReply := mkProxyReply {
  px_Status : Z;
  px_Cache : option string;
  px_ETag : option string;
  px_Body : RawMessage;
}.

Section Proxies.
Context {F : Faults} {MS : MlsServer text} (sha256_hex : string → string) (cfg : Config).

(** ** Common ends *)

(** [h.feedCode]: the dataset of the configuration stands in. *)
Definition feedCode (scope : Scope) : string :=
  if bool_decide (sl_FeedCode scope = EmptyString) then "bridge_" +:+ br_Dataset (cfg_Bridge cfg) else sl_FeedCode scope.

Definition priced (rq : CachedRequest) (body : RawMessage) : M World (option RawMessage) :=
  if bool_decide (query_value (cq_query rq) "include_pricing" = "1") then InjectIntoJSON body else ret (Some body).

Definition panicked : ProxyReply + http_error := inr (500%Z, nil_map_panic).

Definition cached_reply (scope : Scope) (rq : CachedRequest) (auditType : string) (body : RawMessage) : M World (ProxyReply + http_error) :=
  Log scope auditType None (Some "HIT") ;;;
  let* body := priced rq body in
  ret (match body with Some b => inl (mkProxyReply 200 (Some "HIT") None b) | None => panicked end).

Definition finishProxy (scope : Scope) (rq : ClientRequest) (auditType upstream listingKey partition : string) : M World (ProxyReply + http_error) :=
  let fp := FingerprintRequest sha256_hex (cl_req rq) upstream in
  let* hit := (if bool_decide (partition = EmptyString) then ret None else CacheGet cfg partition fp) in
  match hit with
  | Some body => cached_reply scope (cl_req rq) auditType body
  | None =>
      let* reply := attempt (Proxy cfg (sl_Feed scope) rq upstream) in
      match reply with
      | Err e => ret (inr (502%Z, e))
      | Ok r =>
          if ((200 <=? rp_Status r) && (rp_Status r <? 300))%Z then
            let* body := priced (cl_req rq) (RawText (RewriteBytes (NewRewriter cfg) (rp_Body r) listingKey)) in
            match body with
            | None => ret panicked
            | Some body =>
                let cacheHit := if bool_decide (partition = EmptyString) then None else Some "MISS" in
                (if bool_decide (partition = EmptyString) then ret tt else ignore (CachePut partition fp body)) ;;;
                Log scope auditType None cacheHit ;;;
                ret (inl (mkProxyReply (rp_Status r) cacheHit (rp_ETag r) body))
            end
          else Log scope auditType None None ;;; ret (inl (mkProxyReply (rp_Status r) None (rp_ETag r) (RawText (rp_Body r))))
      end
  end.

Definition dataset (scope : Scope) : string := DatasetSlug (Feed (sl_Feed scope)) (br_Dataset (cfg_Bridge cfg)).
Definition is_spark (scope : Scope) : bool := bool_decide (fd_Provider (Feed (sl_Feed scope)) = "spark").

Definition sparkWebURL (path : string) : string := sp_APIHost (cfg_Spark cfg) +:+ "/" +:+ sp_APIVersion (cfg_Spark cfg) +:+ "/" +:+ path.
Definition sparkEntityURL (entity : string) : string :=
  sp_APIHost (cfg_Spark cfg) +:+ "/" +:+ sp_APIVersion (cfg_Spark cfg) +:+ "/" +:+ sp_LiveResoRoot (cfg_Spark cfg) +:+ "/" +:+ entity.

Definition web_url (scope : Scope) (path : string) : string :=
  if is_spark scope then sparkWebURL path else bridgeWebURL (cfg_Bridge cfg) path (dataset scope).
Definition reso_url (scope : Scope) (entity : string) : string :=
  if is_spark scope then sparkEntityURL entity else bridgeResoURL (cfg_Bridge cfg) entity (dataset scope).

Definition proxyWebWithKey (scope : Scope) (rq : ClientRequest) (auditType path listingKey : string) : M World (ProxyReply + http_error) :=
  finishProxy scope rq auditType (web_url scope path) listingKey (WebPartition (sl_DomainSlug scope) (feedCode scope) auditType).
Definition proxyWeb (scope : Scope) (rq : ClientRequest) (auditType path : string) : M World (ProxyReply + http_error) :=
  proxyWebWithKey scope rq auditType path EmptyString.

Definition proxyResoWithKey (scope : Scope) (rq : ClientRequest) (auditType entity listingKey : string) : M World (ProxyReply + http_error) :=
  finishProxy scope rq auditType (reso_url scope entity) listingKey (ResoPartition (sl_DomainSlug scope) (feedCode scope) entity).
Definition proxyReso (scope : Scope) (rq : ClientRequest) (auditType entity : string) : M World (ProxyReply + http_error) :=
  proxyResoWithKey scope rq auditType entity EmptyString.

Definition proxyResoLookup (scope : Scope) (rq : ClientRequest) (auditType entity : string) : M World (ProxyReply + http_error) :=
  finishProxy scope rq auditType (reso_url scope entity) EmptyString (LookupPartition (sl_DomainSlug scope) (feedCode scope)).

(** The URL is Bridge's, the client that of the feed. *)
Definition proxyPub (scope : Scope) (rq : ClientRequest) (auditType path : string) : M World (ProxyReply + http_error) :=
  finishProxy scope rq auditType (bridgeWebURL (cfg_Bridge cfg) path (dataset scope)) EmptyString
    (WebPartition (sl_DomainSlug scope) (feedCode scope) auditType).

(** ** The endpoints *)

Inductive endpoint :=
| Listings | Listing (listingId : string) | Agents | Agent (agentId : string) | Offices | Office (officeId : string)
| OpenHouses | OpenHouse (openhouseId : string)
| Properties | Property (listingKey : string) | Members | Member (memberKey : string) | ResoOffices | ResoOffice (officeKey : string)
| ResoOpenHouses | ResoOpenHouse (openHouseKey : string) | Lookup
| PubParcels | PubParcel (parcelId : string) | PubParcelAssessments (parcelId : string) | PubParcelTransactions (parcelId : string)
| PubAssessments | PubTransactions.

Definition entity_key (entity key : string) : string := entity +:+ "('" +:+ key +:+ "')".

Definition serve_endpoint (e : endpoint) (scope : Scope) (rq : ClientRequest) : M World (ProxyReply + http_error) :=
  match e with
  | Listings => proxyWeb scope rq "listings.collection" "listings"
  | Listing id => proxyWebWithKey scope rq "listings.detail" ("listings/" +:+ id) id
  | Agents => proxyWeb scope rq "agents.collection" "agents"
  | Agent id => proxyWeb scope rq "agents.detail" ("agents/" +:+ id)
  | Offices => proxyWeb scope rq "offices.collection" "offices"
  | Office id => proxyWeb scope rq "offices.detail" ("offices/" +:+ id)
  | OpenHouses => proxyWeb scope rq "openhouses.collection" "openhouses"
  | OpenHouse id => proxyWeb scope rq "openhouses.detail" ("openhouses/" +:+ id)
  | Properties => proxyReso scope rq "properties.collection" "Property"
  | Property key => proxyResoWithKey scope rq "properties.detail" (entity_key "Property" key) key
  | Members => proxyReso scope rq "members.collection" "Member"
  | Member key => proxyReso scope rq "members.detail" (entity_key "Member" key)
  | ResoOffices => proxyReso scope rq "reso-offices.collection" "Office"
  | ResoOffice key => proxyReso scope rq "reso-offices.detail" (entity_key "Office" key)
  | ResoOpenHouses => proxyReso scope rq "reso-openhouses.collection" "OpenHouse"
  | ResoOpenHouse key => proxyReso scope rq "reso-openhouses.detail" (entity_key "OpenHouse" key)
  | Lookup => proxyResoLookup scope rq "lookup" "Lookup"
  | PubParcels => proxyPub scope rq "pub.parcels" "pub/parcels"
  | PubParcel id => proxyPub scope rq "pub.parcel" ("pub/parcels/" +:+ id)
  | PubParcelAssessments id => proxyPub scope rq "pub.parcel.assessments" ("pub/parcels/" +:+ id +:+ "/assessments")
  | PubParcelTransactions id => proxyPub scope rq "pub.parcel.transactions" ("pub/parcels/" +:+ id +:+ "/transactions")
  | PubAssessments => proxyPub scope rq "pub.assessments" "pub/assessments"
  | PubTransactions => proxyPub scope rq "pub.transactions" "pub/transactions"
  end.
End Proxies.

(** ** Photos ([handler/images]) *)

Abbreviation Disk := (gmap string string).

Record PhotoReply := mkPhoto { ph_ContentType : string; ph_Body : string; ph_PublicURL : string }.

Section Photos.
Context {F : Faults} {MS : MlsServer string} {GF : GoFmt} (sha256_hex : string → string) (cfg : Config).

Definition cacheFile (listingKey photoID : string) : string :=
  let name := sha256_hex (listingKey +:+ "/" +:+ photoID) +:+ ".bin" in
  img_Path (cfg_Images cfg) +:+ "/" +:+ take_bytes 2 name +:+ "/" +:+ name.

Definition photoURL (listingKey photoID : string) : string :=
  TrimRightByte (idx_ImagesPublic (cfg_Idx cfg)) slash +:+ "/images/" +:+ listingKey +:+ "/" +:+ photoID.

Definition media_item (v : json) : option row := match v with JObj m => Some m | JNull => Some ∅ | _ => None end.

(** The MediaKey of an item is the photo's: as a string, as a number without decimals or as it
    is printed. *)
Definition names_photo (photoID : string) (item : row) : bool :=
  match item !! "MediaKey" with
  | Some (JStr s) => bool_decide (s = photoID)
  | Some (JNum n) =>
      bool_decide (TrimSpace (TrimSuffix (TrimSuffix (FormatFixed 0 (num_float n)) ".0") ".0") = photoID) ||
      bool_decide (Sprint (JNum (NFlt (num_float n))) = photoID)
  | o => bool_decide (EmptyString = photoID) || bool_decide (Sprint (as_any (default JNull o)) = photoID)
  end.

Definition sparkMediaURL (dataset listingKey photoID : string) : M World string := λ w,
  match stmt (get (λ w, (λ l, p_Media (Payloads (l_rec l))) <$> w_listings w !! (dataset, listingKey))) w with
  | (Ok (Some (RawText (Some (JArr l)))), w') =>
      (Ok (match mapM media_item l with
           | Some items =>
               default EmptyString (head (omap (λ item,
                 if names_photo photoID item then
                   match item !! "MediaURL" with
                   | Some (JStr u) => if bool_decide (u = EmptyString) then None else Some u
                   | _ => None
                   end
                 else None) items))
           | None => EmptyString
           end), w')
  | (_, w') => (Ok EmptyString, w')
  end.

Definition bridgePhotoURL (dataset listingKey photoID : string) : string :=
  let path := ReplaceAll (ReplaceAll (br_ListingPhotoPath (cfg_Bridge cfg)) "{dataset}" dataset) "{listingKey}" listingKey in
  let path := ReplaceAll path "{photoId}" photoID in
  if HasPrefix path "http" then path else TrimRightByte (br_Host (cfg_Bridge cfg)) slash +:+ path.

(** [Show]; [local] is the feed of the request. *)
Definition Show (local : option FeedDefinition) (rq : ClientRequest) (listingKey photoID : string) : M (World * Disk) (PhotoReply + http_error) := λ s,
  let '(w, disk) := s in
  match disk !! cacheFile listingKey photoID with
  | Some data => (Ok (inl (mkPhoto "image/jpeg" data (photoURL listingKey photoID))), s)
  | None =>
      let feed := Feed local in
      let ds := DatasetSlug feed (br_Dataset (cfg_Bridge cfg)) in
      match (if bool_decide (fd_Provider feed = "spark") then sparkMediaURL ds listingKey photoID w else (Ok EmptyString, w)) with
      | (Err e, w') => (Ok (inr (502%Z, "image upstream error")), (w', disk))
      | (Ok media, w') =>
          let upstream := if bool_decide (media = EmptyString) then bridgePhotoURL ds listingKey photoID else media in
          match Proxy cfg local rq upstream w' with
          | (Err _, w'') => (Ok (inr (502%Z, "image upstream error")), (w'', disk))
          | (Ok r, w'') =>
              if (400 <=? rp_Status r)%Z then (Ok (inr (502%Z, "image upstream error")), (w'', disk))
              else (Ok (inl (mkPhoto (default "image/jpeg" (rp_ContentType r)) (rp_Body r) (photoURL listingKey photoID))),
                    (w'', <[cacheFile listingKey photoID := rp_Body r]> disk))
          end
      end
  end.
End Photos.
