(* ===== verification/ProxyLaws.v ===== *)
(** * What the proxies send, keep and give back *)

From Stdlib Require Import Ascii String.
From stdpp Require Import gmap strings list.
From S2P Require Import Prelude GoStrings GoTime GoFloat GoNum GoUrl GoJson Payload Listing AccessData Config CacheData Database Upstream Caches Feeds Access AuditLog MlsClient Proxy.

Open Scope string_scope.

(** ** Where requests go *)

(** A request for a URL that starts with [base], with a credential. *)
Definition goes_to (base bearer : string) (q : UpstreamRequest) : Prop :=
  (∃ rest, up_URL q = base +:+ rest) ∧ up_Authorization q = "Bearer " +:+ bearer.

(** Servers that answer the requests [P] is about alike. *)
Definition agree {B} (P : UpstreamRequest → Prop) (MS1 MS2 : MlsServer B) : Prop := ∀ w q, P q → MS1 w q = MS2 w q.

Definition bridge_base (cfg : Config) : string := TrimRightByte (br_Host (cfg_Bridge cfg)) slash +:+ "/".
Definition spark_base (cfg : Config) : string := sp_APIHost (cfg_Spark cfg) +:+ "/" +:+ sp_APIVersion (cfg_Spark cfg) +:+ "/".

Lemma requestURL_extends u q : ∃ rest, requestURL u q = u +:+ rest.
Proof. unfold requestURL. case_bool_decide; [exists EmptyString; by rewrite string_app_nil_r|by eexists]. Qed.

Lemma Proxy_agree {B} (MS1 MS2 : MlsServer B) cfg local rq upstream base rest w :
  upstream = base +:+ rest →
  agree (goes_to base (if bool_decide (fd_Provider (Feed local) = "spark") then sp_AccessToken (cfg_Spark cfg) else br_APIKey (cfg_Bridge cfg))) MS1 MS2 →
  Proxy (MS:=MS1) cfg local rq upstream w = Proxy (MS:=MS2) cfg local rq upstream w.
Proof.
  intros Hu Ha. assert (Hx : ∀ q, ∃ r, requestURL upstream q = base +:+ r).
  { intros q. destruct (requestURL_extends upstream q) as [r Hr]. exists (rest +:+ r). by rewrite Hr, Hu, string_app_assoc. }
  revert Ha. unfold Proxy, ForRequest. destruct (bool_decide (fd_Provider (Feed local) = "spark")); intros Ha;
    unfold bridge_proxy, spark_proxy, proxy_with, bind, of_res, merged_url, ret; (destruct (url_Host upstream); [|done]);
    unfold mls_send; (rewrite (Ha w); [done|split; [apply Hx|done]]).
Qed.

Section Endpoints.
Context {F : Faults} (sha256_hex : string → string) (cfg : Config).

Definition is_pub (e : endpoint) : bool :=
  match e with
  | PubParcels | PubParcel _ | PubParcelAssessments _ | PubParcelTransactions _ | PubAssessments | PubTransactions => true
  | _ => false
  end.

Lemma finishProxy_agree (MS1 MS2 : MlsServer text) scope rq auditType upstream base rest key partition w :
  upstream = base +:+ rest →
  agree (goes_to base (if is_spark scope then sp_AccessToken (cfg_Spark cfg) else br_APIKey (cfg_Bridge cfg))) MS1 MS2 →
  finishProxy (MS:=MS1) sha256_hex cfg scope rq auditType upstream key partition w = finishProxy (MS:=MS2) sha256_hex cfg scope rq auditType upstream key partition w.
Proof.
  intros Hu Ha. unfold finishProxy. cbv zeta. set (hit := if bool_decide (partition = EmptyString) then _ else _).
  unfold bind at 1. symmetry. unfold bind at 1. destruct (hit w) as [[[b|]|e] w1]; [done| |done].
  unfold bind at 1, attempt. symmetry. unfold bind at 1, attempt. by rewrite (Proxy_agree MS1 MS2 cfg (sl_Feed scope) rq upstream base rest w1 Hu Ha).
Qed.

Lemma bridge_web_base path ds : ∃ rest, bridgeWebURL (cfg_Bridge cfg) path ds = bridge_base cfg +:+ rest.
Proof.
  unfold bridgeWebURL, bridge_base. cbv zeta. case_bool_decide.
  - exists (ds +:+ "/" +:+ TrimLeftByte path slash). by rewrite string_app_nil_r, string_app_assoc.
  - exists (TrimByte (br_PathPrefix (cfg_Bridge cfg)) slash +:+ "/" +:+ ds +:+ "/" +:+ TrimLeftByte path slash). by rewrite !string_app_assoc.
Qed.

Lemma bridge_reso_base path ds : ∃ rest, bridgeResoURL (cfg_Bridge cfg) path ds = bridge_base cfg +:+ rest.
Proof.
  unfold bridgeResoURL, bridge_base. assert (Hj : ∀ h l, l ≠ [] → Join (h :: l) "/" = h +:+ "/" +:+ Join l "/") by (by intros h [|x l]).
  eexists. rewrite string_app_assoc. change ([TrimRightByte (br_Host (cfg_Bridge cfg)) slash] ++ ?l)%list with (TrimRightByte (br_Host (cfg_Bridge cfg)) slash :: l).
  apply Hj. destruct (unless_empty (TrimByte (br_PathPrefix _) _)); [|done]. by destruct (unless_empty (TrimByte (br_ResoRoot _) _)).
Qed.

(** C37 Where an endpoint's upstream request goes, and with what credential: its answer depends
    on the MLS server only through requests under the base URL of the feed's provider that
    carry that provider's credential; except that the parcel endpoints ask Bridge whatever the
    feed, so that for a Spark feed the Spark token is sent to Bridge's host. *)
Theorem upstream_credentials (MS1 MS2 : MlsServer text) e scope rq w :
  agree (goes_to (if is_spark scope && negb (is_pub e) then spark_base cfg else bridge_base cfg)
           (if is_spark scope then sp_AccessToken (cfg_Spark cfg) else br_APIKey (cfg_Bridge cfg))) MS1 MS2 →
  serve_endpoint (MS:=MS1) sha256_hex cfg e scope rq w = serve_endpoint (MS:=MS2) sha256_hex cfg e scope rq w.
Proof.
  intros Ha.
  assert (Hweb : ∀ path, ∃ rest, web_url cfg scope path = (if is_spark scope then spark_base cfg else bridge_base cfg) +:+ rest).
  { intros path. unfold web_url. destruct (is_spark scope); [|apply bridge_web_base]. exists path. unfold sparkWebURL, spark_base. by rewrite !string_app_assoc. }
  assert (Hreso : ∀ entity, ∃ rest, reso_url cfg scope entity = (if is_spark scope then spark_base cfg else bridge_base cfg) +:+ rest).
  { intros ent. unfold reso_url. destruct (is_spark scope); [|apply bridge_reso_base]. exists (sp_LiveResoRoot (cfg_Spark cfg) +:+ "/" +:+ ent). unfold sparkEntityURL, spark_base. by rewrite !string_app_assoc. }
  assert (Hpub : ∀ path, ∃ rest, bridgeWebURL (cfg_Bridge cfg) path (dataset cfg scope) = bridge_base cfg +:+ rest) by (intros; apply bridge_web_base).
  destruct e; cbn [is_pub negb] in Ha; rewrite ?andb_true_r, ?andb_false_r in Ha; cbn [serve_endpoint];
    unfold proxyWeb, proxyWebWithKey, proxyReso, proxyResoWithKey, proxyResoLookup, proxyPub;
    match goal with
    | |- context [web_url cfg scope ?p] => destruct (Hweb p) as [rest Hr]
    | |- context [reso_url cfg scope ?p] => destruct (Hreso p) as [rest Hr]
    | |- context [bridgeWebURL _ ?p _] => destruct (Hpub p) as [rest Hr]
    end; exact (finishProxy_agree MS1 MS2 _ _ _ _ _ rest _ _ _ Hr Ha).
Qed.
End Endpoints.

(** ** The cache in front of the endpoints *)

Section Caching.
Context {F : Faults} {NF : NoFaults} {MS : MlsServer text} (sha256_hex : string → string) (cfg : Config).

Lemma CacheGet_run partition fp w : CacheGet cfg partition fp w =
  (Ok (r ← ct_search (w_caches w) !! (partition, fp);
       if (TTLForPartition cfg partition <? w_now w - sc_last_updated r)%Z then None else Some (sc_data r)), set_ops (S (w_ops w)) w).
Proof.
  unfold CacheGet. rewrite stmt_run. cbn. destruct (ct_search _ !! _) as [r|]; [|done]. cbn. by destruct (_ <? _)%Z.
Qed.

Lemma CachePut_run partition fp body w : char_fits 255 partition && char_fits 64 fp = true →
  CachePut partition fp body w = (Ok tt, set_caches (set_search (<[(partition, fp) := mkSearchCache body (w_now w)]> (ct_search (w_caches w))) (w_caches w)) (set_ops (S (w_ops w)) w)).
Proof. intros H. unfold CachePut. rewrite stmt_run, H. done. Qed.

Lemma proxy_world {B} {MS' : MlsServer B} local rq upstream w : (Proxy cfg local rq upstream w).2 = w.
Proof.
  unfold Proxy, ForRequest. destruct (bool_decide _); unfold bridge_proxy, spark_proxy, proxy_with, bind, of_res;
    (destruct (merged_url _ _ _); [|done]); unfold ret; by destruct (mls_send _ _).
Qed.

(** C38 What passes through an endpoint's cache. A reply of the server that is not a success is
    handed on with its status and stored nowhere. A success is stored, and as long as its time
    to live is not over the same request is answered with the same body, 200 and HIT, whatever
    the server would say by then. *)
Theorem proxy_miss_then_hit scope rq auditType upstream key partition w r w' :
  partition ≠ EmptyString → char_fits 255 partition = true →
  char_fits 64 (FingerprintRequest sha256_hex (cl_req rq) upstream) = true →
  query_value (cq_query (cl_req rq)) "include_pricing" ≠ "1" →
  finishProxy sha256_hex cfg scope rq auditType upstream key partition w = (Ok (inl r), w') →
  (px_Cache r = None → w_caches w' = w_caches w ∧ ¬ (200 <= px_Status r < 300)%Z) ∧
  (px_Cache r = Some "MISS" → ∀ (MS' : MlsServer text) w2,
     ct_search (w_caches w2) !! (partition, FingerprintRequest sha256_hex (cl_req rq) upstream) =
       ct_search (w_caches w') !! (partition, FingerprintRequest sha256_hex (cl_req rq) upstream) →
     (w_now w2 - w_now w <= TTLForPartition cfg partition)%Z →
     (finishProxy (MS:=MS') sha256_hex cfg scope rq auditType upstream key partition w2).1 = Ok (inl (mkProxyReply 200 (Some "HIT") None (px_Body r)))).
Proof.
  intros Hp Hc1 Hc2 Hq H. set (fp := FingerprintRequest _ _ _) in *. unfold finishProxy in H. cbv zeta in H. fold fp in H.
  rewrite (bool_decide_eq_false_2 (partition = EmptyString) Hp) in H. unfold priced in H. rewrite (bool_decide_eq_false_2 _ Hq) in H.
  rewrite (bind_ok _ _ _ _ _ (CacheGet_run _ _ _)) in H.
  match type of H with context [match ?o with Some _ => _ | None => _ end] => destruct o as [b|] end.
  { unfold cached_reply, priced in H. rewrite (bool_decide_eq_false_2 _ Hq) in H. apply bind_inv_ok in H as (u & w1 & _ & H). by injection H as <- _. }
  set (w1 := set_ops (S (w_ops w)) w) in *. pose proof (proxy_world (sl_Feed scope) rq upstream w1) as Hw.
  apply bind_inv_ok in H as (rep & w2 & H1 & H). unfold attempt in H1. injection H1 as <- <-. rewrite Hw in H. clear Hw.
  destruct (Proxy _ _ _ _ w1).1 as [rep|e]; [|done].
  destruct ((200 <=? rp_Status rep)%Z && (rp_Status rep <? 300)%Z) eqn:Es.
  - rewrite bind_ret_l in H. unfold bind at 1, ignore at 1 in H. rewrite CachePut_run in H by (by rewrite Hc1, Hc2).
    apply bind_inv_ok in H as (u & w3 & Ha & H). injection H as <- <-. apply Log_after in Ha as [t ->].
    split; [done|]. intros _ MS' w4 Hsame Httl. cbn in Hsame. rewrite lookup_insert_eq in Hsame.
    unfold finishProxy. cbv zeta. fold fp. rewrite (bool_decide_eq_false_2 (partition = EmptyString) Hp).
    rewrite (bind_ok _ _ _ _ _ (CacheGet_run _ _ _)). rewrite Hsame. cbn. rewrite (proj2 (Z.ltb_ge _ _)) by exact Httl.
    unfold cached_reply, priced. rewrite (bool_decide_eq_false_2 _ Hq).
    match goal with |- context [bind (Log ?sc ?ty ?n ?h) _ ?w5] => destruct (Log_inv sc ty n h w5) as (t2 & Hl2 & _) end. by rewrite (bind_ok _ _ _ _ _ Hl2).
  - apply bind_inv_ok in H as (u & w3 & Ha & H). injection H as <- <-. apply Log_after in Ha as [t ->].
    split; [|done]. intros _. split; [done|]. cbn. apply andb_false_iff in Es as [Es%Z.leb_gt|Es%Z.ltb_ge]; lia.
Qed.
End Caching.

(** ** Photos *)

Section PhotoLaws.
Context {F : Faults} {GF : GoFmt} (sha256_hex : string → string) (cfg : Config).

(** A photo is fetched once: what the first successful request brought is what every later
    request for the photo gets, from the disk and without asking anyone, whatever its feed and
    its query; and a request that fails leaves the disk as it was. *)
Theorem photo_fetched_once (MS : MlsServer string) local rq key photo w disk :
  match Show sha256_hex cfg local rq key photo (w, disk) with
  | (Ok (inl p), (w', disk')) =>
      disk' !! cacheFile sha256_hex cfg key photo = Some (ph_Body p) ∧
      (∀ path, path ≠ cacheFile sha256_hex cfg key photo → disk' !! path = disk !! path) ∧
      ∀ (MS2 : MlsServer string) local2 rq2 s2, s2.2 !! cacheFile sha256_hex cfg key photo = disk' !! cacheFile sha256_hex cfg key photo →
        Show (MS:=MS2) sha256_hex cfg local2 rq2 key photo s2 = (Ok (inl (mkPhoto "image/jpeg" (ph_Body p) (photoURL cfg key photo))), s2)
  | (_, (_, disk')) => disk' = disk
  end.
Proof.
  set (path := cacheFile _ _ _ _).
  assert (Hhit : ∀ data (disk' : Disk), disk' !! path = Some data → ∀ (MS2 : MlsServer string) local2 rq2 s2, s2.2 !! path = disk' !! path →
    Show (MS:=MS2) sha256_hex cfg local2 rq2 key photo s2 = (Ok (inl (mkPhoto "image/jpeg" data (photoURL cfg key photo))), s2)).
  { intros data disk' Hd MS2 l2 rq2 [w2 d2] He. cbn in He. unfold Show. fold path. by rewrite He, Hd. }
  unfold Show at 1. fold path. destruct (disk !! path) as [data|] eqn:Ed.
  { cbn. split; [done|]. split; [done|]. by apply Hhit. }
  cbv zeta. destruct (if bool_decide _ then _ else _) as [[media|e] w1]; [|done].
  destruct (Proxy _ _ _ _ w1) as [[r|e] w2]; [|done]. destruct (400 <=? rp_Status r)%Z; [done|]. cbn.
  rewrite lookup_insert_eq. split; [done|]. split; [intros p Hp; by rewrite lookup_insert_ne|].
  intros MS2 l2 rq2 s2 He. apply (Hhit _ (<[path := rp_Body r]> disk)); [by rewrite lookup_insert_eq|]. by rewrite lookup_insert_eq.
Qed.

(** The image route has no feed, since only the domain middleware is in front of it: its
    requests go to Bridge with Bridge's key and the default dataset, whoever lists the photo. *)
Lemma photo_route_is_bridge (MS1 MS2 : MlsServer string) rq key photo s :
  agree (λ q, up_URL q = requestURL (bridgePhotoURL cfg (br_Dataset (cfg_Bridge cfg)) key photo) (Queries (cl_req rq)) ∧
              up_Authorization q = "Bearer " +:+ br_APIKey (cfg_Bridge cfg)) MS1 MS2 →
  Show (MS:=MS1) sha256_hex cfg None rq key photo s = Show (MS:=MS2) sha256_hex cfg None rq key photo s.
Proof.
  intros Ha. destruct s as [w disk]. unfold Show. destruct (disk !! _); [done|]. cbv zeta.
  change (DatasetSlug (Feed None) (br_Dataset (cfg_Bridge cfg))) with (br_Dataset (cfg_Bridge cfg)).
  change (bool_decide (fd_Provider (Feed None) = "spark")) with false. cbv iota beta. rewrite (bool_decide_eq_true_2 (EmptyString = EmptyString)) by done.
  assert (Proxy (MS:=MS1) cfg None rq (bridgePhotoURL cfg (br_Dataset (cfg_Bridge cfg)) key photo) w =
          Proxy (MS:=MS2) cfg None rq (bridgePhotoURL cfg (br_Dataset (cfg_Bridge cfg)) key photo) w) as ->; [|done].
  unfold Proxy, ForRequest. change (bool_decide (fd_Provider (Feed None) = "spark")) with false. cbv iota. unfold bridge_proxy, proxy_with, bind, of_res, merged_url, ret. destruct (url_Host (bridgePhotoURL cfg (br_Dataset (cfg_Bridge cfg)) key photo)); [|done].
  unfold mls_send. by rewrite (Ha w).
Qed.
End PhotoLaws.

(** ** Concrete requests *)

#[local] Instance runs : Faults := never_fails.
#[local] Instance runs_ok : NoFaults := never_fails_ok.

(** Servers that differ in what they answer to anyone but Bridge's clients. *)
Definition bridge_listings (other : Z) : MlsServer text := λ _ q,
  if bool_decide (up_Authorization q = "Bearer k") then UpReply 200 (Some "v1") None (Some (JObj {["value" := JArr []]})) else UpReply other None None None.
Definition keyed : Config := Eval vm_compute in Load (λ k, if bool_decide (k = "BRIDGE_API_KEY") then "k" else EmptyString).
Definition browsing : ClientRequest := mkClientRequest (mkCachedRequest "GET" [("city", "Tampa")] EmptyString) EmptyString EmptyString.
Definition on_stellar : Scope := mkScopeLocals "example.com" "bridge_stellar" (Some (mkFeed "bridge_stellar" "bridge" "stellar")) None None true "::1".

Lemma upstream_credentials_witness :
  serve_endpoint (MS:=bridge_listings 401) (λ s, "#") keyed Properties on_stellar browsing (empty_world 0) =
  serve_endpoint (MS:=bridge_listings 403) (λ s, "#") keyed Properties on_stellar browsing (empty_world 0).
Proof.
  refine (upstream_credentials (λ s, "#") keyed (bridge_listings 401) (bridge_listings 403) Properties on_stellar browsing (empty_world 0) _).
  intros w q [_ Hq]. change (up_Authorization q = "Bearer k") in Hq. unfold bridge_listings. by rewrite bool_decide_eq_true_2.
Defined.

Definition first_page := finishProxy (MS:=bridge_listings 401) (λ s, "#") keyed on_stellar browsing "listings.collection" "https://api.bridgedataoutput.com/api/v2/stellar/listings"
  EmptyString "example.com:bridge_stellar:web:listings.collection" (empty_world 0).

Lemma proxy_miss_then_hit_witness :
  let later := set_now (60 * second) first_page.2 in
  (finishProxy (MS:=λ _ _, UpFail "down") (λ s, "#") keyed on_stellar browsing "listings.collection" "https://api.bridgedataoutput.com/api/v2/stellar/listings"
    EmptyString "example.com:bridge_stellar:web:listings.collection" later).1 =
  Ok (inl (mkProxyReply 200 (Some "HIT") None (RawText (Some (JObj {["value" := JArr []]}))))).
Proof.
  cbv zeta. assert (H : first_page.1 = Ok (inl (mkProxyReply 200 (Some "MISS") (Some "v1") (RawText (Some (JObj {["value" := JArr []]})))))) by (vm_compute; reflexivity).
  destruct first_page as [x w'] eqn:E. cbn [fst snd] in H |- *. subst x. unfold first_page in E.
  refine (proj2 (proxy_miss_then_hit (MS:=bridge_listings 401) (λ s, "#") keyed on_stellar browsing _ _ _ _ (empty_world 0) _ w' _ _ _ _ E) _ (λ _ _, UpFail "down") _ _ _);
    try (vm_compute; (reflexivity || discriminate)); try reflexivity.
Defined.

Lemma photo_fetched_once_witness :
  let s := (Show (MS:=λ _ _, UpReply 200 None None "jpeg") (GF:=λ _, EmptyString) (λ s, "ab") keyed None browsing "K1" "1.jpg" (empty_world 0, ∅)).2 in
  (Show (MS:=λ _ _, UpFail "down") (GF:=λ _, EmptyString) (λ s, "ab") keyed None browsing "K1" "1.jpg" s).1 =
    Ok (inl (mkPhoto "image/jpeg" "jpeg" (photoURL keyed "K1" "1.jpg"))).
Proof.
  pose proof (photo_fetched_once (GF:=λ _, EmptyString) (λ s, "ab") keyed (λ _ _, UpReply 200 None None "jpeg") None browsing "K1" "1.jpg" (empty_world 0) ∅) as H.
  assert (Hr : match (Show (MS:=λ _ _, UpReply 200 None None "jpeg") (GF:=λ _, EmptyString) (λ s, "ab") keyed None browsing "K1" "1.jpg" (empty_world 0, ∅)).1 with
    | Ok (inl p) => ph_Body p | _ => EmptyString end = "jpeg") by (vm_compute; reflexivity).
  cbv zeta. destruct (Show _ _ _ _ _ _ (empty_world 0, ∅)) as [[[p|e]|e] [w' disk']]; cbn [fst snd] in *; [|discriminate Hr..].
  destruct H as (_ & _ & H). rewrite (H (λ _ _, UpFail "down") None browsing (w', disk') eq_refl), Hr. reflexivity.
Defined.
