(* ===== verification/Monitoring.v ===== *)
(** * Statistics and monitoring

    [repository/monitoring.go], [repository/gis/monitoring.go], [sync/stats.go], the prices of
    [crypto/pricing_reader.go] and [service/dashboard/monitoring.go], which read the same
    tables the rest of the program writes. *)

From Stdlib Require Import Ascii String.
From stdpp Require Import gmap strings list sorting.
From S2P Require Import Prelude GoStrings GoTime GoFloat GoNum GoJson Payload Listing Config CacheData Database GisData AccessData Replication GisFetch Caches Feeds Access AuditLog MirrorQuery.

Open Scope string_scope.

Section Monitoring.
Context {F : Faults} {RO : RowOrder} {JT : GoJsonText} (cfg : Config).

(** ** Datasets *)

Record ListingDatasetRow := mkDatasetRow {
  ld_DatasetSlug : string;
  ld_Total : Z;
  ld_ActivePending : Z;
  ld_OldestModification : option Z;
  ld_LatestModification : option Z;
  ld_CursorLastModification : option Z;
  ld_LastSyncFinishedAt : option Z;
  ld_IncrementalWindowEnd : option Z;
  ld_ReplicationInProgress : bool;
}.

(** [MIN] and [MAX] leave nulls out. *)
Definition extreme (pick : Z → Z → Z) (l : list Z) : option Z :=
  foldr (λ x acc, Some (match acc with Some y => pick x y | None => x end)) None l.

Definition dataset_listings (w : World) (ds : string) : list listing_row :=
  (filter (λ kl, kl.1.1 = ds) (map_to_list (w_listings w))).*2.

Definition count_if {A} (p : A → bool) (l : list A) : Z := Z.of_nat (length (filter (λ a, p a = true) l)).

Definition active_pending (l : listing_row) : bool := bool_decide (sqlStatusOf l ∈ ["active"; "pending"]).

(** The full outer join of the cursors and the datasets of the mirror, by dataset. *)
Definition dataset_row (w : World) (ds : string) : ListingDatasetRow :=
  let c := w_cursors w !! ds in
  let ls := dataset_listings w ds in
  let mods := omap (λ l, ModificationTimestamp (l_rec l)) ls in
  mkDatasetRow ds (Z.of_nat (length ls)) (count_if active_pending ls) (extreme Z.min mods) (extreme Z.max mods)
    (c ≫= LastModificationTimestamp) (c ≫= LastSyncFinishedAt) (c ≫= IncrementalWindowEnd) (default false (ReplicationInProgress <$> c)).

Definition dataset_slugs (w : World) : list string :=
  sort_strings (dedup_from ∅ ((map_to_list (w_cursors w)).*1 ++ (map_to_list (w_listings w)).*1.*1)%list).

Definition ListListingStats : M World (list ListingDatasetRow) := stmt (get (λ w, dataset_row w <$> dataset_slugs w)).

Record StatsRow := mkStats {
  st_Dataset : string; st_ActivePending : Z; st_LatestMod : option Z; st_CursorLastMod : option Z;
  st_LastSyncFinished : option Z; st_IncrementalWindowEnd : option Z; st_ReplicationInProgress : bool;
}.

(** [StatsService.Handle] *)
Definition Stats : M World (list StatsRow + http_error) :=
  let* rows := attempt ListListingStats in
  ret (match rows with
       | Ok l => inl ((λ r, mkStats (ld_DatasetSlug r) (ld_ActivePending r) (ld_LatestModification r) (ld_CursorLastModification r)
                              (ld_LastSyncFinishedAt r) (ld_IncrementalWindowEnd r) (ld_ReplicationInProgress r)) <$> l)
       | Err e => inr (500%Z, e)
       end).

(** ** The proxy cache, from the audit log *)

Record CacheHitStats := mkHitStats { ch_Total : Z; ch_Hits : Z; ch_Misses : Z; ch_HitRatePct : float64 }.

Definition CacheHitRate15m : M World CacheHitStats :=
  let* rows := stmt (get (λ w, filter (λ r, (w_now w - 15 * minute <=? au_logged_at r)%Z = true) (at_audit (w_access w)))) in
  let total := Z.of_nat (length rows) in
  let hits := count_if (λ r, bool_decide (au_cache_hit r = Some "hit")) rows in
  let misses := count_if (λ r, bool_decide (au_cache_hit r = Some "miss")) rows in
  ret (mkHitStats total hits misses
    (if (0 <? total)%Z then f_mul (f_div (f_of_Z hits) (f_of_Z total)) (f_of_Z 100) else f_zero)).

(** ** Queues *)

Record QueueCount := mkQueueCount { qc_Queue : string; qc_Pending : Z; qc_Reserved : Z; qc_Failed : Z }.

(** [EXTRACT(EPOCH FROM NOW())::bigint] rounds to the nearest second. *)
Definition epoch_now (w : World) : Z := ((w_now w + second / 2) / second)%Z.

Definition pending (w : World) (j : job_row) : bool :=
  bool_decide (j_reserved_at j = None) && (j_available_at j <=? epoch_now w)%Z.

Definition all_jobs (w : World) : list job_row := (map_to_list (w_jobs w)).*2.

Definition queue_count (w : World) (q : string) : QueueCount :=
  let js := filter (λ j, j_queue j = q) (all_jobs w) in
  mkQueueCount q (count_if (pending w) js) (count_if (λ j, bool_decide (is_Some (j_reserved_at j))) js)
    (count_if (λ f, bool_decide (f_queue f = q)) (w_failed w)).

Definition ListQueueCounts : M World (list QueueCount) :=
  stmt (get (λ w, queue_count w <$> sort_strings (dedup_from ∅ ((j_queue <$> all_jobs w) ++ (f_queue <$> w_failed w))%list))).

Record JobTypeCount := mkJobTypeCount { jt_Queue : string; jt_JobType : string; jt_Count : Z }.

(** [COALESCE(NULLIF(payload::json->>'type', ''), 'unknown')] *)
Definition job_type (payload : json) : string :=
  match payload with
  | JObj m => match m !! "type" with
              | Some (JStr s) => if bool_decide (s = EmptyString) then "unknown" else s
              | Some JNull | None => "unknown"
              | Some v => json_text v
              end
  | _ => "unknown"
  end.

Definition busier (a b : JobTypeCount) : Prop := (jt_Count b <= jt_Count a)%Z.
#[local] Instance busier_dec : RelDecision busier.
Proof. intros a b. unfold busier. apply _. Defined.

(** A payload that is no JSON fails the query. *)
Definition TopPendingJobTypes (limit : Z) : M World (list JobTypeCount) :=
  let limit := if (limit <? 1)%Z then 10%Z else limit in
  let* rows := stmt (λ w,
    match mapM (λ j, (λ p, (j_queue j, job_type p)) <$> j_payload j) (filter (λ j, pending w j = true) (all_jobs w)) with
    | Some rows => (Ok rows, w)
    | None => (Err "invalid input syntax for type json", w)
    end) in
  ret (take (Z.to_nat limit) (merge_sort busier (row_order _
    ((λ k, mkJobTypeCount k.1 k.2 (count_if (λ r, bool_decide (r = k)) rows)) <$> dedup_from ∅ rows)))).

(** ** Activation *)

Record ActivationStats := mkActivation {
  ac_DomainCount : Z; ac_VerifiedDomainCount : Z; ac_TokenCount : Z; ac_InvitationsAccepted : Z; ac_DomainsWithTraffic30d : Z;
}.

Definition table {A} (m : gmap Z A) : list A := (map_to_list m).*2.
Definition recent (w : World) (r : audit_row) : bool := (w_now w - 30 * (24 * hour) <=? au_logged_at r)%Z.

Definition Activation : M World ActivationStats := stmt (get (λ w,
  let t := w_access w in
  mkActivation (Z.of_nat (size (at_domains t))) (count_if IsVerified (table (at_domains t)))
    (count_if (λ k, bool_decide (k_Type k = tokenable_type)) (table (at_tokens t)))
    (count_if (λ i, bool_decide (is_Some (iv_AcceptedAt i))) (table (at_invites t)))
    (Z.of_nat (length (dedup_from ∅ (omap au_domain_slug (filter (λ r, recent w r = true) (at_audit t)))))))).

Record UserSetupStats := mkSetup { us_DomainCount : Z; us_VerifiedDomainCount : Z; us_HasAuditTraffic30d : bool }.

Definition UserSetup (userID : Z) : M World UserSetupStats := stmt (get (λ w,
  let t := w_access w in
  let mine := filter (λ d, d_UserID d = Some userID) (table (at_domains t)) in
  mkSetup (Z.of_nat (length mine)) (count_if IsVerified mine)
    (existsb (λ r, recent w r && existsb (λ d, bool_decide (au_domain_slug r = Some (d_DomainSlug d))) mine) (at_audit t)))).

(** The step [renderSetupProgress] shows. *)
Definition setup_step (s : UserSetupStats) : Z :=
  if us_HasAuditTraffic30d s then 4 else if (0 <? us_VerifiedDomainCount s)%Z then 3 else if (0 <? us_DomainCount s)%Z then 2 else 1.

(** ** Prices *)

Record PricePoint := mkPricePoint { pp_AssetKey : string; pp_Price : float64; pp_CapturedAt : Z }.

Definition LatestPrices : M World (list PricePoint) := stmt (get (λ w,
  omap (λ k, (λ p, mkPricePoint k (px_price p) (px_captured_at p)) <$> ct_prices (w_caches w) !! (k, "usd"))
    (sort_strings (dedup_from ∅ (map_to_list (ct_prices (w_caches w))).*1.*1)))).

(** ** GIS tables ([repository/gis/monitoring.go]) *)

Record GISCounts := mkGISCounts { gc_ParcelsTotal : Z; gc_CitiesTotal : Z; gc_CountiesTotal : Z; gc_ZipsTotal : Z }.

Definition gis_read {A} (f : GisTables → A) : M World A := stmt (get (λ w, f (w_gis w))).

Definition MonitoringCounts : M World GISCounts := gis_read (λ g,
  mkGISCounts (Z.of_nat (size (gt_parcels g))) (Z.of_nat (size (gt_cities g))) (Z.of_nat (size (gt_counties g))) (Z.of_nat (size (gt_zips g)))).

Definition ParcelsByCounty : M World (gmap string Z) := gis_read (λ g,
  foldr (λ r m, <[pr_County r := (1 + default 0 (m !! pr_County r))%Z]> m) ∅ (map_to_list (gt_parcels g)).*2).

(** The times of the rows of a table. *)
Definition synced {K A} `{Countable K} (times : gmap K Z) (rows : gmap K A) : list Z :=
  omap (λ kv, times !! kv.1) (map_to_list rows).

Definition MaxParcelSyncedAt : M World (option Z) := gis_read (λ g, extreme Z.max (synced (sy_parcels (gt_synced g)) (gt_parcels g))).
Definition MaxCitySyncedAt : M World (option Z) := gis_read (λ g, extreme Z.max (synced (sy_cities (gt_synced g)) (gt_cities g))).
Definition MaxCountySyncedAt : M World (option Z) := gis_read (λ g, extreme Z.max (synced (sy_counties (gt_synced g)) (gt_counties g))).
Definition MaxZipSyncedAt : M World (option Z) := gis_read (λ g, extreme Z.max (synced (sy_zips (gt_synced g)) (gt_zips g))).

Record SourceStateRow := mkSourceStateRow {
  ss_SourceKey : string; ss_Generation : Z; ss_LastCheckedAt : option Z;
  ss_MaxGeneration : Z; ss_MaxSyncedAt : option Z; ss_ParcelCount : Z; ss_Status : string;
}.

Definition source_status (now : Z) (maxSynced : option Z) (count maxGen gen : Z) : string :=
  match maxSynced with
  | Some t => if (t <? now - 35 * (24 * hour))%Z || ((0 <? count)%Z && negb (maxGen =? gen)%Z) then "stale" else "healthy"
  | None => "unknown"
  end.

(** A source with the parcels it gave. *)
Definition source_row (now : Z) (g : GisTables) (key : string) (s : source_state) : SourceStateRow :=
  let mine := filter (λ kv, pr_SourceKey kv.2 = key) (gt_parcels g) in
  let maxGen := default 0%Z (extreme Z.max (pr_SourceGeneration <$> (map_to_list mine).*2)) in
  let maxSynced := extreme Z.max (synced (sy_parcels (gt_synced g)) mine) in
  mkSourceStateRow key (ss_generation s) (ss_last_checked_at s) maxGen maxSynced (Z.of_nat (size mine))
    (source_status now maxSynced (Z.of_nat (size mine)) maxGen (ss_generation s)).

Definition ListSourceStates : M World (list SourceStateRow) := stmt (get (λ w,
  omap (λ key, source_row (w_now w) (w_gis w) key <$> gt_states (w_gis w) !! key)
    (sort_strings (dedup_from ∅ (map_to_list (gt_states (w_gis w))).*1)))).

(** ** The snapshot ([service/dashboard/monitoring.go]) *)

Record ListingMetric := mkListingMetric {
  lm_Row : ListingDatasetRow;
  lm_OldestListingAgeDays : option float64;
  lm_LagSeconds : option Z;
  lm_FreshnessMode : string;
  lm_Status : string;
}.

(** [Duration.Hours() / 24]: the hours are whole hours and a fraction, added. *)
Definition Hours (d : Z) : float64 := f_add (f_of_Z (Z.quot d hour)) (f_div (f_of_Z (Z.rem d hour)) (lit "3600000000000")).
(** [Duration.Seconds()] *)
Definition Seconds (d : Z) : float64 := f_add (f_of_Z (Z.quot d second)) (f_div (f_of_Z (Z.rem d second)) (lit "1000000000")).

Definition providerForDataset (datasetSlug : string) : string :=
  match list_find (λ f, fd_Dataset f = datasetSlug) (Catalog cfg) with
  | Some (_, f) => fd_Provider f
  | None =>
      if bool_decide (datasetSlug = "stellar") then "bridge"
      else if bool_decide (datasetSlug = "beaches") then "spark" else EmptyString
  end.

Definition listing_metric (now : Z) (row : ListingDatasetRow) : M World ListingMetric :=
  let provider := providerForDataset (ld_DatasetSlug row) in
  let* current := (if bool_decide (provider = EmptyString) then ret None
                   else let* r := attempt (IsCurrent cfg (ld_DatasetSlug row) provider) in ret (match r with Ok b => Some b | Err _ => None end)) in
  let '(mode, status) := match current with
                         | Some true => (ModeSteady, "healthy")
                         | Some false => (ModeCatchUp, "stale")
                         | None => (ModeCatchUp, "unknown")
                         end in
  ret (mkListingMetric row ((λ t, f_div (Hours (now - t)) (f_of_Z 24)) <$> ld_OldestModification row)
    ((λ t, f_to_int64 (Seconds (now - t))) <$> ld_LastSyncFinishedAt row) mode (if ld_ReplicationInProgress row then "stale" else status)).

Definition BoundaryLayerStatus (lastSynced : option Z) (total staleDays now : Z) : string :=
  match lastSynced with
  | Some t =>
      if (total =? 0)%Z then "unknown"
      else
        let staleDays := if (staleDays <=? 0)%Z then 90%Z else staleDays in
        if (t <? add_date now 0 0 (- staleDays))%Z then "stale" else "healthy"
  | None => "unknown"
  end.

Record GISMetric := mkGISMetric {
  gm_Counts : GISCounts;
  gm_ByCounty : gmap string Z;
  gm_Sources : list SourceStateRow;
  gm_ParcelsSynced : option Z; gm_CitiesSynced : option Z; gm_CountiesSynced : option Z; gm_ZipsSynced : option Z;
  gm_BoundaryStaleDays : Z;
  gm_ParcelsStatus : string; gm_CitiesStatus : string; gm_CountiesStatus : string; gm_ZipsStatus : string;
  gm_Status : string;
}.

Definition is_stale (s : string) : bool := bool_decide (s = "stale").
Definition parcels_status (total : Z) (sources : list SourceStateRow) : string :=
  if existsb (λ src, is_stale (ss_Status src)) sources then "stale" else if (0 <? total)%Z then "healthy" else "unknown".
(** The status of all layers from those of each. *)
Definition gis_status (all : list string) : string :=
  if existsb is_stale all then "stale" else if forallb (λ s, bool_decide (s = "unknown")) all then "unknown" else "healthy".

Definition gis_metric (now : Z) : M World GISMetric :=
  let* counts := MonitoringCounts in
  let* byCounty := ParcelsByCounty in
  let* sources := ListSourceStates in
  let* parcelsSyncedAt := MaxParcelSyncedAt in
  let* citiesSyncedAt := MaxCitySyncedAt in
  let* countiesSyncedAt := MaxCountySyncedAt in
  let* zipsSyncedAt := MaxZipSyncedAt in
  let staleDays := if (gis_BoundaryStaleDays (cfg_GIS cfg) <=? 0)%Z then 90%Z else gis_BoundaryStaleDays (cfg_GIS cfg) in
  let cities := BoundaryLayerStatus citiesSyncedAt (gc_CitiesTotal counts) staleDays now in
  let counties := BoundaryLayerStatus countiesSyncedAt (gc_CountiesTotal counts) staleDays now in
  let zips := BoundaryLayerStatus zipsSyncedAt (gc_ZipsTotal counts) staleDays now in
  let parcels := parcels_status (gc_ParcelsTotal counts) sources in
  ret (mkGISMetric counts byCounty sources parcelsSyncedAt citiesSyncedAt countiesSyncedAt zipsSyncedAt staleDays
    parcels cities counties zips (gis_status [parcels; cities; counties; zips])).

Record CryptoAssetMetric := mkAssetMetric { cm_Point : PricePoint; cm_AgeSeconds : Z; cm_Stale : bool }.

Definition asset_metric (now : Z) (p : PricePoint) : CryptoAssetMetric :=
  let age := f_to_int64 (Seconds (now - pp_CapturedAt p)) in mkAssetMetric p age (3600 <? age)%Z.

Definition crypto_status (assets : list CryptoAssetMetric) : string :=
  if existsb cm_Stale assets then "stale" else if bool_decide (assets = []) then "unknown" else "healthy".

Record Snapshot := mkSnapshot {
  sn_GeneratedAt : Z;
  sn_Listings : list ListingMetric;
  sn_GIS : GISMetric;
  sn_Crypto : list CryptoAssetMetric;
  sn_CryptoStatus : string;
  sn_Cache : CacheHitStats;
  sn_ByQueue : list QueueCount;
  sn_TopTypes : list JobTypeCount;
  sn_TotalPending : Z;
  sn_Activation : ActivationStats;
}.

Fixpoint for_all {A B} (f : A → M World B) (l : list A) : M World (list B) :=
  match l with
  | [] => ret []
  | a :: l => let* b := f a in let* bs := for_all f l in ret (b :: bs)
  end.

Definition BuildSnapshot : M World Snapshot :=
  let* now := get w_now in
  let* rows := ListListingStats in
  let* listings := for_all (listing_metric now) rows in
  let* gis := gis_metric now in
  let* prices := LatestPrices in
  let assets := asset_metric now <$> prices in
  let* cache := CacheHitRate15m in
  let* queues := ListQueueCounts in
  let* topTypes := TopPendingJobTypes 10 in
  let* act := Activation in
  ret (mkSnapshot now listings gis assets (crypto_status assets) cache queues topTypes
    (foldr Z.add 0%Z (qc_Pending <$> queues)) act).
End Monitoring.
