(* ===== verification/Dashboard.v ===== *)
(** * The dashboard's sessions and pages ([handler/dashboard]), and the seeded administrator

    What a session holds besides its user: the result of the last provisioning and the keys
    just made, each shown on the next page and not again; the bundles of the domains page; and
    [seed.Admin], the account a fresh installation is entered with. *)

From Stdlib Require Import Ascii String.
From stdpp Require Import gmap strings list sorting pretty.
From S2P Require Import Prelude GoStrings GoTime GoFloat GoNum GoJson Payload Listing Config CacheData Database AccessData Upstream GisFetch Caches Feeds Password Access AccessLaws Monitoring.

Open Scope string_scope.

(** ** Sessions ([session_auth.go], [flash.go]) *)

(** What a session value decodes to. *)
Inductive any :=
| AnyInt (n : Z)     (* int64, int and int32 *)
| AnyUint (n : Z)    (* uint64 and uint *)
| AnyFloat (f : float64)
| AnyString (s : string)
| AnyOther.

Definition parseSessionUserID (raw : any) : option Z :=
  match raw with
  | AnyInt n => Some n
  | AnyUint n => Some (if (n <? 2 ^ 63)%Z then n else n - 2 ^ 64)%Z
  | AnyFloat f => Some (f_to_int64 f)
  | AnyString s => Atoi s
  | AnyOther => None
  end.

(** A session as the store has it; the two flashes are JSON texts. *)
Record Session := mkSession {
  se_user_id : any;
  se_provision : option text;
  se_reveals : option text;
}.
Definition set_user_id v s := mkSession v (se_provision s) (se_reveals s).
Definition set_provision v s := mkSession (se_user_id s) v (se_reveals s).
Definition set_reveals v s := mkSession (se_user_id s) (se_provision s) v.

(** Whether the store answers a request's [Get] and [Save]. *)
Record Store := mkStore { st_get : option string; st_save : option string }.
Definition working : Store := mkStore None None.

Definition session_get (st : Store) : M Session Session := λ s, match st_get st with Some e => (Err e, s) | None => (Ok s, s) end.
Definition session_save (st : Store) (s' : Session) : M Session unit := λ s, match st_save st with Some e => (Err e, s) | None => (Ok tt, s') end.

(** [requireAuth] *)
Definition bindSessionUser (st : Store) : M Session (option Z) :=
  let* sess := attempt (session_get st) in
  match sess with
  | Err _ => ret None
  | Ok s => match parseSessionUserID (se_user_id s) with
            | None => ret None
            | Some uid => ignore (session_save st s) ;;; ret (Some uid)
            end
  end.

(** [json.Unmarshal] into a map of strings, and whether it returns no error: a null value is
    an empty string, so is one of another type. *)
Definition string_map (t : text) : gmap string string * bool :=
  match t with
  | Some (JObj m) => ((λ v, match v with JStr s => s | _ => EmptyString end) <$> m,
                      forallb (λ kv, match kv.2 with JStr _ | JNull => true | _ => false end) (map_to_list m))
  | Some JNull => (∅, true)
  | _ => (∅, false)
  end.

Definition reveal_text (m : gmap string string) : text := Some (JObj (JStr <$> m)).

Definition setTokenReveal (st : Store) (domainID : Z) (plain : string) : M Session unit :=
  let* s := session_get st in
  let m := match se_reveals s with Some t => (string_map t).1 | None => ∅ end in
  session_save st (set_reveals (Some (reveal_text (<[show_int domainID := plain]> m))) s).

(** The keys are decimal ids as [setTokenReveal] writes them, so no two name one domain. *)
Definition reveals_of (m : gmap string string) : gmap Z string :=
  list_to_map (omap (λ kv, id ← Atoi kv.1; if bool_decide (kv.2 = EmptyString) then None else Some (id, kv.2)) (map_to_list m)).

Definition takeTokenReveals (st : Store) : M Session (gmap Z string) :=
  let* sess := attempt (session_get st) in
  match sess with
  | Err _ => ret ∅
  | Ok s =>
      match se_reveals s with
      | None => ret ∅
      | Some t => ignore (session_save st (set_reveals None s)) ;;;
                  ret (if (string_map t).2 then reveals_of (string_map t).1 else ∅)
      end
  end.

Definition setProvisionFlash (st : Store) (result : json) : M Session unit :=
  let* s := session_get st in session_save st (set_provision (Some (Some result)) s).

(** The text of the flash, before it is decoded. *)
Definition takeProvisionFlash (st : Store) : M Session (option text) :=
  let* sess := attempt (session_get st) in
  match sess with
  | Err _ => ret None
  | Ok s =>
      match se_provision s with
      | None => ret None
      | Some t => ignore (session_save st (set_provision None s)) ;;; ret (Some t)
      end
  end.

(** ** The domains page ([loadPageData]) *)

Record PageTokenMeta := mkPageToken { pt_ID : Z; pt_Name : string; pt_LastUsed : string; pt_NeverUsed : bool }.
Definition tokMetaFromRepo (t : option TokenMeta) : option PageTokenMeta :=
  (λ t, mkPageToken (tm_ID t) (tm_Name t) (tm_LastUsed t) (tm_NeverUsed t)) <$> t.

Record DomainRow := mkDomainRow {
  dr_ID : Z; dr_ParentID : Z; dr_Slug : string; dr_Status : string; dr_TXTName : string; dr_TXTValue : string;
  dr_IsStaging : bool; dr_Token : option PageTokenMeta;
}.
Record DomainBundle := mkBundle { db_Production : DomainRow; db_Staging : option DomainRow }.
Record PageData := mkPageData {
  pg_Bundles : list DomainBundle; pg_Feeds : list FeedDefinition; pg_IsAdmin : bool; pg_Setup : UserSetupStats;
  pg_DomainError : string; pg_SubmittedHost : string;
}.

Definition domain_id_le (a b : Domain) : Prop := (d_ID a <= d_ID b)%Z.
#[export] Instance domain_id_le_dec : RelDecision domain_id_le.
Proof. intros a b. unfold domain_id_le. apply _. Defined.

Section Dashboard.
Context {F : Faults} {RO : RowOrder} {PL : PasswordLib} (cfg : Config).

Definition user_domains (uid : Z) : M World (list Domain) :=
  stmt (get (λ w, merge_sort domain_id_le (filter (λ d, d_UserID d = Some uid) (map_to_list (at_domains (w_access w))).*2))).

Definition page_row (uid : Z) (d : Domain) : M World DomainRow :=
  let* tok := FindByDomain uid (d_ID d) in
  ret (mkDomainRow (d_ID d) (default 0%Z (d_ParentDomainID d)) (d_DomainSlug d) (d_VerificationStatus d)
    (default EmptyString (d_TXTVerificationName d)) (default EmptyString (d_TXTVerificationValue d)) (d_IsStaging d) (tokMetaFromRepo tok)).

(** The production rows, and the last row below each parent. *)
Fixpoint split_rows (uid : Z) (ds : list Domain) (prod : list DomainRow) (staging : gmap Z DomainRow)
    : M World (list DomainRow * gmap Z DomainRow) :=
  match ds with
  | [] => ret (prod, staging)
  | d :: rest =>
      let* r := page_row uid d in
      match d_ParentDomainID d with
      | Some p => split_rows uid rest prod (<[p := r]> staging)
      | None => split_rows uid rest (if d_IsStaging d then prod else prod ++ [r])%list staging
      end
  end.

Definition loadPageData (uid : Z) (domainErr submittedHost : string) : M World PageData :=
  let* setup := UserSetup uid in
  let* ds := user_domains uid in
  let* rows := split_rows uid ds [] ∅ in
  let* admin := attempt (stmt (get (λ w, u_IsAdmin <$> at_users (w_access w) !! uid))) in
  ret (mkPageData ((λ r, mkBundle r (rows.2 !! dr_ID r)) <$> rows.1) (Catalog cfg)
    (match admin with Ok (Some b) => b | _ => false end) setup domainErr submittedHost).

(** ** The administrator ([seed/admin.go]) *)

(** INSERT ... ON CONFLICT (email) DO UPDATE: the sequence goes on either way. *)
Definition upsert_admin (name email hash : string) : M World Z := λ w,
  let t := w_access w in
  let id := at_user_seq t in
  let t := set_user_seq (id + 1)%Z t in
  let w := set_access t w in
  if negb (char_fits 255 name && char_fits 255 email && char_fits 255 hash) then (Err truncation, w)
  else
    let id := match first_row (λ u, bool_decide (u_Email u = email)) (at_users t) with Some u => u_ID u | None => id end in
    (Ok id, set_access (set_users (<[id := mkUser id name email hash true]> (at_users t)) t) w).

Definition Admin (salt email plainPassword name : string) : M World Z :=
  let email := TrimSpace (ToLower email) in
  let plainPassword := TrimSpace plainPassword in
  let name := TrimSpace name in
  if bool_decide (email = EmptyString) || bool_decide (plainPassword = EmptyString)
  then throw "ADMIN_SEED_EMAIL and ADMIN_SEED_PASSWORD are required"
  else stmt (upsert_admin (if bool_decide (name = EmptyString) then "Quantyra Admin" else name) email (Hash salt plainPassword DefaultParams)).
End Dashboard.

(** ** A key is shown once *)

Lemma digits_value_take s acc k v k' : take_digits acc k s = (v, k', EmptyString) → digits_value acc s = Some v.
Proof.
  revert acc k. induction s as [|c s IH]; intros acc k H; simpl in *; [by injection H as -> _|].
  destruct (digit_val c); [by eapply IH|discriminate].
Qed.

Lemma Atoi_show n : (0 <= n < 2 ^ 63)%Z → Atoi (show_int n) = Some n.
Proof.
  intros Hn. destruct (take_digits_show n EmptyString) as (k & Hk & Hpos); [lia|done|].
  destruct (show_head n EmptyString) as [_ Hs]; [lia|]. rewrite string_app_nil_r in *.
  unfold Atoi. rewrite Hs. destruct (show_int n) as [|c r] eqn:E; [injection Hk as _ <-; lia|].
  apply digits_value_take in Hk. rewrite Hk. cbn [mbind option_bind].
  by assert (int64_ok n = true) as -> by (unfold int64_ok; apply andb_true_iff; rewrite Z.leb_le, Z.ltb_lt; lia).
Qed.

#[export] Instance show_int_inj : Inj (=) (=) show_int.
Proof. intros a b H. by apply (inj pretty). Qed.

(** The keys waiting to be shown, by domain. *)
Definition waiting (s : Session) (m : gmap Z string) : Prop :=
  map_Forall (λ d plain, (0 <= d < 2 ^ 63)%Z ∧ plain ≠ EmptyString) m ∧
  match se_reveals s with None => m = ∅ | Some t => t = reveal_text (kmap show_int m) end.

Lemma string_map_reveals (m : gmap string string) : string_map (reveal_text m) = (m, true).
Proof.
  unfold string_map, reveal_text. f_equal.
  - rewrite <- map_fmap_compose. rewrite <- (map_fmap_id m) at 2. by apply map_fmap_ext.
  - apply forallb_forall. intros [k v] H%list_elem_of_In%elem_of_map_to_list. cbn.
    rewrite lookup_fmap in H. destruct (m !! k); [|done]. by injection H as <-.
Qed.

Lemma reveals_of_shown m : map_Forall (λ d plain, (0 <= d < 2 ^ 63)%Z ∧ plain ≠ EmptyString) m → reveals_of (kmap show_int m) = m.
Proof.
  intros Hm. unfold reveals_of. rewrite <- (list_to_map_to_list m) at 2.
  assert (Hp : omap (λ kv, id ← Atoi kv.1; if bool_decide (kv.2 = EmptyString) then None else Some (id, kv.2)) (map_to_list (kmap show_int m)) ≡ₚ map_to_list m).
  { rewrite (map_to_list_kmap show_int). apply reflexive_eq. assert (Hl : ∀ d plain, (d, plain) ∈ map_to_list m → m !! d = Some plain) by (intros d plain; apply elem_of_map_to_list).
    revert Hl. generalize (map_to_list m). intros l. induction l as [|[d plain] l IH]; intros Hl; [done|].
    destruct (Hm d plain) as [Hd Hp]; [apply Hl; by left|]. cbn. rewrite Atoi_show by done. cbn.
    rewrite bool_decide_eq_false_2 by done. cbn. f_equal. apply IH. intros. apply Hl. by right. }
  symmetry. apply list_to_map_proper; [apply NoDup_fst_map_to_list|done].
Qed.

(** C40 Keys are handed to a session and shown by it as by a map that is emptied when it is read:
    setting adds the key of a domain, or replaces it, and taking gives all of them and leaves
    none. A store that fails to answer gives nothing and loses nothing; only when it fails to
    save are the keys shown again. *)
Theorem reveals_refine_map st d plain s m :
  waiting s m → (0 <= d < 2 ^ 63)%Z → plain ≠ EmptyString →
  match setTokenReveal st d plain s with
  | (Ok _, s') => waiting s' (<[d := plain]> m) ∧ se_user_id s' = se_user_id s
  | (Err _, s') => s' = s
  end ∧
  match takeTokenReveals st s with
  | (Ok r, s') => if st_get st then r = ∅ ∧ s' = s else r = m ∧ if st_save st then s' = s else waiting s' ∅
  | (Err _, _) => False
  end.
Proof.
  intros [Hm Hs] Hd Hp. split.
  - unfold setTokenReveal, session_get, session_save, bind. destruct (st_get st); [done|]. destruct (st_save st); [done|].
    split; [|done]. split; [by apply map_Forall_insert_2|]. cbn. f_equal. f_equal. rewrite (kmap_insert show_int). f_equal.
    destruct (se_reveals s) as [t|]; subst; [by rewrite string_map_reveals|by rewrite kmap_empty].
  - unfold takeTokenReveals, session_get, session_save, attempt, bind, ret, ignore. destruct (st_get st); [done|]. cbn [fst snd].
    destruct (se_reveals s) as [t|] eqn:E; subst.
    + rewrite string_map_reveals. cbn [fst snd]. rewrite reveals_of_shown by done. destruct (st_save st); split; done || (split; done).
    + destruct (st_save st); split; done || by split; [|rewrite E].
Qed.

(** ** The first administrator *)

Lemma default_params_ok : params_ok DefaultParams.
Proof. unfold params_ok. cbn. lia. Qed.

Section AdminLaws.
Context {F : Faults} {RO : RowOrder} {PL : PasswordLib}.

(** The row [upsert_admin] writes, and where. *)
Lemma upsert_admin_run name email hash w id w' : consistent (w_access w) → upsert_admin name email hash w = (Ok id, w') →
  at_users (w_access w') = <[id := mkUser id name email hash true]> (at_users (w_access w)) ∧ consistent (w_access w').
Proof.
  intros Hc H. unfold upsert_admin in H. cbv zeta in H. destruct (negb _); [done|]. injection H as Hid Hw.
  assert (Hlt : (id < at_user_seq (w_access w) + 1)%Z ∧ ∀ i u, at_users (w_access w) !! i = Some u → u_Email u = email → i = id).
  { cbn in Hid. destruct (first_row _ _) as [u|] eqn:E.
    - apply first_row_Some in E as (i & Hi & He%bool_decide_eq_true). destruct (ok_user_ids _ Hc i u Hi) as [Hu Hlt]. subst id. split; [lia|].
      intros j v Hj Hv. rewrite Hu. apply (ok_emails _ Hc j i v u email); try done; by f_equal.
    - subst id. split; [lia|]. intros i u Hi Hu. eapply first_row_None in E; [|exact Hi]. by apply bool_decide_eq_false in E. }
  rewrite Hid in Hw. subst w'. split; [done|]. destruct Hlt as [Hlt Hun]. destruct Hc. split; cbn; try done.
  - intros i u. destruct (decide (i = id)) as [->|Hne]; [rewrite lookup_insert_eq; by intros [= <-]|rewrite lookup_insert_ne by done].
    intros Hi. destruct (ok_user_ids i u Hi). split; [done|lia].
  - intros i j a b k Ha Hb Hka Hkb. destruct (decide (i = id)) as [->|Hi], (decide (j = id)) as [->|Hj]; [done|..].
    + rewrite lookup_insert_eq in Ha. rewrite lookup_insert_ne in Hb by done. simplify_eq. symmetry. by eapply Hun.
    + rewrite lookup_insert_eq in Hb. rewrite lookup_insert_ne in Ha by done. simplify_eq. by eapply Hun.
    + rewrite lookup_insert_ne in Ha, Hb by done. by eapply ok_emails.
Qed.

Context {NF : NoFaults}.

(** The seeded account is entered with the configured address and password and is an
    administrator, whether it is new or was there before, and however the seed is repeated; the
    password is the configured one without the spaces around it. *)
Theorem seeded_admin_enters salt email pass name w id w' :
  consistent (w_access w) →
  let address := TrimSpace (ToLower email) in
  (∀ i u, at_users (w_access w) !! i = Some u → ToLower (u_Email u) = ToLower address → u_Email u = address) →
  Admin salt email pass name w = (Ok id, w') →
  consistent (w_access w') ∧
  ∀ w2 salt2 next, at_users (w_access w2) = at_users (w_access w') →
    (sign_in salt2 address (TrimSpace pass) w2).1 = Ok (Some id) ∧
    requireAdmin id next w2 = next (set_ops (S (w_ops w2)) w2).
Proof.
  intros Hc address Hun H. unfold Admin in H. fold address in H. destruct (_ || _); [done|]. rewrite stmt_run in H.
  apply upsert_admin_run in H as [Hu Hc']; [|done]. split; [done|]. intros w2 salt2 next Hw2. rewrite Hu in Hw2. split.
  - unfold sign_in, select_row, attempt, bind. rewrite stmt_run. cbn -[Verify NeedsRehash Hash]. rewrite Hw2.
    destruct (first_row _ _) as [u|] eqn:E.
    + apply first_row_Some in E as (i & Hi & He%bool_decide_eq_true). destruct (decide (i = id)) as [->|Hne].
      * rewrite lookup_insert_eq in Hi. injection Hi as <-. cbn [u_Password u_ID].
        rewrite Verify_Hash by apply default_params_ok. rewrite bool_decide_eq_true_2 by done. rewrite NeedsRehash_Hash by apply default_params_ok. done.
      * rewrite lookup_insert_ne in Hi by done. exfalso. apply Hne.
        assert (Hi' : at_users (w_access w') !! i = Some u) by (rewrite Hu; by rewrite lookup_insert_ne).
        eapply (ok_emails _ Hc' i id u _ address Hi'); [rewrite Hu; apply lookup_insert_eq| |done]. f_equal. by eapply Hun.
    + eapply first_row_None in E; [|apply lookup_insert_eq]. by apply bool_decide_eq_false in E.
  - unfold requireAdmin, attempt, bind. rewrite stmt_run. cbn. by rewrite Hw2, lookup_insert_eq.
Qed.
End AdminLaws.

(** ** A concrete run *)

Definition signed_in : Session := mkSession (AnyInt 1) None (Some (reveal_text {["7" := "idx_old"; "8" := "idx_staging"]})).

Lemma reveals_refine_map_witness :
  let s := (setTokenReveal working 7 "idx_new" signed_in).2 in
  waiting s {[7%Z := "idx_new"; 8%Z := "idx_staging"]} ∧
  (takeTokenReveals working s).1 = Ok {[7%Z := "idx_new"; 8%Z := "idx_staging"]} ∧ (takeTokenReveals working (takeTokenReveals working s).2).1 = Ok ∅.
Proof.
  assert (Hw : waiting signed_in {[7%Z := "idx_old"; 8%Z := "idx_staging"]}).
  { split; [|reflexivity]. apply map_Forall_insert_2; [done|]. by apply map_Forall_singleton. }
  cbv zeta. split; [|split; vm_compute; reflexivity].
  exact (proj1 (proj1 (reveals_refine_map working 7 "idx_new" signed_in _ Hw ltac:(lia) ltac:(discriminate)))).
Defined.

#[local] Existing Instance in_order.
#[local] Existing Instance Password.echo.
#[local] Instance runs : Faults := never_fails.
#[local] Instance runs_ok : NoFaults := never_fails_ok.

(** A second seed with another password replaces the first. *)
Example seeded_twice :
  let w := (Admin "s" " Root@Example.com" "two" EmptyString (Admin "s" "root@example.com" "one" "Root" (empty_world 0)).2).2 in
  (sign_in "s" "ROOT@example.com" "two" w).1 = Ok (Some 1%Z) ∧ (sign_in "s" "root@example.com" "one" w).1 = Ok None.
Proof. split; vm_compute; reflexivity. Qed.
