(* ===== verification/Routes.v ===== *)
(** * The versioned API: a request through its middlewares ([api/routes.go])

    Every /api/v1 request passes the domain middleware, then the feed middleware, then its
    handler, which logs what it served; the monitoring of the dashboard reads that log. *)

From Stdlib Require Import Ascii String.
From stdpp Require Import gmap strings list.
From S2P Require Import Prelude GoStrings GoTime GoFloat GoNum GoUrl GoJson Payload Listing AccessData Config CacheData Database Upstream GisFetch Caches Feeds Password Access AuditLog AccessLaws AccessRights MlsClient MirrorQuery Search SearchLaws Proxy ProxyLaws Monitoring.

Open Scope string_scope.

(** What a request is, as far as the middlewares read it. *)
Record V1Request := mkV1 {
  v1_Credentials : Credentials;
  v1_Path : string;
  v1_Dataset : string;
  v1_Client : ClientRequest;
  v1_IP : string;
}.

Inductive v1_route :=
| RouteEndpoint (e : endpoint)
| RouteSearch (body : option SearchRequest)
| RouteStats.

Inductive v1_reply :=
| Refused (e : http_error)
| Proxied (r : ProxyReply)
| Found (r : SearchResult)
| StatsReply (l : list StatsRow).

Definition audit_log (w : World) : list audit_row := at_audit (w_access w).
#[export] Instance view_audit : TableView audit_log.
Proof. split; [done|by left]. Qed.

Section Routes.
Context {F : Faults} {RO : RowOrder} {PL : PasswordLib} {MS : MlsServer text} {FT : GoFloatText} {JT : GoJsonText}
  {GD : GeoDistance} {SB : SameBytes} (sha256_hex : string → string) (cfg : Config).

Definition scope_of (l : Locals) (feed : option (string * FeedDefinition)) (ip : string) : Scope :=
  mkScopeLocals (lo_DomainSlug l) (match feed with Some (code, _) => code | None => EmptyString end) (snd <$> feed)
    (lo_TokenName l) (lo_UserID l) (lo_FullAccess l) ip.

Definition handle (route : v1_route) (scope : Scope) (rq : ClientRequest) : M World v1_reply :=
  let reply {A} (f : A → v1_reply) (x : A + http_error) : v1_reply := match x with inl a => f a | inr e => Refused e end in
  match route with
  | RouteEndpoint e => let* r := serve_endpoint sha256_hex cfg e scope rq in ret (reply Proxied r)
  | RouteSearch body => let* r := Search.Handle sha256_hex cfg scope rq body in ret (reply Found r)
  | RouteStats => let* r := Stats in ret (reply StatsReply r)
  end.

Definition v1 (route : v1_route) (r : V1Request) : M World v1_reply :=
  let* gate := DomainToken sha256_hex (v1_Credentials r) in
  match gate with
  | inr e => ret (Refused e)
  | inl l =>
      match MLSAccess cfg (v1_Path r) (v1_Dataset r) (Some (lo_Domain l)) with
      | inr e => ret (Refused e)
      | inl feed => handle route (scope_of l feed (v1_IP r)) (v1_Client r)
      end
  end.

(** ** What the log holds *)

Definition cache_words (r : audit_row) : Prop := au_cache_hit r = None ∨ au_cache_hit r = Some "HIT" ∨ au_cache_hit r = Some "MISS".
Definition log_ok (w : World) : Prop := Forall cache_words (audit_log w).

Lemma log_kept {A} (c : M World A) : keeps audit_log c → preserves log_ok c.
Proof. intros H w Hw. unfold log_ok. by rewrite H. Qed.

Lemma log_entry scope ty n hit : hit = None ∨ hit = Some "HIT" ∨ hit = Some "MISS" → preserves log_ok (Log scope ty n hit).
Proof.
  intros Hh w Hw. destruct (Log_inv scope ty n hit w) as (t & -> & [->|(r & Hr & _ & ->)]); cbn; [by destruct w|].
  unfold log_ok, audit_log. cbn. constructor; [|exact Hw]. unfold cache_words. by rewrite Hr.
Qed.

Lemma keeps_attempt {V A} (view : World → V) (c : M World A) : keeps view c → keeps view (attempt c).
Proof. intros H w. apply H. Qed.

Lemma log_attempt {A} (c : M World A) : preserves log_ok c → preserves log_ok (attempt c).
Proof. intros H w Hw. by apply H. Qed.

Lemma log_of_res {A} (r : res A) : preserves log_ok (of_res r).
Proof. by destruct r; intros w. Qed.

Lemma log_CacheGet partition fp : preserves log_ok (CacheGet cfg partition fp).
Proof.
  apply log_kept. intros w. unfold CacheGet, stmt. destruct (fault _); [done|]. cbn. destruct (ct_search _ !! _); [|done]. by case_match.
Qed.

Lemma log_CachePut partition fp body : preserves log_ok (CachePut partition fp body).
Proof.
  unfold CachePut. apply log_kept, (keeps_stmt audit_log). intros w. by destruct (_ && _).
Qed.

Lemma log_Proxy local rq upstream merge : preserves log_ok (ForRequest (B:=text) cfg local rq upstream merge).
Proof.
  unfold ForRequest. destruct (bool_decide _); unfold bridge_proxy, spark_proxy, proxy_with;
    (apply preserves_bind; [apply log_of_res|intros url w Hw; cbn; by destruct (mls_send w _)]).
Qed.

Lemma log_priced rq body : preserves log_ok (priced rq body).
Proof.
  unfold priced. destruct (bool_decide _); [|apply preserves_ret]. apply log_kept. intros w. unfold InjectIntoJSON, LatestSnapshot, stmt.
  destruct (fault _); [done|]. cbn. destruct (bool_decide _); [done|]. destruct (unmarshal_map body) as [[m|]|]; done.
Qed.

Lemma log_finishProxy scope rq ty upstream key partition : preserves log_ok (finishProxy sha256_hex cfg scope rq ty upstream key partition).
Proof.
  unfold finishProxy. cbv zeta. apply preserves_bind; [destruct (bool_decide _); [apply preserves_ret|apply log_CacheGet]|]. intros [body|].
  { unfold cached_reply. apply preserves_bind; [apply log_entry; auto|]. intros _. apply preserves_bind; [apply log_priced|]. intros ?. apply preserves_ret. }
  apply preserves_bind; [apply log_attempt, log_Proxy|]. intros [r|e]; [|apply preserves_ret]. destruct (_ && _).
  - apply preserves_bind; [apply log_priced|]. intros [body|]; [|apply preserves_ret].
    apply preserves_bind; [destruct (bool_decide _); [apply preserves_ret|apply preserves_ignore, log_CachePut]|]. intros _.
    apply preserves_bind; [|intros ?; apply preserves_ret]. apply log_entry. destruct (bool_decide _); auto.
  - apply preserves_bind; [apply log_entry; auto|]. intros _. apply preserves_ret.
Qed.

Lemma log_UpstreamSearch scope rq req : preserves log_ok (UpstreamSearch sha256_hex cfg scope rq req).
Proof.
  unfold UpstreamSearch. apply preserves_bind; [apply log_of_res|]. intros ep. cbv zeta. apply preserves_bind; [apply log_CacheGet|].
  intros [b|]; [apply preserves_ret|]. apply preserves_bind; [apply log_of_res|]. intros _.
  apply preserves_bind; [apply log_attempt, log_Proxy|]. intros [r|e]; [|apply preserves_throw]. destruct (_ <=? _)%Z; [apply preserves_ret|].
  apply preserves_bind; [apply preserves_ignore, log_CachePut|]. intros _. apply preserves_ret.
Qed.

Lemma log_PostgisSearch feed req months : preserves log_ok (PostgisSearch feed req months).
Proof.
  unfold PostgisSearch. cbv zeta. apply preserves_bind.
  - apply log_kept, (keeps_stmt audit_log). destruct (negb _); [apply keeps_throw|apply keeps_get].
  - intros rows. destruct (all_ok _); apply preserves_ret.
Qed.

Lemma log_routed scope rq req : preserves log_ok (routed sha256_hex cfg scope rq req).
Proof.
  assert (Hf : preserves log_ok (from_feed sha256_hex cfg scope rq req)).
  { unfold from_feed. apply preserves_bind; [apply log_UpstreamSearch|]. intros ?. apply preserves_ret. }
  unfold routed. destruct (DecideRoute req); [apply log_PostgisSearch|done|]. unfold searchSplit.
  apply preserves_bind; [apply log_attempt, log_PostgisSearch|]. intros [[ap|]|e]; [|apply preserves_ret|done].
  apply preserves_bind; [apply log_attempt, log_UpstreamSearch|]. intros [cl|e]; apply preserves_ret.
Qed.

Lemma log_handle route scope rq : preserves log_ok (handle route scope rq).
Proof.
  unfold handle. cbv zeta. destruct route as [e|body|].
  - apply preserves_bind; [|intros ?; apply preserves_ret]. destruct e; apply log_finishProxy.
  - apply preserves_bind; [|intros ?; apply preserves_ret]. unfold Search.Handle. destruct body as [req|]; [|apply preserves_ret].
    apply preserves_bind; [apply log_attempt, log_routed|]. intros [[r|]|e]; [|apply preserves_ret..].
    apply preserves_bind; [apply log_entry; auto|]. intros _. apply preserves_ret.
  - apply preserves_bind; [|intros ?; apply preserves_ret]. unfold Stats.
    apply preserves_bind; [|intros ?; apply preserves_ret]. apply log_attempt, log_kept, (keeps_stmt audit_log), keeps_get.
Qed.

Lemma log_DomainToken c : preserves log_ok (DomainToken sha256_hex c).
Proof.
  assert (Hs : ∀ {A} (f : World → A), preserves log_ok (stmt (get f))) by (intros; apply log_kept, (keeps_stmt audit_log), keeps_get).
  assert (Hfail : ∀ {A B} (x : M World A) (k : A → M World (B + http_error)), preserves log_ok x → (∀ a, preserves log_ok (k a)) → preserves log_ok (fail_with x k)).
  { intros A B x k Hx Hk w Hw. specialize (Hx w Hw). unfold fail_with. destruct (x w) as [[a|e] w1]; [by apply Hk|done]. }
  unfold DomainToken. cbv zeta. destruct (HasPrefix _ _).
  - unfold handleToken. apply Hfail.
    + unfold FindByPlaintext. cbv zeta. apply preserves_bind; [apply Hs|]. intros [tok|]; [|apply preserves_ret].
      apply preserves_bind; [apply preserves_get|]. intros now. destruct (expired _ _); [apply preserves_ret|].
      apply preserves_bind; [apply Hs|]. intros [u|]; [|apply preserves_ret]. apply preserves_bind; [|intros ?; apply preserves_ret].
      apply preserves_ignore, log_kept, (keeps_stmt audit_log). by intros w.
    + intros [[tok u]|]; [|apply preserves_ret]. destruct (_ && _); [apply preserves_ret|]. cbv zeta. destruct (bool_decide _); [apply preserves_ret|].
      destruct (k_DomainID tok); (apply Hfail; [apply Hs|]; intros [d|]; [|apply preserves_ret]; repeat case_match; apply preserves_ret).
  - unfold handleDomain. cbv zeta. destruct (bool_decide _); [apply preserves_ret|]. apply Hfail; [apply Hs|]. intros [d|]; apply preserves_ret.
Qed.

(** An API request, or whatever else happens, entries without a word on the cache included. *)
Inductive api_step : World → World → Prop :=
| step_v1 route r w : api_step w (v1 route r w).2
| step_other w w' l : audit_log w' = (l ++ audit_log w)%list → Forall (λ r, au_cache_hit r = None) l → api_step w w'.

(** C39 The dashboard's hit rate is zero whatever the cache does: from an empty log on, the
    entries say HIT and MISS, and the query counts hit and miss. However many requests the
    cache answered, the statistics have no hits, no misses and a rate that is not above zero. *)
Theorem hit_rate_always_zero w w' s w'' :
  rtc api_step w w' → audit_log w = [] → CacheHitRate15m w' = (Ok s, w'') →
  ch_Hits s = 0%Z ∧ ch_Misses s = 0%Z ∧ f_lt f_zero (ch_HitRatePct s) = false.
Proof.
  intros Hr He Hs. assert (Hok : log_ok w') .
  { assert (log_ok w) as H0 by (unfold log_ok; rewrite He; constructor). clear He Hs.
    induction Hr as [w|w w1 w2 [route r w0|w0 w0' l E Hl] _ IH]; [done| |]; apply IH.
    - unfold v1. apply preserves_bind; [apply log_DomainToken| |done]. intros [l|e]; [|apply preserves_ret].
      destruct (MLSAccess _ _ _ _); [apply log_handle|apply preserves_ret].
    - unfold log_ok. rewrite E. apply Forall_app. split; [|done]. eapply Forall_impl; [exact Hl|]. intros r. by left. }
  unfold CacheHitRate15m in Hs. apply bind_inv_ok in Hs as (rows & w1 & H1 & [= <- _]). unfold stmt in H1. destruct (fault _); [done|]. injection H1 as <- _.
  cbn [ch_Hits ch_Misses ch_HitRatePct]. set (rows := filter _ _).
  assert (Hrows : Forall cache_words rows) by (apply Forall_forall; intros r [_ Hr']%list_elem_of_filter; by eapply Forall_forall in Hok).
  assert (Hc : ∀ word, word ≠ "HIT" → word ≠ "MISS" → count_if (λ r, bool_decide (au_cache_hit r = Some word)) rows = 0%Z).
  { intros word H1 H2. unfold count_if. rewrite filter_drop_all; [done|]. eapply Forall_impl; [exact Hrows|]. intros r Hw.
    rewrite bool_decide_eq_true. destruct Hw as [->|[->| ->]]; congruence. }
  rewrite !Hc by done. split; [done|]. split; [done|]. destruct (0 <? _)%Z eqn:E; [|done]. apply Z.ltb_lt in E.
  change (f_of_Z 0) with f_zero. by destruct (f_of_Z (Z.of_nat (length rows))).
Qed.
End Routes.

(** ** Two requests for the same page *)

#[local] Existing Instance in_order.
#[local] Existing Instance Password.echo.
#[local] Existing Instance never_same.
#[local] Instance runs : Faults := never_fails.
#[local] Instance plain_floats : GoFloatText := λ _, "0".
#[local] Instance plain_json : GoJsonText := λ _, "{}".
#[local] Instance near_all : GeoDistance := λ _ _ _, true.
#[local] Instance listings : MlsServer text := bridge_listings 401.

Definition visit : V1Request := mkV1 by_slug "/api/v1/listings" EmptyString browsing "::1".
Definition visited (n : nat) : World := Nat.iter n (λ w, (v1 (λ _, "#") ProxyLaws.keyed (RouteEndpoint Properties) visit w).2) provisioned.

(** The second is answered from the cache, and is not counted. *)
Lemma hit_rate_always_zero_witness :
  au_cache_hit <$> audit_log (visited 2) = [Some "HIT"; Some "MISS"] ∧
  ∃ s, (CacheHitRate15m (visited 2)).1 = Ok s ∧ ch_Total s = 2%Z ∧ ch_Hits s = 0%Z.
Proof.
  split; [vm_compute; reflexivity|]. assert (H : match (CacheHitRate15m (visited 2)).1 with Ok s => ch_Total s | Err _ => 0%Z end = 2%Z) by (vm_compute; reflexivity).
  destruct (CacheHitRate15m (visited 2)) as [[s|e] w''] eqn:E; [|discriminate H]. exists s. split; [reflexivity|]. split; [exact H|].
  refine (proj1 (hit_rate_always_zero (λ _, "#") ProxyLaws.keyed provisioned (visited 2) s w'' _ _ E)); [|reflexivity].
  eapply rtc_l; [apply (step_v1 _ _ (RouteEndpoint Properties) visit)|]. eapply rtc_l; [apply (step_v1 _ _ (RouteEndpoint Properties) visit)|]. apply rtc_refl.
Defined.
