(* ===== verification/CompsData.v ===== *)
(** * Comparables: the data of package [comps]

    The request and response types ([types.go]), how a RESO property is read ([property.go]),
    how the subject is resolved from the request ([subject.go]) and its condition derived from
    the listing text ([condition.go]). *)

From Stdlib Require Import Ascii String.
From stdpp Require Import gmap strings list.
From S2P Require Import Prelude GoStrings GoTime GoFloat GoNum GoJson MlsFields Payload GisFetch.

Open Scope string_scope.

(** ** Types *)

Record SubjectInput := mkSubjectInput {
  i_Type : string;
  i_ListingID : string;
  i_Lat : option float64;
  i_Lng : option float64;
  i_Bedrooms : option float64;
  i_Bathrooms : option float64;
  i_LivingAreaSqft : option float64;
  i_LotSizeSqft : option float64;
  i_GarageSpaces : option float64;
  i_MonthlyFees : option float64;
  i_FloodZoneCode : option string;
  i_StellarFloodZoneCode : option string;
  i_StellarTotalMonthlyFees : option float64;
  i_SubdivisionName : option string;
  i_MLSAreaMajor : option string;
  i_ViewYN : option bool;
  i_Address : option string;
  i_PropertyType : option string;
  i_YearBuilt : option Z;
  i_Condition : option string;
  i_RenovatedKitchenYear : option Z;
  i_RenovatedBathroomsYear : option Z;
  i_RenovatedHVACYear : option Z;
}.

Record ScopeInput := mkScopeInput {
  sc_Type : string;
  sc_RadiusMiles : option float64;
  sc_PostalCodes : list string;
}.

Record FiltersInput := mkFilters {
  fi_SoldMonthsBack : option Z;
  fi_MaxSoldComps : option Z;
  fi_MaxCompetitionComps : option Z;
  fi_IncludeActivePending : option bool;
  fi_IncludeOverpriced : option bool;
  fi_LivingAreaPct : option float64;
  fi_BedsTolerance : option float64;
  fi_BathsTolerance : option float64;
  fi_YearBuiltTolerance : option Z;
  fi_LotSizePct : option float64;
  fi_MatchGarageSpaces : option bool;
  fi_MinGarageSpaces : option float64;
  fi_MaxGarageSpaces : option float64;
  fi_MatchView : option bool;
  fi_MatchSubdivision : option bool;
  fi_MatchMLSAreaMajor : option bool;
  fi_AdjPoolValue : option float64;
  fi_AdjGaragePerSpace : option float64;
  fi_AdjWaterfrontValue : option float64;
  fi_AdjYearBuiltPerYear : option float64;
  fi_AdjLotPerAcre : option float64;
}.

Record BPOParamsInput := mkBPOParams {
  bp_MaxComps : option Z;
  bp_SoldMonthsBack : option Z;
  bp_MinCompsForRegression : option Z;
  bp_ConfidenceThreshold : option float64;
  bp_ExcludeOutlierZScore : option float64;
}.
Record HomeValueParamsIn := mkHomeValueParams { hv_SoldMonthsBack : option Z; hv_MaxComps : option Z }.

Record RunRequest := mkRunRequest {
  rq_Subject : SubjectInput;
  rq_Mode : string;
  rq_Scope : ScopeInput;
  rq_Filters : FiltersInput;
  rq_Keywords : list string;
  rq_AggregationMethod : string;
  rq_RentalParams : RawMessage;
  rq_FlipParams : RawMessage;
  rq_SimulationParams : RawMessage;
  rq_BPOParams : BPOParamsInput;
  rq_HomeValueParams : HomeValueParamsIn;
}.

Record SubjectProfile := mkSubject {
  s_Type : string;
  s_ListingKey : string;
  s_ListingID : string;
  s_Lat : float64;
  s_Lng : float64;
  s_Bedrooms : float64;
  s_Bathrooms : float64;
  s_LivingArea : float64;
  s_LotSizeAcres : float64;
  s_YearBuilt : Z;
  s_GarageSpaces : float64;
  s_PoolPrivate : bool;
  s_Waterfront : bool;
  s_ListPrice : float64;
  s_MonthlyFees : float64;
  s_FloodZone : string;
  s_Subdivision : string;
  s_MLSAreaMajor : string;
  s_PropertyType : string;
  s_Condition : string;
  s_RenovatedKitchenYear : Z;
  s_RenovatedBathroomsYear : Z;
  s_RenovatedHVACYear : Z;
  s_Raw : RawMessage;
}.

Record AdjustmentLine := mkLine { al_Feature : string; al_Amount : float64 }.

Record CompRecord := mkComp {
  c_ListingKey : string;
  c_StandardStatus : string;
  c_ClosePrice : float64;
  c_ListPrice : float64;
  c_Bedrooms : float64;
  c_Bathrooms : float64;
  c_LivingArea : float64;
  c_LotSizeAcres : float64;
  c_YearBuilt : Z;
  c_GarageSpaces : float64;
  c_PoolPrivate : bool;
  c_Waterfront : bool;
  c_Lat : float64;
  c_Lng : float64;
  c_CloseDate : string;
  c_DistanceMiles : float64;
  c_AdjustedPrice : float64;
  c_Adjustments : list AdjustmentLine;
  c_MonthlyFees : float64;
  c_FloodZone : string;
  c_KeywordScore : float64;
  c_Property : RawMessage;
}.

Definition set_key k c :=
  mkComp k (c_StandardStatus c) (c_ClosePrice c) (c_ListPrice c) (c_Bedrooms c) (c_Bathrooms c)
    (c_LivingArea c) (c_LotSizeAcres c) (c_YearBuilt c) (c_GarageSpaces c) (c_PoolPrivate c)
    (c_Waterfront c) (c_Lat c) (c_Lng c) (c_CloseDate c) (c_DistanceMiles c) (c_AdjustedPrice c)
    (c_Adjustments c) (c_MonthlyFees c) (c_FloodZone c) (c_KeywordScore c) (c_Property c).
Definition set_status s c :=
  mkComp (c_ListingKey c) s (c_ClosePrice c) (c_ListPrice c) (c_Bedrooms c) (c_Bathrooms c)
    (c_LivingArea c) (c_LotSizeAcres c) (c_YearBuilt c) (c_GarageSpaces c) (c_PoolPrivate c)
    (c_Waterfront c) (c_Lat c) (c_Lng c) (c_CloseDate c) (c_DistanceMiles c) (c_AdjustedPrice c)
    (c_Adjustments c) (c_MonthlyFees c) (c_FloodZone c) (c_KeywordScore c) (c_Property c).
Definition set_close_price p c :=
  mkComp (c_ListingKey c) (c_StandardStatus c) p (c_ListPrice c) (c_Bedrooms c) (c_Bathrooms c)
    (c_LivingArea c) (c_LotSizeAcres c) (c_YearBuilt c) (c_GarageSpaces c) (c_PoolPrivate c)
    (c_Waterfront c) (c_Lat c) (c_Lng c) (c_CloseDate c) (c_DistanceMiles c) (c_AdjustedPrice c)
    (c_Adjustments c) (c_MonthlyFees c) (c_FloodZone c) (c_KeywordScore c) (c_Property c).
Definition set_list_price p c :=
  mkComp (c_ListingKey c) (c_StandardStatus c) (c_ClosePrice c) p (c_Bedrooms c) (c_Bathrooms c)
    (c_LivingArea c) (c_LotSizeAcres c) (c_YearBuilt c) (c_GarageSpaces c) (c_PoolPrivate c)
    (c_Waterfront c) (c_Lat c) (c_Lng c) (c_CloseDate c) (c_DistanceMiles c) (c_AdjustedPrice c)
    (c_Adjustments c) (c_MonthlyFees c) (c_FloodZone c) (c_KeywordScore c) (c_Property c).
Definition set_coords lat lng c :=
  mkComp (c_ListingKey c) (c_StandardStatus c) (c_ClosePrice c) (c_ListPrice c) (c_Bedrooms c)
    (c_Bathrooms c) (c_LivingArea c) (c_LotSizeAcres c) (c_YearBuilt c) (c_GarageSpaces c)
    (c_PoolPrivate c) (c_Waterfront c) lat lng (c_CloseDate c) (c_DistanceMiles c) (c_AdjustedPrice
    c) (c_Adjustments c) (c_MonthlyFees c) (c_FloodZone c) (c_KeywordScore c) (c_Property c).
Definition set_distance d c :=
  mkComp (c_ListingKey c) (c_StandardStatus c) (c_ClosePrice c) (c_ListPrice c) (c_Bedrooms c)
    (c_Bathrooms c) (c_LivingArea c) (c_LotSizeAcres c) (c_YearBuilt c) (c_GarageSpaces c)
    (c_PoolPrivate c) (c_Waterfront c) (c_Lat c) (c_Lng c) (c_CloseDate c) d (c_AdjustedPrice c)
    (c_Adjustments c) (c_MonthlyFees c) (c_FloodZone c) (c_KeywordScore c) (c_Property c).
Definition set_adjusted lines p c :=
  mkComp (c_ListingKey c) (c_StandardStatus c) (c_ClosePrice c) (c_ListPrice c) (c_Bedrooms c)
    (c_Bathrooms c) (c_LivingArea c) (c_LotSizeAcres c) (c_YearBuilt c) (c_GarageSpaces c)
    (c_PoolPrivate c) (c_Waterfront c) (c_Lat c) (c_Lng c) (c_CloseDate c) (c_DistanceMiles c) p
    lines (c_MonthlyFees c) (c_FloodZone c) (c_KeywordScore c) (c_Property c).
Definition set_keywords k c :=
  mkComp (c_ListingKey c) (c_StandardStatus c) (c_ClosePrice c) (c_ListPrice c) (c_Bedrooms c)
    (c_Bathrooms c) (c_LivingArea c) (c_LotSizeAcres c) (c_YearBuilt c) (c_GarageSpaces c)
    (c_PoolPrivate c) (c_Waterfront c) (c_Lat c) (c_Lng c) (c_CloseDate c) (c_DistanceMiles c)
    (c_AdjustedPrice c) (c_Adjustments c) (c_MonthlyFees c) (c_FloodZone c) k (c_Property c).

Record BpoMarketRates := mkRates {
  r_GLAPerSF : float64;
  r_BedPerRoom : float64;
  r_BathPerFull : float64;
  r_AgePerYear : float64;
  r_LotPerAcre : float64;
  r_GaragePerSpace : float64;
  r_PoolValue : float64;
  r_WaterfrontValue : float64;
  r_TimePerMonthPct : float64;
  r_Intercept : float64;
  r_RSquared : float64;
  r_Method : string;
  r_CompCount : Z;
  r_MedianGLA : float64;
  r_Warnings : list string;
}.

(** A value of a grid line: the Go [any] of its two value columns. *)
Inductive grid_value := GNone | GStr (s : string) | GNum (f : float64) | GInt (n : Z) | GBool (b : bool).

Record BpoGridLine := mkGridLine {
  gl_Feature : string;
  gl_SubjectValue : grid_value;
  gl_CompValue : grid_value;
  gl_Unit : string;
  gl_RateSource : string;
  gl_RatePerUnit : float64;
  gl_Adjustment : float64;
  gl_Reasoning : string;
}.

Record BpoCompGrid := mkGrid {
  g_CompIndex : Z;
  g_ListingKey : string;
  g_SalePrice : float64;
  g_SaleDate : string;
  g_Lines : list BpoGridLine;
  g_NetAdjustment : float64;
  g_GrossAdjustment : float64;
  g_GrossAdjustmentPct : float64;
  g_AdjustedPrice : float64;
  g_Weight : float64;
}.

Record RenovationCredit := mkCredit {
  rc_Feature : string;
  rc_Year : Z;
  rc_Amount : float64;
  rc_RateSource : string;
  rc_Reasoning : string;
}.

Definition zeroComp (raw : RawMessage) : CompRecord := mkComp EmptyString EmptyString f_zero f_zero
  f_zero f_zero f_zero f_zero 0%Z f_zero false false f_zero f_zero EmptyString f_zero f_zero []
  f_zero EmptyString f_zero raw.
Definition zeroSubject : SubjectProfile := mkSubject EmptyString EmptyString EmptyString f_zero
  f_zero f_zero f_zero f_zero f_zero 0%Z f_zero false false f_zero f_zero EmptyString EmptyString
  EmptyString EmptyString EmptyString 0%Z 0%Z 0%Z RawNil.
Definition noFilters : FiltersInput := mkFilters None None None None None None None None None None
  None None None None None None None None None None None.

(** ** Reading a property ([property.go]) *)

Section Property.
Context {JT : GoJsonText}.

Definition str (v : json) : string :=
  match v with
  | JNull => EmptyString
  | JStr t => TrimSpace t
  | _ => TrimByte (TrimSpace (json_text v)) (ascii_of_nat 34)
  end.

(** A decoded number is a float64; the other cases of the switch never come from JSON. *)
Definition num (v : json) : float64 := match v with JNum n => num_float n | _ => f_zero end.

Definition boolVal (v : json) : bool :=
  match v with
  | JBool b => b
  | JStr t => EqualFold t "true" || bool_decide (t = "1") || EqualFold t "yes"
  | _ => false
  end.

(** [v.(float64)] with a default. *)
Definition float_or (d : float64) (v : json) : float64 := match v with JNum n => num_float n | _ => d end.

Definition coordsFromMap (m : row) : float64 * float64 :=
  let lat := float_or f_zero (at_key m "Latitude") in
  let lng := float_or f_zero (at_key m "Longitude") in
  if negb (f_eq lat f_zero) && negb (f_eq lng f_zero) then (lat, lng)
  else match at_key m "Coordinates" with
       | JObj c =>
           match at_key c "coordinates" with
           | JArr (a :: b :: _) => (float_or lat b, float_or lng a)
           | _ => (lat, lng)
           end
       | _ => (lat, lng)
       end.

(** [json.Unmarshal] into a [map[string]any]: an object, or null for the nil map. *)
Definition decode_map (raw : RawMessage) : option row :=
  match raw with
  | RawText (Some (JObj m)) => Some m
  | RawText (Some JNull) => Some ∅
  | _ => None
  end.

(** The first value that is not zero. *)
Definition num_else (a b : float64) : float64 := if f_eq a f_zero then b else a.

Definition parseProperty (raw : RawMessage) : CompRecord :=
  match decode_map raw with
  | None => zeroComp raw
  | Some m =>
      let zone := str (at_key m "STELLAR_FloodZoneCode") in
      let '(lat, lng) := coordsFromMap m in
      {| c_ListingKey := str (at_key m "ListingKey");
         c_StandardStatus := str (at_key m "StandardStatus");
         c_ClosePrice := num (at_key m "ClosePrice");
         c_ListPrice := num (at_key m "ListPrice");
         c_Bedrooms := num (at_key m "BedroomsTotal");
         c_Bathrooms := num_else (num (at_key m "BathroomsTotalDecimal")) (num (at_key m "BathroomsTotal"));
         c_LivingArea := num (at_key m "LivingArea");
         c_LotSizeAcres := num (at_key m "LotSizeAcres");
         c_YearBuilt := f_to_int64 (num (at_key m "YearBuilt"));
         c_GarageSpaces := num (at_key m "GarageSpaces");
         c_PoolPrivate := boolVal (at_key m "PoolPrivateYN");
         c_Waterfront := boolVal (at_key m "WaterfrontYN");
         c_Lat := lat;
         c_Lng := lng;
         c_CloseDate := str (at_key m "CloseDate");
         c_DistanceMiles := f_zero;
         c_AdjustedPrice := f_zero;
         c_Adjustments := [];
         c_MonthlyFees := num_else (num (at_key m "STELLAR_TotalMonthlyFees")) (num (at_key m "TotalMonthlyFees"));
         c_FloodZone := if bool_decide (zone = EmptyString) then str (at_key m "FloodZoneCode") else zone;
         c_KeywordScore := f_zero;
         c_Property := raw |}
  end.

(** [stringField] of [bpo_grid.go] and [strFromRaw] of [upstream.go]. *)
Definition stringField (raw : RawMessage) (key : string) : string :=
  match decode_map raw with
  | Some m => match at_key m key with JStr v => v | _ => EmptyString end
  | None => EmptyString
  end.
Definition strFromRaw (raw : RawMessage) (key : string) : string :=
  match decode_map raw with Some m => str (at_key m key) | None => EmptyString end.

Definition compSubdivision (c : CompRecord) : string := stringField (c_Property c) "SubdivisionName".
Definition compMLSArea (c : CompRecord) : string := stringField (c_Property c) "MLSAreaMajor".
Definition compPropertyType (c : CompRecord) : string := stringField (c_Property c) "PropertySubType".

(** ** The condition of a listing ([condition.go]) *)

Definition conditionPoor : string := "poor".
Definition conditionFair : string := "fair".
Definition conditionGood : string := "good".
Definition conditionExcellent : string := "excellent".

Definition excellentRemarkPhrases : list string :=
  ["mint condition"; "turnkey"; "completely renovated"; "fully renovated"; "like new"; "no expense spared";
   "model perfect"; "showcase"].
Definition poorRemarkPhrases : list string :=
  ["fixer upper"; "fixer-upper"; "needs major work"; "major work needed"; "tear down"; "teardown";
   "investor special"; "distressed"; "needs complete renovation"; "contractor special"].
Definition fairRemarkPhrases : list string :=
  ["needs some tlc"; "needs tlc"; "as-is"; "as is"; "needs updating"; "handyman special"; "estate sale";
   "bring your contractor"].
Definition goodRemarkPhrases : list string :=
  ["well maintained"; "well-maintained"; "move-in ready"; "move in ready"; "immaculate"; "pride of ownership";
   "updated throughout"].

Definition propertyConditionValues (m : row) : list string :=
  match at_key m "PropertyCondition" with
  | JStr t => let s := TrimSpace t in if bool_decide (s = EmptyString) then [] else [s]
  | JArr l =>
      omap (λ item, match item with
                    | JStr t => let s := TrimSpace t in if bool_decide (s = EmptyString) then None else Some s
                    | _ => None
                    end) l
  | _ => []
  end.

Definition conditionFromPropertyCondition (values : list string) : string :=
  if existsb (λ v, let n := ToLower (TrimSpace v) in bool_decide (n = "fixer") || Contains n "fixer") values
  then conditionPoor else EmptyString.

(** Excellent and poor phrases come before the ambiguous ones. *)
Definition conditionFromRemarks (remarks : string) : string :=
  let remarks := ToLower (TrimSpace remarks) in
  if bool_decide (remarks = EmptyString) then EmptyString
  else if existsb (Contains remarks) excellentRemarkPhrases then conditionExcellent
  else if existsb (Contains remarks) poorRemarkPhrases then conditionPoor
  else if existsb (Contains remarks) fairRemarkPhrases then conditionFair
  else if existsb (Contains remarks) goodRemarkPhrases then conditionGood
  else EmptyString.

Definition DeriveConditionFromProperty (raw : RawMessage) : string :=
  match decode_map raw with
  | None => EmptyString
  | Some m =>
      let c := conditionFromPropertyCondition (propertyConditionValues m) in
      if negb (bool_decide (c = EmptyString)) then c
      else
        let remarks := ToLower (str (at_key m "PublicRemarks")) in
        conditionFromRemarks
          (if bool_decide (remarks = EmptyString) then ToLower (str (at_key m "PropertyDescription")) else remarks)
  end.

Definition set_condition (v : string) (s : SubjectProfile) : SubjectProfile :=
  mkSubject (s_Type s) (s_ListingKey s) (s_ListingID s) (s_Lat s) (s_Lng s) (s_Bedrooms s)
    (s_Bathrooms s) (s_LivingArea s) (s_LotSizeAcres s) (s_YearBuilt s) (s_GarageSpaces s)
    (s_PoolPrivate s) (s_Waterfront s) (s_ListPrice s) (s_MonthlyFees s) (s_FloodZone s)
    (s_Subdivision s) (s_MLSAreaMajor s) (s_PropertyType s) v (s_RenovatedKitchenYear s)
    (s_RenovatedBathroomsYear s) (s_RenovatedHVACYear s) (s_Raw s).

Definition applyDerivedCondition (sub : SubjectProfile) (inp : SubjectInput) : SubjectProfile :=
  if negb (bool_decide (TrimSpace (default EmptyString (i_Condition inp)) = EmptyString)) then sub
  else if negb (bool_decide (TrimSpace (s_Condition sub) = EmptyString)) then sub
  else
    let c := DeriveConditionFromProperty (s_Raw sub) in
    if bool_decide (c = EmptyString) then sub else set_condition c sub.

(** ** The subject ([subject.go]) *)

Definition set_codes (zone : option string) (fees : option float64) (i : SubjectInput) : SubjectInput :=
  mkSubjectInput (i_Type i) (i_ListingID i) (i_Lat i) (i_Lng i) (i_Bedrooms i) (i_Bathrooms i)
    (i_LivingAreaSqft i) (i_LotSizeSqft i) (i_GarageSpaces i) fees zone (i_StellarFloodZoneCode i)
    (i_StellarTotalMonthlyFees i) (i_SubdivisionName i) (i_MLSAreaMajor i) (i_ViewYN i) (i_Address
    i) (i_PropertyType i) (i_YearBuilt i) (i_Condition i) (i_RenovatedKitchenYear i)
    (i_RenovatedBathroomsYear i) (i_RenovatedHVACYear i).

Definition mergeSubjectAliases (inp : SubjectInput) : SubjectInput :=
  set_codes (match i_FloodZoneCode inp with None => i_StellarFloodZoneCode inp | v => v end)
    (match i_MonthlyFees inp with None => i_StellarTotalMonthlyFees inp | v => v end) inp.

Definition applySubjectOverrides (sub : SubjectProfile) (inp : SubjectInput) : SubjectProfile :=
  {| s_Type := s_Type sub;
     s_ListingKey := s_ListingKey sub;
     s_ListingID := s_ListingID sub;
     s_Lat := s_Lat sub;
     s_Lng := s_Lng sub;
     s_Bedrooms := default (s_Bedrooms sub) (i_Bedrooms inp);
     s_Bathrooms := default (s_Bathrooms sub) (i_Bathrooms inp);
     s_LivingArea := default (s_LivingArea sub) (i_LivingAreaSqft inp);
     s_LotSizeAcres := match i_LotSizeSqft inp with
                       | Some a => if f_lt f_zero a then f_div a (f_of_Z 43560) else s_LotSizeAcres sub
                       | None => s_LotSizeAcres sub
                       end;
     s_YearBuilt := default (s_YearBuilt sub) (i_YearBuilt inp);
     s_GarageSpaces := default (s_GarageSpaces sub) (i_GarageSpaces inp);
     s_PoolPrivate := s_PoolPrivate sub;
     s_Waterfront := s_Waterfront sub;
     s_ListPrice := s_ListPrice sub;
     s_MonthlyFees := default (s_MonthlyFees sub) (i_MonthlyFees inp);
     s_FloodZone := default (s_FloodZone sub) (i_FloodZoneCode inp);
     s_Subdivision := default (s_Subdivision sub) (i_SubdivisionName inp);
     s_MLSAreaMajor := default (s_MLSAreaMajor sub) (i_MLSAreaMajor inp);
     s_PropertyType := default (s_PropertyType sub) (i_PropertyType inp);
     s_Condition := default (s_Condition sub) (i_Condition inp);
     s_RenovatedKitchenYear := default (s_RenovatedKitchenYear sub) (i_RenovatedKitchenYear inp);
     s_RenovatedBathroomsYear := default (s_RenovatedBathroomsYear sub) (i_RenovatedBathroomsYear inp);
     s_RenovatedHVACYear := default (s_RenovatedHVACYear sub) (i_RenovatedHVACYear inp);
     s_Raw := s_Raw sub |}.

Definition off_market_at (lat lng : float64) : SubjectProfile :=
  mkSubject "off_market" EmptyString EmptyString lat lng f_zero f_zero f_zero f_zero 0%Z f_zero false
    false f_zero f_zero EmptyString EmptyString EmptyString EmptyString EmptyString 0%Z 0%Z 0%Z
    RawNil.

Definition subjectFromOffMarket (inp : SubjectInput) : res SubjectProfile :=
  match i_Lat inp, i_Lng inp with
  | Some lat, Some lng =>
      let sub := applySubjectOverrides (off_market_at lat lng) inp in
      if f_le (s_Bedrooms sub) f_zero || f_le (s_LivingArea sub) f_zero
      then Err "off_market subject requires bedrooms and living_area_sqft"
      else Ok sub
  | _, _ => Err "subject.lat and subject.lng are required for off_market"
  end.

Definition normalizeDataset (s : string) : string :=
  TrimPrefix (TrimPrefix (ToLower (TrimSpace s)) "bridge_") "spark_".

(** [dataset:key], or a bare key of the feed's dataset. *)
Definition parseListingRef (id defaultDataset : string) : string * string :=
  let id := TrimSpace id in
  match Index id ":" with
  | Some (S i) => (normalizeDataset (take_bytes (S i) id), drop_bytes (S (S i)) id)
  | _ => (defaultDataset, id)
  end.

(** The profile of a listing of the mirror, before the overrides. *)
Definition profile_of (key : string) (merged : RawMessage) (listPrice : option float64) (inp : SubjectInput) : SubjectProfile :=
  let comp := parseProperty merged in
  {| s_Type := "mls"; s_ListingKey := key; s_ListingID := i_ListingID inp;
     s_Lat := default (c_Lat comp) (i_Lat inp); s_Lng := default (c_Lng comp) (i_Lng inp);
     s_Bedrooms := c_Bedrooms comp; s_Bathrooms := c_Bathrooms comp; s_LivingArea := c_LivingArea comp;
     s_LotSizeAcres := c_LotSizeAcres comp; s_YearBuilt := c_YearBuilt comp; s_GarageSpaces := c_GarageSpaces comp;
     s_PoolPrivate := c_PoolPrivate comp; s_Waterfront := c_Waterfront comp; s_ListPrice := default f_zero listPrice;
     s_MonthlyFees := c_MonthlyFees comp; s_FloodZone := c_FloodZone comp; s_Subdivision := EmptyString;
     s_MLSAreaMajor := EmptyString; s_PropertyType := EmptyString; s_Condition := EmptyString;
     s_RenovatedKitchenYear := 0; s_RenovatedBathroomsYear := 0; s_RenovatedHVACYear := 0; s_Raw := merged |}.
End Property.

(** The listing text "has island views" reads as sold as is. *)
Example as_is_in_has_island : conditionFromRemarks "Kitchen has island" = conditionFair.
Proof. reflexivity. Qed.
