(* ===== verification/CompsMarket.v ===== *)
(** * Comparables: prices, outliers and market rates

    [outliers.go], [paired_sales.go], [adjustments.go] and [bpo_market.go] of package [comps]:
    the outlier filter, the simple adjustments, and the adjustment rates derived from the sold
    set by regression, by paired sales or from the median price per square foot. *)

From Stdlib Require Import Floats.SpecFloat Ascii String.
From stdpp Require Import gmap strings list sorting.
From S2P Require Import Prelude GoStrings GoTime GoFloat GoNum GoJson Payload GisFetch CompsData.

Open Scope string_scope.

(** ** Arithmetic *)

(** [math.Sqrt] is correctly rounded. *)
Definition f_sqrt : float64 → float64 := SFsqrt 53 1024.

Definition f_sum (l : list float64) : float64 := foldl f_add f_zero l.
Definition f_len {A} (l : list A) : float64 := f_of_Z (Z.of_nat (length l)).

Definition round2 (v : float64) : float64 := f_div (Round (f_mul v (f_of_Z 100))) (f_of_Z 100).

Definition abs (v : float64) : float64 := if f_lt v f_zero then f_neg v else v.

Definition clamp (v lo hi : float64) : float64 := if f_lt v lo then lo else if f_lt hi v then hi else v.

Definition bool01 (v : bool) : float64 := if v then f_of_Z 1 else f_zero.

(** [sort.Float64s]: NaN first. *)
Definition f_sort_le (a b : float64) : Prop := IsNaN a || f_le a b = true.
#[export] Instance f_sort_le_dec : RelDecision f_sort_le.
Proof. intros a b. unfold f_sort_le. apply _. Defined.
Definition Float64s (l : list float64) : list float64 := merge_sort f_sort_le l.

(** The middle of a sorted list, or the mean of the two middle ones. *)
Definition middle (vals : list float64) : float64 :=
  let mid := (length vals / 2)%nat in
  if Nat.even (length vals)
  then f_div (f_add (nth (mid - 1) vals f_zero) (nth mid vals f_zero)) (f_of_Z 2)
  else nth mid vals f_zero.

Definition medianOf (vals : list float64) : float64 :=
  match vals with [] => f_zero | _ => middle (Float64s vals) end.

(** [sort.Slice]: some permutation, in order when the comparison is a total preorder on the
    elements. *)
Class SortSlice := {
  sort_slice : ∀ A, (A → A → bool) → list A → list A;
  sort_slice_perm : ∀ A less (l : list A), sort_slice A less l ≡ₚ l;
  sort_slice_sorted : ∀ A less (l : list A),
    (∀ x y z, x ∈ l → y ∈ l → z ∈ l → less y x = false → less z y = false → less z x = false) →
    (∀ x y, x ∈ l → y ∈ l → less y x = false ∨ less x y = false) →
    StronglySorted (λ a b, less b a = false) (sort_slice A less l);
}.

(** Insertion by [less]: one such sort. *)
Fixpoint insert_by {A} (less : A → A → bool) (x : A) (l : list A) : list A :=
  match l with
  | [] => [x]
  | y :: l' => if less y x then y :: insert_by less x l' else x :: l
  end.

Lemma insert_by_perm {A} less (x : A) l : insert_by less x l ≡ₚ x :: l.
Proof. induction l as [|y l IH]; simpl; [done|]. destruct (less y x); [|done]. rewrite IH. apply Permutation_swap. Qed.

Lemma insert_by_sorted {A} less (x : A) l :
  (∀ a b c, a ∈ x :: l → b ∈ x :: l → c ∈ x :: l → less b a = false → less c b = false → less c a = false) →
  (∀ a b, a ∈ x :: l → b ∈ x :: l → less b a = false ∨ less a b = false) →
  StronglySorted (λ a b, less b a = false) l → StronglySorted (λ a b, less b a = false) (insert_by less x l).
Proof.
  intros Ht Ha. induction l as [|y l IH]; simpl; [by repeat constructor|]. intros [Hs Hf]%StronglySorted_inv.
  assert (∀ z, z ∈ x :: l → z ∈ x :: y :: l) as Hin by (intros z; rewrite !elem_of_cons; tauto).
  destruct (less y x) eqn:E.
  - constructor.
    + apply IH; [| |done]; [intros a b c Pa Pb Pc; apply (Ht a b c); by apply Hin|intros a b Pa Pb; apply Ha; by apply Hin].
    + rewrite insert_by_perm. constructor; [|done]. destruct (Ha x y) as [H|H]; [by left|by right; left|congruence|exact H].
  - constructor; [by constructor|]. constructor; [done|]. rewrite Forall_forall in *. intros z Hz.
    apply (Ht x y z); [by left|by right; left|by right; right|done|by apply Hf].
Qed.

Definition insertion_sort {A} (less : A → A → bool) (l : list A) : list A := foldr (insert_by less) [] l.

Lemma insertion_sort_perm {A} less (l : list A) : insertion_sort less l ≡ₚ l.
Proof. induction l as [|x l IH]; simpl; [done|]. by rewrite insert_by_perm, IH. Qed.

Definition insertionSort : SortSlice.
Proof.
  refine {| sort_slice := @insertion_sort |}; [intros; apply insertion_sort_perm|].
  intros A less l. induction l as [|x l IH]; simpl; intros Ht Ha; [constructor|].
  apply insert_by_sorted.
  - intros a b c. rewrite insertion_sort_perm. apply Ht.
  - intros a b. rewrite insertion_sort_perm. apply Ha.
  - apply IH; [intros a b c Pa Pb Pc; apply (Ht a b c)|intros a b Pa Pb; apply Ha]; by right.
Defined.

(** ** Outliers ([outliers.go]) *)

Definition compPrice (c : CompRecord) : float64 :=
  if f_lt f_zero (c_AdjustedPrice c) then c_AdjustedPrice c else c_ClosePrice c.

Definition meanStd (vals : list float64) : float64 * float64 :=
  let mean := f_div (f_sum vals) (f_len vals) in
  let varSum := foldl (λ acc v, let d := f_sub v mean in f_add acc (f_mul d d)) f_zero vals in
  (mean, f_sqrt (f_div varSum (f_len vals))).

Definition priced (sold : list CompRecord) : list float64 := filter (λ p, f_lt f_zero p = true) (compPrice <$> sold).

Definition within_z (mean std threshold : float64) (c : CompRecord) : bool :=
  let p := compPrice c in
  negb (f_le p f_zero) && f_le (f_abs (f_div (f_sub p mean) std)) threshold.

Definition filterOutlierZScore (sold : list CompRecord) (threshold : float64) : list CompRecord :=
  if f_le threshold f_zero || (length sold <? 3)%nat then sold
  else
    let prices := priced sold in
    if (length prices <? 3)%nat then sold
    else
      let '(mean, std) := meanStd prices in
      if f_lt std (lit "1e-9") then sold
      else match filter (λ c, within_z mean std threshold c = true) sold with
           | [] => sold
           | out => out
           end.

(** ** Pairs ([paired_sales.go], the deltas of [bpo_market.go]) *)

(** The pairs [(sold[i], sold[j])] with [i < j], in the order of the loops. *)
Fixpoint pairs {A} (l : list A) : list (A * A) :=
  match l with
  | [] => []
  | a :: r => (((a,.) <$> r) ++ pairs r)%list
  end.

Definition roomsAligned (a b : CompRecord) : bool :=
  negb (f_lt (f_of_Z 1) (abs (f_sub (c_Bedrooms a) (c_Bedrooms b))) ||
        f_lt (lit "0.5") (abs (f_sub (c_Bathrooms a) (c_Bathrooms b)))).

Definition has_area (c : CompRecord) : bool := negb (f_le (c_LivingArea c) f_zero).

Definition ppsf_of_pair (ab : CompRecord * CompRecord) : option float64 :=
  let '(a, b) := ab in
  if negb (has_area a && has_area b) then None
  else
    let areaDiff := abs (f_sub (c_LivingArea a) (c_LivingArea b)) in
    if f_lt areaDiff (f_of_Z 50) then None
    else
      let priceDiff := abs (f_sub (compPrice a) (compPrice b)) in
      if f_le priceDiff f_zero then None
      else if roomsAligned a b then Some (f_div priceDiff areaDiff) else None.

Definition pairedSalesPPSF (sold : list CompRecord) : float64 :=
  if (length sold <? 3)%nat then f_zero
  else match omap ppsf_of_pair (pairs sold) with
       | [] => f_zero
       | rates => f_div (f_sum rates) (f_len rates)
       end.

Definition compsAlignedForPair (a b : CompRecord) : bool :=
  has_area a && has_area b &&
  negb (f_lt (f_of_Z 200) (f_abs (f_sub (c_LivingArea a) (c_LivingArea b)))) && roomsAligned a b.

Definition binary_delta (feat : CompRecord → bool) (ab : CompRecord * CompRecord) : option float64 :=
  let '(a, b) := ab in
  if negb (compsAlignedForPair a b) || eqb (feat a) (feat b) then None
  else
    let d := if feat a then f_sub (compPrice a) (compPrice b) else f_sub (compPrice b) (compPrice a) in
    if f_lt f_zero d then Some d else None.

Definition pairedBinaryDelta (sold : list CompRecord) (feat : CompRecord → bool) : float64 :=
  clamp (medianOf (omap (binary_delta feat) (pairs sold))) f_zero (f_of_Z 80000).

Definition continuous_rate (feat : CompRecord → float64) (minDiff : float64) (ab : CompRecord * CompRecord) : option float64 :=
  let '(a, b) := ab in
  if negb (compsAlignedForPair a b) then None
  else
    let d := f_sub (feat a) (feat b) in
    if f_lt (f_abs d) minDiff then None
    else
      let pd := f_sub (compPrice a) (compPrice b) in
      if f_eq pd f_zero then None else Some (f_div pd d).

Definition pairedContinuousDelta (sold : list CompRecord) (feat : CompRecord → float64) (minDiff : float64) : float64 :=
  medianOf (omap (continuous_rate feat minDiff) (pairs sold)).

Record pairedRates := mkPaired {
  pr_gla : float64; pr_bed : float64; pr_bath : float64; pr_age : float64; pr_lot : float64;
  pr_garage : float64; pr_pool : float64; pr_waterfront : float64;
}.

Definition extractPairedRates (sold : list CompRecord) : pairedRates :=
  {| pr_gla := pairedSalesPPSF sold;
     pr_pool := pairedBinaryDelta sold c_PoolPrivate;
     pr_waterfront := pairedBinaryDelta sold c_Waterfront;
     pr_garage := pairedContinuousDelta sold c_GarageSpaces (lit "0.5");
     pr_bed := pairedContinuousDelta sold c_Bedrooms (lit "0.25");
     pr_bath := pairedContinuousDelta sold c_Bathrooms (lit "0.25");
     pr_age := pairedContinuousDelta sold (λ c, f_of_Z (c_YearBuilt c)) (f_of_Z 3);
     pr_lot := pairedContinuousDelta sold c_LotSizeAcres (lit "0.1") |}.

(** ** Least squares *)

Abbreviation matrix := (list (list float64)).
Definition cell (m : matrix) (r c : nat) : float64 := nth c (nth r m []) f_zero.

Definition dot (a b : list float64) : float64 := foldl f_add f_zero (zip_with f_mul a b).

(** The first row from [col] down with the largest entry in column [col]. *)
Definition pivot_row (m : matrix) (col : nat) : nat :=
  foldl (λ p r, if f_lt (f_abs (cell m p col)) (f_abs (cell m r col)) then r else p) col
    (seq (S col) (length m - S col)).

Definition swap_rows (i j : nat) (m : matrix) : matrix := <[i := nth j m []]> (<[j := nth i m []]> m).

Definition eliminate (col : nat) (m : matrix) : matrix :=
  let prow := nth col m [] in
  imap (λ r row, if (r =? col)%nat then row
                 else let f := nth col row f_zero in zip_with (λ a b, f_sub a (f_mul f b)) row prow) m.

(** One column of the Gauss-Jordan elimination. *)
Definition reduce_column (m : matrix) (col : nat) : option matrix :=
  let pivot := pivot_row m col in
  if f_lt (f_abs (cell m pivot col)) (lit "1e-12") then None
  else
    let m := swap_rows col pivot m in
    let div := cell m col col in
    Some (eliminate col (alter (λ row, (λ x, f_div x div) <$> row) col m)).

Definition unit_row (n i : nat) : list float64 := (λ j, if (j =? i)%nat then f_of_Z 1 else f_zero) <$> seq 0 n.

Definition augment (m : matrix) : matrix := imap (λ i row, (row ++ unit_row (length m) i)%list) m.

Definition invertMatrix (m : matrix) : option matrix :=
  let n := length m in
  aug ← foldl (λ o col, o ≫= λ a, reduce_column a col) (Some (augment m)) (seq 0 n);
  Some ((λ row, drop n row) <$> aug).

Definition design (X : matrix) : matrix := (λ r, f_of_Z 1 :: r) <$> X.

Definition column (rows : matrix) (a : nat) : list float64 := (λ row, nth a row f_zero) <$> rows.

(** The normal equations: [xtX] and [xtY]. *)
Definition gram (p : nat) (rows : matrix) : matrix := (λ a, (λ b, dot (column rows a) (column rows b)) <$> seq 0 p) <$> seq 0 p.
Definition moment (p : nat) (rows : matrix) (y : list float64) : list float64 := (λ a, dot (column rows a) y) <$> seq 0 p.

Definition solveOLS (X : matrix) (y : list float64) : option (list float64) :=
  match X with
  | [] => None
  | x0 :: _ =>
      let rows := design X in
      let p := S (length x0) in
      let xtY := moment p rows y in
      match invertMatrix (gram p rows) with
      | None => None
      | Some inv => Some ((λ row, dot row xtY) <$> inv)
      end
  end.

Definition predict (coef row : list float64) : float64 :=
  match coef with
  | [] => f_zero
  | c0 :: cs => foldl f_add c0 (zip_with f_mul cs row)
  end.

Definition olsRSquared (X : matrix) (y coef : list float64) : float64 :=
  match y with
  | [] => f_zero
  | _ =>
      let mean := f_div (f_sum y) (f_len y) in
      let sq x := f_mul x x in
      let ssRes := f_sum (zip_with (λ row v, sq (f_sub v (predict coef row))) X y) in
      let ssTot := f_sum ((λ v, sq (f_sub v mean)) <$> y) in
      if f_lt ssTot (lit "1e-9") then f_zero
      else f_max f_zero (f_sub (f_of_Z 1) (f_div ssRes ssTot))
  end.

(** ** Market rates ([bpo_market.go]) *)

Definition bpoRateSourceOLS : string := "ols_regression".
Definition bpoRateSourcePaired : string := "paired_sales".
Definition bpoRateSourceMedian : string := "median_fallback".

(** [Duration.Hours]. *)
Definition Hours (d : Z) : float64 :=
  f_add (f_of_Z (Z.quot d hour)) (f_div (f_of_Z (Z.rem d hour)) (f_of_Z hour)).

(** [time.Since], saturated to an int64. *)
Definition since (now t : Z) : Z := Z.max (- 2 ^ 63) (Z.min (2 ^ 63 - 1) (now - t)).

Definition monthsSinceClose (now : Z) (closeDate : string) : float64 :=
  if bool_decide (closeDate = EmptyString) then f_zero
  else match parse_date_only (take_bytes 10 closeDate) with
       | None => f_zero
       | Some t => f_div (f_div (Hours (since now t)) (f_of_Z 24)) (lit "30.437")
       end.

Definition meanCloseMonths (now : Z) (sold : list CompRecord) : float64 :=
  match sold with
  | [] => f_zero
  | _ => f_div (f_sum ((λ c, monthsSinceClose now (c_CloseDate c)) <$> sold)) (f_len sold)
  end.

Definition medianPPSF (sold : list CompRecord) : float64 :=
  medianOf (omap (λ c, if f_lt f_zero (c_LivingArea c) && f_lt f_zero (c_ClosePrice c)
                       then Some (f_div (c_ClosePrice c) (c_LivingArea c)) else None) sold).

Definition medianGLA (sold : list CompRecord) : float64 :=
  medianOf (filter (λ a, f_lt f_zero a = true) (c_LivingArea <$> sold)).

(** The features of a sale, without the intercept. *)
Definition ols_row (now : Z) (meanMonths : float64) (c : CompRecord) : list float64 :=
  [c_LivingArea c; c_Bedrooms c; c_Bathrooms c; f_of_Z (c_YearBuilt c); c_LotSizeAcres c; c_GarageSpaces c;
   bool01 (c_PoolPrivate c); bool01 (c_Waterfront c); f_sub (monthsSinceClose now (c_CloseDate c)) meanMonths].

Definition usable (c : CompRecord) : bool := negb (f_le (c_ClosePrice c) f_zero || f_le (c_LivingArea c) f_zero).

Definition fitBpoOLS (now : Z) (sold : list CompRecord) : option BpoMarketRates :=
  let meanMonths := meanCloseMonths now sold in
  let sales := filter (λ c, usable c = true) sold in
  let rows := ols_row now meanMonths <$> sales in
  let y := c_ClosePrice <$> sales in
  if (length rows <? 6)%nat then None
  else
    match solveOLS rows y with
    | Some [c0; gla; bed; bath; year; lot; garage; pool; waterfront; month] =>
        if f_le gla f_zero then None
        else Some {| r_Intercept := c0; r_GLAPerSF := gla; r_BedPerRoom := bed; r_BathPerFull := bath;
                     r_AgePerYear := f_abs year; r_LotPerAcre := lot; r_GaragePerSpace := garage; r_PoolValue := pool;
                     r_WaterfrontValue := waterfront; r_TimePerMonthPct := f_div month (f_of_Z 100);
                     r_RSquared := olsRSquared rows y [c0; gla; bed; bath; year; lot; garage; pool; waterfront; month];
                     r_Method := bpoRateSourceOLS; r_CompCount := 0; r_MedianGLA := f_zero; r_Warnings := [] |}
    | _ => None
    end.

Definition sanitize_time (t : float64) : float64 :=
  let t := if f_lt t f_zero then f_neg t else t in
  if f_lt (lit "0.02") t then lit "0.02" else t.

Definition sanitizeMarketRates (r : BpoMarketRates) : BpoMarketRates :=
  {| r_GLAPerSF := clamp (r_GLAPerSF r) (f_of_Z 40) (f_of_Z 900);
     r_BedPerRoom := clamp (r_BedPerRoom r) f_zero (f_of_Z 25000);
     r_BathPerFull := clamp (r_BathPerFull r) f_zero (f_of_Z 20000);
     r_AgePerYear := clamp (r_AgePerYear r) f_zero (f_of_Z 6000);
     r_LotPerAcre := clamp (r_LotPerAcre r) f_zero (f_of_Z 150000);
     r_GaragePerSpace := clamp (r_GaragePerSpace r) f_zero (f_of_Z 35000);
     r_PoolValue := clamp (r_PoolValue r) (f_of_Z (-50000)) (f_of_Z 80000);
     r_WaterfrontValue := clamp (r_WaterfrontValue r) (f_of_Z (-100000)) (f_of_Z 200000);
     r_TimePerMonthPct := sanitize_time (r_TimePerMonthPct r);
     r_Intercept := r_Intercept r; r_RSquared := r_RSquared r; r_Method := r_Method r;
     r_CompCount := r_CompCount r; r_MedianGLA := r_MedianGLA r; r_Warnings := r_Warnings r |}.

Definition or_default (v : float64) (d : Z) : float64 := if f_eq v f_zero then f_of_Z d else v.

Definition fillDefaultRates (r : BpoMarketRates) : BpoMarketRates :=
  {| r_GLAPerSF := r_GLAPerSF r;
     r_BedPerRoom := or_default (r_BedPerRoom r) 8000;
     r_BathPerFull := or_default (r_BathPerFull r) 5000;
     r_AgePerYear := or_default (r_AgePerYear r) 1500;
     r_LotPerAcre := or_default (r_LotPerAcre r) 25000;
     r_GaragePerSpace := or_default (r_GaragePerSpace r) 10000;
     r_PoolValue := or_default (r_PoolValue r) 20000;
     r_WaterfrontValue := or_default (r_WaterfrontValue r) 50000;
     r_TimePerMonthPct := r_TimePerMonthPct r;
     r_Intercept := r_Intercept r; r_RSquared := r_RSquared r; r_Method := r_Method r;
     r_CompCount := r_CompCount r; r_MedianGLA := r_MedianGLA r; r_Warnings := r_Warnings r |}.

(** The rates of a method before defaults and bounds. *)
Definition base_rates (sold : list CompRecord) (method : string) (p : pairedRates) (warnings : list string) : BpoMarketRates :=
  {| r_GLAPerSF := pr_gla p; r_BedPerRoom := pr_bed p; r_BathPerFull := pr_bath p; r_AgePerYear := pr_age p;
     r_LotPerAcre := pr_lot p; r_GaragePerSpace := pr_garage p; r_PoolValue := pr_pool p;
     r_WaterfrontValue := pr_waterfront p; r_TimePerMonthPct := f_zero; r_Intercept := f_zero; r_RSquared := f_zero;
     r_Method := method; r_CompCount := Z.of_nat (length sold); r_MedianGLA := medianGLA sold; r_Warnings := warnings |}.

Definition only_gla (g : float64) : pairedRates := mkPaired g f_zero f_zero f_zero f_zero f_zero f_zero f_zero.
Definition with_gla (g : float64) (p : pairedRates) : pairedRates :=
  mkPaired g (pr_bed p) (pr_bath p) (pr_age p) (pr_lot p) (pr_garage p) (pr_pool p) (pr_waterfront p).

Definition add_warning (m : string) (r : BpoMarketRates) : BpoMarketRates :=
  mkRates (r_GLAPerSF r) (r_BedPerRoom r) (r_BathPerFull r) (r_AgePerYear r) (r_LotPerAcre r) (r_GaragePerSpace r)
    (r_PoolValue r) (r_WaterfrontValue r) (r_TimePerMonthPct r) (r_Intercept r) (r_RSquared r) (r_Method r)
    (r_CompCount r) (r_MedianGLA r) (r_Warnings r ++ [m])%list.

Definition set_comps (sold : list CompRecord) (r : BpoMarketRates) : BpoMarketRates :=
  mkRates (r_GLAPerSF r) (r_BedPerRoom r) (r_BathPerFull r) (r_AgePerYear r) (r_LotPerAcre r) (r_GaragePerSpace r)
    (r_PoolValue r) (r_WaterfrontValue r) (r_TimePerMonthPct r) (r_Intercept r) (r_RSquared r) (r_Method r)
    (Z.of_nat (length sold)) (medianGLA sold) (r_Warnings r).

Definition olsFailed : string := "OLS regression failed; using paired-sales or median fallback".

(** Three or more sales give paired rates; fewer the median price per square foot only. *)
Definition fallback_rates (sold : list CompRecord) (warnings : list string) : BpoMarketRates :=
  if (3 <=? length sold)%nat then
    let paired := extractPairedRates sold in
    let gla := if f_le (pr_gla paired) f_zero then medianPPSF sold else pr_gla paired in
    sanitizeMarketRates (fillDefaultRates (base_rates sold bpoRateSourcePaired (with_gla gla paired) warnings))
  else
    add_warning "insufficient comps for regression; median PPSF only"
      (sanitizeMarketRates (fillDefaultRates (base_rates sold bpoRateSourceMedian (only_gla (medianPPSF sold)) warnings))).

Definition extractMarketRates (now : Z) (sold : list CompRecord) (minOLS : Z) : BpoMarketRates :=
  let minOLS := if (minOLS <=? 0)%Z then 6 else minOLS in
  match sold with
  | [] => base_rates [] bpoRateSourceMedian (only_gla f_zero) ["no sold comps"]
  | _ =>
      if (minOLS <=? Z.of_nat (length sold))%Z then
        match fitBpoOLS now sold with
        | Some rates => set_comps sold (sanitizeMarketRates rates)
        | None => fallback_rates sold [olsFailed]
        end
      else fallback_rates sold []
  end.

(** ** Simple adjustments and market conditions ([adjustments.go]) *)

Definition line (feature : string) (amt : float64) : AdjustmentLine := mkLine feature (round2 amt).
Definition line_if (b : bool) (feature : string) (amt : float64) : list AdjustmentLine :=
  if b then [line feature amt] else [].

(** The price a comparable starts from. *)
Definition base_price (c : CompRecord) : float64 := if f_le (c_ClosePrice c) f_zero then c_ListPrice c else c_ClosePrice c.

Definition adjustment_lines (subject : SubjectProfile) (f : FiltersInput) (c : CompRecord) : list AdjustmentLine :=
  let poolAdj := default (f_of_Z 15000) (fi_AdjPoolValue f) in
  let waterAdj := default (f_of_Z 50000) (fi_AdjWaterfrontValue f) in
  let garageAdj := default (f_of_Z 5000) (fi_AdjGaragePerSpace f) in
  let yearAdj := default (f_of_Z 1500) (fi_AdjYearBuiltPerYear f) in
  (line_if (f_lt f_zero (s_LivingArea subject) && f_lt f_zero (c_LivingArea c)) "living_area_sqft"
     (f_mul (f_sub (s_LivingArea subject) (c_LivingArea c)) (f_div (base_price c) (c_LivingArea c))) ++
   line_if (negb (f_eq (s_Bedrooms subject) (c_Bedrooms c))) "bedrooms"
     (f_mul (f_sub (s_Bedrooms subject) (c_Bedrooms c)) (f_of_Z 8000)) ++
   line_if (negb (f_eq (s_Bathrooms subject) (c_Bathrooms c))) "bathrooms"
     (f_mul (f_sub (s_Bathrooms subject) (c_Bathrooms c)) (f_of_Z 5000)) ++
   line_if (negb (eqb (s_PoolPrivate subject) (c_PoolPrivate c))) "pool"
     (if s_PoolPrivate subject then poolAdj else f_neg poolAdj) ++
   line_if (negb (eqb (s_Waterfront subject) (c_Waterfront c))) "waterfront"
     (if s_Waterfront subject then waterAdj else f_neg waterAdj) ++
   line_if (negb (f_eq (s_GarageSpaces subject) (c_GarageSpaces c))) "garage"
     (f_mul (f_sub (s_GarageSpaces subject) (c_GarageSpaces c)) garageAdj) ++
   line_if ((0 <? s_YearBuilt subject) && (0 <? c_YearBuilt c))%Z "year_built"
     (f_mul (f_of_Z (wrap64 (s_YearBuilt subject - c_YearBuilt c))) yearAdj))%list.

Definition adjust (subject : SubjectProfile) (f : FiltersInput) (c : CompRecord) : CompRecord :=
  let lines := adjustment_lines subject f c in
  set_adjusted lines (round2 (foldl f_add (base_price c) (al_Amount <$> lines))) c.

Definition nearer (a b : CompRecord) : bool := f_lt (c_DistanceMiles a) (c_DistanceMiles b).

Definition applyAdjustments {SS : SortSlice} (subject : SubjectProfile) (comps : list CompRecord) (f : FiltersInput) : list CompRecord :=
  sort_slice _ nearer (adjust subject f <$> comps).

Definition medianPrice (sold : list CompRecord) : float64 :=
  match filter (λ p, f_lt f_zero p = true) (c_ClosePrice <$> sold) with
  | [] => f_zero
  | vals => round2 (middle (Float64s vals))
  end.

(** The map of [marketConditions], a field per key; only the first two for no sale. *)
Record MarketConditions := mkConditions {
  mc_sold_count : Z;
  mc_months_back : Z;
  mc_prices : option (float64 * float64 * float64 * float64);   (* median_close, avg_adjusted, min_close, max_close *)
}.

Definition marketConditions (sold : list CompRecord) (months : Z) : MarketConditions :=
  match sold with
  | [] => mkConditions 0 months None
  | c0 :: _ =>
      let prices := compPrice <$> sold in
      mkConditions (Z.of_nat (length sold)) months (Some (
        medianPrice sold, round2 (f_div (f_sum prices) (f_len sold)),
        foldl (λ m p, if f_lt p m then p else m) (c_ClosePrice c0) prices,
        foldl (λ m p, if f_lt m p then p else m) f_zero prices))
  end.

Record OverpricedSignal := mkSignal { os_listing_key : string; os_list_price : float64; os_threshold : float64; os_premium_pct : float64 }.

Definition overpricedSignals (competition sold : list CompRecord) : list OverpricedSignal :=
  let med := medianPrice sold in
  if f_le med f_zero then []
  else omap (λ c, if f_lt (f_mul med (lit "1.1")) (c_ListPrice c)
                  then Some (mkSignal (c_ListingKey c) (c_ListPrice c) (round2 (f_mul med (lit "1.1")))
                         (round2 (f_mul (f_sub (f_div (c_ListPrice c) med) (f_of_Z 1)) (f_of_Z 100))))
                  else None) competition.

(** ** The shape of a regression *)

Definition shape (n w : nat) (m : matrix) : Prop := length m = n ∧ Forall (λ row, length row = w) m.

Lemma shape_nth n w m i : shape n w m → (i < n)%nat → length (nth i m []) = w.
Proof.
  intros [Hl Hw] Hi. destruct (nth_lookup_or_length m i []) as [H|H]; [|lia].
  exact (Forall_lookup_1 _ _ _ _ Hw H).
Qed.

Lemma Forall_row (P : list float64 → Prop) m i : Forall P m → (i < length m)%nat → P (nth i m []).
Proof.
  intros H Hi. destruct (nth_lookup_or_length m i []) as [E|E]; [|lia]. exact (Forall_lookup_1 _ _ _ _ H E).
Qed.

(** What holds of all rows and survives the two row operations survives a column step. *)
Section RowInvariant.
Context (n : nat) (P : list float64 → Prop).

Lemma pivot_row_lt m col : length m = n → (col < n)%nat → (pivot_row m col < n)%nat.
Proof.
  intros Hl Hc. unfold pivot_row.
  assert (Hs : Forall (λ r, r < n)%nat (seq (S col) (length m - S col))) by (apply Forall_seq; lia).
  revert Hs. generalize (seq (S col) (length m - S col)). intros l.
  enough (H : ∀ p, (p < n)%nat → Forall (λ r, r < n)%nat l →
    (foldl (λ p r, if f_lt (f_abs (cell m p col)) (f_abs (cell m r col)) then r else p) p l < n)%nat) by auto.
  induction l as [|r l IH]; intros p Hp Hs; cbn [foldl]; [done|]. apply Forall_cons in Hs as [Hr Hs].
  apply IH; [|done]. by destruct (f_lt _ _).
Qed.

Lemma Forall_swap i j m :
  (i < length m)%nat → (j < length m)%nat → Forall P m → Forall P (swap_rows i j m).
Proof. intros Hi Hj H. apply Forall_insert; [apply Forall_insert; [done|]|]; by apply (Forall_row P). Qed.

Lemma length_swap i j m : length (swap_rows i j m) = length m.
Proof. unfold swap_rows. by rewrite !length_insert. Qed.

Lemma nth_swap i j m : (i < length m)%nat → nth i (swap_rows i j m) [] = nth j m [].
Proof.
  intros Hi. apply nth_lookup_Some. unfold swap_rows. apply list_lookup_insert_eq. by rewrite length_insert.
Qed.
End RowInvariant.

Lemma shape_reduce n w m col m' : (col < n)%nat → shape n w m → reduce_column m col = Some m' → shape n w m'.
Proof.
  intros Hc [Hl Hw]. unfold reduce_column. pose proof (pivot_row_lt n m col Hl Hc) as Hp.
  destruct (f_lt _ _); [done|]. intros [= <-]. set (div := cell _ _ _). clearbody div.
  set (m1 := alter _ col _). assert (H1 : shape n w m1).
  { split; [unfold m1; by rewrite length_alter, length_swap|]. apply Forall_alter.
    - apply Forall_swap; [lia..|done].
    - intros row _ Hr. by rewrite length_fmap. }
  destruct H1 as [Hl1 Hw1]. split; [unfold eliminate; by rewrite length_imap|].
  apply Forall_lookup. intros r row. unfold eliminate. rewrite list_lookup_imap. intros (row0 & H0 & ->)%fmap_Some.
  pose proof (Forall_lookup_1 _ _ _ _ Hw1 H0) as Hr0. cbv beta in Hr0. destruct (r =? col)%nat; [done|].
  cbv zeta. rewrite length_zip_with, (shape_nth n w m1 col (conj Hl1 Hw1) Hc). lia.
Qed.

Lemma foldl_none (l : list nat) : foldl (λ o col, o ≫= λ a, reduce_column a col) None l = None.
Proof. by induction l. Qed.

Lemma reduce_columns_inv n (Q : nat → matrix → Prop) m m' :
  (∀ col a a', (col < n)%nat → Q col a → reduce_column a col = Some a' → Q (S col) a') →
  Q 0%nat m → foldl (λ o col, o ≫= λ a, reduce_column a col) (Some m) (seq 0 n) = Some m' → Q n m'.
Proof.
  intros Hstep. assert (H : ∀ k i m, (i + k = n)%nat → Q i m →
    foldl (λ o col, o ≫= λ a, reduce_column a col) (Some m) (seq i k) = Some m' → Q n m').
  { induction k as [|k IH]; intros i a Hi Ha; cbn [foldl seq]; [intros [= ->]; by replace n with i by lia|].
    cbn [mbind option_bind]. destruct (reduce_column a i) as [a'|] eqn:E; [|by rewrite foldl_none].
    apply IH; [lia|]. eapply Hstep; [lia|exact Ha|exact E]. }
  intros H0. by apply H.
Qed.

Lemma shape_augment m n : shape n n m → shape n (n + n) (augment m).
Proof.
  intros [Hl Hw]. split; [unfold augment; by rewrite length_imap|]. apply Forall_lookup. intros i row.
  unfold augment. rewrite list_lookup_imap. intros (r0 & H0 & ->)%fmap_Some.
  rewrite length_app, (Forall_lookup_1 _ _ _ _ Hw H0). unfold unit_row. rewrite length_fmap, length_seq. lia.
Qed.

Lemma shape_gram p rows : shape p p (gram p rows).
Proof.
  split; [unfold gram; by rewrite length_fmap, length_seq|]. apply Forall_fmap, Forall_true. intros a.
  unfold compose. by rewrite length_fmap, length_seq.
Qed.

Lemma shape_invert n m inv : shape n n m → invertMatrix m = Some inv → shape n n inv.
Proof.
  intros Hm. unfold invertMatrix. pose proof (shape_augment m n Hm) as Ha. destruct Hm as [Hl _]. rewrite Hl.
  destruct (foldl _ _ _) as [aug|] eqn:E; [|done]. cbn [mbind option_bind]. intros [= <-].
  destruct (reduce_columns_inv n (λ _, shape n (n + n)) _ _ (λ col a a' Hc, shape_reduce n _ a col a' Hc) Ha E) as [H1 H2].
  split; [by rewrite length_fmap|]. apply Forall_fmap. eapply Forall_impl; [exact H2|]. intros row Hr. unfold compose.
  cbv beta in Hr. rewrite length_drop. lia.
Qed.

(** ** A feature no sale has *)

(** Zero or not a number: what a column of zeros can become. *)
Definition zn (x : float64) : bool := match x with S754_zero _ | S754_nan => true | _ => false end.

Lemma zn_mul_l x y : zn x = true → zn (f_mul x y) = true.
Proof. by destruct x, y. Qed.
Lemma zn_mul_r x y : zn y = true → zn (f_mul x y) = true.
Proof. by destruct x, y. Qed.
Lemma zn_sub x y : zn x = true → zn y = true → zn (f_sub x y) = true.
Proof. destruct x as [[]| | |], y as [[]| | |]; done. Qed.
Lemma zn_add x y : zn x = true → zn y = true → zn (f_add x y) = true.
Proof. destruct x as [[]| | |], y as [[]| | |]; done. Qed.
Lemma zn_div x y : zn x = true → zn (f_div x y) = true.
Proof. by destruct x, y. Qed.
Lemma zn_sum acc l : zn acc = true → Forall (λ x, zn x = true) l → zn (foldl f_add acc l) = true.
Proof. intros Ha H. revert acc Ha. induction H as [|x l Hx _ IH]; intros acc Ha; cbn [foldl]; [done|]. by apply IH, zn_add. Qed.
#[local] Hint Resolve zn_mul_l zn_mul_r zn_sub zn_div : zn.

Lemma nan_div_r x y : IsNaN y = true → IsNaN (f_div x y) = true.
Proof. by destruct x, y. Qed.
Lemma nan_div_l x y : IsNaN x = true → IsNaN (f_div x y) = true.
Proof. by destruct x, y. Qed.
Lemma nan_mul_l x y : IsNaN x = true → IsNaN (f_mul x y) = true.
Proof. by destruct x, y. Qed.
Lemma nan_mul_r x y : IsNaN y = true → IsNaN (f_mul x y) = true.
Proof. by destruct x, y. Qed.
Lemma nan_sub_r x y : IsNaN y = true → IsNaN (f_sub x y) = true.
Proof. by destruct x as [[]| | |], y. Qed.
Lemma nan_add_l x y : IsNaN x = true → IsNaN (f_add x y) = true.
Proof. by destruct x as [[]| | |], y. Qed.
Lemma nan_add_r x y : IsNaN y = true → IsNaN (f_add x y) = true.
Proof. by destruct x as [[]| | |], y. Qed.

Definition zero_at (k : nat) (row : list float64) : Prop := zn (nth k row f_zero) = true.
Definition all_nan (row : list float64) : Prop := Forall (λ x, IsNaN x = true) row.

Lemma nth_fmap_zero (f : float64 → float64) k row :
  (∀ x, zn x = true → zn (f x) = true) → zero_at k row → zero_at k (f <$> row).
Proof.
  intros Hf H. unfold zero_at in *. destruct (nth_lookup_or_length (f <$> row) k f_zero) as [E|E].
  - rewrite list_lookup_fmap in E. apply fmap_Some in E as (x & Hx & ->). apply Hf.
    by rewrite (nth_lookup_Some _ _ _ _ Hx) in H.
  - by rewrite nth_overflow.
Qed.

Lemma nth_zip_zero (f : float64 → float64 → float64) k a b :
  (∀ x y, zn x = true → zn y = true → zn (f x y) = true) → zero_at k a → zero_at k b → zero_at k (zip_with f a b).
Proof.
  intros Hf Ha Hb. unfold zero_at in *. destruct (nth_lookup_or_length (zip_with f a b) k f_zero) as [E|E].
  - apply lookup_zip_with_Some in E as (x & y & -> & Hx & Hy). apply Hf.
    + by rewrite (nth_lookup_Some _ _ _ _ Hx) in Ha.
    + by rewrite (nth_lookup_Some _ _ _ _ Hy) in Hb.
  - by rewrite nth_overflow.
Qed.

(** A column of zeros stays one until its turn. *)
Lemma zero_reduce k n m col m' :
  (col < n)%nat → length m = n → Forall (zero_at k) m → reduce_column m col = Some m' → Forall (zero_at k) m'.
Proof.
  intros Hc Hl H. unfold reduce_column. pose proof (pivot_row_lt n m col Hl Hc) as Hp.
  destruct (f_lt _ _); [done|]. intros [= <-]. set (div := cell _ _ _). clearbody div.
  set (m1 := alter _ col _). assert (H1 : Forall (zero_at k) m1).
  { apply Forall_alter; [apply Forall_swap; [lia..|done]|]. intros row _ Hr. apply nth_fmap_zero; eauto with zn. }
  assert (Hl1 : (col < length m1)%nat) by (unfold m1; rewrite length_alter, length_swap; lia).
  apply Forall_lookup. intros r row. unfold eliminate. rewrite list_lookup_imap. intros (row0 & H0 & ->)%fmap_Some.
  pose proof (Forall_lookup_1 _ _ _ _ H1 H0) as Hr0. destruct (r =? col)%nat; [done|].
  apply nth_zip_zero; [eauto with zn|done|]. by apply (Forall_row (zero_at k)).
Qed.

(** At its turn it has no pivot, or the whole matrix becomes NaN. *)
Lemma zero_pivot k n m m' :
  (k < n)%nat → length m = n → Forall (zero_at k) m → reduce_column m k = Some m' → Forall all_nan m'.
Proof.
  intros Hk Hl H. unfold reduce_column. pose proof (pivot_row_lt n m k Hl Hk) as Hp. set (p := pivot_row m k) in *.
  assert (Hz : zn (cell m p k) = true) by (apply (Forall_row (zero_at k)); [done|lia]).
  destruct (f_lt _ _) eqn:E; [done|]. assert (Hn : IsNaN (cell m p k) = true).
  { destruct (cell m p k) as [s| | |]; [|done..]. vm_compute in E. done. }
  intros [= <-]. assert (Hd : cell (swap_rows k p m) k k = cell m p k) by (unfold cell; rewrite nth_swap; [done|lia]).
  rewrite Hd. set (m1 := alter _ k _).
  assert (Hrow : nth k m1 [] = (λ x, f_div x (cell m p k)) <$> nth p m []).
  { apply nth_lookup_Some. unfold m1. rewrite list_lookup_alter_eq.
    assert (Hs : swap_rows k p m !! k = Some (nth p m [])).
    { unfold swap_rows. apply list_lookup_insert_eq. rewrite length_insert. lia. }
    by rewrite Hs. }
  assert (Hna : all_nan (nth k m1 [])).
  { rewrite Hrow. apply Forall_fmap, Forall_true. intros x. by apply nan_div_r. }
  apply Forall_lookup. intros r row. unfold eliminate. rewrite list_lookup_imap. intros (row0 & H0 & ->)%fmap_Some.
  destruct (Nat.eqb_spec r k) as [->|Hne].
  - by rewrite (nth_lookup_Some _ _ _ _ H0) in Hna.
  - clear - Hna. generalize (nth k row0 f_zero). intros f. revert row0. unfold all_nan in *.
    induction Hna as [|y l Hy _ IH]; intros [|x row0]; cbn [zip_with]; constructor; [|apply IH].
    by apply nan_sub_r, nan_mul_r.
Qed.

Lemma nan_reduce n m col m' :
  (col < n)%nat → length m = n → Forall all_nan m → reduce_column m col = Some m' → Forall all_nan m'.
Proof.
  intros Hc Hl H. unfold reduce_column. pose proof (pivot_row_lt n m col Hl Hc) as Hp.
  destruct (f_lt _ _); [done|]. intros [= <-]. set (div := cell _ _ _). clearbody div.
  set (m1 := alter _ col _). assert (H1 : Forall all_nan m1).
  { apply Forall_alter; [apply Forall_swap; [lia..|done]|]. intros row _ Hr. unfold all_nan in *.
    apply Forall_fmap. eapply Forall_impl; [exact Hr|]. intros x Hx. by apply nan_div_l. }
  assert (Hl1 : (col < length m1)%nat) by (unfold m1; rewrite length_alter, length_swap; lia).
  pose proof (Forall_row all_nan m1 col H1 Hl1) as Hna. clear H.
  apply Forall_lookup. intros r row. unfold eliminate. rewrite list_lookup_imap. intros (row0 & H0 & ->)%fmap_Some.
  destruct (r =? col)%nat; [by eapply (Forall_lookup_1 _ _ _ _ H1)|].
  clear - Hna. generalize (nth col row0 f_zero). intros f. revert row0. unfold all_nan in *.
  induction Hna as [|y l Hy _ IH]; intros [|x row0]; cbn [zip_with]; constructor; [|apply IH].
  by apply nan_sub_r, nan_mul_r.
Qed.

Lemma zero_augment k m : (k < length m)%nat → shape (length m) (length m) m → Forall (zero_at k) m → Forall (zero_at k) (augment m).
Proof.
  intros Hk [_ Hw] H. apply Forall_lookup. intros i row. unfold augment. rewrite list_lookup_imap.
  intros (r0 & H0 & ->)%fmap_Some. unfold zero_at. rewrite app_nth1; [exact (Forall_lookup_1 _ _ _ _ H H0)|].
  pose proof (Forall_lookup_1 _ _ _ _ Hw H0) as Hr. cbv beta in Hr. lia.
Qed.

(** The inverse of a matrix with a column of zeros: none, or NaN throughout. *)
Lemma invert_zero_column k n m inv :
  shape n n m → (k < n)%nat → Forall (zero_at k) m → invertMatrix m = Some inv → Forall all_nan inv.
Proof.
  intros Hm Hk Hz. unfold invertMatrix. pose proof Hm as [Hl _]. rewrite Hl.
  destruct (foldl _ _ _) as [aug|] eqn:E; [|done]. cbn [mbind option_bind]. intros [= <-].
  set (Q := λ col a, shape n (n + n) a ∧ if (col <=? k)%nat then Forall (zero_at k) a else Forall all_nan a).
  assert (HQ : Q n aug).
  { eapply (reduce_columns_inv n Q _ _); [|split; [by apply shape_augment|]|exact E].
    - intros col a a' Hc [Hs Ha] Hr. split; [by eapply shape_reduce|].
      destruct (Nat.leb_spec col k), (Nat.leb_spec (S col) k); try lia.
      + eapply zero_reduce; [exact Hc|apply Hs|done|exact Hr].
      + assert (col = k) as -> by lia. eapply zero_pivot; [exact Hc|apply Hs|done|exact Hr].
      + eapply nan_reduce; [exact Hc|apply Hs|done|exact Hr].
    - cbn [Nat.leb]. apply zero_augment; [lia|by rewrite Hl|done]. }
  destruct HQ as [_ Ha]. destruct (Nat.leb_spec n k); [lia|]. apply Forall_fmap. eapply Forall_impl; [exact Ha|].
  intros row Hr. unfold compose, all_nan in *. by apply Forall_drop.
Qed.

Lemma zero_gram k p rows : (k < p)%nat → Forall (zero_at k) rows → Forall (zero_at k) (gram p rows).
Proof.
  intros Hk H. unfold gram. apply Forall_fmap, Forall_true. intros a. unfold compose, zero_at.
  rewrite (nth_lookup_Some _ _ _ (dot (column rows a) (column rows k))).
  2:{ by rewrite list_lookup_fmap, lookup_seq_lt. }
  unfold dot. apply zn_sum; [done|]. unfold column. generalize a. intros b. induction H as [|row l Hr _ IH]; [constructor|].
  cbn [fmap list_fmap zip_with]. constructor; [by apply zn_mul_r|exact IH].
Qed.

Lemma nan_dot row y : all_nan row → row ≠ [] → y ≠ [] → IsNaN (dot row y) = true.
Proof.
  intros H Hr Hy. destruct row as [|x row]; [done|]. destruct y as [|v y]; [done|]. apply Forall_cons in H as [Hx _].
  unfold dot. cbn [zip_with foldl]. assert (Hn : IsNaN (f_add f_zero (f_mul x v)) = true) by by apply nan_add_r, nan_mul_l.
  revert Hn. generalize (f_add f_zero (f_mul x v)). generalize (zip_with f_mul row y). intros l.
  induction l as [|u l IH]; intros acc Ha; cbn [foldl]; [done|]. by apply IH, nan_add_l.
Qed.

(** A feature that is zero in all rows makes the regression fail, or all its coefficients NaN. *)
Lemma solveOLS_zero_feature k X y coef :
  (k < length (hd [] X))%nat → Forall (zero_at k) X →
  solveOLS X y = Some coef → length coef = S (length (hd [] X)) ∧ Forall (λ x, IsNaN x = true) coef.
Proof.
  intros Hk Hz. unfold solveOLS. destruct X as [|x0 X]; [done|]. cbn [hd] in *.
  set (p := S (length x0)). set (rows := design (x0 :: X)).
  assert (Hr : Forall (zero_at (S k)) rows) by (unfold rows, design; apply Forall_fmap; exact Hz).
  destruct (invertMatrix (gram p rows)) as [inv|] eqn:E; [|done]. intros [= <-].
  pose proof (shape_invert p _ inv (shape_gram p rows) E) as [Hl Hw]. split; [by rewrite length_fmap|].
  pose proof (invert_zero_column (S k) p _ inv (shape_gram p rows) ltac:(unfold p; lia) (zero_gram (S k) p rows ltac:(unfold p; lia) Hr) E) as Hn.
  apply Forall_fmap. apply Forall_lookup. intros i row Hi. unfold compose.
  pose proof (Forall_lookup_1 _ _ _ _ Hw Hi) as Hlen. pose proof (Forall_lookup_1 _ _ _ _ Hn Hi) as Hna. cbv beta in Hlen.
  apply nan_dot; [done|by intros ->|]. unfold moment, p. by cbn [seq fmap list_fmap].
Qed.

(** ** Bounds *)

(** Not outside of the interval: NaN is let through by the comparisons. *)
Definition in_band (lo hi x : float64) : Prop := f_lt x lo = false ∧ f_lt hi x = false.

Lemma f_lt_irrefl x : f_lt x x = false.
Proof. rewrite f_lt_key, key_cmp_refl. by destruct (IsNaN x). Qed.

Lemma clamp_band v lo hi : f_lt hi lo = false → in_band lo hi (clamp v lo hi).
Proof.
  intros H. unfold clamp, in_band. destruct (f_lt v lo) eqn:E1; [by rewrite f_lt_irrefl|].
  destruct (f_lt hi v) eqn:E2; [by rewrite f_lt_irrefl|done].
Qed.

Lemma clamp_nan v lo hi : IsNaN v = true → IsNaN (clamp v lo hi) = true.
Proof. intros H. unfold clamp. rewrite !f_lt_key, H. cbn [negb andb]. rewrite andb_false_r. exact H. Qed.

Definition rates_bounded (r : BpoMarketRates) : Prop :=
  in_band (f_of_Z 40) (f_of_Z 900) (r_GLAPerSF r) ∧ in_band f_zero (f_of_Z 25000) (r_BedPerRoom r) ∧
  in_band f_zero (f_of_Z 20000) (r_BathPerFull r) ∧ in_band f_zero (f_of_Z 6000) (r_AgePerYear r) ∧
  in_band f_zero (f_of_Z 150000) (r_LotPerAcre r) ∧ in_band f_zero (f_of_Z 35000) (r_GaragePerSpace r) ∧
  in_band (f_of_Z (-50000)) (f_of_Z 80000) (r_PoolValue r) ∧
  in_band (f_of_Z (-100000)) (f_of_Z 200000) (r_WaterfrontValue r) ∧
  in_band f_zero (lit "0.02") (r_TimePerMonthPct r).

Lemma sanitize_time_band t : in_band f_zero (lit "0.02") (sanitize_time t).
Proof.
  unfold sanitize_time. destruct (f_lt t f_zero) eqn:E.
  - destruct (f_lt (lit "0.02") (f_neg t)) eqn:E2; [split; [reflexivity|apply f_lt_irrefl]|].
    split; [|done]. destruct t as [| | |[]]; try done; destruct s; done.
  - destruct (f_lt (lit "0.02") t) eqn:E2; [split; [reflexivity|apply f_lt_irrefl]|done].
Qed.

Lemma sanitize_bounded r : rates_bounded (sanitizeMarketRates r).
Proof. unfold rates_bounded. split_and!; cbn; try (apply clamp_band; reflexivity). apply sanitize_time_band. Qed.

Lemma fallback_bounded sold warnings : rates_bounded (fallback_rates sold warnings).
Proof. unfold fallback_rates. destruct (3 <=? length sold)%nat; [apply sanitize_bounded|]. apply (sanitize_bounded (fillDefaultRates _)). Qed.

(** C32 Every adjustment rate derived from a set of sales is within the bounds of the market
    (40 to 900 dollars per square foot, 0 to 6000 per year of age, at most 2% per month, and so
    on), whichever method gave it. *)
Theorem market_rates_bounded now sold minOLS :
  sold ≠ [] → rates_bounded (extractMarketRates now sold minOLS).
Proof.
  intros Hs. unfold extractMarketRates. destruct sold as [|c sold]; [done|]. generalize (c :: sold). intros l.
  generalize (if (minOLS <=? 0)%Z then 6%Z else minOLS). intros n.
  destruct (n <=? Z.of_nat (length l))%Z; [|apply fallback_bounded].
  destruct (fitBpoOLS now l); [|apply fallback_bounded]. apply sanitize_bounded.
Qed.

(** ** What the methods need *)

Lemma fit_zero_feature k now sold r :
  (k < 9)%nat → (∀ mm c, c ∈ sold → usable c = true → zero_at k (ols_row now mm c)) →
  fitBpoOLS now sold = Some r → IsNaN (r_GLAPerSF r) = true.
Proof.
  intros Hk Hz. unfold fitBpoOLS. cbv zeta. set (mm := meanCloseMonths now sold).
  set (sales := filter (λ c, usable c = true) sold). destruct (length (ols_row now mm <$> sales) <? 6)%nat eqn:E; [done|].
  destruct sales as [|c l] eqn:Es; [done|]. set (y := c_ClosePrice <$> c :: l). clearbody y.
  assert (HF : Forall (zero_at k) (ols_row now mm <$> c :: l)).
  { apply Forall_fmap, Forall_forall. intros x Hx. rewrite <- Es in Hx. unfold sales in Hx.
    apply list_elem_of_filter in Hx as [Hu Hin]. by apply Hz. }
  pose proof (solveOLS_zero_feature k (ols_row now mm <$> c :: l) y) as Hsol.
  destruct (solveOLS _ y) as [coef|]; [|done]. destruct (Hsol coef) as [_ Hn]; [exact Hk|exact HF|done|].
  destruct coef as [|? [|gla [|? [|? [|? [|? [|? [|? [|? [|? []]]]]]]]]]]; try done.
  destruct (f_le gla f_zero); [done|]. intros [= <-]. cbn [r_GLAPerSF].
  apply Forall_cons in Hn as [_ Hn]. by apply Forall_cons in Hn as [Hn _].
Qed.

Definition no_sale_has (feat : CompRecord → float64) (sold : list CompRecord) : Prop :=
  ∀ c, c ∈ sold → usable c = true → zn (feat c) = true.

(** The regression gives rates only when some usable sale has a pool, some is on the
    waterfront, some has a garage and some a lot size: if any of these is absent from all of
    them, the matrix is singular and the rates come from paired sales or the median (or the
    square-foot rate is not a number). *)
Theorem regression_needs_every_feature now sold minOLS feat :
  feat ∈ [λ c, bool01 (c_PoolPrivate c); λ c, bool01 (c_Waterfront c); c_GarageSpaces; c_LotSizeAcres] →
  no_sale_has feat sold →
  r_Method (extractMarketRates now sold minOLS) ≠ bpoRateSourceOLS ∨
  IsNaN (r_GLAPerSF (extractMarketRates now sold minOLS)) = true.
Proof.
  intros Hf Hno.
  assert (Hfb : ∀ l w, r_Method (fallback_rates l w) ≠ bpoRateSourceOLS).
  { intros l w. unfold fallback_rates. destruct (3 <=? length l)%nat; vm_compute; discriminate. }
  assert (Hfit : ∀ r, fitBpoOLS now sold = Some r → IsNaN (r_GLAPerSF r) = true).
  { rewrite !elem_of_cons, elem_of_nil in Hf. destruct Hf as [->|[->|[->|[->|[]]]]]; intros r.
    - apply (fit_zero_feature 6); [lia|]. intros mm c. exact (Hno c).
    - apply (fit_zero_feature 7); [lia|]. intros mm c. exact (Hno c).
    - apply (fit_zero_feature 5); [lia|]. intros mm c. exact (Hno c).
    - apply (fit_zero_feature 4); [lia|]. intros mm c. exact (Hno c). }
  unfold extractMarketRates. destruct sold as [|c0 sold]; [by left|]. revert Hfit. generalize (c0 :: sold). intros l Hfit.
  generalize (if (minOLS <=? 0)%Z then 6%Z else minOLS). intros n.
  destruct (n <=? Z.of_nat (length l))%Z; [|by left]. destruct (fitBpoOLS now l) as [r|] eqn:E; [|by left].
  right. cbn. by apply clamp_nan, Hfit.
Qed.

(** The outlier filter drops only sales: it keeps their order, never empties a set of
    sales, and keeps either all of them or only those with a price whose z-score is within the
    threshold. *)
Theorem outlier_filter_sound sold threshold :
  let out := filterOutlierZScore sold threshold in
  out `sublist_of` sold ∧ (sold ≠ [] → out ≠ []) ∧
  (out = sold ∨ ∀ c, c ∈ out ↔ c ∈ sold ∧ within_z (meanStd (priced sold)).1 (meanStd (priced sold)).2 threshold c = true).
Proof.
  cbv zeta. unfold filterOutlierZScore. destruct (_ || _); [by split_and!; [reflexivity|auto|left]|].
  destruct (length (priced sold) <? 3)%nat; [by split_and!; [reflexivity|auto|left]|].
  destruct (meanStd (priced sold)) as [mean std]. destruct (f_lt std (lit "1e-9")); [by split_and!; [reflexivity|auto|left]|].
  destruct (filter _ sold) as [|c0 out] eqn:E; [by split_and!; [reflexivity|auto|left]|]. rewrite <- E.
  split; [apply sublist_filter|]. split; [by rewrite E|]. right. intros c. rewrite list_elem_of_filter. cbn [fst snd]. tauto.
Qed.

(** ** Concrete runs *)

Definition sale (k : string) (price area bed bath year gar : Z) : CompRecord :=
  mkComp k "Closed" (f_of_Z price) f_zero (f_of_Z bed) (f_of_Z bath) (f_of_Z area) (lit "0.2") year (f_of_Z gar)
    false false f_zero f_zero "2024-03-01" f_zero f_zero [] f_zero EmptyString f_zero RawNil.
Definition sampleSales : list CompRecord :=
  [sale "a" 300000 1500 3 2 1990 1; sale "b" 350000 1650 3 2 1995 2; sale "c" 330000 1600 3 2 1992 1].

Lemma market_rates_bounded_witness :
  rates_bounded (extractMarketRates 0 sampleSales 6) ∧ r_Method (extractMarketRates 0 sampleSales 6) = bpoRateSourcePaired.
Proof. split; [apply (market_rates_bounded 0 sampleSales 6); discriminate|vm_compute; reflexivity]. Defined.

Lemma regression_needs_every_feature_witness :
  r_Method (extractMarketRates 0 sampleSales 3) ≠ bpoRateSourceOLS ∨
  IsNaN (r_GLAPerSF (extractMarketRates 0 sampleSales 3)) = true.
Proof.
  apply (regression_needs_every_feature 0 sampleSales 3 (λ c, bool01 (c_PoolPrivate c))); [left|].
  intros c Hc _. unfold sampleSales in Hc. rewrite !elem_of_cons, elem_of_nil in Hc.
  by destruct Hc as [->|[->|[->|[]]]].
Defined.

(** The outlier at 3,000,000 is dropped at a z-score of 1.5. *)
Example outlier_dropped :
  c_ListingKey <$> filterOutlierZScore (sampleSales ++ [sale "d" 3000000 1500 3 2 1990 1])%list (lit "1.5") = ["a"; "b"; "c"].
Proof. vm_compute. reflexivity. Qed.

(** The least price starts from the unadjusted price of the first sale: no adjusted price is
    below 300,001 here, but the least reported is 250,000. *)
Example min_close_unadjusted :
  mc_prices (marketConditions [set_adjusted [] (f_of_Z 310000) (sale "a" 250000 1500 3 2 1990 1);
                               set_adjusted [] (f_of_Z 320000) (sale "b" 350000 1650 3 2 1995 2)] 12) =
  Some (f_of_Z 300000, f_of_Z 315000, f_of_Z 250000, f_of_Z 320000).
Proof. vm_compute. reflexivity. Qed.
