(* ===== verification/CompsGrid.v ===== *)
(** * Comparables: the adjustment grid and its reconciliation

    The URAR grid of [bpo_grid.go], the weighted reconciliation of [bpo_reconcile.go] and the
    renovation credits of [bpo_renovation.go]. The clock is an argument. *)

From Stdlib Require Import Floats.SpecFloat Ascii String.
From stdpp Require Import gmap strings list pretty.
From S2P Require Import Prelude GoStrings GoTime GoFloat GoNum GoJson Payload GisFetch CompsData CompsMarket.

Open Scope string_scope.

(** ** The grid ([bpo_grid.go]) *)

Definition urarGridFeatures : list string :=
  ["time_of_sale"; "location"; "site_lot"; "design_style"; "quality"; "age_condition"; "gla"; "bedrooms"; "bathrooms";
   "garage"; "pool"; "waterfront"; "porch_patio"; "hvac"].

Definition effectiveYearBuilt (subject : SubjectProfile) : float64 :=
  let yb := f_of_Z (s_YearBuilt subject) in
  if f_le yb f_zero then yb
  else
    let cond := ToLower (TrimSpace (s_Condition subject)) in
    if bool_decide (cond = "excellent") then f_add yb (f_of_Z 10)
    else if bool_decide (cond = "fair") then f_sub yb (f_of_Z 5)
    else if bool_decide (cond = "poor") then f_sub yb (f_of_Z 15)
    else yb.

Definition locationAdjustment (subject : SubjectProfile) (comp : CompRecord) : float64 :=
  let subDiv := TrimSpace (ToLower (s_Subdivision subject)) in
  let compDiv := TrimSpace (ToLower (compSubdivision comp)) in
  if bool_decide (subDiv = EmptyString) || bool_decide (compDiv = EmptyString) then f_zero
  else if bool_decide (subDiv = compDiv) then f_zero
  else if negb (bool_decide (s_MLSAreaMajor subject = EmptyString)) && EqualFold (s_MLSAreaMajor subject) (compMLSArea comp)
  then f_zero
  else f_mul (f_neg (c_ClosePrice comp)) (lit "0.02").

Definition qualityPPSFAdjustment (subject : SubjectProfile) (comp : CompRecord) (rates : BpoMarketRates) : float64 :=
  if f_le (r_GLAPerSF rates) f_zero || f_le (s_LivingArea subject) f_zero || f_le (c_LivingArea comp) f_zero then f_zero
  else
    let subPPSF := f_div (s_ListPrice subject) (s_LivingArea subject) in
    let subPPSF := if f_le subPPSF f_zero then r_GLAPerSF rates else subPPSF in
    let compPPSF := f_div (c_ClosePrice comp) (c_LivingArea comp) in
    if f_le compPPSF f_zero then f_zero
    else f_mul (f_mul (f_sub subPPSF compPPSF) (c_LivingArea comp)) (lit "0.25").

(** The monthly rate of the time line: 0.25% when none was derived. *)
Definition monthly_rate (rates : BpoMarketRates) : float64 :=
  let m := r_TimePerMonthPct rates in
  let m := if f_eq m f_zero then lit "0.0025" else m in
  if f_lt m f_zero then f_neg m else m.

(** A line that prices a difference at a rate. *)
Definition delta_line (feature unit src : string) (sv cv : grid_value) (delta rate : float64) (reasoning : string) : BpoGridLine :=
  mkGridLine feature sv cv unit src rate (round2 (f_mul delta rate)) reasoning.

Definition bpoGridLine (now : Z) (subject : SubjectProfile) (comp : CompRecord) (rates : BpoMarketRates) (feat src : string) : BpoGridLine :=
  if bool_decide (feat = "time_of_sale") then
    let mo := monthsSinceClose now (c_CloseDate comp) in
    let monthly := monthly_rate rates in
    mkGridLine "time_of_sale" GNone (GStr (FormatFixed 1 mo +:+ " months ago")) "months" src monthly
      (round2 (f_mul (f_mul (c_ClosePrice comp) monthly) mo))
      "Time adjustment to effective date (older sales adjusted up when market appreciates)"
  else if bool_decide (feat = "location") then
    mkGridLine "location" (GStr (s_Subdivision subject)) (GStr (compSubdivision comp)) EmptyString "qualitative_match" f_zero
      (round2 (locationAdjustment subject comp)) "Subdivision / MLS area match"
  else if bool_decide (feat = "site_lot") then
    delta_line "site_lot" "acres" src (GNum (s_LotSizeAcres subject)) (GNum (c_LotSizeAcres comp))
      (f_sub (s_LotSizeAcres subject) (c_LotSizeAcres comp)) (r_LotPerAcre rates) "Lot size differential x $/acre"
  else if bool_decide (feat = "design_style") then
    mkGridLine "design_style" (GStr (s_PropertyType subject)) (GStr (compPropertyType comp)) EmptyString "qualitative_match" f_zero
      f_zero "Property type match (insufficient subtype variance in comp set)"
  else if bool_decide (feat = "quality") then
    mkGridLine "quality" GNone GNone EmptyString src (r_GLAPerSF rates)
      (round2 (qualityPPSFAdjustment subject comp rates)) "PPSF tercile quality tier delta"
  else if bool_decide (feat = "age_condition") then
    let subEff := effectiveYearBuilt subject in
    delta_line "age_condition" "year" src (GNum subEff) (GInt (c_YearBuilt comp))
      (f_sub subEff (f_of_Z (c_YearBuilt comp))) (r_AgePerYear rates) "Effective age (condition overlay) x $/year"
  else if bool_decide (feat = "gla") then
    delta_line "gla" "sqft" src (GNum (s_LivingArea subject)) (GNum (c_LivingArea comp))
      (f_sub (s_LivingArea subject) (c_LivingArea comp)) (r_GLAPerSF rates) "GLA delta x market-derived $/sf"
  else if bool_decide (feat = "bedrooms") then
    delta_line "bedrooms" "rooms" src (GNum (s_Bedrooms subject)) (GNum (c_Bedrooms comp))
      (f_sub (s_Bedrooms subject) (c_Bedrooms comp)) (r_BedPerRoom rates) "Bedroom count differential"
  else if bool_decide (feat = "bathrooms") then
    delta_line "bathrooms" "baths" src (GNum (s_Bathrooms subject)) (GNum (c_Bathrooms comp))
      (f_sub (s_Bathrooms subject) (c_Bathrooms comp)) (r_BathPerFull rates) "Bathroom count differential"
  else if bool_decide (feat = "garage") then
    delta_line "garage" "spaces" src (GNum (s_GarageSpaces subject)) (GNum (c_GarageSpaces comp))
      (f_sub (s_GarageSpaces subject) (c_GarageSpaces comp)) (r_GaragePerSpace rates) "Garage space differential"
  else if bool_decide (feat = "pool") then
    delta_line "pool" EmptyString src (GBool (s_PoolPrivate subject)) (GBool (c_PoolPrivate comp))
      (f_sub (bool01 (s_PoolPrivate subject)) (bool01 (c_PoolPrivate comp))) (r_PoolValue rates) "Pool presence differential"
  else if bool_decide (feat = "waterfront") then
    delta_line "waterfront" EmptyString src (GBool (s_Waterfront subject)) (GBool (c_Waterfront comp))
      (f_sub (bool01 (s_Waterfront subject)) (bool01 (c_Waterfront comp))) (r_WaterfrontValue rates) "Waterfront differential"
  else if bool_decide (feat = "porch_patio") || bool_decide (feat = "hvac") then
    mkGridLine feat GNone GNone EmptyString "indeterminate" f_zero f_zero "Insufficient paired-sales signal; no adjustment"
  else mkGridLine feat GNone GNone EmptyString src f_zero f_zero EmptyString.

Definition buildURARGrid (now : Z) (subject : SubjectProfile) (comp : CompRecord) (rates : BpoMarketRates) : list BpoGridLine :=
  let src := if bool_decide (r_Method rates = EmptyString) then bpoRateSourceMedian else r_Method rates in
  (λ feat, bpoGridLine now subject comp rates feat src) <$> urarGridFeatures.

Definition sumGridAdjustments (lines : list BpoGridLine) : float64 * float64 :=
  (f_sum (gl_Adjustment <$> lines), f_sum ((λ l, f_abs (gl_Adjustment l)) <$> lines)).

Definition urarToLegacyLines (lines : list BpoGridLine) : list AdjustmentLine :=
  omap (λ l, if f_eq (gl_Adjustment l) f_zero then None else Some (mkLine (gl_Feature l) (gl_Adjustment l))) lines.

(** The net adjustment, capped at 35% of the price. *)
Definition capped_net (base net : float64) : float64 :=
  let cap := f_mul base (lit "0.35") in
  if f_lt f_zero cap then
    if f_lt cap net then cap else if f_lt net (f_neg cap) then f_neg cap else net
  else net.

Definition grid_of (now : Z) (subject : SubjectProfile) (rates : BpoMarketRates) (i : nat) (c : CompRecord) : CompRecord * BpoCompGrid :=
  let base := base_price c in
  let lines := buildURARGrid now subject c rates in
  let '(net, gross) := sumGridAdjustments lines in
  let net := capped_net base net in
  let c := set_adjusted (urarToLegacyLines lines) (round2 (f_add base net)) c in
  (c, {| g_CompIndex := Z.of_nat i; g_ListingKey := c_ListingKey c; g_SalePrice := base; g_SaleDate := c_CloseDate c;
         g_Lines := lines; g_NetAdjustment := round2 net; g_GrossAdjustment := round2 gross;
         g_GrossAdjustmentPct := if f_lt f_zero base then round2 (f_mul (f_div gross base) (f_of_Z 100)) else f_zero;
         g_AdjustedPrice := c_AdjustedPrice c; g_Weight := f_zero |}).

Definition applyURARGrid (now : Z) (subject : SubjectProfile) (sold : list CompRecord) (rates : BpoMarketRates) : list CompRecord * list BpoCompGrid :=
  let l := imap (grid_of now subject rates) sold in (l.*1, l.*2).

(** ** Reconciliation ([bpo_reconcile.go]) *)

Definition proximityScore (miles : float64) : float64 :=
  if f_le miles (lit "0.25") then f_of_Z 1
  else if f_le (f_of_Z 3) miles then lit "0.1"
  else f_max (lit "0.1") (f_sub (f_of_Z 1) (f_div miles (f_of_Z 3))).

Definition glaSimilarity (subGLA compGLA : float64) : float64 :=
  if f_le subGLA f_zero || f_le compGLA f_zero then lit "0.5"
  else f_max f_zero (f_sub (f_of_Z 1) (f_div (f_abs (f_sub subGLA compGLA)) subGLA)).

Definition recencyScore (now : Z) (closeDate : string) : float64 :=
  let mo := monthsSinceClose now closeDate in
  if f_le mo (f_of_Z 3) then f_of_Z 1
  else if f_le (f_of_Z 18) mo then lit "0.2"
  else f_max (lit "0.2") (f_sub (f_of_Z 1) (f_div mo (f_of_Z 18))).

Definition featureMatchScore (subject : SubjectProfile) (comp : CompRecord) : float64 :=
  let half := lit "0.5" in
  let '(score, n) :=
    if bool_decide (s_Subdivision subject = EmptyString) then (f_zero, f_zero)
    else (if EqualFold (s_Subdivision subject) (compSubdivision comp) then f_of_Z 1 else f_zero, f_of_Z 1) in
  let '(score, n) := if eqb (s_PoolPrivate subject) (c_PoolPrivate comp) then (f_add score half, f_add n half) else (score, n) in
  let '(score, n) := if eqb (s_Waterfront subject) (c_Waterfront comp) then (f_add score half, f_add n half) else (score, n) in
  if f_eq n f_zero then lit "0.7" else f_div score n.

Definition compReconcileWeight (now : Z) (subject : SubjectProfile) (comp : CompRecord) (g : BpoCompGrid) : float64 :=
  let prox := proximityScore (c_DistanceMiles comp) in
  let gla := glaSimilarity (s_LivingArea subject) (c_LivingArea comp) in
  let rec := recencyScore now (c_CloseDate comp) in
  let gross := f_sub (f_of_Z 1) (f_min (f_div (g_GrossAdjustmentPct g) (f_of_Z 25)) (f_of_Z 1)) in
  let feat := featureMatchScore subject comp in
  f_add (f_add (f_add (f_add (f_mul (lit "0.25") prox) (f_mul (lit "0.25") gla)) (f_mul (lit "0.20") rec))
           (f_mul (lit "0.20") gross)) (f_mul (lit "0.10") feat).

(** The [base] before it is held between 20 and 95. *)
Definition confidence_base (grids : list BpoCompGrid) (rates : BpoMarketRates) : float64 :=
  let n := length grids in
  let base := if (6 <=? n)%nat then f_of_Z 70 else if (3 <=? n)%nat then f_of_Z 55 else f_of_Z 40 in
  let base := f_add base (f_mul (r_RSquared rates) (f_of_Z 20)) in
  let base := if bool_decide (r_Method rates = bpoRateSourceOLS) then f_add base (f_of_Z 5) else base in
  let sum := f_sum (g_GrossAdjustmentPct <$> grids) in
  let avgGross := match grids with [] => sum | _ => f_div sum (f_len grids) end in
  if f_lt (f_of_Z 20) avgGross then f_sub base (f_of_Z 10) else base.

Definition reconcileConfidence (grids : list BpoCompGrid) (rates : BpoMarketRates) : float64 :=
  f_min (f_of_Z 95) (f_max (f_of_Z 20) (round2 (confidence_base grids rates))).

Definition spreadPct (confidence : float64) : float64 :=
  if f_le (f_of_Z 80) confidence then lit "0.03" else if f_le (f_of_Z 60) confidence then lit "0.05" else lit "0.08".

Definition confidenceBand (conf : float64) : string :=
  if f_le (f_of_Z 75) conf then "high" else if f_le (f_of_Z 50) conf then "moderate" else "low".

Record bpoReconcileResult := mkRecon {
  PointEstimate : float64;
  Low : float64;
  High : float64;
  Confidence : float64;
  ConfidenceBand : string;
  ReconciliationSummary : string;
}.

(** The weights that are used: all one when none is positive. *)
Definition used_weights (weights : list float64) : list float64 * float64 :=
  let wSum := f_sum weights in
  if f_le wSum f_zero then ((λ _, f_of_Z 1) <$> weights, f_len weights) else (weights, wSum).

Definition indicated_value (weights : list float64) (grids : list BpoCompGrid) : float64 :=
  let '(ws, wSum) := used_weights weights in
  f_sum (zip_with (λ w g, f_mul (f_div w wSum) (g_AdjustedPrice g)) ws grids).

Definition reconcileBPO (now : Z) (subject : SubjectProfile) (sold : list CompRecord) (grids : list BpoCompGrid) (rates : BpoMarketRates) : bpoReconcileResult :=
  match grids with
  | [] => mkRecon f_zero f_zero f_zero f_zero EmptyString EmptyString
  | _ =>
      let weights := zip_with (compReconcileWeight now subject) sold grids in
      let indicated := round2 (indicated_value weights grids) in
      let conf := reconcileConfidence grids rates in
      let spread := spreadPct conf in
      {| PointEstimate := indicated;
         Low := round2 (f_mul indicated (f_sub (f_of_Z 1) spread));
         High := round2 (f_mul indicated (f_add (f_of_Z 1) spread));
         Confidence := conf;
         ConfidenceBand := confidenceBand conf;
         ReconciliationSummary := "Weighted average of " +:+ pretty (Z.of_nat (length grids)) +:+ " adjusted comps (method: " +:+
           r_Method rates +:+ ", R²: " +:+ FormatFixed 2 (r_RSquared rates) +:+
           "). Strongest weight to lowest gross-adjustment / closest GLA comps." |}
  end.

(** ** Renovations ([bpo_renovation.go]) *)

Definition typicalHomeValue (rates : BpoMarketRates) : float64 :=
  if f_lt f_zero (r_MedianGLA rates) && f_lt f_zero (r_GLAPerSF rates) then f_mul (r_MedianGLA rates) (r_GLAPerSF rates)
  else if f_lt f_zero (r_Intercept rates) then r_Intercept rates
  else f_of_Z 350000.

Definition marketRenovationAmount (typicalValue pct floorDefault : float64) : float64 :=
  let derived := f_mul typicalValue pct in
  let floor := f_mul floorDefault (lit "0.5") in
  if f_lt derived floor then floor else derived.

(** The year is the server's; UTC here. *)
Definition depreciatedCredit (now renovationYear : Z) (fullCredit : float64) : option float64 :=
  let age := wrap64 (year_of now - renovationYear) in
  if (age <? 0)%Z then None
  else if (age <=? 5)%Z then Some (round2 fullCredit)
  else if (age <=? 10)%Z then Some (round2 (f_mul fullCredit (lit "0.5")))
  else None.

Definition renovationSourceFor (amt base : float64) : string :=
  if f_le (f_mul base (lit "0.45")) amt then "market_derived" else "default_floor".

Definition credit (now y : Z) (base : float64) (feature reasoning : string) : list RenovationCredit :=
  if (0 <? y)%Z then
    match depreciatedCredit now y base with
    | Some amt => [mkCredit feature y amt (renovationSourceFor amt base) reasoning]
    | None => []
    end
  else [].

Definition hvac_base (rates : BpoMarketRates) : float64 :=
  if f_lt (f_of_Z 500) (r_AgePerYear rates)
  then marketRenovationAmount (typicalHomeValue rates) (f_div (r_AgePerYear rates) (f_of_Z 75000)) (f_of_Z 4000)
  else marketRenovationAmount (typicalHomeValue rates) (lit "0.01") (f_of_Z 4000).

Definition renovationCredits (now : Z) (subject : SubjectProfile) (rates : BpoMarketRates) : list RenovationCredit :=
  let typicalValue := typicalHomeValue rates in
  (credit now (s_RenovatedKitchenYear subject) (marketRenovationAmount typicalValue (lit "0.02") (f_of_Z 8000))
     "renovated_kitchen" "Kitchen renovation credit (market-derived, age-depreciated)" ++
   credit now (s_RenovatedBathroomsYear subject) (marketRenovationAmount typicalValue (lit "0.015") (f_of_Z 6000))
     "renovated_bathrooms" "Bathroom renovation credit (market-derived, age-depreciated)" ++
   credit now (s_RenovatedHVACYear subject) (hvac_base rates)
     "renovated_hvac" "HVAC replacement credit (market-derived, age-depreciated)")%list.

Definition sumRenovationCredits (credits : list RenovationCredit) : float64 := f_sum (rc_Amount <$> credits).

(** ** What a grid promises *)

Lemma neg_not_above x : f_lt f_zero x = true → f_lt x (f_neg x) = false.
Proof. by destruct x as [|[]| |[]]. Qed.

Lemma capped_net_band base net :
  f_lt f_zero (f_mul base (lit "0.35")) = true →
  in_band (f_neg (f_mul base (lit "0.35"))) (f_mul base (lit "0.35")) (capped_net base net).
Proof.
  intros H. unfold capped_net. cbv zeta. rewrite H. pose proof (neg_not_above _ H) as Hn. unfold in_band.
  destruct (f_lt _ net) eqn:E1; [by rewrite f_lt_irrefl|]. destruct (f_lt net _) eqn:E2; [by rewrite f_lt_irrefl|done].
Qed.

Lemma grid_features now subject c rates : gl_Feature <$> buildURARGrid now subject c rates = urarGridFeatures.
Proof. reflexivity. Qed.

Lemma applyURARGrid_lookup now subject sold rates i c :
  sold !! i = Some c →
  (applyURARGrid now subject sold rates).1 !! i = Some (grid_of now subject rates i c).1 ∧
  (applyURARGrid now subject sold rates).2 !! i = Some (grid_of now subject rates i c).2.
Proof. intros H. unfold applyURARGrid. cbn [fst snd]. by rewrite !list_lookup_fmap, list_lookup_imap, H. Qed.

(** The grid of every comparable has the 14 URAR lines in their order, its net adjustment
    is the sum of the lines held within 35% of the sale price, and its adjusted price is the
    price plus that, the same in the comparable and in its grid. *)
Theorem net_adjustment_capped now subject sold rates i c :
  sold !! i = Some c →
  ∃ c' g net, (applyURARGrid now subject sold rates).1 !! i = Some c' ∧
    (applyURARGrid now subject sold rates).2 !! i = Some g ∧
    gl_Feature <$> g_Lines g = urarGridFeatures ∧
    (let cap := f_mul (base_price c) (lit "0.35") in
     let total := f_sum (gl_Adjustment <$> g_Lines g) in
     f_lt f_zero cap = true →
     in_band (f_neg cap) cap net ∧ (in_band (f_neg cap) cap total → net = total)) ∧
    g_NetAdjustment g = round2 net ∧
    g_AdjustedPrice g = round2 (f_add (base_price c) net) ∧ c_AdjustedPrice c' = g_AdjustedPrice g.
Proof.
  intros Hc. destruct (applyURARGrid_lookup now subject sold rates i c Hc) as [H1 H2].
  exists (grid_of now subject rates i c).1, (grid_of now subject rates i c).2,
    (capped_net (base_price c) (f_sum (gl_Adjustment <$> buildURARGrid now subject c rates))).
  split_and!; [done|done|apply grid_features| |reflexivity|reflexivity|reflexivity].
  cbv zeta. intros Hcap. split; [by apply capped_net_band|]. cbn [g_Lines grid_of sumGridAdjustments snd].
  intros [Hl Hh]. unfold capped_net. cbv zeta. by rewrite Hcap, Hl, Hh.
Qed.

Lemma f_max_ge a x : IsNaN (f_max a x) = false → IsNaN a = false → f_le a (f_max a x) = true ∧ (f_max a x = x ∨ f_max a x = a).
Proof.
  unfold f_max. intros Hn Ha. rewrite Ha in *. cbn [orb] in *. destruct (IsNaN x) eqn:Ex.
  { destruct a as [|[]| |[]], x as [|[]| |[]]; try done; by split; [reflexivity|right]. }
  assert (Hgen : f_le a (if f_lt x a then a else x) = true ∧ ((if f_lt x a then a else x) = x ∨ (if f_lt x a then a else x) = a)).
  { destruct (f_lt x a) eqn:E; [split; [by apply f_le_refl|by right]|]. split; [by apply f_lt_false_le|by left]. }
  destruct a as [sa| | |], x as [sx| | |]; try exact Hgen. destruct sa; split; auto.
Qed.

Lemma f_min_le a x : IsNaN (f_min a x) = false → IsNaN a = false → f_le (f_min a x) a = true ∧ (f_min a x = x ∨ f_min a x = a).
Proof.
  unfold f_min. intros Hn Ha. rewrite Ha in *. cbn [orb] in *. destruct (IsNaN x) eqn:Ex.
  { destruct a as [|[]| |[]], x as [|[]| |[]]; try done; by split; [reflexivity|right]. }
  assert (Hgen : f_le (if f_lt a x then a else x) a = true ∧ ((if f_lt a x then a else x) = x ∨ (if f_lt a x then a else x) = a)).
  { destruct (f_lt a x) eqn:E; [split; [by apply f_le_refl|by right]|]. split; [by apply f_lt_false_le|by left]. }
  destruct a as [sa| | |], x as [sx| | |]; try exact Hgen. destruct sa; split; auto.
Qed.

(** The confidence of a reconciliation is between 20 and 95 whenever it is a number, and the
    band it is given is the one of that number. *)
Theorem confidence_bounds now subject sold grids rates :
  let r := reconcileBPO now subject sold grids rates in
  grids ≠ [] → IsNaN (Confidence r) = false →
  f_le (f_of_Z 20) (Confidence r) = true ∧ f_le (Confidence r) (f_of_Z 95) = true ∧
  (ConfidenceBand r = "high" ↔ f_le (f_of_Z 75) (Confidence r) = true) ∧
  (ConfidenceBand r = "low" ↔ f_lt (Confidence r) (f_of_Z 50) = true).
Proof.
  cbv zeta. intros Hg Hn. unfold reconcileBPO in *. destruct grids as [|g gs]; [done|]. revert Hn.
  cbn [Confidence ConfidenceBand]. unfold reconcileConfidence. generalize (round2 (confidence_base (g :: gs) rates)). intros x.
  set (y := f_max (f_of_Z 20) x). intros Hn. destruct (f_min_le (f_of_Z 95) y Hn eq_refl) as [Hle Hc].
  assert (Hge : f_le (f_of_Z 20) (f_min (f_of_Z 95) y) = true).
  { destruct Hc as [Hc|Hc]; rewrite Hc; [|reflexivity]. rewrite Hc in Hn. by apply f_max_ge. }
  revert Hn Hle Hge. generalize (f_min (f_of_Z 95) y). intros z Hn Hle Hge. split; [done|]. split; [done|].
  unfold confidenceBand. destruct (f_le (f_of_Z 75) z) eqn:E1.
  - split; [done|]. split; [done|]. intros Hl%f_lt_le. exfalso.
    by pose proof (f_le_trans _ _ _ E1 Hl).
  - destruct (f_le (f_of_Z 50) z) eqn:E2; (split; [done|]).
    + split; [done|]. intros Hl. exfalso. rewrite f_lt_key in Hl. rewrite f_le_key in E2.
      rewrite Hn in *. cbn [IsNaN negb andb] in *. rewrite (key_cmp_antisym (f_key z)) in E2.
      by destruct (key_cmp _ _).
    + split; [intros _|done]. destruct (f_lt z (f_of_Z 50)) eqn:E3; [done|].
      pose proof (f_lt_false_le z (f_of_Z 50) Hn eq_refl E3). congruence.
Qed.

(** The renovations a subject may report, with the year and the full credit of each. *)
Definition renovations (subject : SubjectProfile) (rates : BpoMarketRates) : list (string * Z * float64) :=
  let typicalValue := typicalHomeValue rates in
  [("renovated_kitchen", s_RenovatedKitchenYear subject, marketRenovationAmount typicalValue (lit "0.02") (f_of_Z 8000));
   ("renovated_bathrooms", s_RenovatedBathroomsYear subject, marketRenovationAmount typicalValue (lit "0.015") (f_of_Z 6000));
   ("renovated_hvac", s_RenovatedHVACYear subject, hvac_base rates)].

Lemma wrap64_id n : (- 2 ^ 63 <= n < 2 ^ 63)%Z → wrap64 n = n.
Proof. intros H. unfold wrap64. rewrite Z.mod_small by lia. lia. Qed.

Lemma credit_spec now y base feature why rc :
  (- 2 ^ 63 <= year_of now - y < 2 ^ 63)%Z →
  rc ∈ credit now y base feature why ↔
  ∃ amt, rc = mkCredit feature y amt (renovationSourceFor amt base) why ∧ (0 < y)%Z ∧
    (0 <= year_of now - y <= 10)%Z ∧ amt = round2 (if (year_of now - y <=? 5)%Z then base else f_mul base (lit "0.5")).
Proof.
  intros Hr. unfold credit, depreciatedCredit. rewrite (wrap64_id _ Hr). cbv zeta. generalize (year_of now - y)%Z. intros age.
  destruct (Z.ltb_spec 0 y); [|split; [intros []%elem_of_nil|intros (? & _ & ? & _); lia]].
  destruct (Z.ltb_spec age 0); [split; [intros []%elem_of_nil|intros (? & _ & _ & ? & _); lia]|].
  destruct (Z.leb_spec age 5); [|destruct (Z.leb_spec age 10)].
  - rewrite list_elem_of_singleton. split; [intros ->; eexists; split_and!; [reflexivity|lia..|done]|]. by intros (? & -> & _ & _ & ->).
  - rewrite list_elem_of_singleton. split; [intros ->; eexists; split_and!; [reflexivity|lia..|done]|]. by intros (? & -> & _ & _ & ->).
  - split; [intros []%elem_of_nil|intros (? & _ & _ & ? & _); lia].
Qed.

(** A renovation is credited exactly when its year is given and lies in the last ten years,
    in full for five years and half after that. *)
Theorem renovation_credits_functional now subject rates feature y amt :
  (∀ r, r ∈ renovations subject rates → (- 2 ^ 63 <= year_of now - r.1.2 < 2 ^ 63)%Z) →
  (∃ src why, mkCredit feature y amt src why ∈ renovationCredits now subject rates) ↔
  ∃ base, (feature, y, base) ∈ renovations subject rates ∧ (0 < y)%Z ∧ (0 <= year_of now - y <= 10)%Z ∧
    amt = round2 (if (year_of now - y <=? 5)%Z then base else f_mul base (lit "0.5")).
Proof.
  intros Hr. unfold renovations in *.
  assert (Hk := Hr _ ltac:(by left)). assert (Hb := Hr _ ltac:(right; by left)). assert (Hh := Hr _ ltac:(do 2 right; by left)).
  cbn [fst snd] in Hk, Hb, Hh. unfold renovationCredits. cbv zeta. setoid_rewrite elem_of_app. setoid_rewrite elem_of_app.
  setoid_rewrite credit_spec; [|done..]. split.
  - intros (src & why & [(a & [= -> -> -> _ _] & H)|[(a & [= -> -> -> _ _] & H)|(a & [= -> -> -> _ _] & H)]]); eexists; (split; [|exact H]); rewrite !elem_of_cons; auto.
  - intros (base & Hin & H). rewrite !elem_of_cons, elem_of_nil in Hin. destruct Hin as [[= -> -> ->]|[[= -> -> ->]|[[= -> -> ->]|[]]]].
    + do 2 eexists. left. eexists. by split.
    + do 2 eexists. right; left. eexists. by split.
    + do 2 eexists. right; right. eexists. by split.
Qed.

(** ** Concrete runs *)

Definition sampleSubject : SubjectProfile :=
  mkSubject "off_market" EmptyString EmptyString (lit "27.9") (lit "-82.5") (f_of_Z 3) (f_of_Z 2) (f_of_Z 1700) (lit "0.2")
    1990 (f_of_Z 1) false false f_zero f_zero EmptyString EmptyString EmptyString EmptyString "fair" 2020 0 0 RawNil.
(** 2024-06-01 *)
Definition sampleNow : Z := 1717200000 * second.
Definition sampleRates : BpoMarketRates := extractMarketRates sampleNow sampleSales 6.
Definition sampleGrids := applyURARGrid sampleNow sampleSubject sampleSales sampleRates.

Lemma net_adjustment_capped_witness :
  ∃ c' g, sampleGrids.1 !! 0%nat = Some c' ∧ sampleGrids.2 !! 0%nat = Some g ∧ c_AdjustedPrice c' = g_AdjustedPrice g.
Proof.
  destruct (net_adjustment_capped sampleNow sampleSubject sampleSales sampleRates 0 (sale "a" 300000 1500 3 2 1990 1) eq_refl)
    as (c' & g & net & H1 & H2 & _ & _ & _ & _ & H3).
  exists c', g. exact (conj H1 (conj H2 H3)).
Defined.

Lemma confidence_bounds_witness :
  f_le (f_of_Z 20) (Confidence (reconcileBPO sampleNow sampleSubject sampleGrids.1 sampleGrids.2 sampleRates)) = true.
Proof.
  refine (proj1 (confidence_bounds sampleNow sampleSubject sampleGrids.1 sampleGrids.2 sampleRates _ _));
    vm_compute; [discriminate|reflexivity].
Defined.

Definition kitchenCredit : float64 := S754_finite false 6059529526952591 (-39).   (* 11,022.23 *)

Lemma renovation_credits_functional_witness :
  ∃ src why, mkCredit "renovated_kitchen" 2020 kitchenCredit src why ∈ renovationCredits sampleNow sampleSubject sampleRates.
Proof.
  apply (renovation_credits_functional sampleNow sampleSubject sampleRates).
  - intros r Hr. unfold renovations in Hr. cbv zeta in Hr. rewrite !elem_of_cons, elem_of_nil in Hr.
    destruct Hr as [->|[->|[->|[]]]]; vm_compute; (split; [discriminate|reflexivity]).
  - exists (marketRenovationAmount (typicalHomeValue sampleRates) (lit "0.02") (f_of_Z 8000)).
    split; [left|]. split; [reflexivity|]. split; [vm_compute; split; discriminate|vm_compute; reflexivity].
Defined.

(** A credit that is the default floor is labelled as derived from the market. *)
Example floor_labelled_market :
  (λ c, (rc_Amount c, rc_RateSource c)) <$>
    credit sampleNow 2020 (marketRenovationAmount (f_of_Z 100000) (lit "0.02") (f_of_Z 8000)) "renovated_kitchen" EmptyString =
  [(f_of_Z 4000, "market_derived")].
Proof. vm_compute. reflexivity. Qed.
