(* ===== verification/CompsEngine.v ===== *)
(** * Comparables: the engine

    [service.go], [engine.go] and what it runs: the subject from the mirror or a geocoded
    address, sold comparables from the closed cache or the live feed ([cache.go],
    [upstream.go]), active ones from the mirror ([mirror.go]), and the analysis modes
    ([rental.go], [bpo.go], [home_value.go]). A request reads one clock. *)

From Stdlib Require Import Ascii String.
From stdpp Require Import gmap strings list sorting.
From S2P Require Import Prelude GoStrings GoTime GoFloat GoNum GoJson MlsFields Payload Listing Config CacheData Database Upstream GisFetch Caches Feeds AuditLog MirrorQuery CompsData CompsMarket CompsGrid.

Open Scope string_scope.

(** [math.Sin] and its relatives: parameters. *)
Class GoMath := { f_sin : float64 → float64; f_cos : float64 → float64; f_atan2 : float64 → float64 → float64; f_pow : float64 → float64 → float64 }.

(** ** Responses: a field per key of the maps the code builds *)

Record RentalResult := mkRental {
  monthly_rent_median : float64; monthly_mortgage : float64; monthly_cashflow : float64; purchase_price : float64;
}.
Record FlipVsHoldResult := mkFlip {
  estimated_profit : float64; arv : float64; annual_cashflow : float64; recommendation : string;
}.
Record SimulationResult := mkSimulation {
  sim_indicated_value : float64; bpo_low : float64; bpo_high : float64; risk_score : float64; risk_band : string; sim_comp_count : Z;
}.
Record BPOResult := mkBPO {
  point_estimate : float64; range_low : float64; range_high : float64; bpo_confidence : float64; confidence_band : string;
  method : string; reconciliation_summary : string; market_rates : BpoMarketRates; adjustment_grid : list BpoCompGrid;
  renovation_credits : list RenovationCredit; renovation_credit_total : float64; bpo_comp_count : Z; grid_lines : Z;
}.
Record HomeValueResult := mkHomeValue {
  estimate : float64; hv_low : float64; hv_high : float64; hv_confidence : float64; comparable_count : Z;
  condition_applied : bool; condition_rating : string; hv_market_rates : BpoMarketRates;
  hv_renovation_credits : list RenovationCredit; hv_renovation_credit_total : float64; bpo_method : string;
}.

Record RunResponse := mkResponse {
  rs_Subject : SubjectProfile;
  rs_SoldComps : list CompRecord;
  rs_CompetitionComps : list CompRecord;
  rs_OverpricedSignals : list OverpricedSignal;
  rs_MarketConditions : option MarketConditions;
  rs_Mode : string;
  rs_Dataset : string;
  rs_Feed : string;
  rs_Provider : string;
  rs_Warnings : list string;
  rs_RentalComps : list CompRecord;
  rs_RentalResult : option RentalResult;
  rs_FlipVsHoldResult : option FlipVsHoldResult;
  rs_SimulationResult : option SimulationResult;
  rs_BPOResult : option BPOResult;
  rs_HomeValueResult : option HomeValueResult;
}.

Definition set_sold v r := mkResponse (rs_Subject r) v (rs_CompetitionComps r) (rs_OverpricedSignals r)
  (rs_MarketConditions r) (rs_Mode r) (rs_Dataset r) (rs_Feed r) (rs_Provider r) (rs_Warnings r)
  (rs_RentalComps r) (rs_RentalResult r) (rs_FlipVsHoldResult r) (rs_SimulationResult r) (rs_BPOResult r)
  (rs_HomeValueResult r).
Definition set_competition v r := mkResponse (rs_Subject r) (rs_SoldComps r) v (rs_OverpricedSignals r)
  (rs_MarketConditions r) (rs_Mode r) (rs_Dataset r) (rs_Feed r) (rs_Provider r) (rs_Warnings r)
  (rs_RentalComps r) (rs_RentalResult r) (rs_FlipVsHoldResult r) (rs_SimulationResult r) (rs_BPOResult r)
  (rs_HomeValueResult r).
Definition set_overpriced v r := mkResponse (rs_Subject r) (rs_SoldComps r) (rs_CompetitionComps r) v
  (rs_MarketConditions r) (rs_Mode r) (rs_Dataset r) (rs_Feed r) (rs_Provider r) (rs_Warnings r)
  (rs_RentalComps r) (rs_RentalResult r) (rs_FlipVsHoldResult r) (rs_SimulationResult r) (rs_BPOResult r)
  (rs_HomeValueResult r).
Definition set_conditions v r := mkResponse (rs_Subject r) (rs_SoldComps r) (rs_CompetitionComps r)
  (rs_OverpricedSignals r) v (rs_Mode r) (rs_Dataset r) (rs_Feed r) (rs_Provider r) (rs_Warnings r)
  (rs_RentalComps r) (rs_RentalResult r) (rs_FlipVsHoldResult r) (rs_SimulationResult r) (rs_BPOResult r)
  (rs_HomeValueResult r).
Definition set_rentals v r := mkResponse (rs_Subject r) (rs_SoldComps r) (rs_CompetitionComps r)
  (rs_OverpricedSignals r) (rs_MarketConditions r) (rs_Mode r) (rs_Dataset r) (rs_Feed r) (rs_Provider r)
  (rs_Warnings r) v (rs_RentalResult r) (rs_FlipVsHoldResult r) (rs_SimulationResult r) (rs_BPOResult r)
  (rs_HomeValueResult r).
Definition set_rental_result v r := mkResponse (rs_Subject r) (rs_SoldComps r) (rs_CompetitionComps r)
  (rs_OverpricedSignals r) (rs_MarketConditions r) (rs_Mode r) (rs_Dataset r) (rs_Feed r) (rs_Provider r)
  (rs_Warnings r) (rs_RentalComps r) v (rs_FlipVsHoldResult r) (rs_SimulationResult r) (rs_BPOResult r)
  (rs_HomeValueResult r).
Definition set_flip v r := mkResponse (rs_Subject r) (rs_SoldComps r) (rs_CompetitionComps r)
  (rs_OverpricedSignals r) (rs_MarketConditions r) (rs_Mode r) (rs_Dataset r) (rs_Feed r) (rs_Provider r)
  (rs_Warnings r) (rs_RentalComps r) (rs_RentalResult r) v (rs_SimulationResult r) (rs_BPOResult r)
  (rs_HomeValueResult r).
Definition set_simulation v r := mkResponse (rs_Subject r) (rs_SoldComps r) (rs_CompetitionComps r)
  (rs_OverpricedSignals r) (rs_MarketConditions r) (rs_Mode r) (rs_Dataset r) (rs_Feed r) (rs_Provider r)
  (rs_Warnings r) (rs_RentalComps r) (rs_RentalResult r) (rs_FlipVsHoldResult r) v (rs_BPOResult r)
  (rs_HomeValueResult r).
Definition set_bpo v r := mkResponse (rs_Subject r) (rs_SoldComps r) (rs_CompetitionComps r)
  (rs_OverpricedSignals r) (rs_MarketConditions r) (rs_Mode r) (rs_Dataset r) (rs_Feed r) (rs_Provider r)
  (rs_Warnings r) (rs_RentalComps r) (rs_RentalResult r) (rs_FlipVsHoldResult r) (rs_SimulationResult r) v
  (rs_HomeValueResult r).
Definition set_home_value v r := mkResponse (rs_Subject r) (rs_SoldComps r) (rs_CompetitionComps r)
  (rs_OverpricedSignals r) (rs_MarketConditions r) (rs_Mode r) (rs_Dataset r) (rs_Feed r) (rs_Provider r)
  (rs_Warnings r) (rs_RentalComps r) (rs_RentalResult r) (rs_FlipVsHoldResult r) (rs_SimulationResult r)
  (rs_BPOResult r) v.
Definition warn v r := mkResponse (rs_Subject r) (rs_SoldComps r) (rs_CompetitionComps r)
  (rs_OverpricedSignals r) (rs_MarketConditions r) (rs_Mode r) (rs_Dataset r) (rs_Feed r) (rs_Provider r)
  (rs_Warnings r ++ v)%list (rs_RentalComps r) (rs_RentalResult r) (rs_FlipVsHoldResult r) (rs_SimulationResult r)
  (rs_BPOResult r) (rs_HomeValueResult r).

(** ** Upstream documents *)

(** An envelope [{"value": [...]}]; a missing or null value is empty. *)
Definition decode_value (body : text) : option (list RawMessage) :=
  match body with
  | Some (JObj m) =>
      match m !! "value" with
      | None | Some JNull => Some []
      | Some (JArr l) => Some (raw_of <$> l)
      | _ => None
      end
  | Some JNull => Some []
  | _ => None
  end.

(** A field that holds a struct: absent and null leave it zero. *)
Definition dec_struct {A} (o : option json) (k : row → option A) : option A :=
  match o with
  | None | Some JNull => k ∅
  | Some (JObj m) => k m
  | _ => None
  end.

Definition dec_location (v : json) : option (float64 * float64) :=
  dec_struct (Some v) (λ r, dec_struct (r !! "geometry") (λ g, dec_struct (g !! "location") (λ l,
    lat ← dec_float (l !! "lat"); lng ← dec_float (l !! "lng"); Some (lat, lng)))).

(** The status and the places of a geocoding reply. *)
Definition dec_geocode (body : text) : option (string * list (float64 * float64)) :=
  b ← body;
  dec_struct (Some b) (λ m,
    status ← dec_string (m !! "status");
    results ← match m !! "results" with
              | None | Some JNull => Some []
              | Some (JArr l) => mapM dec_location l
              | _ => None
              end;
    Some (status, results)).

Section Engine.
Context {F : Faults} {RO : RowOrder} {U : Upstream} {JT : GoJsonText} {SS : SortSlice} {GM : GoMath} {GD : GeoDistance} (cfg : Config).

(** ** Distance ([property.go]) *)

Definition haversineMiles (lat1 lng1 lat2 lng2 : float64) : float64 :=
  let rad := lit "0.017453292519943295769236907684886" in
  let la1 := f_mul lat1 rad in let lo1 := f_mul lng1 rad in
  let la2 := f_mul lat2 rad in let lo2 := f_mul lng2 rad in
  let dla := f_sub la2 la1 in let dlo := f_sub lo2 lo1 in
  let two := f_of_Z 2 in
  let a := f_add (f_mul (f_sin (f_div dla two)) (f_sin (f_div dla two)))
             (f_mul (f_mul (f_mul (f_cos la1) (f_cos la2)) (f_sin (f_div dlo two))) (f_sin (f_div dlo two))) in
  f_mul (f_mul (lit "3958.7613") two) (f_atan2 (f_sqrt a) (f_sqrt (f_sub (f_of_Z 1) a))).

Definition locate (subject : SubjectProfile) (c : CompRecord) : CompRecord :=
  set_distance (haversineMiles (s_Lat subject) (s_Lng subject) (c_Lat c) (c_Lng c)) c.

(** Beyond 1.15 times the radius of a scope that is not by postal code. *)
Definition too_far (scope : ScopeInput) (c : CompRecord) : bool :=
  negb (bool_decide (sc_Type scope = "zip")) &&
  match sc_RadiusMiles scope with Some r => f_lt (f_mul r (lit "1.15")) (c_DistanceMiles c) | None => false end.

(** ** Live sales and rentals ([upstream.go]) *)

Definition getReso (url : string) : M World (text * Z) := λ w,
  match http_get w 0 url with
  | HttpFail e => (Err e, w)
  | HttpReply status _ body => (Ok (body, status), w)
  end.

Definition geoFilterParts (subject : SubjectProfile) (scope : ScopeInput) : list string :=
  if bool_decide (sc_Type scope = "zip") && negb (bool_decide (sc_PostalCodes scope = [])) then
    ["PostalCode in (" +:+ Join ((λ z, "'" +:+ ReplaceAll z "'" "''" +:+ "'") <$> sc_PostalCodes scope) "," +:+ ")"]
  else
    let radius := match sc_RadiusMiles scope with Some r => if f_lt f_zero r then r else f_of_Z 5 | None => f_of_Z 5 end in
    let deg := f_div radius (f_of_Z 69) in
    ["Latitude ge " +:+ FormatFixed 6 (f_sub (s_Lat subject) deg); "Latitude le " +:+ FormatFixed 6 (f_add (s_Lat subject) deg);
     "Longitude ge " +:+ FormatFixed 6 (f_sub (s_Lng subject) deg); "Longitude le " +:+ FormatFixed 6 (f_add (s_Lng subject) deg)].

(** The URL of a query on the Property collection, whose URL has no query of its own. *)
Definition property_query (endpoint : LiveResoEndpoint) (filter : list string) (top : Z) : string :=
  requestURL (le_PropertyURL endpoint)
    (<["$filter" := Join filter " and "]> (<["$orderby" := "CloseDate desc"]> {["$top" := show_int top]})).

Definition months_back (f : FiltersInput) : Z :=
  match fi_SoldMonthsBack f with Some m => if (0 <? m)%Z then m else 12 | None => 12 end.

(** A sale worth comparing with; [place] completes its position. *)
Definition keep_sold (subject : SubjectProfile) (scope : ScopeInput) (place : CompRecord → CompRecord) (c : CompRecord) : option CompRecord :=
  if bool_decide (c_ListingKey c = s_ListingKey subject) then None
  else if f_le (c_ClosePrice c) f_zero then None
  else let c := locate subject (place c) in if too_far scope c then None else Some c.

Definition parseSoldCompRecords (values : list RawMessage) (subject : SubjectProfile) (scope : ScopeInput) : list CompRecord :=
  omap (λ raw, keep_sold subject scope id (parseProperty raw)) values.

Definition parseRentalCompRecords (values : list RawMessage) (subject : SubjectProfile) (scope : ScopeInput) : list CompRecord :=
  omap (λ raw,
    let c := parseProperty raw in
    if bool_decide (c_ListingKey c = s_ListingKey subject) then None
    else
      let price := num_else (c_ClosePrice c) (c_ListPrice c) in
      if f_le price f_zero then None
      else
        let price := if EqualFold (strFromRaw raw "LeaseAmountFrequency") "Annually" && f_lt f_zero price
                     then f_div price (f_of_Z 12) else price in
        let c := locate subject (set_list_price price (set_close_price price c)) in
        if too_far scope c then None else Some c) values.

Definition status_error (what : string) (status : Z) (feed : FeedDefinition) : string :=
  "live MLS " +:+ what +:+ " comps status " +:+ show_int status +:+ " for feed " +:+ Quote (fd_Code feed).

(** The values of a page of closed listings. *)
Definition fetch_closed (feed : FeedDefinition) (what : string) (filter : list string) (limit : Z) : M World (list RawMessage) :=
  let* endpoint := of_res (LiveResoPropertyEndpoint cfg feed) in
  let* reply := getReso (property_query endpoint filter limit) in
  let '(body, status) := reply in
  if (400 <=? status)%Z then throw (status_error what status feed)
  else match decode_value body with Some l => ret l | None => throw "json" end.

Definition fetchSoldCompsLive (feed : FeedDefinition) (subject : SubjectProfile) (scope : ScopeInput) (filters : FiltersInput)
    (limit : Z) : M World (list CompRecord * list RawMessage) :=
  let limit := if (limit <=? 0)%Z then 25 else limit in
  let* now := get w_now in
  let cutoff := format_rfc3339 (add_date now 0 (- months_back filters) 0) in
  let* values := fetch_closed feed "sold"
    (["StandardStatus eq 'Closed'"; "CloseDate ge " +:+ cutoff] ++ geoFilterParts subject scope)%list limit in
  ret (parseSoldCompRecords values subject scope, values).

(** ** The closed cache ([cache.go]) *)

Definition parseCloseDate (s : string) : option Z :=
  let s := TrimSpace s in
  if bool_decide (s = EmptyString) then None
  else match parse_rfc3339 s with
       | Some t => Some t
       | None => match parse_local_datetime s with Some t => Some t | None => parse_date_only s end
       end.

Definition upsert_of (raw : RawMessage) : option ClosedUpsertRow :=
  let c := parseProperty raw in
  if bool_decide (c_ListingKey c = EmptyString) || f_le (c_ClosePrice c) f_zero then None
  else
    let status := ToLower (TrimSpace (c_StandardStatus c)) in
    let at_zero := f_eq (c_Lat c) f_zero && f_eq (c_Lng c) f_zero in
    Some {| cu_ListingKey := c_ListingKey c;
            cu_StandardStatus := if bool_decide (status = EmptyString) then "closed" else status;
            cu_CloseDate := parseCloseDate (c_CloseDate c);
            cu_Latitude := if at_zero then None else Some (c_Lat c);
            cu_Longitude := if at_zero then None else Some (c_Lng c);
            cu_ClosePrice := Some (c_ClosePrice c);
            cu_PayloadRaw := raw |}.

Definition writeThroughClosedCache (domainSlug feedCode : string) (rawRows : list RawMessage) : M World unit :=
  UpsertClosedBatch domainSlug feedCode (omap upsert_of rawRows).

Definition place_cached (row : CachedClosedRow) (c : CompRecord) : CompRecord :=
  if f_eq (c_Lat c) f_zero && f_eq (c_Lng c) f_zero then set_coords (cc_Latitude row) (cc_Longitude row) c else c.

Definition compsFromCached (rows : list CachedClosedRow) (subject : SubjectProfile) (scope : ScopeInput) : list CompRecord :=
  omap (λ row,
    let c := parseProperty (cc_Payload row) in
    keep_sold subject scope (place_cached row)
      (if bool_decide (c_ListingKey c = EmptyString) then set_key (cc_ListingKey row) c else c)) rows.

Definition closed_max_age : Z :=
  let maxAge := wrap64 (comps_ClosedCacheDays (cfg_Comps cfg) * 24 * hour) in
  if (maxAge <=? 0)%Z then 30 * 24 * hour else maxAge.

Definition min_hits (limit : Z) : Z :=
  let hits := comps_ClosedCacheMinHits (cfg_Comps cfg) in
  let minHits := if (0 <? hits)%Z then hits else limit in
  if (minHits <? 3)%Z then 3 else minHits.

(** What the cache holds for the request, if that is enough. *)
Definition cached_comps (domainSlug : string) (feed : FeedDefinition) (subject : SubjectProfile) (scope : ScopeInput)
    (filters : FiltersInput) (limit : Z) : M World (option (list CompRecord)) :=
  if bool_decide (domainSlug = EmptyString) then ret None
  else
    let* now := get w_now in
    let* found := attempt (FindClosedInScope domainSlug (fd_Code feed) (s_Lat subject) (s_Lng subject)
      (mkScopeQuery (sc_Type scope) (sc_RadiusMiles scope) (sc_PostalCodes scope))
      (add_date now 0 (- months_back filters) 0) closed_max_age (wrap64 (limit * 2))) in
    match found with
    | Err _ => ret None
    | Ok cached =>
        let out := compsFromCached cached subject scope in
        if ((min_hits limit <=? Z.of_nat (length cached)) && (min_hits limit <=? Z.of_nat (length out)))%Z
        then ret (Some (take (Z.to_nat limit) out)) else ret None
    end.

Definition fetchSoldComps (domainSlug : string) (feed : FeedDefinition) (subject : SubjectProfile) (scope : ScopeInput)
    (filters : FiltersInput) (limit : Z) : M World (list CompRecord) :=
  let limit := if (limit <=? 0)%Z then 25 else limit in
  let* cached := cached_comps domainSlug feed subject scope filters limit in
  match cached with
  | Some out => ret out
  | None =>
      let* live := fetchSoldCompsLive feed subject scope filters limit in
      let '(sold, rawRows) := live in
      (if negb (bool_decide (domainSlug = EmptyString)) && negb (bool_decide (length rawRows = 0%nat))
       then ignore (writeThroughClosedCache domainSlug (fd_Code feed) rawRows) else ret tt) ;;;
      ret sold
  end.

(** ** Comparables of the mirror ([mirror.go]) *)

Definition between (lo hi x : float64) : bool := f_le lo x && f_le x hi.

(** The conditions [applyFilterSQL] adds. *)
Definition filter_sql (subject : SubjectProfile) (f : FiltersInput) (l : listing_row) : bool :=
  match fi_LivingAreaPct f with
  | Some pct =>
      if f_lt f_zero (s_LivingArea subject) then
        let pct := f_div pct (f_of_Z 100) in
        let lo := f_mul (s_LivingArea subject) (f_sub (f_of_Z 1) pct) in
        let hi := f_mul (s_LivingArea subject) (f_add (f_of_Z 1) pct) in
        match LivingArea (l_rec l) with
        | Some a => between (f_of_Z (f_to_int64 lo)) (f_of_Z (f_to_int64 hi)) a
        | None => false
        end
      else true
  | None => true
  end &&
  match fi_BedsTolerance f with
  | Some tol =>
      let lo := f_to_int64 (f_sub (s_Bedrooms subject) tol) in
      let hi := f_to_int64 (f_add (s_Bedrooms subject) tol) in
      match BedroomsTotal (l_rec l) with
      | Some b => (Z.max lo 0 <=? b)%Z && (b <=? hi)%Z
      | None => false
      end
  | None => true
  end.

(** The bounds on the SMALLINT column are arguments of its type. *)
Definition filter_args (subject : SubjectProfile) (f : FiltersInput) : bool :=
  match fi_BedsTolerance f with
  | Some tol => smallint_arg (Z.max (f_to_int64 (f_sub (s_Bedrooms subject) tol)) 0) && smallint_arg (f_to_int64 (f_add (s_Bedrooms subject) tol))
  | None => true
  end.

Definition is_lease (o : option string) : bool := Contains (ToLower (default EmptyString o)) "lease".

Definition in_scope (subject : SubjectProfile) (scope : ScopeInput) (l : listing_row) : bool :=
  if bool_decide (sc_Type scope = "zip") && negb (bool_decide (sc_PostalCodes scope = [])) then
    match PostalCode (l_rec l) with Some z => bool_decide (z ∈ sc_PostalCodes scope) | None => false end
  else
    match sc_RadiusMiles scope with
    | Some r =>
        if f_lt f_zero r then
          match l_coordinates l with
          | Some p => st_dwithin p (s_Lng subject, s_Lat subject) (f_mul r (lit "1609.34"))
          | None => false
          end
        else true
    | None => true
    end.

Definition mirror_matches (dataset : string) (subject : SubjectProfile) (statuses : list string) (scope : ScopeInput)
    (filters : FiltersInput) (rentalOnly : bool) (k : string * string) (l : listing_row) : bool :=
  bool_decide (k.1 = dataset) &&
  (bool_decide (statuses = []) || bool_decide (sqlStatusOf l ∈ (λ s, ToLower (TrimSpace s)) <$> statuses)) &&
  in_scope subject scope l &&
  (bool_decide (s_ListingKey subject = EmptyString) || negb (bool_decide (k.2 = s_ListingKey subject))) &&
  (if rentalOnly then is_lease (PropertyType (l_rec l)) || is_lease (PropertySubType (l_rec l))
   else negb (is_lease (PropertyType (l_rec l)))) &&
  filter_sql subject filters l.

Definition payloads_of (l : listing_row) : ExpandedPayload := Payloads (l_rec l).

(** A row of the mirror as a comparable. Only [HasMedia] is set for the merge. *)
Definition comp_of_row (subject : SubjectProfile) (l : listing_row) : res CompRecord :=
  let p := payloads_of l in
  res_bind (MergeMirrorListing (RawData (l_rec l))
    (mkPayload (p_Media p) (p_Unit p) (p_Room p) (p_OpenHouse p) (raw_present (p_Media p)) false false false)
    (CustomFields (l_rec l))) (λ merged,
  match StandardStatus (l_rec l) with
  | None => Err "cannot scan NULL into *string"
  | Some status =>
      let c := set_status status (set_key (ListingKey (l_rec l)) (parseProperty merged)) in
      let c := match ListPrice (l_rec l) with Some p => set_list_price p c | None => c end in
      let c := match Latitude (l_rec l), Longitude (l_rec l) with Some a, Some b => set_coords a b c | _, _ => c end in
      Ok (locate subject c)
  end).

Definition findMirrorComps (dataset : string) (subject : SubjectProfile) (statuses : list string) (scope : ScopeInput)
    (filters : FiltersInput) (limit : Z) (rentalOnly : bool) : M World (list CompRecord) :=
  let limit := if (limit <=? 0)%Z then 25 else limit in
  let* rows := stmt (if negb (filter_args subject filters) then throw int2_refused else get (λ w, take (Z.to_nat limit) (merge_sort newer (row_order _
    (omap (λ kl, if mirror_matches dataset subject statuses scope filters rentalOnly kl.1 kl.2 then Some kl.2 else None)
       (map_to_list (w_listings w))))))) in
  of_res (all_ok (comp_of_row subject <$> rows)).

(** The rentals and the error: closed ones are kept when the mirror fails. *)
Definition fetchRentalComps (feed : FeedDefinition) (subject : SubjectProfile) (scope : ScopeInput) (limit : Z) :
    M World (list CompRecord * option string) :=
  let limit := if (limit <=? 0)%Z then 20 else limit in
  let* page := attempt (fetch_closed feed "rental"
    (["PropertyType eq 'Residential Lease'"; "StandardStatus eq 'Closed'"] ++ geoFilterParts subject scope)%list limit) in
  match page with
  | Err e => ret ([], Some e)
  | Ok values =>
      let closed := parseRentalCompRecords values subject scope in
      let* active := attempt (findMirrorComps (fd_Dataset feed) subject ["active"; "pending"] scope noFilters limit true) in
      match active with
      | Err e => ret (closed, Some e)
      | Ok l => ret ((closed ++ l)%list, None)
      end
  end.

(** ** The subject ([subject.go], [home_value_subject.go], [geocode/google.go]) *)

Definition subjectFromMLS (dataset : string) (inp : SubjectInput) : M World SubjectProfile :=
  let '(ds, key) := parseListingRef (i_ListingID inp) dataset in
  if bool_decide (key = EmptyString) then throw "subject.listing_id is required for mls subject"
  else
    let* row := attempt (stmt (get (λ w, w_listings w !! (ds, key)))) in
    match row with
    | Ok (Some l) =>
        let p := payloads_of l in
        let* merged := of_res (MergeMirrorListing (RawData (l_rec l))
          (mkPayload (p_Media p) (p_Unit p) (p_Room p) (p_OpenHouse p) (raw_present (p_Media p)) (raw_present (p_Unit p))
             (raw_present (p_Room p)) (raw_present (p_OpenHouse p))) (CustomFields (l_rec l))) in
        let sub := applySubjectOverrides (profile_of key merged (ListPrice (l_rec l)) inp) inp in
        if f_eq (s_Lat sub) f_zero || f_eq (s_Lng sub) f_zero then throw "subject listing has no coordinates"
        else ret sub
    | _ => throw ("subject listing not found in mirror: " +:+ key)
    end.

Definition resolveSubject (dataset : string) (inp : SubjectInput) : M World SubjectProfile :=
  let inp := mergeSubjectAliases inp in
  let typ := ToLower (TrimSpace (i_Type inp)) in
  if bool_decide (typ = EmptyString) || bool_decide (typ = "mls") then subjectFromMLS dataset inp
  else if bool_decide (typ = "off_market") then of_res (subjectFromOffMarket inp)
  else throw "subject.type must be mls or off_market".

Definition Geocode (address : string) : M World (float64 * float64) :=
  let apiKey := TrimSpace (geo_GoogleMapsAPIKey (cfg_Geocode cfg)) in
  if bool_decide (apiKey = EmptyString) then throw "GOOGLE_MAPS_GEOCODING_API_KEY is not configured"
  else
    let address := TrimSpace address in
    if bool_decide (address = EmptyString) then throw "address is required"
    else
      let* reply := getReso (requestURL "https://maps.googleapis.com/maps/api/geocode/json"
        (<["address" := address]> {["key" := apiKey]})) in
      let '(body, status) := reply in
      if (400 <=? status)%Z then throw ("geocoding upstream status " +:+ show_int status)
      else match dec_geocode body with
           | None => throw "json"
           | Some (st, p :: _) =>
               if bool_decide (st = "OK") then ret p else throw ("geocoding failed: " +:+ st)
           | Some (st, []) => throw ("geocoding failed: " +:+ st)
           end.

Definition set_position (o : option (float64 * float64)) (i : SubjectInput) : SubjectInput :=
  mkSubjectInput (i_Type i) (i_ListingID i) (fst <$> o) (snd <$> o) (i_Bedrooms i) (i_Bathrooms i)
    (i_LivingAreaSqft i) (i_LotSizeSqft i) (i_GarageSpaces i) (i_MonthlyFees i) (i_FloodZoneCode i)
    (i_StellarFloodZoneCode i) (i_StellarTotalMonthlyFees i) (i_SubdivisionName i) (i_MLSAreaMajor
    i) (i_ViewYN i) (i_Address i) (i_PropertyType i) (i_YearBuilt i) (i_Condition i)
    (i_RenovatedKitchenYear i) (i_RenovatedBathroomsYear i) (i_RenovatedHVACYear i).

Definition resolveHomeValueSubject (dataset : string) (inp : SubjectInput) : M World SubjectProfile :=
  if negb (bool_decide (TrimSpace (i_ListingID inp) = EmptyString)) then
    let* sub := subjectFromMLS dataset inp in
    ret (applyDerivedCondition sub inp)
  else if negb (bool_decide (TrimSpace (default EmptyString (i_Address inp)) = EmptyString)) then
    let* p := Geocode (default EmptyString (i_Address inp)) in
    of_res (subjectFromOffMarket (set_position (Some p) inp))
  else
    match i_Lat inp, i_Lng inp with
    | Some _, Some _ => of_res (subjectFromOffMarket inp)
    | _, _ => throw "home_value requires listing_id or address with geocodable details"
    end.

(** ** Investor modes ([rental.go]) *)

(** A map of numbers; a missing key and the nil map read as zero. *)
Definition ParseRentalParams (raw : RawMessage) : gmap string float64 :=
  match decode_map raw with Some m => num <$> m | None => ∅ end.
Definition param (params : gmap string float64) (k : string) : float64 := default f_zero (params !! k).

(** The mean of the positive rents. *)
Definition medianRent (rentals : list CompRecord) : float64 :=
  match filter (λ p, f_lt f_zero p = true) (c_ClosePrice <$> rentals) with
  | [] => f_zero
  | vals => f_div (f_sum vals) (f_len vals)
  end.

(** The monthly payment of an annuity. *)
Definition mortgage_of (loan monthlyRate payments : float64) : float64 :=
  if f_lt f_zero monthlyRate && f_lt f_zero payments then
    let factor := f_pow (f_add (f_of_Z 1) monthlyRate) payments in
    f_div (f_mul loan (f_mul monthlyRate factor)) (f_sub factor (f_of_Z 1))
  else f_zero.

Definition rental_result (params : gmap string float64) (subject : SubjectProfile) (rentals : list CompRecord) : RentalResult :=
  let purchase := num_else (param params "purchase_price") (s_ListPrice subject) in
  let downPct := num_else (param params "down_payment_percent") (f_of_Z 20) in
  let rate := num_else (param params "interest_rate") (f_of_Z 7) in
  let term := num_else (param params "loan_term_years") (f_of_Z 30) in
  let loan := f_mul purchase (f_sub (f_of_Z 1) (f_div downPct (f_of_Z 100))) in
  let mortgage := mortgage_of loan (f_div (f_div rate (f_of_Z 100)) (f_of_Z 12)) (f_mul term (f_of_Z 12)) in
  let rent := medianRent rentals in
  let tax := f_div (param params "annual_tax") (f_of_Z 12) in
  let ins := f_div (param params "annual_insurance") (f_of_Z 12) in
  let hoa := num_else (param params "monthly_hoa") (s_MonthlyFees subject) in
  mkRental (round2 rent) (round2 mortgage) (round2 (f_sub (f_sub (f_sub (f_sub rent mortgage) tax) ins) hoa)) purchase.

Definition runRentHold (feed : FeedDefinition) (req : RunRequest) (subject : SubjectProfile) (resp : RunResponse) : M World RunResponse :=
  let* found := fetchRentalComps feed subject (rq_Scope req) 25 in
  let '(rentals, err) := found in
  let resp := match err with Some e => warn [e] resp | None => set_rentals rentals resp end in
  ret (set_rental_result (Some (rental_result (ParseRentalParams (rq_RentalParams req)) subject rentals)) resp).

Definition flip_result (flip : gmap string float64) (subject : SubjectProfile) (sold : list CompRecord) (cashflow : float64) : FlipVsHoldResult :=
  let arV := medianPrice sold in
  let purchase := num_else (param flip "purchase_price") (s_ListPrice subject) in
  let sellPct := num_else (param flip "closing_costs_sell_pct") (f_of_Z 7) in
  let sellCosts := f_mul arV (f_div sellPct (f_of_Z 100)) in
  let flipProfit := f_sub (f_sub (f_sub arV purchase) (param flip "rehab_budget")) sellCosts in
  let holdCash := f_mul cashflow (f_of_Z 12) in
  mkFlip (round2 flipProfit) arV (round2 holdCash) (if f_lt holdCash flipProfit then "flip" else "hold").

Definition runFlipVsHold (domainSlug : string) (feed : FeedDefinition) (req : RunRequest) (subject : SubjectProfile) (resp : RunResponse) : M World RunResponse :=
  let* rentResp := runRentHold feed req subject resp in
  let f := rq_Filters req in
  let* sales := attempt (fetchSoldComps domainSlug feed subject (rq_Scope req) f 12) in
  let sold := applyAdjustments subject (match sales with Ok l => l | Err _ => [] end) f in
  let cashflow := match rs_RentalResult rentResp with Some r => monthly_cashflow r | None => f_zero end in
  ret (set_sold sold (set_flip (Some (flip_result (ParseRentalParams (rq_FlipParams req)) subject sold cashflow)) rentResp)).

(** ** Valuation modes ([bpo.go], [home_value.go]) *)

Definition monthsBackFilters (f : FiltersInput) (bpoMonths : option Z) : Z :=
  match bpoMonths with
  | Some m => if (0 <? m)%Z then m else default 12%Z (fi_SoldMonthsBack f)
  | None => default 12%Z (fi_SoldMonthsBack f)
  end.

Definition set_weight (v : float64) (g : BpoCompGrid) : BpoCompGrid :=
  mkGrid (g_CompIndex g) (g_ListingKey g) (g_SalePrice g) (g_SaleDate g) (g_Lines g) (g_NetAdjustment g)
    (g_GrossAdjustment g) (g_GrossAdjustmentPct g) (g_AdjustedPrice g) v.

Definition add_credits (renoTotal : float64) (r : bpoReconcileResult) : bpoReconcileResult :=
  if f_lt f_zero renoTotal then
    mkRecon (round2 (f_add (PointEstimate r) renoTotal)) (round2 (f_add (Low r) (f_mul renoTotal (lit "0.9"))))
      (round2 (f_add (High r) (f_mul renoTotal (lit "1.1")))) (Confidence r) (ConfidenceBand r) (ReconciliationSummary r)
  else r.

Definition runBPOMode (domainSlug : string) (feed : FeedDefinition) (req : RunRequest) (subject : SubjectProfile) (resp : RunResponse) : M World RunResponse :=
  let f := rq_Filters req in
  let bp := rq_BPOParams req in
  let max := default (default 8%Z (bp_MaxComps bp)) (fi_MaxSoldComps f) in
  let minReg := default 6%Z (bp_MinCompsForRegression bp) in
  let* sold := fetchSoldComps domainSlug feed subject (rq_Scope req) f max in
  let* now := get w_now in
  let resp := if (length sold <? 3)%nat then warn ["insufficient sold comps for BPO; using median PPSF fallback"] resp else resp in
  let sold := match bp_ExcludeOutlierZScore bp with
              | Some z => if f_lt f_zero z then filterOutlierZScore sold z else sold
              | None => sold
              end in
  let rates := extractMarketRates now sold minReg in
  let resp := warn (r_Warnings rates) resp in
  let '(sold, grids) := applyURARGrid now subject sold rates in
  let grids := zip_with (λ c g, set_weight (round2 (compReconcileWeight now subject c g)) g) sold grids in
  let recon := reconcileBPO now subject sold grids rates in
  let reno := renovationCredits now subject rates in
  let renoTotal := sumRenovationCredits reno in
  let recon := add_credits renoTotal recon in
  let resp := match bp_ConfidenceThreshold bp with
              | Some t => if f_lt (Confidence recon) t then warn ["BPO confidence below requested threshold"] resp else resp
              | None => resp
              end in
  ret (set_conditions (Some (marketConditions sold (monthsBackFilters f (bp_SoldMonthsBack bp))))
    (set_bpo (Some {| point_estimate := PointEstimate recon; range_low := Low recon; range_high := High recon;
         bpo_confidence := Confidence recon; confidence_band := ConfidenceBand recon; method := r_Method rates;
         reconciliation_summary := ReconciliationSummary recon; market_rates := rates; adjustment_grid := grids;
         renovation_credits := reno; renovation_credit_total := renoTotal; bpo_comp_count := Z.of_nat (length sold);
         grid_lines := Z.of_nat (length urarGridFeatures) |})
    (set_sold sold resp))).

Definition homeValueConfidence (n : nat) : float64 :=
  if (8 <=? n)%nat then f_of_Z 80 else if (5 <=? n)%nat then f_of_Z 65 else if (3 <=? n)%nat then f_of_Z 50 else f_of_Z 30.
Definition appraiserRisk (n : nat) : float64 :=
  if (6 <=? n)%nat then f_of_Z 25 else if (3 <=? n)%nat then f_of_Z 45 else f_of_Z 70.
Definition riskBand (n : nat) : string :=
  if (6 <=? n)%nat then "low" else if (3 <=? n)%nat then "moderate" else "high".

Definition with_months (o : option Z) (f : FiltersInput) : FiltersInput :=
  match o with
  | None => f
  | Some m => mkFilters (Some m) (fi_MaxSoldComps f) (fi_MaxCompetitionComps f) (fi_IncludeActivePending f)
    (fi_IncludeOverpriced f) (fi_LivingAreaPct f) (fi_BedsTolerance f) (fi_BathsTolerance f)
    (fi_YearBuiltTolerance f) (fi_LotSizePct f) (fi_MatchGarageSpaces f) (fi_MinGarageSpaces f)
    (fi_MaxGarageSpaces f) (fi_MatchView f) (fi_MatchSubdivision f) (fi_MatchMLSAreaMajor f)
    (fi_AdjPoolValue f) (fi_AdjGaragePerSpace f) (fi_AdjWaterfrontValue f) (fi_AdjYearBuiltPerYear
    f) (fi_AdjLotPerAcre f)
  end.

Definition runHomeValueMode (domainSlug : string) (feed : FeedDefinition) (req : RunRequest) (subject : SubjectProfile) (resp : RunResponse) : M World RunResponse :=
  let hv := rq_HomeValueParams req in
  let f := with_months (hv_SoldMonthsBack hv) (rq_Filters req) in
  let* sold := fetchSoldComps domainSlug feed subject (rq_Scope req) f (default 25%Z (hv_MaxComps hv)) in
  let* now := get w_now in
  let rates := extractMarketRates now sold 6 in
  let '(sold, grids) := applyURARGrid now subject sold rates in
  let recon := reconcileBPO now subject sold grids rates in
  let reno := renovationCredits now subject rates in
  let renoTotal := sumRenovationCredits reno in
  let est := f_add (PointEstimate recon) renoTotal in
  let '(est, low, high) :=
    if f_le est f_zero then
      let m := medianPrice sold in (m, round2 (f_mul m (lit "0.95")), round2 (f_mul m (lit "1.05")))
    else (est, f_add (Low recon) (f_mul renoTotal (lit "0.9")), f_add (High recon) (f_mul renoTotal (lit "1.1"))) in
  ret (set_conditions (Some (marketConditions sold (monthsBackFilters f (hv_SoldMonthsBack hv))))
    (set_home_value (Some {| estimate := round2 est; hv_low := round2 low; hv_high := round2 high;
         hv_confidence := f_max (homeValueConfidence (length sold)) (Confidence recon);
         comparable_count := Z.of_nat (length sold); condition_applied := negb (bool_decide (s_Condition subject = EmptyString));
         condition_rating := s_Condition subject; hv_market_rates := rates; hv_renovation_credits := reno;
         hv_renovation_credit_total := renoTotal; bpo_method := r_Method rates |})
    (set_sold sold resp))).

Definition runAppraiserSim (domainSlug : string) (feed : FeedDefinition) (req : RunRequest) (subject : SubjectProfile) (resp : RunResponse) : M World RunResponse :=
  let f := rq_Filters req in
  let* sales := fetchSoldComps domainSlug feed subject (rq_Scope req) f 12 in
  let sold := applyAdjustments subject sales f in
  let indicated := match sold with
                   | [] => medianPrice sold
                   | _ => round2 (f_div (f_sum ((λ c, num_else (c_AdjustedPrice c) (c_ClosePrice c)) <$> sold)) (f_len sold))
                   end in
  ret (set_simulation (Some (mkSimulation indicated (round2 (f_mul indicated (lit "0.97"))) (round2 (f_mul indicated (lit "1.03")))
        (appraiserRisk (length sold)) (riskBand (length sold)) (Z.of_nat (length sold)))) (set_sold sold resp)).

(** ** Sales modes and the dispatch ([engine.go], [service.go]) *)

(** The text of a property, as [string(c.Property)]. *)
Definition property_text (raw : RawMessage) : string :=
  match raw with RawText (Some v) => json_text v | _ => EmptyString end.

Definition scoreKeywords (comps : list CompRecord) (keywords : list string) : list CompRecord :=
  match keywords with
  | [] => comps
  | _ => (λ c,
      let text := ToLower (property_text (c_Property c)) in
      set_keywords (f_of_Z (Z.of_nat (length (filter (λ kw, bool_decide (kw ≠ EmptyString) && Contains text kw = true)
        ((λ kw, ToLower (TrimSpace kw)) <$> keywords))))) c) <$> comps
  end.

Definition runSalesModes (domainSlug : string) (feed : FeedDefinition) (req : RunRequest) (subject : SubjectProfile) (resp : RunResponse) : M World RunResponse :=
  let f := rq_Filters req in
  let* sales := attempt (fetchSoldComps domainSlug feed subject (rq_Scope req) f (default 12%Z (fi_MaxSoldComps f))) in
  let resp := match sales with Ok _ => resp | Err e => warn ["sold comps partial: " +:+ e] resp end in
  let sold := applyAdjustments subject (match sales with Ok l => l | Err _ => [] end) f in
  let resp := set_sold sold resp in
  let* resp :=
    (if EqualFold (rq_Mode req) "C" || default false (fi_IncludeActivePending f) then
       let* comp := attempt (findMirrorComps (fd_Dataset feed) subject ["active"; "pending"] (rq_Scope req) f
                      (default 20%Z (fi_MaxCompetitionComps f)) false) in
       ret (match comp with Ok l => set_competition l resp | Err e => warn [e] resp end)
     else ret resp) in
  let resp := set_conditions (Some (marketConditions sold (default 12%Z (fi_SoldMonthsBack f)))) resp in
  let resp := if default false (fi_IncludeOverpriced f)
              then set_overpriced (overpricedSignals (rs_CompetitionComps resp) sold) resp else resp in
  ret (if EqualFold (rq_Mode req) "D" || EqualFold (rq_Mode req) "E"
       then set_sold (scoreKeywords (rs_SoldComps resp) (rq_Keywords req)) resp else resp).

Definition validateRequest (req : RunRequest) : res unit :=
  let scope := rq_Scope req in
  if bool_decide (TrimSpace (rq_Mode req) = EmptyString) then Err "mode is required"
  else if bool_decide (TrimSpace (sc_Type scope) = EmptyString) then Err "scope.type is required"
  else if bool_decide (sc_Type scope = "radius") &&
          match sc_RadiusMiles scope with Some r => f_le r f_zero | None => true end
  then Err "scope.radius_miles is required for radius scope"
  else if bool_decide (sc_Type scope = "zip") && bool_decide (sc_PostalCodes scope = [])
  then Err "scope.postal_codes is required for zip scope"
  else Ok tt.

Definition emptyResponse (subject : SubjectProfile) (mode : string) (feed : FeedDefinition) : RunResponse :=
  mkResponse subject [] [] [] None mode (fd_Dataset feed) (fd_Code feed) (fd_Provider feed) [] [] None None None None None.

Definition salesModes : list string := ["a"; "b"; "c"; "d"; "e"].

Definition Run (domainSlug feedCode : string) (req : RunRequest) : M World RunResponse :=
  of_res (validateRequest req) ;;;
  let feed := FeedDefinitionFromCode cfg feedCode in
  let mode := ToLower (TrimSpace (rq_Mode req)) in
  let* subject := (if bool_decide (mode = "home_value") then resolveHomeValueSubject (fd_Dataset feed) (rq_Subject req)
                   else resolveSubject (fd_Dataset feed) (rq_Subject req)) in
  let resp := emptyResponse subject (rq_Mode req) feed in
  if bool_decide (mode ∈ salesModes) then runSalesModes domainSlug feed req subject resp
  else if bool_decide (mode = "rent_hold_cashflow") then runRentHold feed req subject resp
  else if bool_decide (mode = "flip_vs_hold") then runFlipVsHold domainSlug feed req subject resp
  else if bool_decide (mode = "appraiser_simulation") then runAppraiserSim domainSlug feed req subject resp
  else if bool_decide (mode = "bpo") then runBPOMode domainSlug feed req subject resp
  else if bool_decide (mode = "home_value") then runHomeValueMode domainSlug feed req subject resp
  else throw ("unsupported mode " +:+ Quote (rq_Mode req)).

Definition isValidationErr (msg : string) : bool :=
  Contains msg "required" || Contains msg "must be" || Contains msg "unsupported".

(** The reply of [Service.Run]: its status, and the response when it is 200. [body] is what
    fiber parses from the request. *)
Definition ServiceRun (scope : Scope) (body : option RunRequest) (w : World) : Z * option RunResponse * World :=
  match body with
  | None => (400, None, w)
  | Some req =>
      match Run (sl_DomainSlug scope) (sl_FeedCode scope) req w with
      | (Ok resp, w') =>
          let n := Z.of_nat (length (rs_SoldComps resp) + length (rs_CompetitionComps resp)) in
          (200, Some resp, (Log scope "comps.run" (Some n) None w').2)
      | (Err msg, w') => (if isValidationErr msg then 422 else 502, None, w')
      end
  end.
End Engine.

(** ** Which sales a request gets *)

Section Sales.
Context {F : Faults} {RO : RowOrder} {U : Upstream} {JT : GoJsonText} {SS : SortSlice} {GM : GoMath} {GD : GeoDistance} (cfg : Config).

(** A sale the request may compare with: not the subject, with a price, measured from the
    subject and not too far. *)
Definition comparable (subject : SubjectProfile) (scope : ScopeInput) (c : CompRecord) : Prop :=
  c_ListingKey c ≠ s_ListingKey subject ∧ f_le (c_ClosePrice c) f_zero = false ∧ too_far scope c = false ∧
  c_DistanceMiles c = haversineMiles (s_Lat subject) (s_Lng subject) (c_Lat c) (c_Lng c).

Lemma keep_sold_comparable subject scope place c c' :
  c_ListingKey (place c) = c_ListingKey c → c_ClosePrice (place c) = c_ClosePrice c →
  keep_sold subject scope place c = Some c' → comparable subject scope c'.
Proof.
  intros Hk Hp H. unfold keep_sold in H. case_bool_decide as H1; [done|]. destruct (f_le _ _) eqn:H2; [done|].
  cbv zeta in H. destruct (too_far _ _) eqn:H3; [done|]. injection H as <-. rewrite <- Hk in H1. rewrite <- Hp in H2.
  exact (conj H1 (conj H2 (conj H3 eq_refl))).
Qed.

Lemma sold_comparable values subject scope c : c ∈ parseSoldCompRecords values subject scope → comparable subject scope c.
Proof. intros (raw & _ & H)%list_elem_of_omap. by eapply keep_sold_comparable in H. Qed.

Lemma cached_comparable rows subject scope c : c ∈ compsFromCached rows subject scope → comparable subject scope c.
Proof.
  intros (row & _ & H)%list_elem_of_omap. cbv zeta in H.
  eapply keep_sold_comparable in H; [done|..]; unfold place_cached; by destruct (f_eq _ _ && f_eq _ _).
Qed.

Lemma cached_comps_sound domainSlug feed subject scope filters limit w out w' :
  cached_comps cfg domainSlug feed subject scope filters limit w = (Ok (Some out), w') →
  (length out <= Z.to_nat limit)%nat ∧ ∀ c, c ∈ out → comparable subject scope c.
Proof.
  unfold cached_comps. destruct (bool_decide _); [done|]. intros (now & w1 & _ & H)%bind_inv_ok.
  apply bind_inv_ok in H as (found & w2 & _ & H). destruct found as [cached|e]; [|done].
  cbv zeta in H. destruct (_ && _); [|done]. injection H as <- <-. split; [rewrite length_take; lia|].
  intros c Hc. eapply cached_comparable, subseteq_take, Hc.
Qed.

(** C31 Every sold comparable of a request, whether it came from the closed cache or from the
    live feed, is another listing than the subject, has a price, lies within 1.15 times the
    radius unless the scope is by postal code, and carries its distance from the subject. *)
Theorem sold_comps_comparable domainSlug feed subject scope filters limit w sold w' :
  fetchSoldComps cfg domainSlug feed subject scope filters limit w = (Ok sold, w') →
  ∀ c, c ∈ sold → comparable subject scope c.
Proof.
  unfold fetchSoldComps. cbv zeta. intros (cached & w1 & H1 & H)%bind_inv_ok. destruct cached as [out|].
  - injection H as <- <-. by apply cached_comps_sound in H1 as [_ H1].
  - apply bind_inv_ok in H as ([l raw] & w2 & H2 & H). apply bind_inv_ok in H as (u & w3 & _ & H).
    injection H as <- <-. unfold fetchSoldCompsLive in H2. apply bind_inv_ok in H2 as (now & w4 & _ & H2).
    cbv zeta in H2. apply bind_inv_ok in H2 as (values & w5 & _ & H2). injection H2 as <- _ _.
    apply sold_comparable.
Qed.

(** ** Which listings of the mirror a request gets *)

(** The comparables a request takes from the mirror are the newest of the listings of its
    dataset that have one of the statuses, lie in its scope, are not the subject, are leases
    exactly when rentals are asked for, and pass its filters: they come newest first, no more
    than the limit, and none that matches is missing unless the limit is reached. *)
Theorem mirror_comps_newest dataset subject statuses scope filters limit rentalOnly w comps w' :
  (0 < limit)%Z → findMirrorComps dataset subject statuses scope filters limit rentalOnly w = (Ok comps, w') →
  ∃ rows, Forall2 (λ row c, comp_of_row subject row = Ok c) rows comps ∧ StronglySorted newer rows ∧
    (Z.of_nat (length rows) <= limit)%Z ∧
    (∀ row, row ∈ rows → ∃ k, w_listings w !! k = Some row ∧
       mirror_matches dataset subject statuses scope filters rentalOnly k row = true) ∧
    (∀ k row, w_listings w !! k = Some row →
       mirror_matches dataset subject statuses scope filters rentalOnly k row = true →
       row ∈ rows ∨ (Z.of_nat (length rows) = limit ∧ ∀ r, r ∈ rows → newer r row)).
Proof.
  intros Hl H. unfold findMirrorComps in H. cbv zeta in H. apply bind_inv_ok in H as (rows & w1 & H1 & H2).
  rewrite (proj2 (Z.leb_gt _ _) Hl) in H1. unfold stmt in H1. destruct (fault _); [done|]. destruct (negb _); [done|]. injection H1 as <- <-.
  set (l0 := omap _ _) in H2. set (l := merge_sort newer (row_order _ l0)) in H2. exists (take (Z.to_nat limit) l).
  assert (l ≡ₚ l0) as Hp by (unfold l; by rewrite merge_sort_Permutation, row_order_perm).
  assert (StronglySorted newer l) as Hs by (apply Sorted_StronglySorted; [apply _|]; apply Sorted_merge_sort; apply _).
  assert (∀ row, row ∈ l ↔ ∃ k, w_listings w !! k = Some row ∧
    mirror_matches dataset subject statuses scope filters rentalOnly k row = true) as Hin.
  { intros row. rewrite Hp. unfold l0. rewrite list_elem_of_omap. split.
    - intros ([k r] & Hk%elem_of_map_to_list & Hm). cbn [fst snd] in Hm. destruct (mirror_matches _ _ _ _ _ _ _ _) eqn:E; [|done].
      injection Hm as <-. eauto.
    - intros (k & Hk & Hm). exists (k, row). rewrite elem_of_map_to_list. cbn [fst snd]. by rewrite Hm. }
  split_and!.
  - unfold of_res in H2. destruct (all_ok _) as [l2|] eqn:E; [|done]. injection H2 as <- <-.
    by apply all_ok_Forall2, Forall2_fmap_l in E.
  - rewrite <- (take_drop (Z.to_nat limit) l) in Hs. by apply StronglySorted_app in Hs as (_ & Hs & _).
  - rewrite length_take. lia.
  - intros row Hr. apply Hin. by eapply subseteq_take.
  - intros k row Hk Hm. assert (row ∈ l) as Hr by (apply Hin; eauto).
    rewrite <- (take_drop (Z.to_nat limit) l) in Hr, Hs. apply elem_of_app in Hr as [Hr|Hr]; [by left|right].
    apply StronglySorted_app in Hs as (Hs & _). split; [|intros r Hr'; by apply Hs].
    apply list_elem_of_lookup in Hr as [i Hi%lookup_lt_Some]. rewrite length_drop in Hi. rewrite length_take. lia.
Qed.

(** ** Requests that are refused *)

Lemma validation_messages req e : validateRequest req = Err e → isValidationErr e = true.
Proof.
  unfold validateRequest. cbv zeta.
  repeat (destruct (bool_decide _); simpl; try (intros [= <-]; reflexivity));
    repeat (case_match; try (intros [= <-]; reflexivity)); try done.
Qed.

Lemma home_value_needs_subject dataset inp w :
  TrimSpace (i_ListingID inp) = EmptyString → TrimSpace (default EmptyString (i_Address inp)) = EmptyString → i_Lat inp = None →
  resolveHomeValueSubject cfg dataset inp w = (Err "home_value requires listing_id or address with geocodable details", w).
Proof. intros H1 H2 H3. unfold resolveHomeValueSubject. by rewrite H1, H2, H3. Qed.

Definition modes : list string := (salesModes ++ ["rent_hold_cashflow"; "flip_vs_hold"; "appraiser_simulation"; "bpo"; "home_value"])%list.

(** A request the validation refuses is answered 422 without touching the database or any
    server; a request whose mode is unknown never gets a response; and a home value request
    without a listing, an address or coordinates is answered 502, as if a server had failed,
    because its message is not recognised as a validation error. *)
Theorem invalid_request_rejected scope req w :
  (∀ e, validateRequest req = Err e → ServiceRun cfg scope (Some req) w = (422, None, w)) ∧
  (ToLower (TrimSpace (rq_Mode req)) ∉ modes → (ServiceRun cfg scope (Some req) w).1.2 = None) ∧
  (validateRequest req = Ok tt → ToLower (TrimSpace (rq_Mode req)) = "home_value" →
   TrimSpace (i_ListingID (rq_Subject req)) = EmptyString →
   TrimSpace (default EmptyString (i_Address (rq_Subject req))) = EmptyString → i_Lat (rq_Subject req) = None →
   ServiceRun cfg scope (Some req) w = (502, None, w)).
Proof.
  split_and!.
  - intros e He. unfold ServiceRun, Run. rewrite He. cbn [of_res]. unfold bind, throw.
    by rewrite (validation_messages _ _ He).
  - unfold modes, salesModes. rewrite elem_of_app, !elem_of_cons. intros Hm. unfold ServiceRun.
    destruct (Run _ _ _ _ _) as [[resp|e] w'] eqn:E; [|done]. exfalso. unfold Run in E.
    apply bind_inv_ok in E as ([] & w1 & _ & E). cbv zeta in E. apply bind_inv_ok in E as (sub & w2 & _ & E).
    unfold salesModes in E.
    repeat (case_bool_decide as Hx; [exfalso; apply Hm; rewrite ?elem_of_cons in Hx; tauto|clear Hx]). discriminate E.
  - intros Hv Hm H1 H2 H3. unfold ServiceRun, Run. rewrite Hv, Hm. cbn [of_res]. unfold bind at 1, ret. cbv zeta.
    rewrite bool_decide_eq_true_2 by done. unfold bind. by rewrite home_value_needs_subject.
Qed.
End Sales.

(** ** Concrete runs *)

Section Samples.
#[local] Existing Instance never_fails.
#[local] Existing Instance insertionSort.
#[local] Instance listOrder : RowOrder.
Proof. by refine {| row_order := λ A l, l |}. Defined.
#[local] Instance flatMath : GoMath := {| f_sin := λ x, x; f_cos := λ _, f_of_Z 1; f_atan2 := λ x _, x; f_pow := λ x _, x |}.
#[local] Instance everywhere : GeoDistance := λ _ _ _, true.
#[local] Instance noText : GoJsonText := λ _, EmptyString.

Definition closedSale (key : string) (price : Z) (lat lng : float64) : json :=
  JObj (<["ListingKey" := JStr key]> (<["ClosePrice" := JNum (NInt price)]>
    (<["Latitude" := JNum (NFlt lat)]> {["Longitude" := JNum (NFlt lng)]}))).

(** A feed with a sale by the subject, one far away and one without a price. *)
#[local] Instance salesFeed : Upstream := λ _ _ _, HttpReply 200 EmptyString
  (Some (JObj {["value" := JArr [closedSale "near" 300000 (lit "27.9") (lit "-82.5");
                                 closedSale "far" 300000 (lit "29.9") (lit "-84.5");
                                 closedSale "free" 0 (lit "27.9") (lit "-82.5")]]})).

Definition bridgeConfig : Config := Eval vm_compute in Load (λ k, if bool_decide (k = "BRIDGE_API_KEY") then "key" else EmptyString).
Definition stellarFeed : FeedDefinition := mkFeed "bridge_stellar" "bridge" "stellar".
Definition fiveMiles : ScopeInput := mkScopeInput "radius" (Some (f_of_Z 5)) [].
Definition liveSales := fetchSoldComps bridgeConfig EmptyString stellarFeed sampleSubject fiveMiles noFilters 12 (empty_world sampleNow).

Example live_sales_kept :
  match liveSales.1 with Ok l => c_ListingKey <$> l | Err e => [e] end = ["near"].
Proof. vm_compute. reflexivity. Qed.

Lemma sold_comps_comparable_witness :
  ∃ sold w', liveSales = (Ok sold, w') ∧ length sold = 1%nat ∧ ∀ c, c ∈ sold → comparable sampleSubject fiveMiles c.
Proof.
  assert (match liveSales.1 with Ok l => length l | Err _ => 0%nat end = 1%nat) as Hl by (vm_compute; reflexivity).
  destruct liveSales as [[sold|e] w'] eqn:E; [|discriminate Hl]. exists sold, w'. split; [reflexivity|]. split; [exact Hl|].
  exact (sold_comps_comparable bridgeConfig EmptyString stellarFeed sampleSubject fiveMiles noFilters 12 _ sold w' E).
Defined.

Definition listed (key status : string) (modified : Z) : listing_row :=
  mkListingRow 1 (mkListing "stellar" key None (Some status) (Some (f_of_Z 300000)) None None None None None None None None
    None None (Some "Residential") None None None (Some modified) None None None false None None None None None None None
    None None None None None None None None None RawNil (RawText (Some (JObj ∅))) emptyPayload RawNil None None None None)
    (Some (lit "-82.5", lit "27.9")) None None RawNil None false 0 0 0.

Definition mirrorWorld : World := set_listings
  (<[("stellar", "a") := listed "a" "Active" 10]> (<[("stellar", "b") := listed "b" "Pending" 20]>
    {[("stellar", "c") := listed "c" "Closed" 30]})) (empty_world sampleNow).
Definition competition := findMirrorComps "stellar" sampleSubject ["active"; "pending"] fiveMiles noFilters 20 false mirrorWorld.

Lemma mirror_comps_newest_witness :
  ∃ comps w', competition = (Ok comps, w') ∧ (c_ListingKey <$> comps) = ["b"; "a"] ∧
    ∃ rows, Forall2 (λ row c, comp_of_row sampleSubject row = Ok c) rows comps ∧ StronglySorted newer rows.
Proof.
  assert (match competition.1 with Ok l => c_ListingKey <$> l | Err _ => [] end = ["b"; "a"]) as Hl by (vm_compute; reflexivity).
  destruct competition as [[comps|e] w'] eqn:E; [|discriminate Hl]. exists comps, w'. split; [reflexivity|]. split; [exact Hl|].
  destruct (mirror_comps_newest "stellar" sampleSubject ["active"; "pending"] fiveMiles noFilters 20 false mirrorWorld comps w' eq_refl E)
    as (rows & H1 & H2 & _). exists rows. exact (conj H1 H2).
Defined.

Definition askNothing (mode : string) : RunRequest :=
  mkRunRequest (mkSubjectInput EmptyString EmptyString None None None None None None None None None None None None None None
    None None None None None None None) mode (mkScopeInput "zip" None ["33602"]) noFilters [] EmptyString RawNil RawNil RawNil
    (mkBPOParams None None None None None) (mkHomeValueParams None None).

Definition anonymous : Scope := mkScopeLocals EmptyString "bridge_stellar" None None None true EmptyString.

Lemma invalid_request_rejected_witness :
  ServiceRun bridgeConfig anonymous (Some (askNothing "  ")) (empty_world 0) = (422, None, empty_world 0) ∧
  ServiceRun bridgeConfig anonymous (Some (askNothing "home_value")) (empty_world 0) = (502, None, empty_world 0).
Proof.
  split.
  - apply (invalid_request_rejected bridgeConfig anonymous (askNothing "  ") (empty_world 0)) with (e := "mode is required").
    vm_compute. reflexivity.
  - apply (invalid_request_rejected bridgeConfig anonymous (askNothing "home_value") (empty_world 0));
      vm_compute; reflexivity.
Defined.

(** What is reported as the median rent is the mean. *)
Example median_rent_is_mean :
  monthly_rent_median (rental_result ∅ sampleSubject [sale "a" 1000 0 0 0 0 0; sale "b" 1100 0 0 0 0 0; sale "c" 6000 0 0 0 0 0]) =
  f_of_Z 2700.
Proof. vm_compute. reflexivity. Qed.
End Samples.
